(* ===== verification/_CoqProject ===== *)
-Q . S2P
Prelude.v
GoString.v
GoPath.v
Float64.v
Digest.v
Json.v
Decimal.v
Netip.v
NetipText.v
Model.v
Policy.v
PolicyProps.v
Identity.v
Config.v
Session.v
SessionInv.v
SessionAcct.v
SessionConn.v
SessionProps.v
SessionUpdate.v
SessionLease.v
NetAddress.v
WireAddress.v
SessionControl.v
Links.v
LinkWorld.v
Xudp.v
MuxFrame.v
MuxMonitor.v
MuxSafe.v
MuxWriter.v
UdpPackets.v
Outbox.v
OutboxProps.v
BatchText.v
OutboxSafe.v
Base64.v
Database.v
DatabaseProps.v
X25519.v
Xray.v
Engine.v
EngineUsers.v
EngineTraffic.v
EngineSafe.v
ClientAuth.v
DrainSteps.v
ApplySteps.v
ConfigLoad.v
DatabaseOpen.v
Lifecycle.v
Ledger.v
LedgerState.v
LedgerProps.v
Flags.v
CommandLine.v
FaultProxy.v
