(* ===== verification/Prelude.v ===== *)
(** * Vlesshappy: a verification library

    The program serves VLESS/REALITY proxy users that a web panel manages. One process
    runs a data plane (the vendored Xray core), asks the panel's MySQL database who
    may use it, decides which sessions may exist, counts traffic, and writes the counts
    back. Its promises are about authorization (nobody stays connected whom the panel
    does not allow) and about accounting (no byte is lost or billed twice, whatever fails).

    ** Parts of the program, and the files that model them

    - [internal/policy/policy.go]: rule texts of the panel. [Policy] has the parsers and the
      checks, over [Netip] (the package net/netip) with its text forms in [NetipText].
    - [internal/model/model.go]: nodes, users, snapshots. [Model] has the records and the lookup
      by id, [Identity] the UUIDs and [Finalize] (canonical order and hash).
    - [internal/config/config.go]: [Config] has the record, defaults, validation and durations;
      [ConfigLoad] has the reading of the file ([Load], [rejectDuplicateKeys]) and [ReadSecret].
    - [internal/session/registry.go]: the registry that admits and revokes sessions. [Session] has
      its state ([Registry], [Lease]) and all operations, one function per critical section;
      [Open] is split at its lock into [openLookup], [authorizeTarget] and [openCommit].
    - [internal/accounting/outbox.go]: [Outbox] has batches and the directory that keeps them until
      the panel has them; [BatchText] has their JSON text and digest.
    - [internal/database/mysql.go]: [Database] has the tables ([Panel]), the statements and the
      transactions; [DatabaseOpen] has the connection and its TLS settings.
    - [internal/xrayadapter/engine.go]: [Engine] has the configuration text, [Start], the switching
      of users with its rollback ([Apply]), [Drain], [RestoreEntries] (Restore) and
      [CloseAndDrain]. [DrainSteps] and [ApplySteps] take [Drain] and [Apply] apart into the
      actions between which sessions and traffic go on. [Xray] has what it calls of the vendored core: the user table, the
      parsing of UUIDs and the counters.
    - [internal/lifecycle/run.go]: [Lifecycle] ties all of them together: [bootstrap], the loop
      of [Run], [report], [refresh], [reload], [shutdown], and [ValidateService] (Validate).
    - [cmd/vlesshappy/main.go]: [CommandLine].
    - [cmd/vlesshappy-mysql-faultproxy/main.go]: [FaultProxy], the process with its loop of
      Accept, and a connection as two interleaved goroutines over a shared state.
    - The hooks that the repository patches into the vendored Xray core, with what they meet
      there. [NetAddress] has the addresses of [common/net] and their reading from the wire
      ([common/protocol]), [WireAddress] their writing. [SessionControl] has the registration of the controller
      ([common/sessioncontrol]) and the opening of controlled sessions by the dispatcher
      ([app/dispatcher/sessioncontrol.go], [default.go]). [Links] has the readers and writers
      of a session, their interrupts and their waiting; [LinkWorld] puts links and registry
      together. [Xudp] has the sessions of [common/mux], the table of retained UDP flows and
      their migration; [MuxFrame] the text of the frames and the worker that reads a
      connection to its end, [MuxMonitor] the closing of idle connections, [MuxSafe] the states that all connections together reach,
      [MuxWriter] what a session writes; [UdpPackets] says where a datagram goes ([proxy/freedom]). [ClientAuth]
      has the VLESS inbound ([proxy/vless]) from the request header to the session or the Mux
      connection, against the table of users that the engine keeps.

    The packages of the Go library that these use are definitions too: [GoString] (strings,
    strconv), [GoPath] (path/filepath), [Float64] and [Decimal] (float64 and its texts), [Json],
    [Base64], [Digest] (SHA-256, SHA-1, MD5), [X25519] and [Flags] (flag). They are executable, and examples
    in each file compare them with known values.

    ** How the parts interact

    A tick of the report timer drains the counters of the engine into entries, saves them as
    a batch in the outbox, applies every batch of the outbox to the panel and removes its
    file, and writes telemetry. A tick of the refresh timer loads a snapshot; if its hash is
    new the engine switches users in place when the data-plane fields of the node are the
    same, and restarts the data plane otherwise. The registry runs inside the data plane and
    shares the snapshot in force: the dispatcher asks it for every connection
    ([openControlledSession] calls [Open]), dials the address that it checked, binds an
    interrupt to the lease and makes every buffer wait for the lease; an update or a
    revocation marks leases and owes their interrupts, which run after the lock of the
    registry is released. The state of the whole is [runtimeState], which holds the panel
    behind the connection and the directory behind the store; [Plane] has a registry with
    the links and the interrupts that are owed, [MuxState] one with the UDP flows.

    ** Conventions

    A Go call that returns an error or panics has an [outcome]. An int64 is a [Z] with its
    wrap-around written out ([wrap64]), a uint64 with [wrapu64]; a float64 is a [spec_float].
    Maps are [gmap]s; where Go ranges over a map in random order the model sorts, as the code
    does afterwards, or proves that the order is immaterial. Everything outside the process
    (system calls, statements, clocks, random bytes) enters through a record of outcomes, so a
    theorem quantifies over all of its failures. The one interface between components is
    [BatchCodec] with its laws [LawfulCodec]: the outbox, the ledger and the service are proved
    against it, and [BatchText] discharges it for the JSON encoding. The rate limiter of
    golang.org/x/time/rate and the MySQL driver's names and PEM handling are parameters.

    ** What is proved

    - Sessions ([SessionInv], [SessionAcct], [SessionConn], [SessionProps], [SessionUpdate],
      [SessionLease]): over all reachable states a live session is authorized by the snapshot
      in force, the counters are the counts of the sessions, and the limits hold; updates keep
      exactly the oldest sources; closing undoes opening; the limiters are shared. [reachable]
      takes the set of the users for whom Rebind may be called on a closed lease: that damages
      the source counters of those users and no other part of the registry, so the theorems on
      sources are about the other users, and all else holds of everyone
      ([moved_lease_evades_the_limit] shows that the condition is needed).
    - Rules ([PolicyProps]) and canonical snapshots ([Identity]): checking a compiled rule is
      membership in what its text denotes, but for two exceptions that the theorem names (short
      IPv4-mapped prefixes, and addresses with a zone); equal hashes for equal content.
    - Outbox ([OutboxProps], [OutboxSafe]): under every fault and crash a batch is whole or absent
      as the result of [Save] says, and listed with its contents afterwards.
    - Panel ([DatabaseProps]): a batch is credited whole or not at all, and its credit is written
      once in any history of attempts ([history]); every eligible user is loaded or named in a
      warning. Every UNIX_TIMESTAMP() of a transaction reads the clock for itself.
    - Engine ([EngineUsers], [EngineTraffic], [EngineSafe]): [Apply] installs the users of the new
      snapshot or restores the old table exactly; a drain takes all that the counters of the
      tracked users hold. [stray] is what lies in the counters of other users.
      [DrainSteps]: the drain as a machine of atomic actions, which implements [Drain] and
      takes no byte twice while sessions and traffic interleave with it. Links count with or
      without a lease ([interference]), so bytes can go astray in two ways, which the theorems
      account for exactly: traffic of a user whom no drain visits any more, and the window in
      which a drain forgets a user. [history] has the engine's whole life, with such drains.
      [ApplySteps]: the switch of users as a machine of atomic actions. Run alone it is
      [Apply] ([run_apply_is_Apply], with the number of actions that are left as measure);
      with others in between it takes effect at one moment ([linearized]), so the
      theorems on [Apply] as one step carry over; on the way the table admits users of the
      old and the new snapshot only, and everyone whose UUID stays; a session that is
      opened late with the old UUID escapes the revocation.
    - Data plane ([ClientAuth], [SessionControl], [Links], [LinkWorld], [Xudp], [UdpPackets]): a
      session belongs to the user whose UUID opened it, through all switches of users; what a
      controlled session dials is permitted, whatever the client wrote; a revocation gets to
      every link that Dispatch built and whose lease is still held (the end of a context closes
      the lease of a flow that goes on), and to none that DispatchLink built; nothing is
      forwarded that the limiters did not grant; a UDP flow that migrates keeps one session
      or ends. Frames ([MuxFrame], [MuxMonitor], [MuxSafe], [MuxWriter]): what is written is read back, no
      input of a client makes the worker of a connection panic or stall, a connection that is
      idle for a whole interval ends and a busy one stays, and a payload arrives whole. The theorems on direct links, on retained flows, on the targets of later
      datagrams and on Mux connections after a rotation of the UUID state where the promises of the documentation do not hold.
    - Service ([Ledger], [LedgerState], [LedgerProps]): the ledger (bandwidth in the panel,
      batches that wait, counters that a drain takes) grows by exactly the traffic, from
      [bootstrap] to [shutdown], less what goes astray, what a restart of the data plane that
      cannot save its traffic loses, exactly then, and what the last save of a shutdown could
      not publish; an authorization never outlives its maximum age.
    - Configuration ([ConfigLoad]), keys ([CommandLine]), connections ([DatabaseOpen],
      [FaultProxy]): files read back, generated keys are accepted, the connection is as secure as
      configured, and the response to a COMMIT is dropped under every interleaving.

    ** Fuel

    Fuel is always a bound that the function computes itself, never an argument of the model:
    the length of the text for the readers, trimmers and splitters, the number of digits for
    the printers, the number of arguments for the flags, the burst for [wait_loop], the bytes
    and buffers of a payload for the Mux writer, the bytes of a connection for its worker
    ([serve_fed]). Every round consumes at least a byte, a buffer, a digit, an argument or a
    portion. The round-trip theorems
    ([NetipText], [Json], [Decimal], [GoString]) show that the bounds suffice for every value
    they print, and the theorem on [wait] that it paces every byte.

    ** What is not modelled

    - The protocols and the transport of the Xray core; its construction enters as its users,
      its counters and its errors. Third-party code. Of the dispatcher, the parts that sniff
      are left out, because the generated configuration does not enable sniffing; of [common/mux],
      the allocation of sessions by a client, the contents of the pipes, and the inbound that
      a frame of a reverse proxy carries.
      [handleNewFrame] (handleStatusNew) is one step of [MuxState], although it takes the
      lock of the table several times: two frames of one flow on two connections do not
      interleave inside it. A write to the connection of a client does not fail. A reader or writer is modelled by its layers, because an
      interrupt depends on nothing else, and the buffers that a connection delivers enter as a
      list. Reverse proxies need an account that the panel cannot create.
    - The MySQL protocol and server: a statement is a function on tables, and the data source
      name of the driver is a parameter. Ping and Close only call the driver.
    - [Apply] and [Drain] are one step each in [Lifecycle], the ledger and [ClientAuth]; the
      files [ApplySteps] and [DrainSteps], which take them apart, say what changes. The two
      interleave with sessions and traffic, but not with each other: both hold the mutex of
      the engine. The order in which Go ranges over the maps of users in Apply does not
      matter, because both lists are sorted.
      Counters stay below [2 ^ 63]: the steps that count traffic say so.
    - Log lines, except which rejections are new and when the outbox warning is due; signals,
      which are the end of the list of ticks.
    - The files of the panel overlay, migrations and scripts: not Go.

    This file holds what all of them share: outcomes, machine integers, counts and sums over
    maps, and the automation. *)

From Stdlib Require Export ZArith Lia Bool Ascii.
From stdpp Require Export base tactics numbers sorting gmap strings option list.

Open Scope Z_scope.

(** ** Outcomes of Go calls

    A Go function that returns [(T, error)] and may also panic is modelled by a
    function into [outcome E T]: [Ok] carries the value returned with a nil
    error, [Err] the error value, [Panic] a run-time panic (the process dies). *)
Inductive outcome (E T : Type) : Type :=
| Ok (value : T)
| Err (error : E)
| Panic.
Arguments Ok {E T} value.
Arguments Err {E T} error.
Arguments Panic {E T}.

Definition obind {E T U} (c : outcome E T) (k : T → outcome E U) : outcome E U :=
  match c with
  | Ok x => k x
  | Err e => Err e
  | Panic => Panic
  end.

Definition is_ok {E T} (c : outcome E T) : bool :=
  match c with Ok _ => true | _ => false end.

(** [guard_err b e] is the Go idiom [if b { return e }]. *)
Definition guard_err {E} (b : bool) (e : E) : outcome E unit :=
  if b then Err e else Ok tt.

Declare Scope go_scope.
Delimit Scope go_scope with go.
Notation "'let?' x := c 'in' k" := (obind c (fun x => k))
  (at level 10, x pattern, c at level 100, k at level 200) : go_scope.
Notation "c ';?' k" := (obind c (fun _ => k))
  (at level 100, k at level 200, right associativity) : go_scope.
Open Scope go_scope.

Lemma obind_Ok_inv {E T U} (c : outcome E T) (k : T → outcome E U) y :
  obind c k = Ok y → ∃ x, c = Ok x ∧ k x = Ok y.
Proof. destruct c; simpl; [eauto|done|done]. Qed.

Lemma guard_err_Ok_inv {E} b (e : E) : guard_err b e = Ok tt ↔ b = false.
Proof. destruct b; simpl; split; congruence. Qed.

Lemma guard_bind_Ok_inv {E T} b (e : E) (k : outcome E T) y :
  (guard_err b e ;? k) = Ok y ↔ b = false ∧ k = Ok y.
Proof. destruct b; simpl; split; [done|by intros []|done|by intros []]. Qed.

Lemma guard_no_panic {E} b (e : E) : guard_err b e ≠ Panic.
Proof. by destruct b. Qed.

Lemma obind_no_panic {E T U} (c : outcome E T) (k : T → outcome E U) :
  c ≠ Panic → (∀ x, k x ≠ Panic) → obind c k ≠ Panic.
Proof. destruct c; simpl; auto. Qed.

(** [no_panic] reduces "a chain of guards and binds does not panic" to its calls. *)
Ltac no_panic :=
  repeat first [ apply guard_no_panic | apply obind_no_panic; [|intros] | discriminate | case_match ].

(** ** Machine integers

    Go's [int64] and [int] (64 bits on the supported targets) and [uint64] are
    integers of [Z] with their wrap-around written out. *)
Definition max_int64 : Z := 2 ^ 63 - 1.
Definition min_int64 : Z := - 2 ^ 63.
Definition wrap64 (z : Z) : Z := (z + 2 ^ 63) mod 2 ^ 64 - 2 ^ 63.
Definition wrapu64 (z : Z) : Z := z mod 2 ^ 64.
Definition is_int64 (z : Z) : bool := (min_int64 <=? z) && (z <=? max_int64).

#[global] Arguments wrap64 : simpl never.
#[global] Arguments wrapu64 : simpl never.

Lemma wrap64_id z : is_int64 z = true → wrap64 z = z.
Proof.
  unfold is_int64, wrap64, min_int64, max_int64. intros [H1 H2]%andb_prop.
  rewrite Z.mod_small; lia.
Qed.

Lemma wrap64_range z : is_int64 (wrap64 z) = true.
Proof.
  unfold is_int64, wrap64, min_int64, max_int64.
  pose proof (Z.mod_pos_bound (z + 2 ^ 63) (2 ^ 64) ltac:(lia)). lia.
Qed.

Lemma wrapu64_id z : 0 ≤ z < 2 ^ 64 → wrapu64 z = z.
Proof. apply Z.mod_small. Qed.

(** ** Maps with a Go zero value

    Reading a missing key of a Go map yields the zero value of the element
    type; for counters that is 0. *)
Definition mget `{Countable K} (m : gmap K Z) (k : K) : Z := default 0 (m !! k).

Section mget.
Context `{Countable K}.
  Implicit Types m : gmap K Z.

Lemma mget_insert m k j n : mget (<[k:=n]> m) j = if decide (k = j) then n else mget m j.
  Proof. unfold mget. rewrite lookup_insert. by case_decide. Qed.
Lemma mget_delete m k j : mget (delete k m) j = if decide (k = j) then 0 else mget m j.
  Proof. unfold mget. rewrite lookup_delete. by case_decide. Qed.
Lemma mget_empty k : mget (∅ : gmap K Z) k = 0.
  Proof. unfold mget. by rewrite lookup_empty. Qed.
End mget.

(** ** Counting the values of a map that satisfy a test *)
Definition b2z (b : bool) : Z := if b then 1 else 0.

Definition mcount `{Countable K} {V} (f : V → bool) (m : gmap K V) : Z :=
  map_fold (λ _ x n, b2z (f x) + n) 0 m.

Section mcount.
Context `{Countable K} {V : Type}.
  Implicit Types (f : V → bool) (m : gmap K V).

Lemma mcount_empty f : mcount f (∅ : gmap K V) = 0.
  Proof. apply map_fold_empty. Qed.

Lemma mcount_insert f m k x :
    m !! k = None → mcount f (<[k:=x]> m) = b2z (f x) + mcount f m.
  Proof.
    intros Hk. unfold mcount. rewrite map_fold_insert_L; [done| |done].
    intros; lia.
  Qed.

Lemma mcount_delete f m k x :
    m !! k = Some x → mcount f m = b2z (f x) + mcount f (delete k m).
  Proof.
    intros Hk. rewrite <- (mcount_insert f (delete k m) k x).
    - by rewrite insert_delete_id.
    - apply lookup_delete_eq.
  Qed.

Lemma mcount_update f m k x y :
    m !! k = Some x → mcount f (<[k:=y]> m) = mcount f m - b2z (f x) + b2z (f y).
  Proof.
    intros Hk. rewrite (mcount_delete f m k x) by done.
    rewrite <- (insert_delete_eq m k y), mcount_insert; [lia|apply lookup_delete_eq].
  Qed.

Lemma mcount_nonneg f m : 0 ≤ mcount f m.
  Proof.
    unfold mcount. apply (map_fold_weak_ind (λ n _, 0 ≤ n)); [lia|].
    intros ? x ? ? _. unfold b2z. destruct (f x); lia.
  Qed.

Lemma mcount_pos f m k x : m !! k = Some x → f x = true → 0 < mcount f m.
  Proof.
    intros Hk Hf. rewrite (mcount_delete f m k x Hk), Hf.
    pose proof (mcount_nonneg f (delete k m)). simpl. lia.
  Qed.

Lemma mcount_zero f m : (∀ k x, m !! k = Some x → f x = false) → mcount f m = 0.
  Proof.
    intros Hm. induction m as [|k x m Hk IH] using map_ind.
    - apply mcount_empty.
    - rewrite mcount_insert by done. rewrite IH.
      + rewrite (Hm k x); [done|apply lookup_insert_eq].
      + intros k' x' Hk'. apply (Hm k'). rewrite lookup_insert_ne; [done|congruence].
  Qed.

Lemma mcount_pos_inv f m : 0 < mcount f m → ∃ k x, m !! k = Some x ∧ f x = true.
  Proof.
    induction m as [|k x m Hk IH] using map_ind.
    - rewrite mcount_empty. lia.
    - rewrite mcount_insert by done. destruct (f x) eqn:Hf.
      + intros _. exists k, x. by rewrite lookup_insert_eq.
      + intros (k' & x' & Hk' & Hf')%IH. exists k', x'.
        rewrite lookup_insert_ne; [done|congruence].
  Qed.

Lemma mcount_le f g m : (∀ x, f x = true → g x = true) → mcount f m ≤ mcount g m.
  Proof.
    intros Hfg. induction m as [|k x m Hk IH] using map_ind.
    - by rewrite !mcount_empty.
    - rewrite !mcount_insert by done. specialize (Hfg x). unfold b2z.
      destruct (f x), (g x); lia.
  Qed.

Lemma mcount_fmap f (h : V → V) m :
    (∀ x, f (h x) = f x) → mcount f (h <$> m) = mcount f m.
  Proof.
    intros Hf. induction m as [|k x m Hk IH] using map_ind.
    - by rewrite fmap_empty.
    - rewrite fmap_insert, !mcount_insert by (done || by rewrite lookup_fmap, Hk).
      by rewrite Hf, IH.
  Qed.
End mcount.

(** ** Changing one value of a map *)
Lemma alter_insert `{Countable K} {V} (f : V → V) k (m : gmap K V) x : m !! k = Some x → alter f k m = <[k := f x]> m.
Proof.
  intros Hx. apply map_eq. intros j. rewrite lookup_insert, lookup_alter.
  destruct (decide (k = j)) as [->|]; [by rewrite Hx|done].
Qed.

(** ** Adding up what the entries of a map are worth *)
Definition msum `{Countable K} {V} (f : K → V → Z) (m : gmap K V) : Z := map_fold (λ k x n, f k x + n) 0 m.

Section msum.
Context `{Countable K} {V : Type}.
  Implicit Types (f : K → V → Z) (m : gmap K V).

Lemma msum_empty f : msum f (∅ : gmap K V) = 0.
  Proof. apply map_fold_empty. Qed.

Lemma msum_insert f m k x : m !! k = None → msum f (<[k:=x]> m) = f k x + msum f m.
  Proof.
    intros Hk. unfold msum. rewrite map_fold_insert_L; [done| |done]. intros; lia.
  Qed.

Lemma msum_delete f m k x : m !! k = Some x → msum f m = f k x + msum f (delete k m).
  Proof.
    intros Hk. rewrite <- (msum_insert f (delete k m) k x).
    - by rewrite insert_delete_id.
    - apply lookup_delete_eq.
  Qed.

Lemma msum_update f m k x y : m !! k = Some x → msum f (<[k:=y]> m) = msum f m - f k x + f k y.
  Proof.
    intros Hk. rewrite (msum_delete f m k x) by done.
    rewrite <- (insert_delete_eq m k y), msum_insert; [lia|apply lookup_delete_eq].
  Qed.

Lemma msum_ext f g m : (∀ k x, m !! k = Some x → f k x = g k x) → msum f m = msum g m.
  Proof.
    intros Hm. induction m as [|k x m Hk IH] using map_ind; [by rewrite !msum_empty|].
    rewrite !msum_insert by done. rewrite IH.
    - by rewrite (Hm k x) by apply lookup_insert_eq.
    - intros j y Hj. apply (Hm j). rewrite lookup_insert_ne; [done|congruence].
  Qed.

Lemma msum_zero f m : (∀ k x, m !! k = Some x → f k x = 0) → msum f m = 0.
  Proof.
    intros Hm. rewrite (msum_ext f (λ _ _, 0) m) by done. clear Hm.
    induction m as [|k x m Hk IH] using map_ind; [apply msum_empty|]. by rewrite msum_insert.
  Qed.

(** a sum changes by what changes at one key *)
Lemma msum_change f g m k x : m !! k = Some x → (∀ j y, j ≠ k → m !! j = Some y → f j y = g j y) →
    msum f m = msum g m - g k x + f k x.
  Proof.
    intros Hk Hm. rewrite (msum_delete f m k x), (msum_delete g m k x) by done.
    rewrite (msum_ext f g (delete k m)); [lia|].
    intros j y [Hne Hj]%lookup_delete_Some. eauto.
  Qed.

Lemma msum_nonneg f m : (∀ k x, m !! k = Some x → 0 ≤ f k x) → 0 ≤ msum f m.
  Proof.
    induction m as [|k x m Hk IH] using map_ind; intros Hm; [by rewrite msum_empty|].
    rewrite msum_insert by done. pose proof (Hm k x (lookup_insert_eq _ _ _)).
    assert (0 ≤ msum f m); [|lia]. apply IH. intros j y Hj. apply Hm. by rewrite lookup_insert_ne by congruence.
  Qed.

Lemma msum_at f m k : msum f m = default 0 (f k <$> m !! k) + msum f (delete k m).
  Proof.
    destruct (m !! k) as [x|] eqn:Hk; simpl; [by apply msum_delete|]. by rewrite delete_id.
  Qed.

(** a sum is monotone in what each key is worth; an absent key is worth nothing *)
Lemma msum_mono f g m m' :
    (∀ k, default 0 (f k <$> m !! k) ≤ default 0 (g k <$> m' !! k)) → msum f m ≤ msum g m'.
  Proof.
    revert m'. induction m as [|k x m Hk IH] using map_ind; intros m' Hm.
    - rewrite msum_empty. apply msum_nonneg. intros k x Hx. specialize (Hm k).
      by rewrite lookup_empty, Hx in Hm.
    - rewrite msum_insert, (msum_at g m' k) by done. pose proof (Hm k) as Hx. rewrite lookup_insert_eq in Hx.
      assert (msum f m ≤ msum g (delete k m')); [|simpl in Hx; lia].
      apply IH. intros j. specialize (Hm j). rewrite lookup_delete. case_decide as Hj.
      + subst j. by rewrite Hk.
      + by rewrite lookup_insert_ne in Hm.
  Qed.
End msum.

(** ** Automation shared by the components *)
Create HintDb go.
Create Rewrite HintDb go.
#[export] Hint Rewrite @mget_insert @mget_delete @mget_empty : go.
#[export] Hint Resolve mcount_nonneg : go.

(** [conjs] proves the easy conjuncts at the front of a conjunction. *)
Ltac conjs := repeat match goal with |- _ ∧ _ => split; [solve [done | lia]|] end.

(** [split_guards] turns the hypotheses that a chain of guards and binds
    succeeded into one hypothesis per guard. *)
Ltac split_guards :=
  repeat match goal with
  | H : (guard_err _ _ ;? _) = Ok _ |- _ => apply guard_bind_Ok_inv in H as [? H]
  | H : obind _ _ = Ok _ |- _ => apply obind_Ok_inv in H as (? & ? & H)
  end.
