(* ===== verification/GoString.v ===== *)
(** Go strings: the functions of the packages [strings] and [strconv] that the
    program calls, over byte strings, with the decimal round trip.

    A Go string is a sequence of bytes; [string] of the Standard Library is
    the same sequence ([ascii] is a byte). *)
From S2P Require Import Prelude.

Local Open Scope string_scope.
Local Open Scope Z_scope.

Definition code (c : ascii) : Z := Z.of_N (N_of_ascii c).
Definition slen (s : string) : Z := Z.of_nat (String.length s).
Definition char_in (c : ascii) (cutset : string) : bool :=
  existsb (Ascii.eqb c) (String.list_ascii_of_string cutset).

(** ** Package strings *)
Fixpoint has_prefix (s prefix : string) : bool :=
  match prefix, s with
  | EmptyString, _ => true
  | String _ _, EmptyString => false
  | String p prefix, String c s => Ascii.eqb p c && has_prefix s prefix
  end.

Fixpoint drop_chars (n : nat) (s : string) : string :=
  match n, s with
  | O, _ => s
  | S _, EmptyString => EmptyString
  | S n, String _ s => drop_chars n s
  end.

(** strings.TrimPrefix *)
Definition trim_prefix (s prefix : string) : string :=
  if has_prefix s prefix then drop_chars (String.length prefix) s else s.

Definition has_suffix (s suffix : string) : bool :=
  has_prefix (String.rev s) (String.rev suffix).

(** strings.Trim with an ASCII cutset *)
Fixpoint trim_left (cut : ascii → bool) (s : string) : string :=
  match s with
  | EmptyString => EmptyString
  | String c s' => if cut c then trim_left cut s' else s
  end.
Definition trim_right (cut : ascii → bool) (s : string) : string :=
  String.rev (trim_left cut (String.rev s)).
Definition trim_func (cut : ascii → bool) (s : string) : string :=
  trim_right cut (trim_left cut s).
Definition trim (s cutset : string) : string := trim_func (λ c, char_in c cutset) s.

(** strings.IndexByte and LastIndexByte *)
Fixpoint index_of (c : ascii) (s : string) : option nat :=
  match s with
  | EmptyString => None
  | String d s => if Ascii.eqb d c then Some O else S <$> index_of c s
  end.
Fixpoint take_chars (n : nat) (s : string) : string :=
  match n, s with
  | S n, String c s => String c (take_chars n s)
  | _, _ => EmptyString
  end.

Fixpoint last_index_of (c : ascii) (s : string) : option nat :=
  match s with
  | EmptyString => None
  | String d rest =>
      match last_index_of c rest with
      | Some i => Some (S i)
      | None => if Ascii.eqb d c then Some O else None
      end
  end.

(** strings.ToLower on ASCII text *)
Definition lower (c : ascii) : ascii :=
  if (65 <=? code c) && (code c <=? 90) then ascii_of_N (Z.to_N (code c + 32)) else c.
Fixpoint to_lower (s : string) : string :=
  match s with EmptyString => EmptyString | String c s => String (lower c) (to_lower s) end.

(** strings.Join *)
Definition join (sep : string) (l : list string) : string := String.concat sep l.

(** strings.Split on a one-byte separator: never empty *)
Fixpoint split_on (sep : ascii) (s : string) : list string :=
  match s with
  | EmptyString => [EmptyString]
  | String c s' =>
      if Ascii.eqb c sep then EmptyString :: split_on sep s'
      else match split_on sep s' with
           | [] => [String c EmptyString]
           | w :: ws => String c w :: ws
           end
  end.

(** strings.FieldsFunc for a predicate on ASCII characters (a rune outside
    ASCII has no ASCII byte in its encoding, so bytes and runes agree) *)
Fixpoint fields_aux (sep : ascii → bool) (s : string) : string * list string :=
  match s with
  | EmptyString => (EmptyString, [])
  | String c s' =>
      let '(w, ws) := fields_aux sep s' in
      if sep c then (EmptyString, match w with EmptyString => ws | _ => w :: ws end)
      else (String c w, ws)
  end.
Definition fields_func (sep : ascii → bool) (s : string) : list string :=
  let '(w, ws) := fields_aux sep s in
  match w with EmptyString => ws | _ => w :: ws end.

(** strings.TrimSpace: the ASCII spaces, and the encodings of the characters
    with Unicode's White_Space property *)
Definition ascii_space (c : ascii) : bool :=
  let n := code c in ((9 <=? n) && (n <=? 13)) || (n =? 32).
Definition byte (n : nat) : ascii := ascii_of_nat n.
Definition bytes (l : list nat) : string := fold_right (λ n s, String (byte n) s) EmptyString l.
Definition unicode_spaces : list string :=
  map bytes ([[194; 133]; [194; 160]; [225; 154; 128]; [226; 128; 168]; [226; 128; 169];
              [226; 128; 175]; [226; 129; 159]; [227; 128; 128]]%nat ++
             map (λ n, [226; 128; 128 + n]%nat) (seq 0 11)).
Definition space_prefix (spaces : list string) (s : string) : option nat :=
  match s with
  | EmptyString => None
  | String c _ =>
      if ascii_space c then Some 1%nat
      else String.length <$> List.find (has_prefix s) spaces
  end.
Fixpoint trim_space_left (fuel : nat) (spaces : list string) (s : string) : string :=
  match fuel, space_prefix spaces s with
  | S fuel, Some n => trim_space_left fuel spaces (drop_chars n s)
  | _, _ => s
  end.
(** each round removes at least one byte, so the length is enough fuel *)
Definition trim_space (s : string) : string :=
  let s := trim_space_left (String.length s) unicode_spaces s in
  String.rev (trim_space_left (String.length s) (map String.rev unicode_spaces) (String.rev s)).

(** ** Package strconv, base 10 *)
Definition is_digit (c : ascii) : bool := (48 <=? code c) && (code c <=? 57).

Fixpoint parse_digits (acc : Z) (s : string) : option Z :=
  match s with
  | EmptyString => Some acc
  | String c s => if is_digit c then parse_digits (acc * 10 + (code c - 48)) s else None
  end.

Definition parse_unsigned (s : string) : option Z :=
  match s with EmptyString => None | _ => parse_digits 0 s end.

(** strconv.ParseInt(s, 10, 64), and strconv.Atoi on a 64-bit target: an
    optional sign, at least one digit, and a value that fits *)
Definition parse_int (s : string) : option Z :=
  match s with
  | EmptyString => None
  | String c rest =>
      let magnitude :=
        if Ascii.eqb c "-" then Z.opp <$> parse_unsigned rest
        else if Ascii.eqb c "+" then parse_unsigned rest
        else parse_unsigned s in
      z ← magnitude; if is_int64 z then Some z else None
  end.

(** the digits at the front of a text, and the rest *)
Fixpoint span_digits (s : string) : string * string :=
  match s with
  | String c rest =>
      if is_digit c then let '(ds, r) := span_digits rest in (String c ds, r) else (EmptyString, s)
  | EmptyString => (EmptyString, s)
  end.

Fixpoint zeros (n : nat) : string := match n with O => EmptyString | S n => String "0" (zeros n) end.

Definition digit_char (d : Z) : ascii := ascii_of_N (Z.to_N (48 + d)).

Fixpoint format_aux (fuel : nat) (n : Z) (acc : string) : string :=
  match fuel with
  | O => acc
  | S fuel =>
      let acc := String (digit_char (n mod 10)) acc in
      if n <? 10 then acc else format_aux fuel (n / 10) acc
  end.
(** a natural number has at most [log2 n + 1] decimal digits *)
Definition format_nat (n : Z) : string :=
  format_aux (S (Z.to_nat (Z.log2 n))) n EmptyString.

(** strconv.FormatInt(z, 10), strconv.Itoa and the verb %d *)
Definition format_int (z : Z) : string :=
  if z <? 0 then String "-" (format_nat (- z)) else format_nat z.

(** ** Round trips *)
Lemma string_app_assoc (s t u : string) : ((s +:+ t) +:+ u) = (s +:+ (t +:+ u)).
Proof. induction s as [|c s IH]; [done|]. unfold String.app in *. simpl. by f_equal. Qed.

Lemma string_app_nil_r (s : string) : s +:+ EmptyString = s.
Proof. induction s as [|c s IH]; [done|]. unfold String.app in *. simpl. by f_equal. Qed.

Lemma drop_chars_app s t : drop_chars (String.length s) (s +:+ t) = t.
Proof. induction s; done. Qed.

Lemma has_prefix_app s t : has_prefix (s +:+ t) s = true.
Proof.
  induction s as [|c s IH]; [by destruct t|].
  change (has_prefix (String c s +:+ t) (String c s))
    with (Ascii.eqb c c && has_prefix (s +:+ t) s).
  by rewrite Ascii.eqb_refl, IH.
Qed.

Lemma has_prefix_inv s p : has_prefix s p = true → s = p +:+ drop_chars (String.length p) s.
Proof.
  revert s. induction p as [|c p IH]; intros s H; [by destruct s|].
  destruct s as [|d s]; [done|]. simpl in H.
  apply andb_prop in H as [->%Ascii.eqb_eq H].
  change (String d s = String d (p +:+ drop_chars (String.length p) s)).
  by rewrite <- IH.
Qed.

Lemma trim_prefix_app p s : trim_prefix (p +:+ s) p = s.
Proof. unfold trim_prefix. by rewrite has_prefix_app, drop_chars_app. Qed.

Lemma code_digit_char d : 0 ≤ d < 10 → code (digit_char d) = 48 + d.
Proof.
  intros Hd. unfold code, digit_char. rewrite N_ascii_embedding; lia.
Qed.

Lemma is_digit_digit_char d : 0 ≤ d < 10 → is_digit (digit_char d) = true.
Proof. intros Hd. unfold is_digit. rewrite code_digit_char by done. lia. Qed.

(** [format_aux] writes the digits of [n] in front of [acc], so parsing it from
    any accumulator shifts that accumulator and adds [n]. *)
Lemma parse_format_aux fuel n :
  0 ≤ n < 2 ^ Z.of_nat fuel →
  ∃ k, ∀ a acc, parse_digits a (format_aux fuel n acc) = parse_digits (a * k + n) acc.
Proof.
  revert n. induction fuel as [|fuel IH]; intros n Hn.
  { exists 1. intros a acc. simpl. f_equal. simpl in Hn. lia. }
  pose proof (Z.mod_pos_bound n 10 ltac:(lia)) as Hmod.
  assert (Hstep : ∀ a acc, parse_digits a (String (digit_char (n mod 10)) acc)
                           = parse_digits (a * 10 + n mod 10) acc).
  { intros a acc. simpl. rewrite is_digit_digit_char, code_digit_char by done. f_equal. lia. }
  simpl. destruct (Z.ltb_spec n 10) as [Hlt|Hge].
  - exists 10. intros a acc. rewrite Hstep. by rewrite (Z.mod_small n 10) by lia.
  - destruct (IH (n / 10)) as [k Hk].
    { rewrite Nat2Z.inj_succ, Z.pow_succ_r in Hn by lia.
      split; [apply Z.div_pos; lia|]. apply Z.div_lt_upper_bound; lia. }
    exists (k * 10). intros a acc. rewrite Hk, Hstep. f_equal.
    pose proof (Z.div_mod n 10 ltac:(lia)). lia.
Qed.

Lemma format_nat_fuel n : 0 ≤ n → n < 2 ^ Z.of_nat (S (Z.to_nat (Z.log2 n))).
Proof.
  intros Hn. rewrite Nat2Z.inj_succ, Z2Nat.id by apply Z.log2_nonneg.
  destruct (Z.eq_dec n 0) as [->|]; [done|]. apply Z.log2_spec. lia.
Qed.

Lemma parse_format_nat n a :
  0 ≤ n → ∃ k, parse_digits a (format_nat n) = Some (a * k + n).
Proof.
  intros Hn. destruct (parse_format_aux _ n (conj Hn (format_nat_fuel n Hn))) as [k Hk].
  exists k. unfold format_nat. by rewrite Hk.
Qed.

Lemma format_aux_cons fuel n acc :
  0 ≤ n → ∃ d s, 0 ≤ d < 10 ∧ format_aux (S fuel) n acc = String (digit_char d) s.
Proof.
  revert n acc. induction fuel as [|fuel IH]; intros n acc Hn.
  - exists (n mod 10), acc. split; [apply Z.mod_pos_bound; lia|]. simpl. by destruct (n <? 10).
  - change (format_aux (S (S fuel)) n acc) with
      (if n <? 10 then String (digit_char (n mod 10)) acc
       else format_aux (S fuel) (n / 10) (String (digit_char (n mod 10)) acc)).
    destruct (n <? 10); [|apply IH, Z.div_pos; lia].
    exists (n mod 10), acc. split; [apply Z.mod_pos_bound; lia|done].
Qed.

Lemma parse_unsigned_format_nat n : 0 ≤ n → parse_unsigned (format_nat n) = Some n.
Proof.
  intros Hn. destruct (parse_format_nat n 0 Hn) as [k Hk].
  destruct (format_aux_cons (Z.to_nat (Z.log2 n)) n EmptyString Hn) as (d & s & _ & Hs).
  unfold format_nat in *. rewrite Hs in *. unfold parse_unsigned. by rewrite Hk.
Qed.

Lemma digit_char_sign d : 0 ≤ d < 10 →
  Ascii.eqb (digit_char d) "-" = false ∧ Ascii.eqb (digit_char d) "+" = false.
Proof.
  intros Hd. split; apply Ascii.eqb_neq; intros E%(f_equal code);
    rewrite code_digit_char in E by done.
  - change (48 + d = 45) in E. lia.
  - change (48 + d = 43) in E. lia.
Qed.

(** strconv: formatting an int64 and parsing it back gives it back *)
Lemma parse_format_int z : is_int64 z = true → parse_int (format_int z) = Some z.
Proof.
  intros Hz. unfold format_int. destruct (Z.ltb_spec z 0) as [Hneg|Hpos].
  - simpl. rewrite parse_unsigned_format_nat by lia. simpl.
    by rewrite Z.opp_involutive, Hz.
  - pose proof (parse_unsigned_format_nat z Hpos) as Hp.
    destruct (format_aux_cons (Z.to_nat (Z.log2 z)) z EmptyString Hpos) as (d & s & Hd & Hs).
    unfold format_nat in *. rewrite Hs in *. unfold parse_int.
    destruct (digit_char_sign d Hd) as [-> ->]. rewrite Hp. simpl. by rewrite Hz.
Qed.

Lemma parse_int_range s z : parse_int s = Some z → is_int64 z = true.
Proof.
  destruct s as [|c rest]; [done|]. unfold parse_int. cbv zeta.
  set (m := if Ascii.eqb c "-" then _ else _). destruct m as [n|]; simpl; [|done].
  destruct (is_int64 n) eqn:E; [by intros [= <-]|done].
Qed.

Lemma format_int_inj y z :
  is_int64 y = true → is_int64 z = true → format_int y = format_int z → y = z.
Proof. intros Hy Hz E. apply parse_format_int in Hy, Hz. congruence. Qed.

(** ** Characters of a text *)
Fixpoint string_all (f : ascii → bool) (s : string) : bool :=
  match s with EmptyString => true | String c s => f c && string_all f s end.

Lemma string_all_app f s t : string_all f (s +:+ t) = string_all f s && string_all f t.
Proof. induction s as [|c s IH]; simpl; [done|]. by rewrite IH, andb_assoc. Qed.

Lemma string_all_weaken (f g : ascii → bool) s :
  (∀ c, f c = true → g c = true) → string_all f s = true → string_all g s = true.
Proof. intros H. induction s as [|c s IH]; simpl; [done|]. rewrite !andb_true_iff. intros [? ?]. auto. Qed.

Lemma rev_app_app s t u : String.rev_app (s +:+ t) u = String.rev_app t (String.rev_app s u).
Proof.
  revert u. induction s as [|c s IH]; intros u; [done|].
  change (String c s +:+ t) with (String c (s +:+ t)). apply IH.
Qed.

Lemma string_all_rev f s : string_all f (String.rev s) = string_all f s.
Proof.
  unfold String.rev. assert (H : ∀ t, string_all f (String.rev_app s t) = string_all f s && string_all f t); [|by rewrite H, andb_true_r].
  induction s as [|c s IH]; intros t; [done|]. cbn [String.rev_app string_all]. rewrite IH. cbn [string_all].
  destruct (f c); [done|]. by rewrite andb_false_r.
Qed.

Lemma rev_app_rev_app s t u : String.rev_app (String.rev_app s t) u = String.rev_app t (s +:+ u).
Proof.
  revert t. induction s as [|c s IH]; intros t; [done|]. change (String c s +:+ u) with (String c (s +:+ u)).
  cbn [String.rev_app]. by rewrite IH.
Qed.
Lemma string_rev_involutive s : String.rev (String.rev s) = s.
Proof. unfold String.rev. rewrite rev_app_rev_app. cbn [String.rev_app]. apply string_app_nil_r. Qed.

(** strings.Trim leaves a text without characters of the cutset alone, and
    removes exactly one pair of brackets around such a text. *)
Lemma trim_left_all cut s : string_all (λ c, negb (cut c)) s = true → trim_left cut s = s.
Proof. destruct s as [|c s]; [done|]. simpl. intros [Hc _]%andb_true_iff. by apply negb_true_iff in Hc as ->. Qed.

Lemma trim_func_none cut s : string_all (λ c, negb (cut c)) s = true → trim_func cut s = s.
Proof.
  intros H. unfold trim_func, trim_right. rewrite (trim_left_all cut s H).
  rewrite trim_left_all by (by rewrite string_all_rev). apply string_rev_involutive.
Qed.

Lemma trim_bracketed s : string_all (λ c, negb (char_in c "[]")) s = true →
  trim (String "[" (s +:+ "]")) "[]" = s.
Proof.
  intros H. unfold trim, trim_func. cbn [trim_left]. change (char_in "[" "[]") with true. cbv iota.
  assert (E : trim_left (λ c, char_in c "[]") (s +:+ "]") = s +:+ "]" ∨ s = EmptyString).
  { destruct s as [|c s]; [by right|left]. simpl in *. apply andb_true_iff in H as [Hc _].
    by apply negb_true_iff in Hc as ->. }
  destruct E as [-> | ->]; [|reflexivity]. unfold trim_right.
  assert (String.rev (s +:+ "]") = String "]" (String.rev s)) as ->.
  { unfold String.rev. rewrite rev_app_app. reflexivity. }
  cbn [trim_left]. change (char_in "]" "[]") with true. cbv iota.
  rewrite trim_left_all by (by rewrite string_all_rev). apply string_rev_involutive.
Qed.

(** strings.TrimSpace leaves a text of graphic ASCII characters alone. *)
Definition graphic (c : ascii) : bool := (33 <=? code c) && (code c <=? 126).

Lemma graphic_no_space c s : graphic c = true →
  space_prefix unicode_spaces (String c s) = None ∧ space_prefix (map String.rev unicode_spaces) (String c s) = None.
Proof. destruct c as [[] [] [] [] [] [] [] []]; intros Hc; first [discriminate Hc | split; reflexivity]. Qed.

Lemma trim_space_left_graphic fuel s spaces : spaces = unicode_spaces ∨ spaces = map String.rev unicode_spaces →
  string_all graphic s = true → trim_space_left fuel spaces s = s.
Proof.
  intros Hsp Hs. destruct fuel as [|fuel]; [done|]. destruct s as [|c s]; [done|].
  cbn [string_all] in Hs. apply andb_prop in Hs as [Hc _]. destruct (graphic_no_space c s Hc) as [E1 E2].
  cbn [trim_space_left]. by destruct Hsp as [-> | ->]; rewrite ?E1, ?E2.
Qed.

Lemma trim_space_graphic s : string_all graphic s = true → trim_space s = s.
Proof.
  intros Hs. unfold trim_space. rewrite (trim_space_left_graphic _ s _ (or_introl eq_refl) Hs).
  rewrite trim_space_left_graphic; [apply string_rev_involutive|by right|by rewrite string_all_rev].
Qed.

Lemma format_aux_digits fuel n acc :
  0 ≤ n → string_all is_digit acc = true → string_all is_digit (format_aux fuel n acc) = true.
Proof.
  revert n acc. induction fuel as [|fuel IH]; intros n acc Hn Hacc; simpl; [done|].
  assert (Hd : string_all is_digit (String (digit_char (n mod 10)) acc) = true).
  { simpl. rewrite is_digit_digit_char by (by apply Z.mod_pos_bound). done. }
  case_match; [done|]. apply IH; [|done]. by apply Z.div_pos.
Qed.

Lemma format_int_digits n : 0 ≤ n → string_all is_digit (format_int n) = true.
Proof.
  intros Hn. unfold format_int. rewrite (proj2 (Z.ltb_ge n 0)) by done. by apply format_aux_digits.
Qed.

(** ** Splitting *)
Lemma split_on_single sep s w : split_on sep s = [w] → w = s.
Proof.
  revert w. induction s as [|c s IH]; intros w; simpl; [by intros [= <-]|].
  destruct (Ascii.eqb c sep).
  - intros H. destruct (split_on sep s) eqn:E; [|done]. destruct s; simpl in E; [done|]. by repeat case_match.
  - destruct (split_on sep s) as [|u us] eqn:E; [destruct s; simpl in E; [done|by repeat case_match]|].
    intros [= <- ->]. f_equal. by apply IH.
Qed.

Lemma split_on_none sep s : string_all (λ c, negb (Ascii.eqb c sep)) s = true → split_on sep s = [s].
Proof.
  induction s as [|c s IH]; simpl; [done|]. intros [Hc Hs]%andb_true_iff.
  apply negb_true_iff in Hc. by rewrite Hc, (IH Hs).
Qed.

Lemma split_on_app sep s t : string_all (λ c, negb (Ascii.eqb c sep)) s = true →
  split_on sep (s +:+ String sep t) = s :: split_on sep t.
Proof.
  induction s as [|c s IH].
  - intros _. simpl. by rewrite Ascii.eqb_refl.
  - change (String c s +:+ ?u) with (String c (s +:+ u)). cbn [string_all split_on].
    intros [Hc Hs]%andb_true_iff. apply negb_true_iff in Hc. by rewrite Hc, (IH Hs).
Qed.

(** ** Positions *)
Lemma string_all_no_index c s :
  string_all (λ d, negb (Ascii.eqb d c)) s = true → index_of c s = None.
Proof.
  induction s as [|d s IH]; simpl; [done|]. rewrite andb_true_iff, negb_true_iff.
  intros [-> H]. by rewrite (IH H).
Qed.

Lemma last_index_app c s t :
  string_all (λ d, negb (Ascii.eqb d c)) t = true →
  last_index_of c (s +:+ String c t) = Some (String.length s).
Proof.
  intros Ht. induction s as [|d s IH].
  - simpl. assert (last_index_of c t = None) as ->; [|by rewrite Ascii.eqb_refl].
    clear -Ht. induction t as [|d t IH]; simpl in *; [done|].
    apply andb_true_iff in Ht as [Hd Ht%IH]. apply negb_true_iff in Hd. by rewrite Ht, Hd.
  - simpl in *. by rewrite IH.
Qed.

Lemma take_chars_app s t : take_chars (String.length s) (s +:+ t) = s.
Proof. induction s as [|c s IH]; simpl; [by destruct t|]. by rewrite IH. Qed.

(** ** Digits *)
Definition starts_digit (s : string) : bool :=
  match s with String c _ => is_digit c | EmptyString => false end.

Lemma span_digits_app ds rest : string_all is_digit ds = true → starts_digit rest = false →
  span_digits (ds +:+ rest) = (ds, rest).
Proof.
  intros Hds Hr. induction ds as [|c ds IH].
  - destruct rest as [|c rest]; [done|]. simpl in *. by rewrite Hr.
  - cbn [string_all] in Hds. apply andb_true_iff in Hds as [Hc Hds].
    change (String c ds +:+ rest) with (String c (ds +:+ rest)). cbn [span_digits].
    by rewrite Hc, IH.
Qed.

Lemma parse_digits_app a s t : parse_digits a (s +:+ t) = b ← parse_digits a s; parse_digits b t.
Proof.
  revert a. induction s as [|c s IH]; intros a; [done|].
  change (String c s +:+ t) with (String c (s +:+ t)). cbn [parse_digits]. case_match; [by rewrite IH|done].
Qed.

Lemma parse_digits_zeros a n : parse_digits a (zeros n) = Some (a * 10 ^ Z.of_nat n).
Proof.
  revert a. induction n as [|n IH]; intros a; [simpl; f_equal; lia|].
  change (parse_digits a (zeros (S n))) with (parse_digits (a * 10 + 0) (zeros n)). rewrite IH. f_equal.
  rewrite Nat2Z.inj_succ, Z.pow_succ_r by lia. lia.
Qed.

Lemma zeros_digits n : string_all is_digit (zeros n) = true.
Proof. by induction n. Qed.

Lemma zeros_length n : String.length (zeros n) = n.
Proof. induction n; simpl; congruence. Qed.

(** no digit string of a positive number starts with a zero *)
Lemma format_aux_head fuel n acc : 0 < n < 2 ^ Z.of_nat fuel →
  ∃ d s, 0 < d < 10 ∧ format_aux fuel n acc = String (digit_char d) s.
Proof.
  revert n acc. induction fuel as [|fuel IH]; intros n acc Hn; [simpl in Hn; lia|]. cbn [format_aux].
  destruct (Z.ltb_spec n 10).
  - exists n, acc. rewrite Z.mod_small by lia. split; [lia|done].
  - apply IH. rewrite Nat2Z.inj_succ, Z.pow_succ_r in Hn by lia.
    split; [apply Z.div_str_pos; lia|apply Z.div_lt_upper_bound; lia].
Qed.

Lemma format_int_head n : 0 < n → ∃ d s, 0 < d < 10 ∧ format_int n = String (digit_char d) s.
Proof.
  intros Hn. unfold format_int. rewrite (proj2 (Z.ltb_ge n 0)) by lia.
  apply format_aux_head. split; [done|]. apply format_nat_fuel. lia.
Qed.

Lemma parse_digits_format_int n : 0 ≤ n → parse_digits 0 (format_int n) = Some n.
Proof.
  intros Hn. unfold format_int. rewrite (proj2 (Z.ltb_ge n 0)) by done.
  pose proof (parse_unsigned_format_nat n Hn) as Hp. unfold parse_unsigned in Hp. by destruct (format_nat n).
Qed.

Lemma parse_unsigned_digits s : s ≠ EmptyString → parse_unsigned s = parse_digits 0 s.
Proof. by destruct s. Qed.

Lemma string_length_app s t : String.length (s +:+ t) = (String.length s + String.length t)%nat.
Proof. induction s as [|c s IH]; [done|]. change (String c s +:+ t) with (String c (s +:+ t)). simpl. by rewrite IH. Qed.

Lemma take_drop_chars n s : take_chars n s +:+ drop_chars n s = s.
Proof.
  revert s. induction n as [|n IH]; intros s; [by destruct s|]. destruct s as [|c s]; [done|].
  cbn [take_chars drop_chars]. change (String c ?u +:+ ?t) with (String c (u +:+ t)). by rewrite IH.
Qed.

Lemma take_chars_length_le n s : (n ≤ String.length s)%nat → String.length (take_chars n s) = n.
Proof.
  revert s. induction n as [|n IH]; intros s Hn; [by destruct s|]. destruct s as [|c s]; simpl in *; [lia|].
  by rewrite IH by lia.
Qed.

Lemma drop_chars_length n s : String.length (drop_chars n s) = (String.length s - n)%nat.
Proof. revert s. induction n as [|n IH]; intros s; [simpl; lia|]. destruct s as [|c s]; [done|]. apply IH. Qed.

(** ** Case *)
Definition not_upper (c : ascii) : bool := negb ((65 <=? code c) && (code c <=? 90)).

Lemma to_lower_id s : string_all not_upper s = true → to_lower s = s.
Proof.
  induction s as [|c s IH]; [done|]. cbn [string_all to_lower]. unfold not_upper at 1, lower.
  rewrite andb_true_iff, negb_true_iff. intros [-> Hs]. by rewrite IH.
Qed.

Lemma digit_not_upper c : is_digit c = true → not_upper c = true.
Proof. unfold is_digit, not_upper. intros Hc. apply negb_true_iff. lia. Qed.

Lemma format_int_not_upper z : string_all not_upper (format_int z) = true.
Proof.
  assert (Hpos : ∀ n, 0 ≤ n → string_all not_upper (format_int n) = true).
  { intros n Hn. eapply string_all_weaken; [apply digit_not_upper|by apply format_int_digits]. }
  destruct (Z.ltb_spec z 0) as [Hz|Hz]; [|by apply Hpos].
  specialize (Hpos (- z) ltac:(lia)). revert Hpos. unfold format_int.
  by rewrite (proj2 (Z.ltb_lt z 0)), (proj2 (Z.ltb_ge (- z) 0)) by lia.
Qed.

(** a text splits in one way only before the first character that fails a test *)
Lemma string_split_unique (p : ascii → bool) c d (s t u v : string) :
  string_all p s = true → string_all p t = true → p c = false → p d = false →
  s +:+ String c u = t +:+ String d v → s = t ∧ String c u = String d v.
Proof.
  intros Hs Ht Hc Hd. revert t Ht. induction s as [|a s IH]; intros [|b t] Ht.
  - done.
  - intros [= -> _]. cbn [string_all] in Ht. apply andb_prop in Ht as [Hb _]. congruence.
  - intros [= -> _]. cbn [string_all] in Hs. apply andb_prop in Hs as [Ha _]. congruence.
  - change (String ?a ?s +:+ ?w) with (String a (s +:+ w)). intros [= -> E].
    cbn [string_all] in Hs, Ht. apply andb_prop in Hs as [_ Hs], Ht as [_ Ht].
    destruct (IH Hs t Ht E) as [-> E']. done.
Qed.

Lemma string_app_inj_l (s t u : string) : s +:+ t = s +:+ u → t = u.
Proof.
  induction s as [|c s IH]; [done|]. change (String c s +:+ ?w) with (String c (s +:+ w)). intros [= E]. by apply IH.
Qed.
