(* ===== verification/GoPath.v ===== *)
(** Package [path/filepath] on Unix, the part the outbox uses: lexical cleaning
    of a path, its directory, and joining. *)
From S2P Require Import Prelude GoString.

Local Open Scope string_scope.

(** one component of a path onto the stack of those before it *)
Definition clean_step (rooted : bool) (stack : list string) (comp : string) : list string :=
  if String.eqb comp EmptyString || String.eqb comp "." then stack
  else if String.eqb comp ".." then
    match stack with
    | top :: rest => if String.eqb top ".." then comp :: stack else rest
    | [] => if rooted then [] else [comp]
    end
  else comp :: stack.

Definition Clean (path : string) : string :=
  let rooted := has_prefix path "/" in
  let body := join "/" (reverse (fold_left (clean_step rooted) (split_on "/" path) [])) in
  if rooted then "/" +:+ body
  else match body with EmptyString => "." | _ => body end.

(** Dir: the path up to its last slash, cleaned *)
Definition Dir (path : string) : string :=
  match last_index_of "/" path with
  | Some i => Clean (take_chars (S i) path)
  | None => "."
  end.
(** Base of a path without a trailing slash *)
Definition Base (path : string) : string :=
  match last_index_of "/" path with Some i => drop_chars (S i) path | None => path end.
(** Join of two non-empty elements *)
Definition Join (dir name : string) : string := Clean (dir +:+ "/" +:+ name).

Example clean_ex : map Clean ["/a/./b//c/"; "/a/../../b"; "../a/.."; "a/.."; "/"; EmptyString]
  = ["/a/b/c"; "/b"; ".."; "."; "/"; "."].
Proof. vm_compute. reflexivity. Qed.
Example dir_ex : map Dir ["/a/b.json"; "/a/b/"; "x"; "/x"] = ["/a"; "/a/b"; "."; "/"].
Proof. vm_compute. reflexivity. Qed.

(** ** Absolute paths without dots and empty components *)
Definition no_slash (s : string) : bool := string_all (λ c, negb (Ascii.eqb c "/")) s.
Definition plain_comp (s : string) : Prop :=
  s ≠ EmptyString ∧ s ≠ "." ∧ s ≠ ".." ∧ no_slash s = true.
Definition abs_path (comps : list string) : string := "/" +:+ join "/" comps.

Lemma join_snoc sep l x : l ≠ [] → join sep (l ++ [x]) = join sep l +:+ sep +:+ x.
Proof.
  induction l as [|y l IH]; [done|]. intros _. destruct l as [|z l]; [done|].
  change (join sep ((y :: z :: l) ++ [x])) with (y +:+ sep +:+ join sep ((z :: l) ++ [x])).
  rewrite (IH ltac:(done)).
  change (join sep (y :: z :: l)) with (y +:+ sep +:+ join sep (z :: l)). by rewrite !string_app_assoc.
Qed.

Lemma split_join l : l ≠ [] → Forall (λ s, no_slash s = true) l → split_on "/" (join "/" l) = l.
Proof.
  induction l as [|x l IH]; [done|]. intros _ [Hx Hl]%Forall_cons. destruct l as [|y l].
  - by apply split_on_none.
  - change (join "/" (x :: y :: l)) with (x +:+ String "/" (join "/" (y :: l))).
    by rewrite split_on_app, IH.
Qed.

Lemma split_on_leading s : split_on "/" ("/" +:+ s) = EmptyString :: split_on "/" s.
Proof. reflexivity. Qed.

Lemma clean_step_plain rooted stack c : plain_comp c → clean_step rooted stack c = c :: stack.
Proof.
  intros (H1 & H2 & H3 & _). unfold clean_step.
  by rewrite (proj2 (String.eqb_neq _ _) H1), (proj2 (String.eqb_neq _ _) H2), (proj2 (String.eqb_neq _ _) H3).
Qed.

Lemma clean_plain rooted l stack :
  Forall plain_comp l → fold_left (clean_step rooted) l stack = (reverse l ++ stack)%list.
Proof.
  revert stack. induction l as [|c l IH]; intros stack HF; [done|].
  apply Forall_cons in HF as [Hc Hl]. simpl. rewrite clean_step_plain, IH by done.
  by rewrite reverse_cons, <- app_assoc.
Qed.

Lemma plain_no_slash l : Forall plain_comp l → Forall (λ s, no_slash s = true) l.
Proof. intros H. eapply Forall_impl; [exact H|]. by intros s (_ & _ & _ & ?). Qed.

Lemma Clean_abs l : Forall plain_comp l → Clean (abs_path l) = abs_path l.
Proof.
  intros HF. unfold Clean, abs_path. rewrite has_prefix_app. cbv iota zeta.
  rewrite split_on_leading. destruct l as [|x l]; [done|].
  rewrite split_join by (done || by apply plain_no_slash).
  change (fold_left (clean_step true) (EmptyString :: ?l) []) with (fold_left (clean_step true) l []).
  by rewrite clean_plain, app_nil_r, reverse_involutive.
Qed.

(** Cleaning an absolute path yields one of these. *)
Lemma clean_stack_plain l stack :
  Forall (λ s, no_slash s = true) l → Forall plain_comp stack →
  Forall plain_comp (fold_left (clean_step true) l stack).
Proof.
  revert stack. induction l as [|c l IH]; intros stack Hl Hs; [done|].
  apply Forall_cons in Hl as [Hc Hl]. simpl. apply IH; [done|]. unfold clean_step.
  destruct (String.eqb_spec c EmptyString); [done|]. destruct (String.eqb_spec c "."); [done|]. cbn [orb].
  destruct (String.eqb_spec c "..").
  - destruct stack as [|top rest]; [done|]. apply Forall_cons in Hs as [(_ & _ & Ht & _) Hr].
    by rewrite (proj2 (String.eqb_neq _ _) Ht).
  - constructor; [|done]. by split_and!.
Qed.

Lemma split_no_slash s : Forall (λ w, no_slash w = true) (split_on "/" s).
Proof.
  induction s as [|c s IH]; simpl; [by constructor|]. destruct (Ascii.eqb c "/") eqn:E; [by constructor|].
  destruct (split_on "/" s) as [|w ws].
  - constructor; [|done]. unfold no_slash. simpl. by rewrite E.
  - apply Forall_cons in IH as [Hw Hws]. constructor; [|done]. unfold no_slash in *. simpl. by rewrite E.
Qed.

Lemma split_app_last s t : no_slash t = true → ∃ l, split_on "/" (s +:+ String "/" t) = (l ++ [t])%list.
Proof.
  intros Ht. induction s as [|c s [l IH]].
  - exists [EmptyString]. change (EmptyString +:+ ?u) with u. simpl. by rewrite split_on_none.
  - change (String c s +:+ ?u) with (String c (s +:+ u)). simpl. rewrite IH.
    destruct (Ascii.eqb c "/"); [by exists (EmptyString :: l)|].
    destruct l as [|w l]; [|by exists (String c w :: l)].
    exfalso. clear -IH Ht. assert (Hl : (1 < length (split_on "/" (s +:+ String "/" t)))%nat); [|rewrite IH in Hl; simpl in Hl; lia].
    clear IH. induction s as [|c s IH].
    + change (EmptyString +:+ ?u) with u. simpl. rewrite split_on_none by done. simpl. lia.
    + change (String c s +:+ ?u) with (String c (s +:+ u)). simpl. destruct (Ascii.eqb c "/"); [simpl; lia|].
      destruct (split_on "/" (s +:+ String "/" t)); simpl in *; lia.
Qed.

Lemma Join_abs path name : has_prefix path "/" = true → plain_comp name →
  ∃ l, Forall plain_comp l ∧ Join path name = abs_path (l ++ [name]).
Proof.
  intros Hp Hn. unfold Join, Clean. change ("/" +:+ name) with (String "/" name).
  assert (Hroot : has_prefix (path +:+ String "/" name) "/" = true).
  { apply has_prefix_inv in Hp. rewrite Hp, string_app_assoc. apply has_prefix_app. }
  rewrite Hroot. cbv iota zeta. destruct (split_app_last path name) as [l Hl]; [by destruct Hn as (_ & _ & _ & ?)|].
  pose proof (split_no_slash (path +:+ String "/" name)) as HF. rewrite Hl in HF |- *.
  apply Forall_app in HF as [HF _]. rewrite fold_left_app. cbn [fold_left]. rewrite clean_step_plain by done.
  exists (reverse (fold_left (clean_step true) l [])). rewrite reverse_cons. split; [|done].
  apply Forall_reverse. by apply clean_stack_plain.
Qed.

Lemma last_index_none c s : string_all (λ d, negb (Ascii.eqb d c)) s = true → last_index_of c s = None.
Proof.
  induction s as [|d s IH]; simpl; [done|]. intros [Hd Hs%IH]%andb_true_iff.
  apply negb_true_iff in Hd. by rewrite Hs, Hd.
Qed.

(** An entry of an absolute directory: its path, directory and name *)
Lemma abs_snoc l name : abs_path (l ++ [name]) = (if decide (l = []) then EmptyString else abs_path l) +:+ String "/" name.
Proof.
  unfold abs_path. case_decide as Hl; [by subst|]. rewrite join_snoc by done.
  by rewrite string_app_assoc.
Qed.

Lemma Join_entry l name : l ≠ [] → Forall plain_comp l → plain_comp name →
  Join (abs_path l) name = abs_path (l ++ [name]) ∧
  Dir (abs_path (l ++ [name])) = abs_path l ∧ Base (abs_path (l ++ [name])) = name.
Proof.
  intros Hne Hl Hn. pose proof Hn as (_ & _ & _ & Hns).
  assert (E : abs_path (l ++ [name]) = abs_path l +:+ String "/" name) by (rewrite abs_snoc; by rewrite decide_False).
  split; [|split].
  - unfold Join. change ("/" +:+ name) with (String "/" name). rewrite <- E. apply Clean_abs.
    apply Forall_app. split; [done|by constructor].
  - unfold Dir. rewrite E, last_index_app by done.
    assert (Ht : ∀ s t, take_chars (S (String.length s)) (s +:+ String "/" t) = s +:+ "/").
    { intros s t. induction s as [|c s IH]; [by destruct t|].
      change (String c s +:+ ?u) with (String c (s +:+ u)). cbn [take_chars String.length]. by f_equal. }
    rewrite Ht. unfold Clean, abs_path. rewrite string_app_assoc, has_prefix_app, split_on_leading.
    cbv iota zeta.
    assert (Hs : split_on "/" (join "/" l +:+ "/") = (l ++ [EmptyString])%list).
    { change (join "/" l +:+ "/") with (join "/" l +:+ "/" +:+ EmptyString).
      rewrite <- (join_snoc "/" l EmptyString) by done. apply split_join; [by destruct l|].
      apply Forall_app. split; [by apply plain_no_slash|by constructor]. }
    rewrite Hs.
    change (fold_left (clean_step true) (EmptyString :: ?l) []) with (fold_left (clean_step true) l []).
    rewrite fold_left_app, (clean_plain true l []) by done. cbn [fold_left].
    change (clean_step true ?st EmptyString) with st. by rewrite app_nil_r, reverse_involutive.
  - unfold Base. rewrite E, last_index_app by done.
    assert (Hd : ∀ s t, drop_chars (S (String.length s)) (s +:+ String "/" t) = t).
    { intros s t. induction s as [|c s IH]; [done|exact IH]. }
    apply Hd.
Qed.
