(* ===== verification/Float64.v ===== *)
(** Go's [float64]: IEEE 754 binary64 as [spec_float] of the Standard Library
    (a sign, a mantissa and an exponent in [Z]), with the operations the program
    uses: arithmetic, comparison, [math.Round], and the conversions between
    [int64] and [float64]. *)
From S2P Require Import Prelude.
From Stdlib Require Import Floats.SpecFloat.

Abbreviation float64 := spec_float.

Definition f64_of_int (z : Z) : float64 := binary_normalize 53 1024 z 0 false.
Definition f64_mul : float64 → float64 → float64 := SFmul 53 1024.
Definition f64_div : float64 → float64 → float64 := SFdiv 53 1024.
Definition f64_add : float64 → float64 → float64 := SFadd 53 1024.
Definition f64_eqb : float64 → float64 → bool := SFeqb.
Definition f64_ltb : float64 → float64 → bool := SFltb.
Definition f64_leb : float64 → float64 → bool := SFleb.

Definition is_nan (x : float64) : bool := match x with S754_nan => true | _ => false end.
Definition is_inf (x : float64) : bool := match x with S754_infinity _ => true | _ => false end.

Definition signed (s : bool) (z : Z) : Z := if s then - z else z.

(** the integer part of the positive number [m * 2 ^ e] *)
Definition int_part (m : positive) (e : Z) : Z :=
  if 0 <=? e then Z.pos m * 2 ^ e else Z.pos m / 2 ^ (- e).

(** math.Round: the nearest integer, halves away from zero. A number with a
    nonnegative exponent is an integer already. *)
Definition math_round (x : float64) : float64 :=
  match x with
  | S754_finite s m e =>
      if 0 <=? e then x
      else binary_normalize 53 1024
             (signed s ((Z.pos m + 2 ^ (- e - 1)) / 2 ^ (- e))) 0 s
  | _ => x
  end.

(** The conversion int64(x) drops the fraction. The language leaves the result
    open when the integer part does not fit; the released targets are amd64,
    whose conversion instruction then yields the least int64. *)
Definition f64_to_int64 (x : float64) : Z :=
  match x with
  | S754_zero _ => 0
  | S754_finite s m e =>
      let z := signed s (int_part m e) in
      if is_int64 z then z else min_int64
  | _ => min_int64
  end.

Lemma f64_to_int64_range x : is_int64 (f64_to_int64 x) = true.
Proof.
  destruct x as [s|s| |s m e]; try done. unfold f64_to_int64.
  by destruct (is_int64 (signed s (int_part m e))) eqn:E.
Qed.

#[global] Arguments f64_of_int : simpl never.
#[global] Arguments f64_to_int64 : simpl never.

(** A finite or infinite number equals itself in the sense of Go's [==]. *)
Lemma f64_eqb_refl x : is_nan x = false → f64_eqb x x = true.
Proof.
  destruct x as [s|s| |s m e]; try done; intros _; unfold f64_eqb, SFeqb, SFcompare.
  - by destruct s.
  - destruct s; rewrite Z.compare_refl; simpl; change Pos.compare_cont with Pos.compare_cont;
      fold (Pos.compare m m); by rewrite Pos.compare_refl.
Qed.

Example f64_half : f64_mul (f64_of_int 3) (f64_div (f64_of_int 1) (f64_of_int 2))
  = f64_div (f64_of_int 3) (f64_of_int 2).
Proof. vm_compute. reflexivity. Qed.
Example f64_round_half : f64_to_int64 (math_round (f64_div (f64_of_int 3) (f64_of_int 2))) = 2.
Proof. vm_compute. reflexivity. Qed.

(** ** Signs *)

(** zero or above, or not a number *)
Definition nonneg (x : float64) : bool :=
  match x with S754_zero s | S754_infinity s | S754_finite s _ _ => negb s | S754_nan => true end.

Lemma binary_round_aux_nonneg m e l : nonneg (binary_round_aux 53 1024 false m e l) = true.
Proof.
  unfold binary_round_aux. destruct (shr_fexp _ _ m e l) as [r e1]. destruct (shr_fexp _ _ _ e1 _) as [r2 e2].
  destruct (shr_m r2) as [|m2|m2]; [done| |done]. by destruct (e2 <=? 1024 - 53).
Qed.

Lemma f64_of_int_nonneg z : 0 ≤ z → nonneg (f64_of_int z) = true.
Proof.
  intros Hz. unfold f64_of_int, binary_normalize. destruct z as [|m|m]; [done| |lia].
  unfold binary_round. destruct (shl_align _ _ _). apply binary_round_aux_nonneg.
Qed.

Lemma f64_mul_nonneg x y : nonneg x = true → nonneg y = true → nonneg (f64_mul x y) = true.
Proof.
  unfold f64_mul. destruct x as [[]|[]| |[] mx ex], y as [[]|[]| |[] my ey]; try done. intros _ _.
  apply binary_round_aux_nonneg.
Qed.

Lemma math_round_nonneg x : nonneg x = true → nonneg (math_round x) = true.
Proof.
  destruct x as [s|s| |s m e]; try done. destruct s; [done|]. intros _. unfold math_round.
  destruct (Z.leb_spec 0 e); [done|].
  assert (Hz : 0 ≤ (Z.pos m + 2 ^ (- e - 1)) / 2 ^ (- e)).
  { apply Z.div_pos; [|apply Z.pow_pos_nonneg; lia]. pose proof (Z.pow_nonneg 2 (- e - 1)). lia. }
  exact (f64_of_int_nonneg _ Hz).
Qed.

Lemma f64_to_int64_nonneg x : nonneg x = true → 0 ≤ f64_to_int64 x ∨ f64_to_int64 x = min_int64.
Proof.
  destruct x as [s|s| |s m e]; unfold f64_to_int64; [by left|by right..|]. destruct s; [done|]. intros _.
  cbv zeta. case_match; [left|by right]. cbn [signed]. unfold int_part. case_match.
  - apply Z.mul_nonneg_nonneg; [lia|apply Z.pow_nonneg; lia].
  - apply Z.div_pos; [lia|apply Z.pow_pos_nonneg; lia].
Qed.

Lemma nonneg_positive x : f64_leb x (f64_of_int 0) = false → nonneg x = true.
Proof.
  destruct x as [s|s| |s m e]; try done; destruct s; done.
Qed.
