(* ===== verification/Digest.v ===== *)
(** Packages [crypto/sha256], [crypto/sha1], [crypto/md5] and [encoding/hex]: the digests
    of a byte string, over 32-bit words in [Z]. *)
From S2P Require Import Prelude GoString.

Local Open Scope string_scope.
Local Open Scope Z_scope.

(** ** Bytes and words *)
Definition bytes_of (s : string) : list Z := map code (String.list_ascii_of_string s).
Definition word (z : Z) : Z := z mod 2 ^ 32.
Definition add32 (l : list Z) : Z := word (fold_right Z.add 0 l).
Definition not32 (x : Z) : Z := 2 ^ 32 - 1 - x.
Definition rotl (x n : Z) : Z := Z.lor (word (Z.shiftl x n)) (Z.shiftr x (32 - n)).
Definition rotr (x n : Z) : Z := rotl x (32 - n).

Fixpoint words_be (fuel : nat) (l : list Z) : list Z :=
  match fuel, l with
  | S fuel, a :: b :: c :: d :: l => (a * 2 ^ 24 + b * 2 ^ 16 + c * 2 ^ 8 + d) :: words_be fuel l
  | _, _ => []
  end.
Fixpoint words_le (fuel : nat) (l : list Z) : list Z :=
  match fuel, l with
  | S fuel, a :: b :: c :: d :: l => (d * 2 ^ 24 + c * 2 ^ 16 + b * 2 ^ 8 + a) :: words_le fuel l
  | _, _ => []
  end.
Definition be_bytes (w : Z) : list Z := [w / 2 ^ 24 mod 256; w / 2 ^ 16 mod 256; w / 2 ^ 8 mod 256; w mod 256].
Definition le_bytes (w : Z) : list Z := reverse (be_bytes w).

(** the message, a one bit, zeros up to 56 bytes modulo 64, and its length in bits *)
Definition padded (big_endian : bool) (l : list Z) : list Z :=
  let n := Z.of_nat (length l) in
  let bits := (n * 8) mod 2 ^ 64 in
  let size := if big_endian then (be_bytes (bits / 2 ^ 32) ++ be_bytes (bits mod 2 ^ 32))%list
              else (le_bytes (bits mod 2 ^ 32) ++ le_bytes (bits / 2 ^ 32))%list in
  (l ++ [128] ++ replicate (Z.to_nat ((55 - n) mod 64)) 0 ++ size)%list.

Fixpoint blocks {A} (fuel : nat) (l : list A) : list (list A) :=
  match fuel, l with
  | _, [] => []
  | O, _ => []
  | S fuel, _ => take 16 l :: blocks fuel (drop 16 l)
  end.

Definition hex_digit (d : Z) : ascii := ascii_of_N (Z.to_N (if d <? 10 then 48 + d else 87 + d)).
(** hex.EncodeToString, and the verb %x on bytes *)
Fixpoint hex_encode (l : list Z) : string :=
  match l with
  | [] => EmptyString
  | b :: l => String (hex_digit (b / 16)) (String (hex_digit (b mod 16)) (hex_encode l))
  end.

Definition is_hex (c : ascii) : bool :=
  let n := code c in
  ((48 <=? n) && (n <=? 57)) || ((97 <=? n) && (n <=? 102)) || ((65 <=? n) && (n <=? 70)).
Definition all_hex (s : string) : bool := string_all is_hex s.
(** hex.DecodeString succeeds *)
Definition hex_decodes (s : string) : bool := Nat.even (String.length s) && all_hex s.

Definition hex_value (c : ascii) : Z :=
  let n := code c in if n <=? 57 then n - 48 else if n <=? 70 then n - 55 else n - 87.
Fixpoint hex_pairs (s : string) : list Z :=
  match s with String a (String b s) => (hex_value a * 16 + hex_value b) :: hex_pairs s | _ => [] end.
(** hex.DecodeString *)
Definition hex_decode (s : string) : option (list Z) := if hex_decodes s then Some (hex_pairs s) else None.

(** sixteen bytes as a UUID with a version and the variant of RFC 4122 *)
Definition format_uuid (version : Z) (value : list Z) : string :=
  let byte i := nth i value 0 in
  let value := (take 6 value ++ [Z.lor (Z.land (byte 6%nat) 15) version; byte 7%nat;
                 Z.lor (Z.land (byte 8%nat) 63) 128] ++ drop 9 value)%list in
  hex_encode (take 4 value) +:+ "-" +:+ hex_encode (take 2 (drop 4 value)) +:+ "-" +:+
  hex_encode (take 2 (drop 6 value)) +:+ "-" +:+ hex_encode (take 2 (drop 8 value)) +:+ "-" +:+
  hex_encode (take 6 (drop 10 value)).

(** ** SHA-256 *)
Definition sha256_K : list Z :=
  [1116352408; 1899447441; 3049323471; 3921009573; 961987163; 1508970993; 2453635748; 2870763221;
   3624381080; 310598401; 607225278; 1426881987; 1925078388; 2162078206; 2614888103; 3248222580;
   3835390401; 4022224774; 264347078; 604807628; 770255983; 1249150122; 1555081692; 1996064986;
   2554220882; 2821834349; 2952996808; 3210313671; 3336571891; 3584528711; 113926993; 338241895;
   666307205; 773529912; 1294757372; 1396182291; 1695183700; 1986661051; 2177026350; 2456956037;
   2730485921; 2820302411; 3259730800; 3345764771; 3516065817; 3600352804; 4094571909; 275423344;
   430227734; 506948616; 659060556; 883997877; 958139571; 1322822218; 1537002063; 1747873779;
   1955562222; 2024104815; 2227730452; 2361852424; 2428436474; 2756734187; 3204031479; 3329325298].
Definition sha256_init : list Z :=
  [1779033703; 3144134277; 1013904242; 2773480762; 1359893119; 2600822924; 528734635; 1541459225].

(** the message schedule, newest word first *)
Fixpoint sha256_schedule (rounds : nat) (w : list Z) : list Z :=
  match rounds with
  | O => w
  | S rounds =>
      let at_ i := nth i w 0 in
      let s0 := let x := at_ 14%nat in Z.lxor (Z.lxor (rotr x 7) (rotr x 18)) (Z.shiftr x 3) in
      let s1 := let x := at_ 1%nat in Z.lxor (Z.lxor (rotr x 17) (rotr x 19)) (Z.shiftr x 10) in
      sha256_schedule rounds (add32 [at_ 15%nat; s0; at_ 6%nat; s1] :: w)
  end.

Definition sha256_round (h : list Z) (kw : Z * Z) : list Z :=
  match h with
  | [a; b; c; d; e; f; g; i] =>
      let S1 := Z.lxor (Z.lxor (rotr e 6) (rotr e 11)) (rotr e 25) in
      let ch := Z.lxor (Z.land e f) (Z.land (not32 e) g) in
      let t1 := add32 [i; S1; ch; kw.1; kw.2] in
      let S0 := Z.lxor (Z.lxor (rotr a 2) (rotr a 13)) (rotr a 22) in
      let maj := Z.lxor (Z.lxor (Z.land a b) (Z.land a c)) (Z.land b c) in
      [add32 [t1; S0; maj]; a; b; c; add32 [d; t1]; e; f; g]
  | _ => h
  end.

Definition sha256_block (h block : list Z) : list Z :=
  let w := reverse (sha256_schedule 48 (reverse block)) in
  zip_with (λ a b, add32 [a; b]) h (fold_left sha256_round (zip sha256_K w) h).

Definition sha256 (data : string) : list Z :=
  let l := padded true (bytes_of data) in
  let w := words_be (length l) l in
  mjoin (map be_bytes (fold_left sha256_block (blocks (length w) w) sha256_init)).

(** ** SHA-1 *)
Fixpoint sha1_schedule (rounds : nat) (w : list Z) : list Z :=
  match rounds with
  | O => w
  | S rounds =>
      let at_ i := nth i w 0 in
      sha1_schedule rounds
        (rotl (Z.lxor (Z.lxor (at_ 2%nat) (at_ 7%nat)) (Z.lxor (at_ 13%nat) (at_ 15%nat))) 1 :: w)
  end.

Definition sha1_round (h : list Z) (iw : Z * Z) : list Z :=
  match h with
  | [a; b; c; d; e] =>
      let '(i, w) := iw in
      let '(f, k) :=
        if i <? 20 then (Z.lor (Z.land b c) (Z.land (not32 b) d), 1518500249)
        else if i <? 40 then (Z.lxor b (Z.lxor c d), 1859775393)
        else if i <? 60 then (Z.lor (Z.land b c) (Z.lor (Z.land b d) (Z.land c d)), 2400959708)
        else (Z.lxor b (Z.lxor c d), 3395469782) in
      [add32 [rotl a 5; f; e; k; w]; a; rotl b 30; c; d]
  | _ => h
  end.

Definition sha1_block (h block : list Z) : list Z :=
  let w := reverse (sha1_schedule 64 (reverse block)) in
  zip_with (λ a b, add32 [a; b]) h (fold_left sha1_round (zip (map Z.of_nat (seq 0 80)) w) h).

Definition sha1 (data : list Z) : list Z :=
  let l := padded true data in
  let w := words_be (length l) l in
  mjoin (map be_bytes (fold_left sha1_block (blocks (length w) w)
    [1732584193; 4023233417; 2562383102; 271733878; 3285377520])).

(** ** MD5 *)
Definition md5_K : list Z :=
  [3614090360; 3905402710; 606105819; 3250441966; 4118548399; 1200080426; 2821735955; 4249261313;
   1770035416; 2336552879; 4294925233; 2304563134; 1804603682; 4254626195; 2792965006; 1236535329;
   4129170786; 3225465664; 643717713; 3921069994; 3593408605; 38016083; 3634488961; 3889429448;
   568446438; 3275163606; 4107603335; 1163531501; 2850285829; 4243563512; 1735328473; 2368359562;
   4294588738; 2272392833; 1839030562; 4259657740; 2763975236; 1272893353; 4139469664; 3200236656;
   681279174; 3936430074; 3572445317; 76029189; 3654602809; 3873151461; 530742520; 3299628645;
   4096336452; 1126891415; 2878612391; 4237533241; 1700485571; 2399980690; 4293915773; 2240044497;
   1873313359; 4264355552; 2734768916; 1309151649; 4149444226; 3174756917; 718787259; 3951481745].
Definition md5_shift (i : Z) : Z :=
  nth (Z.to_nat (i mod 4))
    (if i <? 16 then [7; 12; 17; 22] else if i <? 32 then [5; 9; 14; 20]
     else if i <? 48 then [4; 11; 16; 23] else [6; 10; 15; 21]) 0.

Definition md5_round (block : list Z) (h : list Z) (ik : Z * Z) : list Z :=
  let i := ik.1 in
  match h with
  | [a; b; c; d] =>
      let f :=
        if i <? 16 then Z.lor (Z.land b c) (Z.land (not32 b) d)
        else if i <? 32 then Z.lor (Z.land d b) (Z.land (not32 d) c)
        else if i <? 48 then Z.lxor (Z.lxor b c) d
        else Z.lxor c (Z.lor b (not32 d)) in
      let g :=
        if i <? 16 then i else if i <? 32 then (5 * i + 1) mod 16
        else if i <? 48 then (3 * i + 5) mod 16 else (7 * i) mod 16 in
      [d; add32 [b; rotl (add32 [a; f; ik.2; nth (Z.to_nat g) block 0]) (md5_shift i)]; b; c]
  | _ => h
  end.

Definition md5_block (h block : list Z) : list Z :=
  zip_with (λ a b, add32 [a; b]) h
    (fold_left (md5_round block) (zip (map Z.of_nat (seq 0 64)) md5_K) h).

Definition md5 (data : list Z) : list Z :=
  let l := padded false data in
  let w := words_le (length l) l in
  mjoin (map le_bytes (fold_left md5_block (blocks (length w) w)
    [1732584193; 4023233417; 2562383102; 271733878])).

Example sha256_abc : hex_encode (sha256 "abc")
  = "ba7816bf8f01cfea414140de5dae2223b00361a396177a9cb410ff61f20015ad".
Proof. vm_compute. reflexivity. Qed.
Example sha256_two_blocks : hex_encode (sha256 "abcdbcdecdefdefgefghfghighijhijkijkljklmklmnlmnomnopnopq")
  = "248d6a61d20638b8e5c026930c3e6039a33ce45964ff2167f6ecedd419db06c1".
Proof. vm_compute. reflexivity. Qed.
Example sha1_abc : hex_encode (sha1 (bytes_of "abc")) = "a9993e364706816aba3e25717850c26c9cd0d89d".
Proof. vm_compute. reflexivity. Qed.
Example md5_abc : hex_encode (md5 (bytes_of "abc")) = "900150983cd24fb0d6963f7d28e17f72".
Proof. vm_compute. reflexivity. Qed.
Example md5_long : hex_encode (md5 (bytes_of "12345678901234567890123456789012345678901234567890123456789012345678901234567890"))
  = "57edf4a22be3c955ac49da2e2107b67a".
Proof. vm_compute. reflexivity. Qed.

(** ** Hexadecimal digits *)
Definition is_byte (z : Z) : Prop := 0 ≤ z < 256.

Lemma hex_digit_ok d : 0 ≤ d < 16 → is_hex (hex_digit d) = true ∧ hex_digit d ≠ "-"%char.
Proof.
  intros Hd. assert (Hall : forallb (λ n, let c := hex_digit (Z.of_nat n) in is_hex c && negb (Ascii.eqb c "-")) (seq 0 16) = true)
    by (vm_compute; reflexivity).
  rewrite forallb_forall in Hall. specialize (Hall (Z.to_nat d)). rewrite in_seq in Hall. specialize (Hall ltac:(lia)).
  rewrite Z2Nat.id in Hall by lia. apply andb_true_iff in Hall as [H1 H2].
  split; [done|]. by apply Ascii.eqb_neq, negb_true_iff.
Qed.

Lemma hex_pair b : is_byte b →
  is_hex (hex_digit (b / 16)) = true ∧ hex_digit (b / 16) ≠ "-"%char ∧
  is_hex (hex_digit (b mod 16)) = true ∧ hex_digit (b mod 16) ≠ "-"%char.
Proof.
  intros Hb. unfold is_byte in Hb.
  destruct (hex_digit_ok (b / 16)) as [? ?].
  { split; [apply Z.div_pos; lia|apply Z.div_lt_upper_bound; lia]. }
  destruct (hex_digit_ok (b mod 16)) as [? ?]; [by apply Z.mod_pos_bound|]. done.
Qed.

Lemma hex_encode_hex l : Forall is_byte l → all_hex (hex_encode l) = true.
Proof.
  induction 1 as [|b l Hb _ IH]; [done|]. destruct (hex_pair b Hb) as (H1 & _ & H3 & _).
  unfold all_hex in *. cbn [hex_encode string_all]. by rewrite H1, H3, IH.
Qed.

Lemma be_bytes_bytes w : Forall is_byte (be_bytes w).
Proof. unfold be_bytes, is_byte. repeat constructor; by apply Z.mod_pos_bound. Qed.

Lemma sha256_bytes data : Forall is_byte (sha256 data).
Proof.
  unfold sha256. cbv zeta. generalize (fold_left sha256_block
    (blocks (length (words_be (length (padded true (bytes_of data))) (padded true (bytes_of data))))
       (words_be (length (padded true (bytes_of data))) (padded true (bytes_of data)))) sha256_init) as ws.
  intros ws. induction ws as [|w ws IH]; [constructor|].
  change (mjoin (map be_bytes (w :: ws))) with (be_bytes w ++ mjoin (map be_bytes ws))%list.
  apply Forall_app. split; [apply be_bytes_bytes|done].
Qed.
