(* ===== verification/Json.v ===== *)
(** Package [encoding/json]: JSON values, their compact text, and a reader that
    accepts what Go's decoder accepts. Numbers keep their literal text. *)
From S2P Require Import Prelude GoString.

Local Open Scope string_scope.
Local Open Scope Z_scope.

#[warnings="-register-all"]
Inductive json : Type :=
| JNull
| JBool (b : bool)
| JNumber (literal : string)
| JString (s : string)
| JArray (l : list json)
| JObject (l : list (string * json)).

(** ** UTF-8 *)
Definition in_range (lo hi : Z) (c : ascii) : bool := (lo <=? code c) && (code c <=? hi).

(** the length of the valid encoding at the front of a text, if there is one *)
Definition utf8_length (s : string) : option nat :=
  match s with
  | EmptyString => None
  | String a rest =>
      let cont := in_range 128 191 in
      if in_range 0 127 a then Some 1%nat
      else
        match rest with
        | EmptyString => None
        | String b rest =>
            if in_range 194 223 a then (if cont b then Some 2%nat else None)
            else
              match rest with
              | EmptyString => None
              | String c rest =>
                  let three lo hi := if in_range lo hi b && cont c then Some 3%nat else None in
                  if code a =? 224 then three 160 191
                  else if code a =? 237 then three 128 159
                  else if in_range 225 239 a then three 128 191
                  else
                    match rest with
                    | EmptyString => None
                    | String d _ =>
                        let four lo hi := if in_range lo hi b && cont c && cont d then Some 4%nat else None in
                        if code a =? 240 then four 144 191
                        else if code a =? 244 then four 128 143
                        else if in_range 241 243 a then four 128 191
                        else None
                    end
              end
        end
  end.

Definition hex4 (n : Z) : string :=
  let d k := ascii_of_N (Z.to_N (let v := n / 16 ^ k mod 16 in if v <? 10 then 48 + v else 87 + v)) in
  String (d 3) (String (d 2) (String (d 1) (String (d 0) EmptyString))).

(** the encoding of a code point *)
Definition utf8_encode (n : Z) : string :=
  let chr z := ascii_of_N (Z.to_N z) in
  if n <? 128 then String (chr n) EmptyString
  else if n <? 2048 then String (chr (192 + n / 64)) (String (chr (128 + n mod 64)) EmptyString)
  else if n <? 65536 then
    String (chr (224 + n / 4096)) (String (chr (128 + n / 64 mod 64)) (String (chr (128 + n mod 64)) EmptyString))
  else
    String (chr (240 + n / 262144)) (String (chr (128 + n / 4096 mod 64))
      (String (chr (128 + n / 64 mod 64)) (String (chr (128 + n mod 64)) EmptyString))).

(** ** Writing *)
Definition quote_char : ascii := ascii_of_nat 34.
Definition backslash : ascii := "\"%char.
(** htmlSafeSet: the ASCII characters that stand for themselves in a string *)
Definition json_safe (c : ascii) : bool :=
  in_range 32 127 c && negb (Ascii.eqb c quote_char) && negb (Ascii.eqb c backslash)
  && negb (Ascii.eqb c "<") && negb (Ascii.eqb c ">") && negb (Ascii.eqb c "&").

Definition escape (c : ascii) : string :=
  let short d := String backslash (String d EmptyString) in
  if Ascii.eqb c quote_char || Ascii.eqb c backslash then short c
  else if code c =? 8 then short "b"%char else if code c =? 12 then short "f"%char
  else if code c =? 10 then short "n"%char else if code c =? 13 then short "r"%char
  else if code c =? 9 then short "t"%char
  else String backslash (String "u" (hex4 (code c))).

Fixpoint write_chars (fuel : nat) (s : string) : string :=
  match fuel, s with
  | S fuel, String c rest =>
      if in_range 0 127 c then
        (if json_safe c then String c EmptyString else escape c) +:+ write_chars fuel rest
      else
        match utf8_length s with
        | None => String backslash "ufffd" +:+ write_chars fuel rest
        | Some n =>
            let rune := take_chars n s in
            (if String.eqb rune (bytes [226; 128; 168]%nat) then String backslash "u2028"
             else if String.eqb rune (bytes [226; 128; 169]%nat) then String backslash "u2029"
             else rune) +:+ write_chars fuel (drop_chars n s)
        end
  | _, _ => EmptyString
  end.
Definition write_string (s : string) : string :=
  String quote_char (write_chars (String.length s) s +:+ String quote_char EmptyString).

(** commas between the elements *)
Fixpoint commas (l : list string) : string :=
  match l with
  | [] => EmptyString
  | [x] => x
  | x :: l => x +:+ "," +:+ commas l
  end.

(** json.Marshal, compact, members in order *)
Fixpoint write (j : json) : string :=
  match j with
  | JNull => "null"
  | JBool true => "true"
  | JBool false => "false"
  | JNumber literal => literal
  | JString s => write_string s
  | JArray l => "[" +:+ commas (map write l) +:+ "]"
  | JObject l => "{" +:+ commas (map (λ p, write_string p.1 +:+ ":" +:+ write p.2) l) +:+ "}"
  end.

(** ** Reading *)
Definition is_space (c : ascii) : bool :=
  Ascii.eqb c " " || (code c =? 9) || (code c =? 10) || (code c =? 13).
Fixpoint skip_space (s : string) : string :=
  match s with String c rest => if is_space c then skip_space rest else s | _ => s end.

Definition hex_val (c : ascii) : option Z :=
  let n := code c in
  if (48 <=? n) && (n <=? 57) then Some (n - 48)
  else if (97 <=? n) && (n <=? 102) then Some (n - 87)
  else if (65 <=? n) && (n <=? 70) then Some (n - 55)
  else None.
Definition read_hex4 (s : string) : option (Z * string) :=
  match s with
  | String a (String b (String c (String d rest))) =>
      x ← hex_val a; y ← hex_val b; z ← hex_val c; w ← hex_val d;
      Some (x * 4096 + y * 256 + z * 16 + w, rest)
  | _ => None
  end.
Definition replacement : string := bytes [239; 191; 189]%nat.
Definition is_surrogate (n : Z) : bool := (55296 <=? n) && (n <=? 57343).

(** the characters of a string after its opening quote, and the text after the
    closing one *)
Fixpoint read_chars (fuel : nat) (s : string) : option (string * string) :=
  match fuel, s with
  | S fuel, String c rest =>
      let more prefix s := '(t, s) ← read_chars fuel s; Some (prefix +:+ t, s) in
      if Ascii.eqb c quote_char then Some (EmptyString, rest)
      else if Ascii.eqb c backslash then
        match rest with
        | String e rest =>
            let plain n := more (String (ascii_of_nat n) EmptyString) rest in
            if Ascii.eqb e quote_char || Ascii.eqb e backslash || Ascii.eqb e "/" then more (String e EmptyString) rest
            else if Ascii.eqb e "b" then plain 8%nat else if Ascii.eqb e "f" then plain 12%nat
            else if Ascii.eqb e "n" then plain 10%nat else if Ascii.eqb e "r" then plain 13%nat
            else if Ascii.eqb e "t" then plain 9%nat
            else if Ascii.eqb e "u" then
              '(n, rest) ← read_hex4 rest;
              if is_surrogate n then
                match rest with
                | String bs (String u rest2) =>
                    match (if Ascii.eqb bs backslash && Ascii.eqb u "u" then read_hex4 rest2 else None) with
                    | Some (m, rest3) =>
                        if (n <? 56320) && (56320 <=? m) && (m <=? 57343)
                        then more (utf8_encode ((n - 55296) * 1024 + (m - 56320) + 65536)) rest3
                        else more replacement rest
                    | None => more replacement rest
                    end
                | _ => more replacement rest
                end
              else more (utf8_encode n) rest
            else None
        | EmptyString => None
        end
      else if in_range 0 31 c then None
      else
        match utf8_length s with
        | None => more replacement rest
        | Some n => more (take_chars n s) (drop_chars n s)
        end
  | _, _ => None
  end.
Definition read_string (s : string) : option (string * string) := read_chars (S (String.length s)) s.

(** the text after a given character at its front *)
Definition strip (c : ascii) (s : string) : option string :=
  match s with
  | String d s => if Ascii.eqb d c then Some s else None
  | EmptyString => None
  end.

(** a sign, the fraction and the exponent of a number, if they are there *)
Definition read_sign (plus : bool) (s : string) : string * string :=
  match s with
  | String c t =>
      if Ascii.eqb c "-" || plus && Ascii.eqb c "+" then (String c EmptyString, t) else (EmptyString, s)
  | EmptyString => (EmptyString, s)
  end.
Definition read_fraction (s : string) : option (string * string) :=
  match strip "." s with
  | Some s =>
      let '(ds, s) := span_digits s in
      match ds with EmptyString => None | _ => Some ("." +:+ ds, s) end
  | None => Some (EmptyString, s)
  end.
Definition read_exponent (s : string) : option (string * string) :=
  match s with
  | String e s' =>
      if Ascii.eqb e "e" || Ascii.eqb e "E" then
        let '(sg, s') := read_sign true s' in
        let '(ds, s') := span_digits s' in
        match ds with EmptyString => None | _ => Some (String e (sg +:+ ds), s') end
      else Some (EmptyString, s)
  | EmptyString => Some (EmptyString, s)
  end.

(** a number literal: an integer part without leading zeros, then an optional
    fraction and an optional exponent *)
Definition integer_part (s : string) : bool :=
  match s with
  | EmptyString => false
  | String c more => negb (Ascii.eqb c "0") || String.eqb more EmptyString
  end.
Definition read_number (s : string) : option (string * string) :=
  let '(sign, s) := read_sign false s in
  let '(int_part, s) := span_digits s in
  if integer_part int_part then
    '(frac, s) ← read_fraction s;
    '(expo, s) ← read_exponent s;
    Some (sign +:+ int_part +:+ frac +:+ expo, s)
  else None.

Definition maxNestingDepth : Z := 10000.

(** the elements of an array to its closing bracket, and the members of an object
    to its closing brace, with a reader [rv] of values; [n] bounds their number *)
Fixpoint read_elements (rv : string → option (json * string)) (n : nat) (s : string)
  : option (list json * string) :=
  match n with
  | O => None
  | S n =>
      '(j, s) ← rv s;
      match strip "," (skip_space s) with
      | Some s => '(l, s) ← read_elements rv n s; Some (j :: l, s)
      | None => s ← strip "]" (skip_space s); Some ([j], s)
      end
  end.

(** a key with the colon after it *)
Definition read_key (s : string) : option (string * string) :=
  s ← strip quote_char (skip_space s);
  '(key, s) ← read_string s;
  s ← strip ":" (skip_space s);
  Some (key, s).

Fixpoint read_members (rv : string → option (json * string)) (n : nat) (s : string)
  : option (list (string * json) * string) :=
  match n with
  | O => None
  | S n =>
      '(key, s) ← read_key s;
      '(j, s) ← rv s;
      match strip "," (skip_space s) with
      | Some s => '(l, s) ← read_members rv n s; Some ((key, j) :: l, s)
      | None => s ← strip "}" (skip_space s); Some ([(key, j)], s)
      end
  end.

(** a value and the text after it; [depth] counts the open arrays and objects,
    and every call consumes a character or ends, so the length is enough fuel *)
Fixpoint read_value (fuel : nat) (depth : Z) (s : string) : option (json * string) :=
  match fuel with
  | O => None
  | S fuel =>
      match skip_space s with
      | EmptyString => None
      | String c rest =>
          let s := String c rest in
          if Ascii.eqb c quote_char then '(t, s) ← read_string rest; Some (JString t, s)
          else if Ascii.eqb c "[" then
            if maxNestingDepth <=? depth then None
            else
              match strip "]" (skip_space rest) with
              | Some s => Some (JArray [], s)
              | None =>
                  '(l, s) ← read_elements (read_value fuel (depth + 1)) (String.length rest) rest;
                  Some (JArray l, s)
              end
          else if Ascii.eqb c "{" then
            if maxNestingDepth <=? depth then None
            else
              match strip "}" (skip_space rest) with
              | Some s => Some (JObject [], s)
              | None =>
                  '(l, s) ← read_members (read_value fuel (depth + 1)) (String.length rest) rest;
                  Some (JObject l, s)
              end
          else if has_prefix s "null" then Some (JNull, drop_chars 4 s)
          else if has_prefix s "true" then Some (JBool true, drop_chars 4 s)
          else if has_prefix s "false" then Some (JBool false, drop_chars 5 s)
          else '(lit, s) ← read_number s; Some (JNumber lit, s)
      end
  end.

(** one value, and nothing but space after it: Decode followed by an attempt to
    decode more that must meet the end *)
Definition read (s : string) : option json :=
  '(j, rest) ← read_value (S (String.length s)) 0 s;
  match skip_space rest with EmptyString => Some j | _ => None end.

Definition q (s : string) : string := String quote_char (s +:+ String quote_char EmptyString).
Example read_ex :
  read (" [1, {" +:+ q "a" +:+ ": -2.5e+3, " +:+ q "a" +:+ " : [true,null]}, " +:+ q "x\u0041\ud83d\ude00\n" +:+ "] ")
  = Some (JArray [JNumber "1"; JObject [("a", JNumber "-2.5e+3"); ("a", JArray [JBool true; JNull])];
                  JString ("xA" +:+ bytes [240; 159; 152; 128; 10]%nat)]).
Proof. vm_compute. reflexivity. Qed.
Example read_bad : map read ["01"; "1."; "[1,]"; "{}{}"; "nul"; q (bytes [10]%nat); "[1"; EmptyString; "-"]
  = replicate 9 None.
Proof. vm_compute. reflexivity. Qed.
Example write_ex : write (JObject [("k", JArray [JNumber "1"; JString ("<" +:+ bytes [9; 255]%nat)]); ("n", JNull)])
  = "{" +:+ q "k" +:+ ":[1," +:+ q "\u003c\t\ufffd" +:+ "]," +:+ q "n" +:+ ":null}".
Proof. vm_compute. reflexivity. Qed.

(** ** What is written is read back *)

Section json_induction.
Context (P : json → Prop).
Context (Hnull : P JNull) (Hbool : ∀ b, P (JBool b)) (Hnumber : ∀ t, P (JNumber t)) (Hstring : ∀ s, P (JString s)).
Context (Harray : ∀ l, Forall P l → P (JArray l)) (Hobject : ∀ l, Forall (λ p, P p.2) l → P (JObject l)).

Fixpoint json_nested_ind (j : json) : P j :=
  let fix elements l : Forall P l :=
    match l with
    | [] => @List.Forall_nil _ P
    | x :: l => @List.Forall_cons _ P x l (json_nested_ind x) (elements l)
    end in
  let fix members l : Forall (λ p : string * json, P p.2) l :=
    match l with
    | [] => @List.Forall_nil _ (λ p : string * json, P p.2)
    | x :: l => @List.Forall_cons _ (λ p : string * json, P p.2) x l (json_nested_ind x.2) (members l)
    end in
  match j with
  | JNull => Hnull
  | JBool b => Hbool b
  | JNumber t => Hnumber t
  | JString s => Hstring s
  | JArray l => Harray l (elements l)
  | JObject l => Hobject l (members l)
  end.
End json_induction.

(** a text of characters that need no escape *)
Definition safe_text (s : string) : bool := string_all json_safe s.

(** a text in valid UTF-8; other bytes are written as the replacement character *)
Fixpoint valid_utf8 (fuel : nat) (s : string) : bool :=
  match s with
  | EmptyString => true
  | String _ _ =>
      match fuel, utf8_length s with
      | S fuel, Some n => valid_utf8 fuel (drop_chars n s)
      | _, _ => false
      end
  end.
Definition valid_text (s : string) : bool := valid_utf8 (String.length s) s.

(** what may follow a value inside a written text *)
Definition ends (rest : string) : bool :=
  match rest with
  | EmptyString => true
  | String c _ => Ascii.eqb c "," || Ascii.eqb c "]" || Ascii.eqb c "}" || is_space c
  end.

(** a number literal that the reader takes whole *)
Definition number_literal (lit : string) : Prop :=
  (∃ c s, lit = String c s ∧ (is_digit c || Ascii.eqb c "-") = true) ∧
  ∀ rest, ends rest = true → read_number (lit +:+ rest) = Some (lit, rest).

Fixpoint height (j : json) : nat :=
  match j with
  | JArray l => S (fold_right (λ x n, Nat.max (height x) n) O l)
  | JObject l => S (fold_right (λ p n, Nat.max (height p.2) n) O l)
  | _ => O
  end.

#[warnings="-register-all"]
Inductive well_formed : json → Prop :=
| wf_null : well_formed JNull
| wf_bool b : well_formed (JBool b)
| wf_number lit : number_literal lit → well_formed (JNumber lit)
| wf_string s : valid_text s = true → well_formed (JString s)
| wf_array l : Forall well_formed l → well_formed (JArray l)
| wf_object l : Forall (λ p, safe_text p.1 = true ∧ well_formed p.2) l → well_formed (JObject l).

Lemma json_safe_ascii c : json_safe c = true →
  in_range 0 127 c = true ∧ in_range 0 31 c = false ∧ Ascii.eqb c quote_char = false ∧ Ascii.eqb c backslash = false.
Proof.
  unfold json_safe. rewrite !andb_true_iff, !negb_true_iff. unfold in_range.
  intros [[[[[H H1] H2] _] _] _]. split_and!; try done; lia.
Qed.

Lemma write_chars_safe fuel s : (String.length s ≤ fuel)%nat → safe_text s = true → write_chars fuel s = s.
Proof.
  revert fuel. induction s as [|c s IH]; intros fuel Hf Hs; [by destruct fuel|].
  destruct fuel as [|fuel]; [simpl in Hf; lia|]. unfold safe_text in Hs. cbn [string_all] in Hs.
  apply andb_true_iff in Hs as [Hc Hs]. destruct (json_safe_ascii c Hc) as (H1 & _).
  cbn [write_chars]. rewrite H1, Hc. change (String c EmptyString +:+ ?t) with (String c t).
  f_equal. apply IH; [simpl in Hf; lia|done].
Qed.

Lemma write_string_safe s : safe_text s = true →
  write_string s = String quote_char (s +:+ String quote_char EmptyString).
Proof. intros Hs. unfold write_string. by rewrite write_chars_safe. Qed.

Lemma read_chars_safe fuel s rest : (String.length s < fuel)%nat → safe_text s = true →
  read_chars fuel (s +:+ String quote_char rest) = Some (s, rest).
Proof.
  revert fuel. induction s as [|c s IH]; intros fuel Hf Hs; (destruct fuel as [|fuel]; [simpl in Hf; lia|]).
  - reflexivity.
  - unfold safe_text in Hs. cbn [string_all] in Hs. apply andb_true_iff in Hs as [Hc Hs].
    destruct (json_safe_ascii c Hc) as (H1 & H2 & H3 & H4).
    change (String c s +:+ ?t) with (String c (s +:+ t)). cbn [read_chars]. rewrite H3, H4, H2.
    cbn [utf8_length]. rewrite H1. cbn [take_chars drop_chars].
    rewrite IH by (done || (simpl in Hf; lia)). done.
Qed.

Lemma read_string_safe s rest : safe_text s = true →
  read_string (s +:+ String quote_char rest) = Some (s, rest).
Proof. intros Hs. apply read_chars_safe; [rewrite string_length_app; simpl; lia|done]. Qed.

Lemma safe_text_valid s : safe_text s = true → valid_text s = true.
Proof.
  unfold valid_text, safe_text. induction s as [|c s IH]; [done|]. cbn [string_all String.length valid_utf8].
  intros [Hc Hs]%andb_true_iff. destruct (json_safe_ascii c Hc) as (H1 & _).
  cbn [utf8_length]. rewrite H1. cbn [drop_chars]. by apply IH.
Qed.

(** An encoding does not depend on what follows it. *)
Lemma utf8_length_prefix s n t : utf8_length s = Some n →
  (0 < n)%nat ∧ utf8_length (take_chars n s +:+ t) = Some n ∧ String.length (take_chars n s) = n.
Proof.
  destruct s as [|a s]; [done|]. cbn [utf8_length]. destruct (in_range 0 127 a) eqn:Ha.
  { intros [= <-]. cbn [take_chars]. change (String a EmptyString +:+ t) with (String a t).
    cbn [utf8_length]. rewrite Ha. split_and!; done || lia. }
  destruct s as [|b s]; [done|]. destruct (in_range 194 223 a) eqn:Ha2.
  { destruct (in_range 128 191 b) eqn:Hb; [|done]. intros [= <-]. cbn [take_chars].
    change (String a (String b EmptyString) +:+ t) with (String a (String b t)).
    cbn [utf8_length]. rewrite Ha, Ha2, Hb. split_and!; done || lia. }
  destruct s as [|c s]; [done|]. intros H. assert (Hn : n = 3%nat ∨ n = 4%nat ∧ s ≠ EmptyString).
  { revert H. cbv zeta. repeat case_match; intros [= <-]; auto. }
  destruct Hn as [->|[-> Hs]].
  - split; [lia|]. split; [|done]. cbn [take_chars].
    change (String a (String b (String c EmptyString)) +:+ t) with (String a (String b (String c t))).
    cbn [utf8_length]. rewrite Ha, Ha2. revert H. cbv zeta. repeat case_match; done.
  - destruct s as [|d s]; [done|]. split; [lia|]. split; [|done]. cbn [take_chars].
    change (String a (String b (String c (String d EmptyString))) +:+ t)
      with (String a (String b (String c (String d t)))).
    cbn [utf8_length]. rewrite Ha, Ha2. revert H. cbv zeta. repeat case_match; done.
Qed.

(** [written], at the front of a text, is read as [text] in one step *)
Definition reads_as (written text : string) : Prop :=
  ∀ fuel t u rest, read_chars fuel t = Some (u, rest) →
    read_chars (S fuel) (written +:+ t) = Some (text +:+ u, rest).

Lemma read_escape c : in_range 0 127 c = true → json_safe c = false → reads_as (escape c) (String c EmptyString).
Proof.
  intros Hc Hs fuel t u rest Ht. destruct c as [[] [] [] [] [] [] [] []]; try discriminate.
  all: lazy -[read_chars String.app]; cbn [String.app]; cbn [read_chars]; lazy -[read_chars]; rewrite Ht; reflexivity.
Qed.

(** a rune beyond ASCII, or an ASCII character that needs no escape, is read as it is *)
Lemma read_rune c s n : utf8_length (String c s) = Some n → in_range 0 127 c = false ∨ json_safe c = true →
  reads_as (take_chars n (String c s)) (take_chars n (String c s)).
Proof.
  intros Hn Hc fuel t u rest Ht. destruct (utf8_length_prefix _ _ t Hn) as (H0 & Hn' & Hl).
  destruct n as [|n]; [lia|]. cbn [take_chars] in *. set (r := take_chars n s) in *.
  change (String c r +:+ t) with (String c (r +:+ t)) in *. cbn [read_chars]. cbv zeta.
  assert (Hplain : Ascii.eqb c quote_char = false ∧ Ascii.eqb c backslash = false ∧ in_range 0 31 c = false).
  { destruct Hc as [Hc|Hc]; [|by destruct (json_safe_ascii c Hc) as (_ & ? & ? & ?)].
    split_and!; [apply Ascii.eqb_neq; intros ->; by vm_compute in Hc..|]. unfold in_range in *. lia. }
  destruct Hplain as (-> & -> & ->). rewrite Hn'. change (String c (r +:+ t)) with (String c r +:+ t).
  rewrite <- Hl, take_chars_app, drop_chars_app, Ht. done.
Qed.

Lemma write_chars_rune fuel c s n : utf8_length (String c s) = Some n →
  ∃ w, write_chars (S fuel) (String c s) = w +:+ write_chars fuel (drop_chars n (String c s)) ∧
    w ≠ EmptyString ∧ reads_as w (take_chars n (String c s)).
Proof.
  intros Hn. destruct (utf8_length_prefix _ _ EmptyString Hn) as (H0 & _ & Hl).
  destruct (in_range 0 127 c) eqn:Hc.
  - assert (n = 1%nat) as -> by (cbn [utf8_length] in Hn; rewrite Hc in Hn; by injection Hn).
    cbn [write_chars drop_chars take_chars]. rewrite Hc. eexists. split; [reflexivity|].
    destruct (json_safe c) eqn:Hs.
    + split; [done|]. apply (read_rune c s 1 Hn). by right.
    + split; [|by apply read_escape]. unfold escape. by repeat case_match.
  - cbn [write_chars]. rewrite Hc, Hn. cbv zeta. eexists. split; [reflexivity|].
    assert (Hr : take_chars n (String c s) ≠ EmptyString) by (intros E; rewrite E in Hl; simpl in Hl; lia).
    case_match eqn:E1; [apply String.eqb_eq in E1; rewrite E1; split; [done|]; intros fuel' t u rest Ht|].
    { lazy -[read_chars String.app]. cbn [String.app]; cbn [read_chars]; lazy -[read_chars]; rewrite Ht; reflexivity. }
    case_match eqn:E2; [apply String.eqb_eq in E2; rewrite E2; split; [done|]; intros fuel' t u rest Ht|].
    { lazy -[read_chars String.app]. cbn [String.app]; cbn [read_chars]; lazy -[read_chars]; rewrite Ht; reflexivity. }
    split; [done|]. apply read_rune; [done|by left].
Qed.

Lemma read_chars_write fuel rfuel s rest :
  (String.length (write_chars fuel s) < rfuel)%nat → valid_utf8 fuel s = true →
  read_chars rfuel (write_chars fuel s +:+ String quote_char rest) = Some (s, rest).
Proof.
  revert s rfuel. induction fuel as [|fuel IH]; intros s rfuel Hf Hs.
  { destruct s; [|done]. by destruct rfuel; [simpl in Hf; lia|]. }
  destruct s as [|c s]; [by destruct rfuel; [simpl in Hf; lia|]|]. cbn [valid_utf8] in Hs.
  destruct (utf8_length (String c s)) as [n|] eqn:Hn; [|done].
  destruct (write_chars_rune fuel c s n Hn) as (w & Hw & Hne & Hread). rewrite Hw in *.
  rewrite string_length_app in Hf. destruct rfuel as [|rfuel]; [lia|]. rewrite string_app_assoc.
  rewrite (Hread rfuel _ (drop_chars n (String c s)) rest); [by rewrite take_drop_chars|].
  apply IH; [|done]. destruct w; [done|]. simpl in Hf. lia.
Qed.

Lemma read_string_write s rest : valid_text s = true →
  read_string (write_chars (String.length s) s +:+ String quote_char rest) = Some (s, rest).
Proof. intros Hs. apply read_chars_write; [rewrite string_length_app; simpl; lia|done]. Qed.

Lemma commas_cons x y l : commas (x :: y :: l) = x +:+ "," +:+ commas (y :: l).
Proof. done. Qed.

(** the first character of a written value *)
Definition value_head (c : ascii) : bool :=
  Ascii.eqb c quote_char || Ascii.eqb c "[" || Ascii.eqb c "{" || Ascii.eqb c "n" || Ascii.eqb c "t"
  || Ascii.eqb c "f" || is_digit c || Ascii.eqb c "-".

Lemma write_head j : well_formed j → ∃ c s, write j = String c s ∧ value_head c = true.
Proof.
  intros [|[]|lit [(c & s & -> & Hc) _]|s Hs|l _|l _]; try (by eexists _, _).
  exists c, s. split; [done|]. unfold value_head. apply orb_true_iff in Hc as [-> | ->]; by rewrite !orb_true_r.
Qed.

Lemma value_head_not c d : value_head c = true → value_head d = false → Ascii.eqb c d = false.
Proof. intros Hc Hd. apply Ascii.eqb_neq. intros ->. congruence. Qed.

Lemma value_head_space c : value_head c = true → is_space c = false.
Proof.
  intros Hc. unfold is_space. rewrite (value_head_not c " " Hc) by done. cbn [orb].
  rewrite !orb_false_iff. split_and!; apply Z.eqb_neq; intros E;
    unfold value_head, is_digit in Hc; rewrite E in Hc; revert Hc.
  all: rewrite !orb_true_iff, !Ascii.eqb_eq; intros Hc; repeat destruct Hc as [Hc|Hc]; try (subst c; by vm_compute in E).
  all: done.
Qed.

Lemma skip_space_head c s : is_space c = false → skip_space (String c s) = String c s.
Proof. intros Hc. simpl. by rewrite Hc. Qed.

Lemma write_start j t : well_formed j → ∃ c s, write j +:+ t = String c s ∧ value_head c = true ∧
  skip_space (write j +:+ t) = write j +:+ t.
Proof.
  intros (c & s & -> & Hc)%write_head. exists c, (s +:+ t). split; [done|]. split; [done|].
  by apply skip_space_head, value_head_space.
Qed.

Lemma ends_cons c t : (Ascii.eqb c "," || Ascii.eqb c "]" || Ascii.eqb c "}") = true → ends (String c t) = true.
Proof. intros Hc. simpl. by rewrite Hc. Qed.

Section with_reader.
Context (rv : string → option (json * string)).

Definition reads (j : json) : Prop := ∀ t, ends t = true → rv (write j +:+ t) = Some (j, t).

Lemma read_elements_write l rest n :
  l ≠ [] → (length l ≤ n)%nat → Forall reads l →
  read_elements rv n (commas (map write l) +:+ String "]" rest) = Some (l, rest).
Proof.
  intros Hne Hn HF. revert n Hn. induction HF as [|x l Hx HF IH]; [done|]. intros [|n] Hn; [simpl in Hn; lia|].
  destruct l as [|y l]; cbn [map].
  - change (commas [write x]) with (write x). cbn [read_elements]. by rewrite Hx.
  - rewrite commas_cons, !string_app_assoc. change ("," +:+ ?t) with (String "," t).
    cbn [read_elements]. rewrite Hx by done. cbn [mbind option_bind].
    change (strip "," (skip_space (String "," ?t))) with (Some t). cbn iota.
    cbn [map] in IH. rewrite IH by (done || simpl in *; lia). done.
Qed.

Definition write_member (p : string * json) : string := write_string p.1 +:+ ":" +:+ write p.2.

Lemma read_key_write key t : safe_text key = true →
  read_key (write_string key +:+ ":" +:+ t) = Some (key, t).
Proof.
  intros Hk. rewrite write_string_safe by done. unfold read_key.
  change (String quote_char (key +:+ String quote_char EmptyString) +:+ ?u)
    with (String quote_char ((key +:+ String quote_char EmptyString) +:+ u)).
  change (strip quote_char (skip_space (String quote_char ?u))) with (Some u). cbn [mbind option_bind].
  rewrite string_app_assoc. change (String quote_char EmptyString +:+ ?u) with (String quote_char u).
  by rewrite read_string_safe.
Qed.

Lemma read_members_write l rest n :
  l ≠ [] → (length l ≤ n)%nat → Forall (λ p, safe_text p.1 = true ∧ reads p.2) l →
  read_members rv n (commas (map write_member l) +:+ String "}" rest) = Some (l, rest).
Proof.
  intros Hne Hn HF. revert n Hn. induction HF as [|[k x] l [Hk Hx] HF IH]; [done|]. intros [|n] Hn; [simpl in Hn; lia|].
  simpl in Hk, Hx. cbn [map]. destruct l as [|y l]; cbn [map].
  - change (commas [write_member (k, x)]) with (write_string k +:+ ":" +:+ write x).
    rewrite !string_app_assoc. cbn [read_members]. rewrite read_key_write by done.
    cbn [mbind option_bind]. by rewrite Hx.
  - rewrite commas_cons. change (write_member (k, x)) with (write_string k +:+ ":" +:+ write x).
    rewrite !string_app_assoc. cbn [read_members]. rewrite read_key_write by done.
    cbn [mbind option_bind]. change ("," +:+ ?t) with (String "," t). rewrite Hx by done. cbn [mbind option_bind].
    change (strip "," (skip_space (String "," ?t))) with (Some t). cbn iota.
    cbn [map] in IH. rewrite IH by (done || simpl in *; lia). done.
Qed.
End with_reader.

Lemma write_nonempty j : well_formed j → (0 < String.length (write j))%nat.
Proof. intros (c & s & -> & _)%write_head. simpl. lia. Qed.

Lemma commas_length {A} (f : A → string) l :
  (∀ x, x ∈ l → (0 < String.length (f x))%nat) → (length l ≤ String.length (commas (map f l)))%nat.
Proof.
  induction l as [|x l IH]; intros Hl; [simpl; lia|]. pose proof (Hl x ltac:(by left)) as Hx.
  destruct l as [|y l]; [simpl; lia|]. cbn [map]. rewrite commas_cons, !string_length_app.
  specialize (IH ltac:(intros; apply Hl; by right)). cbn [map] in IH. simpl in *. lia.
Qed.

Lemma height_array l : height (JArray l) = S (fold_right (λ x n, Nat.max (height x) n) O l).
Proof. done. Qed.

Lemma height_elem l x : x ∈ l → (height x < height (JArray l))%nat.
Proof.
  rewrite height_array. induction l as [|y l IH]; [by intros ?%not_elem_of_nil|].
  intros [->|Hx]%elem_of_cons; simpl; [lia|]. specialize (IH Hx). lia.
Qed.

Lemma height_member l p : p ∈ l → (height p.2 < height (JObject l))%nat.
Proof.
  change (height (JObject l)) with (S (fold_right (λ p n, Nat.max (height p.2) n) O l)).
  induction l as [|y l IH]; [by intros ?%not_elem_of_nil|].
  intros [->|Hx]%elem_of_cons; simpl; [lia|]. specialize (IH Hx). lia.
Qed.

(** [j] is read back from its text, before anything that ends a value *)
Definition read_back (j : json) : Prop := ∀ fuel depth,
  (height j < fuel)%nat → 0 ≤ depth → depth + Z.of_nat (height j) ≤ maxNestingDepth →
  reads (read_value fuel depth) j.

Lemma read_back_number lit : number_literal lit → read_back (JNumber lit).
Proof.
  intros Hlit fuel depth Hf H0 Hd t Ht. pose proof (wf_number lit Hlit) as Hwf.
  destruct fuel as [|fuel]; [simpl in Hf; lia|]. destruct Hlit as [(c & s & E & Hc) Hread].
  cbn [write]. specialize (Hread t Ht). rewrite E in *. change (String c s +:+ t) with (String c (s +:+ t)) in *.
  assert (Hnot : ∀ d, (is_digit d || Ascii.eqb d "-") = false → Ascii.eqb c d = false).
  { intros d Hdd. apply Ascii.eqb_neq. intros ->. congruence. }
  assert (Hhead : value_head c = true).
  { unfold value_head. apply orb_true_iff in Hc as [-> | ->]; by rewrite !orb_true_r. }
  cbn [read_value]. rewrite skip_space_head by by apply value_head_space.
  rewrite (Hnot quote_char), (Hnot "["%char), (Hnot "{"%char) by done.
  assert (Hp : ∀ d p, (is_digit d || Ascii.eqb d "-") = false → has_prefix (String c (s +:+ t)) (String d p) = false).
  { intros d p Hdd. simpl. rewrite (proj2 (Ascii.eqb_neq d c)); [done|]. intros ->. congruence. }
  rewrite (Hp "n"%char "ull"), (Hp "t"%char "rue"), (Hp "f"%char "alse") by done.
  by rewrite Hread.
Qed.

Lemma read_back_string s : valid_text s = true → read_back (JString s).
Proof.
  intros Hs fuel depth Hf H0 Hd t Ht. destruct fuel as [|fuel]; [simpl in Hf; lia|].
  cbn [write]. unfold write_string. set (w := write_chars _ s).
  change (String quote_char (w +:+ String quote_char EmptyString) +:+ t)
    with (String quote_char ((w +:+ String quote_char EmptyString) +:+ t)).
  rewrite string_app_assoc. change (String quote_char EmptyString +:+ t) with (String quote_char t).
  cbn [read_value]. change (skip_space (String quote_char ?u)) with (String quote_char u). cbn iota.
  change (Ascii.eqb quote_char quote_char) with true. cbn iota. subst w. by rewrite read_string_write.
Qed.

Lemma read_back_array l : Forall well_formed l → Forall read_back l → read_back (JArray l).
Proof.
  intros Hwf HF fuel depth Hf H0 Hd t Ht. destruct fuel as [|fuel]; [simpl in Hf; lia|].
  change (write (JArray l)) with ("[" +:+ commas (map write l) +:+ "]"). rewrite !string_app_assoc.
  change ("[" +:+ ?u) with (String "[" u). change ("]" +:+ t) with (String "]" t).
  cbn [read_value]. change (skip_space (String "[" ?u)) with (String "[" u). cbn iota.
  change (Ascii.eqb "[" quote_char) with false. change (Ascii.eqb "[" "[") with true. cbn iota.
  rewrite height_array in Hd. rewrite (proj2 (Z.leb_gt maxNestingDepth depth)) by lia.
  destruct l as [|x l]; [done|].
  assert (Hstrip : strip "]" (skip_space (commas (map write (x :: l)) +:+ String "]" t)) = None).
  { apply Forall_cons in Hwf as [Hx _]. assert (∃ u, commas (map write (x :: l)) = write x +:+ u) as [u ->].
    { destruct l; cbn [map]; [exists EmptyString; by rewrite string_app_nil_r|].
      rewrite commas_cons. by eexists. }
    rewrite string_app_assoc. destruct (write_start x (u +:+ String "]" t) Hx) as (c & s0 & E & Hc & ->).
    rewrite E. simpl. by rewrite (value_head_not c "]" Hc). }
  rewrite Hstrip, read_elements_write; [done|done| |].
  - rewrite string_length_app. etrans; [apply commas_length|apply Nat.le_add_r].
    intros y Hy. apply write_nonempty. by eapply Forall_forall in Hwf.
  - apply Forall_forall. intros y Hy. rewrite Forall_forall in HF. pose proof (height_elem _ _ Hy) as Hh.
    rewrite height_array in *. apply HF; [done|simpl in *; lia..].
Qed.

Lemma read_back_object l :
  Forall (λ p, safe_text p.1 = true ∧ well_formed p.2) l → Forall (λ p, read_back p.2) l → read_back (JObject l).
Proof.
  intros Hwf HF fuel depth Hf H0 Hd t Ht. destruct fuel as [|fuel]; [simpl in Hf; lia|].
  change (write (JObject l)) with ("{" +:+ commas (map write_member l) +:+ "}"). rewrite !string_app_assoc.
  change ("{" +:+ ?u) with (String "{" u). change ("}" +:+ t) with (String "}" t).
  cbn [read_value]. change (skip_space (String "{" ?u)) with (String "{" u). cbn iota.
  change (Ascii.eqb "{" quote_char) with false. change (Ascii.eqb "{" "[") with false.
  change (Ascii.eqb "{" "{") with true. cbn iota.
  rewrite (proj2 (Z.leb_gt maxNestingDepth depth)) by (simpl in Hd; lia).
  destruct l as [|[k x] l]; [done|].
  assert (Hstrip : strip "}" (skip_space (commas (map write_member ((k, x) :: l)) +:+ String "}" t)) = None).
  { apply Forall_cons in Hwf as [[Hk _] _]. simpl in Hk.
    assert (∃ u, commas (map write_member ((k, x) :: l)) = String quote_char u) as [u ->]; [|done].
    destruct l; cbn [map]; rewrite ?commas_cons; unfold write_member; cbn [fst]; rewrite write_string_safe by done;
      by eexists. }
  rewrite Hstrip, read_members_write; [done|done| |].
  - rewrite string_length_app. etrans; [apply commas_length|apply Nat.le_add_r].
    intros p Hp. eapply Forall_forall in Hwf as [Hk _]; [|done].
    unfold write_member. rewrite write_string_safe by done. simpl. lia.
  - apply Forall_forall. intros p Hp. rewrite Forall_forall in HF, Hwf. pose proof (height_member _ _ Hp) as Hh.
    split; [by apply Hwf|]. apply HF; [done|lia..].
Qed.

Lemma well_formed_read_back j : well_formed j → read_back j.
Proof.
  induction j as [| | | |l IH|l IH] using json_nested_ind; inversion 1 as [| |lit Hlit|s0 Hs|l1 Hl|l1 Hl]; subst.
  - intros fuel depth Hf H0 Hd t Ht. destruct fuel as [|fuel]; [simpl in Hf; lia|by destruct t].
  - intros fuel depth Hf H0 Hd t Ht. destruct fuel as [|fuel]; [simpl in Hf; lia|]. destruct b; by destruct t.
  - by apply read_back_number.
  - by apply read_back_string.
  - apply read_back_array; [done|]. apply Forall_forall. intros x Hx. rewrite Forall_forall in IH, Hl. auto.
  - apply read_back_object; [done|]. apply Forall_forall. intros x Hx. rewrite Forall_forall in IH, Hl.
    apply IH; [done|]. by apply Hl.
Qed.

(** the text is long enough to be the fuel of its reading *)
Lemma height_length j : (height j ≤ String.length (write j))%nat.
Proof.
  induction j as [| | | |l IH|l IH] using json_nested_ind; try (simpl; lia).
  - change (write (JArray l)) with ("[" +:+ commas (map write l) +:+ "]"). rewrite height_array, !string_length_app.
    cut (fold_right (λ x n, Nat.max (height x) n) O l ≤ String.length (commas (map write l)))%nat; [simpl; lia|].
    induction IH as [|x l Hx _ IH]; [simpl; lia|]. destruct l as [|y l]; [simpl in *; lia|].
    cbn [map]. rewrite commas_cons, !string_length_app. cbn [map] in IH. simpl in *. lia.
  - change (write (JObject l)) with ("{" +:+ commas (map write_member l) +:+ "}"). rewrite !string_length_app.
    change (height (JObject l)) with (S (fold_right (λ p n, Nat.max (height p.2) n) O l)).
    cut (fold_right (λ p n, Nat.max (height p.2) n) O l ≤ String.length (commas (map write_member l)))%nat; [simpl; lia|].
    assert (Hm : ∀ p, String.length (write_member p) = (String.length (write_string p.1) + S (String.length (write p.2)))%nat).
    { intros p. unfold write_member. rewrite !string_length_app. simpl. lia. }
    induction IH as [|p l Hp _ IH]; [simpl; lia|]. destruct l as [|y l].
    { cbn [map]. change (commas [write_member p]) with (write_member p). rewrite Hm. simpl. lia. }
    cbn [map]. rewrite commas_cons, !string_length_app, Hm. cbn [map] in IH. simpl in *. lia.
Qed.

(** Decoding gives back what was encoded, also with space after it *)
Lemma read_write j space :
  well_formed j → Z.of_nat (height j) ≤ maxNestingDepth → skip_space space = EmptyString →
  read (write j +:+ space) = Some j.
Proof.
  intros Hwf Hh Hspace. unfold read. assert (Hends : ends space = true).
  { destruct space as [|c s]; [done|]. simpl in *. destruct (is_space c); [by rewrite orb_true_r|done]. }
  pose proof (height_length j). rewrite (well_formed_read_back j Hwf _ 0); [|..|done]; cbn [mbind option_bind].
  - by rewrite Hspace.
  - rewrite string_length_app. lia.
  - done.
  - lia.
Qed.

(** ** The parts of a number literal *)
Definition fraction_text (o : option string) : string :=
  match o with None => EmptyString | Some ds => "." +:+ ds end.
Definition exponent_text (o : option (string * string)) : string :=
  match o with None => EmptyString | Some (sg, ds) => "e" +:+ sg +:+ ds end.

Definition digits (s : string) : Prop := string_all is_digit s = true ∧ s ≠ EmptyString.
(** signs, digits and the number of them are as the grammar of numbers has them *)
Record number_parts (sign int_part : string) (frac : option string) (expo : option (string * string)) : Prop := {
  np_sign : sign = EmptyString ∨ sign = "-";
  np_int : digits int_part;
  np_zero : integer_part int_part = true;
  np_frac : ∀ ds, frac = Some ds → digits ds;
  np_expo : ∀ sg ds, expo = Some (sg, ds) → (sg = EmptyString ∨ sg = "+" ∨ sg = "-") ∧ digits ds }.

Lemma not_digit_neq c d : is_digit c = true → is_digit d = false → Ascii.eqb c d = false.
Proof. intros Hc Hd. apply Ascii.eqb_neq. intros ->. congruence. Qed.

Lemma digits_cons s : digits s → ∃ c t, s = String c t ∧ is_digit c = true.
Proof.
  intros [Hs Hne]. destruct s as [|c t]; [done|]. cbn [string_all] in Hs. apply andb_true_iff in Hs as [Hc _]. eauto.
Qed.

(** a text that no number continues with *)
Definition ends_number (rest : string) : bool :=
  match rest with
  | EmptyString => true
  | String c _ => negb (is_digit c || Ascii.eqb c "." || Ascii.eqb c "e" || Ascii.eqb c "E")
  end.

Lemma ends_ends_number rest : ends rest = true → ends_number rest = true.
Proof.
  destruct rest as [|c rest]; [done|]. unfold ends, ends_number, is_space. rewrite !orb_true_iff.
  intros Hc. apply negb_true_iff. rewrite !orb_false_iff.
  assert (Hcase : c = ","%char ∨ c = "]"%char ∨ c = "}"%char ∨ c = " "%char ∨ code c = 9 ∨ code c = 10 ∨ code c = 13).
  { rewrite !Ascii.eqb_eq, !Z.eqb_eq in Hc. tauto. }
  clear Hc. destruct Hcase as [->|[->|[->|[->|Hc]]]]; try done.
  unfold is_digit. split_and!; [lia|apply Ascii.eqb_neq; intros ->; vm_compute in Hc; lia..].
Qed.

Lemma ends_number_digit rest : ends_number rest = true → starts_digit rest = false.
Proof.
  destruct rest as [|c rest]; [done|]. simpl. rewrite negb_true_iff, !orb_false_iff. tauto.
Qed.

Lemma read_sign_text plus sg s : sg = EmptyString ∨ (plus = true ∧ sg = "+") ∨ sg = "-" → starts_digit s = true →
  read_sign plus (sg +:+ s) = (sg, s).
Proof.
  intros Hsg Hs. destruct s as [|c t]; [done|]. simpl in Hs.
  destruct Hsg as [->|[[-> ->]| ->]]; [|done..]. change (EmptyString +:+ ?u) with u. unfold read_sign.
  by rewrite (not_digit_neq c "-"), (not_digit_neq c "+"), andb_false_r by done.
Qed.

Lemma starts_digit_app s rest : digits s → starts_digit (s +:+ rest) = true.
Proof. intros (c & t & -> & Hc)%digits_cons. done. Qed.

Lemma read_fraction_text frac rest : (∀ ds, frac = Some ds → digits ds) →
  starts_digit rest = false → strip "." rest = None →
  read_fraction (fraction_text frac +:+ rest) = Some (fraction_text frac, rest).
Proof.
  intros Hfrac Hrest Hdot. destruct frac as [ds|]; cbn [fraction_text].
  - destruct (Hfrac ds eq_refl) as [Hds Hne]. change (("." +:+ ds) +:+ rest) with (String "." (ds +:+ rest)).
    unfold read_fraction. cbn [strip]. change (Ascii.eqb "." ".") with true. cbn iota.
    rewrite span_digits_app by done. by destruct ds.
  - change (EmptyString +:+ rest) with rest. unfold read_fraction. by rewrite Hdot.
Qed.

Lemma read_exponent_text expo rest :
  (∀ sg ds, expo = Some (sg, ds) → (sg = EmptyString ∨ sg = "+" ∨ sg = "-") ∧ digits ds) →
  ends_number rest = true → read_exponent (exponent_text expo +:+ rest) = Some (exponent_text expo, rest).
Proof.
  intros Hexpo Hrest. pose proof (ends_number_digit _ Hrest) as Hd. destruct expo as [[sg ds]|]; cbn [exponent_text].
  - destruct (Hexpo sg ds eq_refl) as [Hsg Hds].
    rewrite !string_app_assoc. change ("e" +:+ ?u) with (String "e" u). unfold read_exponent.
    change (Ascii.eqb "e" "e") with true. cbn [orb].
    rewrite read_sign_text; [|tauto|by apply starts_digit_app].
    rewrite span_digits_app by (done || apply Hds). by destruct Hds as [_ Hne]; destruct ds.
  - change (EmptyString +:+ rest) with rest. unfold read_exponent. destruct rest as [|c rest]; [done|].
    simpl in Hrest. rewrite negb_true_iff, !orb_false_iff in Hrest. destruct Hrest as [[_ ->] ->]. done.
Qed.

(** after the integer part of a literal comes no digit, and after its fraction no dot *)
Lemma exponent_text_start expo rest : ends_number rest = true →
  starts_digit (exponent_text expo +:+ rest) = false ∧ strip "." (exponent_text expo +:+ rest) = None.
Proof.
  intros Hrest. destruct expo as [[sg ds]|]; [done|]. change (exponent_text None +:+ rest) with rest.
  split; [by apply ends_number_digit|]. destruct rest as [|c rest]; [done|]. simpl in *.
  rewrite negb_true_iff, !orb_false_iff in Hrest. by destruct Hrest as [[[_ ->] _] _].
Qed.

Lemma fraction_text_start frac rest : starts_digit rest = false → starts_digit (fraction_text frac +:+ rest) = false.
Proof. by destruct frac. Qed.

Lemma read_number_parts sign int_part frac expo rest :
  number_parts sign int_part frac expo → ends_number rest = true →
  read_number ((sign +:+ int_part +:+ fraction_text frac +:+ exponent_text expo) +:+ rest)
  = Some (sign +:+ int_part +:+ fraction_text frac +:+ exponent_text expo, rest).
Proof.
  intros [Hsign Hint Hzero Hfrac Hexpo] Hrest. rewrite !string_app_assoc. unfold read_number.
  rewrite read_sign_text; [|tauto|by apply starts_digit_app].
  destruct (exponent_text_start expo rest Hrest) as [H1 H2].
  rewrite span_digits_app; [|apply Hint|by apply fraction_text_start]. rewrite Hzero.
  rewrite read_fraction_text by done. cbn [mbind option_bind]. by rewrite read_exponent_text.
Qed.

Lemma number_parts_literal sign int_part frac expo :
  number_parts sign int_part frac expo →
  number_literal (sign +:+ int_part +:+ fraction_text frac +:+ exponent_text expo).
Proof.
  intros Hp. split.
  - pose proof (np_int _ _ _ _ Hp) as (c & t & -> & Hc)%digits_cons. destruct (np_sign _ _ _ _ Hp) as [->| ->].
    + change (EmptyString +:+ ?u) with u. change (String c t +:+ ?u) with (String c (t +:+ u)).
      eexists _, _. split; [done|]. by rewrite Hc.
    + eexists _, _. split; [done|]. done.
  - intros rest Hrest. by apply read_number_parts, ends_ends_number.
Qed.

Lemma integer_part_head d s : 0 < d < 10 → integer_part (String (digit_char d) s) = true.
Proof.
  intros Hd. unfold integer_part. apply orb_true_iff. left. apply negb_true_iff, Ascii.eqb_neq.
  intros E%(f_equal code). rewrite code_digit_char in E by lia. change (code "0") with 48 in E. lia.
Qed.

Lemma format_int_integer_part n : 0 ≤ n → digits (format_int n) ∧ integer_part (format_int n) = true.
Proof.
  intros Hn. destruct (decide (n = 0)) as [->|Hne]; [done|].
  destruct (format_int_head n ltac:(lia)) as (d & s & Hd & E). split.
  - split; [by apply format_int_digits|by rewrite E].
  - rewrite E. by apply integer_part_head.
Qed.

(** the text of an integer is a number *)
Lemma format_int_literal z : number_literal (format_int z).
Proof.
  assert (Hpos : ∀ n, 0 ≤ n → ∀ sign, sign = EmptyString ∨ sign = "-" → number_literal (sign +:+ format_int n)).
  { intros n Hn sign Hsign. destruct (format_int_integer_part n Hn) as [H1 H2].
    assert (Hp : number_parts sign (format_int n) None None) by by constructor.
    apply number_parts_literal in Hp. cbn [fraction_text exponent_text] in Hp.
    change (EmptyString +:+ EmptyString) with EmptyString in Hp. by rewrite string_app_nil_r in Hp. }
  destruct (Z.ltb_spec z 0) as [Hz|Hz].
  - assert (E : format_int z = "-" +:+ format_int (- z)).
    { unfold format_int. rewrite (proj2 (Z.ltb_lt z 0)), (proj2 (Z.ltb_ge (- z) 0)) by lia. done. }
    rewrite E. apply Hpos; [lia|by right].
  - apply (Hpos z Hz EmptyString). by left.
Qed.

(** an integer as a number *)
Definition int_json (z : Z) : json := JNumber (format_int z).
Lemma int_json_wf z : well_formed (int_json z).
Proof. constructor. apply format_int_literal. Qed.
