(* ===== verification/Decimal.v ===== *)
(** Package [strconv] on [float64]: the correctly rounded value of a decimal, the
    shortest decimal that reads back as a given float, and their texts as
    [encoding/json] writes and reads them. *)
From S2P Require Import Prelude GoString Float64 Json.
From Stdlib Require Import Floats.SpecFloat.

Local Open Scope string_scope.
Local Open Scope Z_scope.

#[global] Instance spec_float_eq_dec : EqDecision spec_float.
Proof. solve_decision. Defined.

(** the float nearest to [d * 10 ^ k], for [0 <= d] *)
Definition f64_of_decimal (d k : Z) : float64 :=
  if 0 <=? k then binary_normalize 53 1024 (d * 10 ^ k) 0 false
  else
    match d with
    | Zpos _ =>
        let '(m, e, l) := SFdiv_core_binary 53 1024 d 0 (10 ^ (- k)) 0 in
        binary_round_aux 53 1024 false m e l
    | _ => S754_zero false
    end.

(** ** The shortest decimal *)

(** [floor (m * 2 ^ e / 10 ^ k)] *)
Definition scaled_floor (m : positive) (e k : Z) : Z :=
  (Z.pos m * 2 ^ Z.max 0 e * 10 ^ Z.max 0 (- k)) / (2 ^ Z.max 0 (- e) * 10 ^ Z.max 0 k).
(** whether [m * 2 ^ e / 10 ^ k] is nearer to [d] than to [d + 1] *)
Definition nearer_low (m : positive) (e k d : Z) : bool :=
  2 * (Z.pos m * 2 ^ Z.max 0 e * 10 ^ Z.max 0 (- k)) <=?
  (2 * d + 1) * (2 ^ Z.max 0 (- e) * 10 ^ Z.max 0 k).

Definition decimal_digits (d : Z) : Z := slen (format_int d).

(** the decimal exponent of the leading digit of [m * 2 ^ e] *)
Fixpoint leading_exponent (fuel : nat) (m : positive) (e k : Z) : Z :=
  match fuel with
  | O => k
  | S fuel => if 0 <? scaled_floor m e k then k else leading_exponent fuel m e (k - 1)
  end.

(** the decimals next to [m * 2 ^ e] that are multiples of [10 ^ k] and read
    back as it, the nearer one first *)
Definition try_exponent (m : positive) (e k : Z) : option Z :=
  let d := scaled_floor m e k in
  let x := S754_finite false m e in
  let ok d := bool_decide (0 < d) && bool_decide (f64_of_decimal d k = x) in
  let '(first, second) := if nearer_low m e k d then (d, d + 1) else (d + 1, d) in
  if ok first then Some first else if ok second then Some second else None.

Fixpoint shortest_from (fuel : nat) (m : positive) (e k : Z) : option (Z * Z) :=
  match fuel with
  | O => None
  | S fuel =>
      match try_exponent m e k with
      | Some d => Some (d, k)
      | None => shortest_from fuel m e (k - 1)
      end
  end.

(** [30103 / 100000] is just above the decimal logarithm of 2, so the search for
    the leading digit starts at most a few digits above it; seventeen digits
    determine a float64. *)
Definition shortest (m : positive) (e : Z) : option (Z * Z) :=
  let start := (Z.log2 (Z.pos m) + e + 1) * 30103 / 100000 + 1 in
  shortest_from 17 m e (leading_exponent 8 m e start).

(** ** Text *)
(** the verb 'f' of the digits [d] at the exponent [k] *)
Definition text_f (d k : Z) : string :=
  let digits := format_int d in
  if 0 <=? k then digits +:+ zeros (Z.to_nat k)
  else
    let n := slen digits in
    if - k <? n then take_chars (Z.to_nat (n + k)) digits +:+ "." +:+ drop_chars (Z.to_nat (n + k)) digits
    else "0." +:+ zeros (Z.to_nat (- k - n)) +:+ digits.

(** the verb 'e', with the exponent as encoding/json cleans it up *)
Definition text_e (d k : Z) : string :=
  let digits := format_int d in
  let x := slen digits - 1 + k in
  take_chars 1 digits +:+ (if slen digits =? 1 then EmptyString else "." +:+ drop_chars 1 digits) +:+ "e" +:+
  (if x <? 0 then "-" +:+ format_int (- x)
   else "+" +:+ (if x <? 10 then "0" else EmptyString) +:+ format_int x).

(** [abs < 1e-6 || abs >= 1e21] selects the exponent form *)
Definition exponent_form (x : float64) : bool :=
  f64_ltb x (f64_of_decimal 1 (-6)) || f64_leb (f64_of_decimal 1 21) x.

(** the float encoder of encoding/json; NaN and the infinities have no text *)
Definition format_float (x : float64) : option string :=
  match x with
  | S754_zero false => Some "0"
  | S754_zero true => Some "-0"
  | S754_finite s m e =>
      '(d, k) ← shortest m e;
      let text := if exponent_form (S754_finite false m e) then text_e d k else text_f d k in
      Some ((if s then "-" else EmptyString) +:+ text)
  | _ => None
  end.

(** ** Reading *)

(** the value of an exponent, with its sign *)
Definition exponent_value (o : option (string * string)) : option Z :=
  match o with
  | None => Some 0
  | Some (sg, ds) => n ← parse_unsigned ds; Some (if String.eqb sg "-" then - n else n)
  end.

Definition with_sign (neg : bool) (value : float64) : option float64 :=
  if is_inf value then None
  else Some (match value with
             | S754_zero _ => S754_zero neg
             | S754_finite _ m e => S754_finite neg m e
             | v => v
             end).

(** strconv.ParseFloat on a JSON number literal; a value out of range is an error *)
Definition parse_float (literal : string) : option float64 :=
  let '(sign, s) := read_sign false literal in
  let '(int_part, s) := span_digits s in
  let '(frac, s) := match strip "." s with Some s => span_digits s | None => (EmptyString, s) end in
  d ← parse_unsigned (int_part +:+ frac);
  x ← match s with
      | EmptyString => Some 0
      | String c s =>
          if Ascii.eqb c "e" || Ascii.eqb c "E"
          then let '(sg, s) := read_sign true s in exponent_value (Some (sg, s))
          else None
      end;
  with_sign (String.eqb sign "-") (f64_of_decimal d (x - slen frac)).

Example format_ex : map format_float
  [f64_of_int 1; f64_of_int 10000; f64_div (f64_of_int 1) (f64_of_int 10); f64_div (f64_of_int 3) (f64_of_int 2);
   f64_of_decimal 15 (-8); f64_of_decimal 1 21; f64_div (f64_of_int 2) (f64_of_int 3)]
  = map Some ["1"; "10000"; "0.1"; "1.5"; "1.5e-7"; "1e+21"; "0.6666666666666666"].
Proof. vm_compute. reflexivity. Qed.
Example parse_ex : map parse_float ["0.1"; "1.5e-7"; "-2"; "1e400"]
  = [Some (f64_div (f64_of_int 1) (f64_of_int 10)); Some (f64_of_decimal 15 (-8)); Some (f64_of_int (-2)); None].
Proof. vm_compute. reflexivity. Qed.

(** ** Texts are read back *)
Lemma parse_float_parts sign int_part frac expo :
  number_parts sign int_part frac expo →
  parse_float (sign +:+ int_part +:+ fraction_text frac +:+ exponent_text expo)
  = d ← parse_unsigned (int_part +:+ default EmptyString frac);
    x ← exponent_value expo;
    with_sign (String.eqb sign "-") (f64_of_decimal d (x - slen (default EmptyString frac))).
Proof.
  intros [Hsign Hint Hzero Hfrac Hexpo]. unfold parse_float.
  rewrite read_sign_text; [|tauto|by apply starts_digit_app].
  destruct (exponent_text_start expo EmptyString eq_refl) as [H1 H2]. rewrite string_app_nil_r in H1, H2.
  rewrite span_digits_app; [|apply Hint|by apply fraction_text_start].
  assert (E : match strip "." (fraction_text frac +:+ exponent_text expo) with
              | Some s => span_digits s
              | None => (EmptyString, fraction_text frac +:+ exponent_text expo)
              end = (default EmptyString frac, exponent_text expo)).
  { destruct frac as [ds|]; cbn [fraction_text default].
    - change (("." +:+ ds) +:+ ?u) with (String "." (ds +:+ u)). cbn [strip].
      change (Ascii.eqb "." ".") with true. cbn iota. apply span_digits_app; [by apply Hfrac|done].
    - change (EmptyString +:+ ?u) with u. by rewrite H2. }
  rewrite E. destruct (parse_unsigned _) as [d|]; [|done]. cbn [mbind option_bind].
  destruct expo as [[sg ds]|]; [|done]. cbn [exponent_text].
  change ("e" +:+ ?u) with (String "e" u). cbn iota.
  change (Ascii.eqb "e" "e") with true. cbn [orb].
  destruct (Hexpo sg ds eq_refl) as [Hsg Hds]. rewrite <- (string_app_nil_r ds) at 1.
  rewrite read_sign_text; [|tauto|by apply starts_digit_app]. by rewrite string_app_nil_r.
Qed.

(** ** The shortest decimal *)
Lemma shortest_sound m e d k : shortest m e = Some (d, k) → 0 < d ∧ f64_of_decimal d k = S754_finite false m e.
Proof.
  unfold shortest. generalize 17%nat as fuel. generalize (leading_exponent 8 m e ((Z.log2 (Z.pos m) + e + 1) * 30103 / 100000 + 1)) as k0.
  intros k0 fuel. revert k0. induction fuel as [|fuel IH]; intros k0; cbn [shortest_from]; [done|].
  destruct (try_exponent m e k0) as [d'|] eqn:E; [|apply IH]. intros [= -> ->]. revert E.
  unfold try_exponent. destruct (nearer_low _ _ _ _);
    (repeat case_match; [..|done]); intros [= <-];
    match goal with H : bool_decide _ && bool_decide _ = true |- _ =>
      apply andb_true_iff in H as [?%bool_decide_eq_true ?%bool_decide_eq_true] end; done.
Qed.

Lemma f64_of_decimal_scale d k : 0 ≤ k → f64_of_decimal (d * 10 ^ k) 0 = f64_of_decimal d k.
Proof.
  intros Hk. unfold f64_of_decimal. rewrite (proj2 (Z.leb_le 0 k)) by done.
  change (0 <=? 0) with true. cbn iota. by rewrite Z.pow_0_r, Z.mul_1_r.
Qed.

(** a text of the decimal [d * 10 ^ k] *)
Definition decimal_text (d k : Z) (text : string) : Prop := ∃ int_part frac expo d' x,
  text = int_part +:+ fraction_text frac +:+ exponent_text expo ∧
  number_parts EmptyString int_part frac expo ∧
  parse_unsigned (int_part +:+ default EmptyString frac) = Some d' ∧ exponent_value expo = Some x ∧
  f64_of_decimal d' (x - slen (default EmptyString frac)) = f64_of_decimal d k.

Lemma digits_app_l s t : digits s → string_all is_digit t = true → digits (s +:+ t).
Proof.
  intros [Hs Hne] Ht. split; [by rewrite string_all_app, Hs|]. by destruct s.
Qed.

Lemma integer_part_app d s t : 0 < d < 10 → integer_part (String (digit_char d) s +:+ t) = true.
Proof. intros Hd. change (String (digit_char d) s +:+ t) with (String (digit_char d) (s +:+ t)). by apply integer_part_head. Qed.

Lemma parse_unsigned_app s t : s ≠ EmptyString → parse_unsigned (s +:+ t) = b ← parse_digits 0 s; parse_digits b t.
Proof. intros Hs. rewrite parse_unsigned_digits by by destruct s. apply parse_digits_app. Qed.

Lemma string_all_take_drop f n s : string_all f s = true →
  string_all f (take_chars n s) = true ∧ string_all f (drop_chars n s) = true.
Proof. intros Hs. rewrite <- (take_drop_chars n s), string_all_app in Hs. by apply andb_true_iff. Qed.

Lemma parse_unsigned_format_int n : 0 ≤ n → parse_unsigned (format_int n) = Some n.
Proof.
  intros Hn. rewrite parse_unsigned_digits; [by apply parse_digits_format_int|].
  by destruct (format_int_integer_part n Hn) as [[_ ?] _].
Qed.

Lemma parse_unsigned_pad x (b : bool) : 0 ≤ x →
  parse_unsigned ((if b then "0" else EmptyString) +:+ format_int x) = Some x.
Proof.
  intros Hx. destruct b; [|by apply parse_unsigned_format_int].
  rewrite parse_unsigned_app by done. change (parse_digits 0 "0") with (Some 0). cbn [mbind option_bind].
  by apply parse_digits_format_int.
Qed.

(** the digits of a number split in two *)
Lemma split_digits d n : 0 < d → (0 < n)%nat →
  let s := format_int d in
  digits (take_chars n s) ∧ integer_part (take_chars n s) = true ∧ string_all is_digit (drop_chars n s) = true ∧
  parse_unsigned (take_chars n s +:+ drop_chars n s) = Some d.
Proof.
  intros Hd Hn. cbv zeta. pose proof (format_int_digits d ltac:(lia)) as Hs.
  destruct (string_all_take_drop is_digit n _ Hs) as [H1 H2].
  pose proof (parse_digits_format_int d ltac:(lia)) as Hparse. rewrite take_drop_chars.
  destruct (format_int_head d Hd) as (c & t & Hc & E). rewrite E in *. destruct n as [|n]; [lia|].
  split; [by split|]. split; [by apply integer_part_head|]. split; [done|].
  by rewrite parse_unsigned_digits.
Qed.

Lemma text_f_decimal d k : 0 < d → decimal_text d k (text_f d k).
Proof.
  intros Hd. pose proof (format_int_digits d ltac:(lia)) as Hs.
  pose proof (parse_digits_format_int d ltac:(lia)) as Hparse.
  destruct (format_int_head d Hd) as (c & t & Hc & E).
  unfold text_f. cbv zeta. destruct (Z.leb_spec 0 k) as [Hk|Hk].
  - exists (format_int d +:+ zeros (Z.to_nat k)), None, None, (d * 10 ^ k), 0.
    cbn [fraction_text exponent_text]. change (default EmptyString None) with EmptyString.
    change (EmptyString +:+ EmptyString) with EmptyString.
    rewrite !string_app_nil_r. split; [done|]. split; [constructor; [by left|..]; try done|].
    + apply digits_app_l; [|apply zeros_digits]. split; [done|by rewrite E].
    + rewrite E. by apply integer_part_app.
    + rewrite parse_unsigned_app by by rewrite E. rewrite Hparse. cbn [mbind option_bind].
      rewrite parse_digits_zeros, Z2Nat.id by done. split; [done|]. split; [done|]. by apply f64_of_decimal_scale.
  - destruct (Z.ltb_spec (- k) (slen (format_int d))) as [Hlen|Hlen].
    + set (n := Z.to_nat (_ + k)); unfold slen in Hlen, n.
      destruct (split_digits d n Hd ltac:(lia)) as (H1 & H2 & H3 & H4).
      exists (take_chars n (format_int d)), (Some (drop_chars n (format_int d))), None, d, 0.
      assert (Hl : slen (drop_chars n (format_int d)) = - k) by (unfold slen; rewrite drop_chars_length; lia).
      cbn [fraction_text exponent_text exponent_value]. change (default EmptyString (Some ?s)) with s.
      rewrite string_app_nil_r, Hl.
      split; [done|]. split; [constructor; [by left|..]; try done|].
      * intros ds [= <-]. split; [done|]. intros Hnil. rewrite Hnil in Hl. unfold slen in Hl. simpl in Hl. lia.
      * split; [exact H4|]. split; [reflexivity|]. replace (0 - - k) with k by lia. reflexivity.
    + set (n := Z.to_nat (- k - _)). exists "0", (Some (zeros n +:+ format_int d)), None, d, 0.
      assert (Hl : slen (zeros n +:+ format_int d) = - k).
      { unfold slen in *. rewrite string_length_app, zeros_length. lia. }
      cbn [fraction_text exponent_text exponent_value]. change (default EmptyString (Some ?s)) with s.
      rewrite string_app_nil_r, Hl.
      split; [done|]. split; [constructor; [by left|..]; try done|].
      * intros ds [= <-]. split; [by rewrite string_all_app, zeros_digits|]. by destruct n; rewrite ?E.
      * split; [|split; [reflexivity|by replace (0 - - k) with k by lia]]. rewrite parse_unsigned_app by done. cbn [mbind option_bind].
        change (parse_digits 0 "0") with (Some 0). cbn [mbind option_bind].
        rewrite parse_digits_app, parse_digits_zeros. done.
Qed.

Lemma text_e_decimal d k : 0 < d → decimal_text d k (text_e d k).
Proof.
  intros Hd. pose proof (split_digits d 1 Hd ltac:(lia)) as (H1 & H2 & H3 & H4).
  destruct (format_int_head d Hd) as (c & t & Hc & E).
  unfold text_e. cbv zeta. set (x := slen (format_int d) - 1 + k).
  set (expo := (if x <? 0 then ("-", format_int (- x))
                else ("+", (if x <? 10 then "0" else EmptyString) +:+ format_int x))).
  set (frac := if slen (format_int d) =? 1 then None else Some (drop_chars 1 (format_int d))).
  assert (Hlen : String.length (drop_chars 1 (format_int d)) = (String.length (format_int d) - 1)%nat)
    by apply drop_chars_length.
  assert (Hpos : 0 < slen (format_int d)) by (rewrite E; unfold slen; simpl; lia).
  remember (drop_chars 1 (format_int d)) as rest eqn:Erest. clear Erest.
  assert (Hfrac : default EmptyString frac = rest).
  { unfold frac. destruct (Z.eqb_spec (slen (format_int d)) 1) as [E1|]; [|done]. unfold slen in E1. cbn [default].
    destruct rest as [|? ?]; [done|]. simpl in Hlen. lia. }
  exists (take_chars 1 (format_int d)), frac, (Some expo), d, x. split; [|split; [constructor; [by left|done|done|..]|]].
  - f_equal. unfold frac, expo. destruct (slen _ =? 1), (x <? 0); done.
  - unfold frac. intros ds. case_match eqn:E1; [done|]. intros [= <-]. split; [done|].
    apply Z.eqb_neq in E1. unfold slen in *. intros Hnil. rewrite Hnil in Hlen. simpl in Hlen. lia.
  - unfold expo. intros sg ds. destruct (Z.ltb_spec x 0); intros [= <- <-].
    + split; [by right; right|]. by apply format_int_integer_part; lia.
    + split; [by right; left|]. destruct (format_int_integer_part x ltac:(lia)) as [[Hx1 Hx2] _].
      split; [rewrite string_all_app, Hx1; by case_match|]. case_match; [done|]. by destruct (format_int x).
  - rewrite Hfrac, H4. split; [done|]. split.
    + unfold expo. destruct (Z.ltb_spec x 0); unfold exponent_value.
      * rewrite parse_unsigned_format_int by lia. cbn [mbind option_bind]. f_equal.
        change (String.eqb "-" "-") with true. cbn iota. lia.
      * rewrite parse_unsigned_pad by lia. done.
    + f_equal. unfold slen, x in *. rewrite Hlen. unfold slen. lia.
Qed.

(** The text of a float is a number literal that reads back as it. *)
Lemma format_float_reads_back x text :
  format_float x = Some text → number_literal text ∧ parse_float text = Some x.
Proof.
  destruct x as [s|s| |s m e]; [|done..|].
  { destruct s; intros [= <-]; (split; [|by vm_compute]).
    - apply (number_parts_literal "-" "0" None None). by constructor; [right|..].
    - apply (number_parts_literal EmptyString "0" None None). by constructor; [left|..]. }
  cbn [format_float]. destruct (shortest m e) as [[d k]|] eqn:Hs; [|done]. cbn [mbind option_bind].
  destruct (shortest_sound m e d k Hs) as [Hd Hv]. intros [= <-].
  assert (Ht : decimal_text d k (if exponent_form (S754_finite false m e) then text_e d k else text_f d k)).
  { case_match; [by apply text_e_decimal|by apply text_f_decimal]. }
  revert Ht. generalize (if exponent_form (S754_finite false m e) then text_e d k else text_f d k) as text.
  intros text (ip & frac & expo & d' & ev & -> & Hparts & Hd' & Hev & Hval).
  assert (Hp : number_parts (if s then "-" else EmptyString) ip frac expo).
  { destruct Hparts as [_ ? ? ? ?]. constructor; [destruct s; [by right|by left]|done..]. }
  split; [by apply number_parts_literal|]. rewrite (parse_float_parts _ _ _ _ Hp), Hd', Hev. cbn [mbind option_bind].
  rewrite Hval, Hv. by destruct s.
Qed.
