(* ===== verification/Netip.v ===== *)
(** Go's package [net/netip], the part the program uses: parsing addresses and
    prefixes, the canonical text form, un-mapping of IPv4-mapped addresses,
    masking, and prefix membership.

    An address is its 32-bit or 128-bit value, with the zone of an IPv6
    address ([EmptyString] for none). *)
From S2P Require Import Prelude GoString.

Local Open Scope string_scope.
Local Open Scope Z_scope.

Inductive Addr : Type :=
| Addr4 (value : Z)
| Addr6 (value : Z) (zone : string).

#[global] Instance Addr_eq_dec : EqDecision Addr.
Proof. solve_decision. Defined.

Definition Is4In6 (a : Addr) : bool :=
  match a with Addr4 _ => false | Addr6 v _ => v / 2 ^ 32 =? 65535 end.
Definition Unmap (a : Addr) : Addr :=
  match a with
  | Addr4 v => Addr4 v
  | Addr6 v _ => if Is4In6 a then Addr4 (v mod 2 ^ 32) else a
  end.
Definition BitLen (a : Addr) : Z := match a with Addr4 _ => 32 | Addr6 _ _ => 128 end.
Definition has_zone (a : Addr) : bool :=
  match a with Addr6 _ (String _ _) => true | _ => false end.
Definition without_zone (a : Addr) : Addr :=
  match a with Addr4 v => Addr4 v | Addr6 v _ => Addr6 v EmptyString end.
Definition addr_value (a : Addr) : Z := match a with Addr4 v => v | Addr6 v _ => v end.

(** ** Parsing *)

(** parseIPv4Fields: [val] and [digLen] are the current octet and its length,
    [fields] the octets read so far *)
Fixpoint parse4_loop (val : Z) (digLen : nat) (fields : list Z) (s : string) : option (list Z) :=
  match s with
  | EmptyString => if (length fields <? 3)%nat then None else Some (fields ++ [val])%list
  | String c rest =>
      if is_digit c then
        if Nat.eqb digLen 1 && (val =? 0) then None
        else let val := val * 10 + (code c - 48) in
             if 255 <? val then None else parse4_loop val (S digLen) fields rest
      else if Ascii.eqb c "." then
        if Nat.eqb digLen 0 || match rest with EmptyString => true | _ => false end then None
        else if Nat.eqb (length fields) 3 then None
        else parse4_loop 0 0 (fields ++ [val])%list rest
      else None
  end.
Definition value_of_fields (base : Z) (l : list Z) : Z := fold_left (λ acc b, acc * base + b) l 0.
Definition parse4 (s : string) : option Z := value_of_fields 256 <$> parse4_loop 0 0 [] s.

Definition hex_value (c : ascii) : option Z :=
  let n := code c in
  if (48 <=? n) && (n <=? 57) then Some (n - 48)
  else if (97 <=? n) && (n <=? 102) then Some (n - 97 + 10)
  else if (65 <=? n) && (n <=? 70) then Some (n - 65 + 10)
  else None.

(** a group of at most four hexadecimal digits: how many, their value, the rest *)
Fixpoint read_hex (off : nat) (acc : Z) (s : string) : option (nat * Z * string) :=
  match s with
  | EmptyString => Some (off, acc, s)
  | String c rest =>
      match hex_value c with
      | None => Some (off, acc, s)
      | Some d => if (3 <? off)%nat then None else read_hex (S off) (acc * 16 + d) rest
      end
  end.

(** the main loop of parseIPv6: [groups] are the 16-bit groups read so far,
    [fuel] the number still missing *)
Fixpoint parse6_loop (fuel : nat) (groups : list Z) (ellipsis : option nat) (s : string)
  : option (list Z * option nat * string) :=
  match fuel with
  | O => Some (groups, ellipsis, s)
  | S fuel =>
      match read_hex 0 0 s with
      | None | Some (O, _, _) => None
      | Some (_, acc, rest) =>
          match rest with
          | String "." _ =>
              if bool_decide (ellipsis = None) && negb (Nat.eqb (length groups) 6) then None
              else if (6 <? length groups)%nat then None
              else v ← parse4 s;
                   Some (groups ++ [v / 2 ^ 16; v mod 2 ^ 16], ellipsis, EmptyString)%list
          | _ =>
              let groups := (groups ++ [acc])%list in
              match rest with
              | EmptyString => Some (groups, ellipsis, EmptyString)
              | String ":" EmptyString => None
              | String ":" (String ":" rest') =>
                  match ellipsis with
                  | Some _ => None
                  | None =>
                      match rest' with
                      | EmptyString => Some (groups, Some (length groups), EmptyString)
                      | _ => parse6_loop fuel groups (Some (length groups)) rest'
                      end
                  end
              | String ":" rest' => parse6_loop fuel groups ellipsis rest'
              | _ => None
              end
          end
      end
  end.

Definition expand (groups : list Z) (ellipsis : option nat) : option (list Z) :=
  match ellipsis with
  | None => if Nat.eqb (length groups) 8 then Some groups else None
  | Some e =>
      if (length groups <? 8)%nat
      then Some (take e groups ++ replicate (8 - length groups) 0 ++ drop e groups)%list
      else None
  end.

Definition parse6_body (s : string) : option Z :=
  let finish '(groups, ellipsis, rest) :=
    match rest with
    | EmptyString => value_of_fields 65536 <$> expand groups ellipsis
    | _ => None
    end in
  match s with
  | String ":" (String ":" EmptyString) => Some 0
  | String ":" (String ":" rest) => parse6_loop 8 [] (Some O) rest ≫= finish
  | _ => parse6_loop 8 [] None s ≫= finish
  end.

Definition parse6 (s : string) : option Addr :=
  match index_of "%" s with
  | Some i =>
      match drop_chars (S i) s with
      | EmptyString => None
      | zone => v ← parse6_body (take_chars i s); Some (Addr6 v zone)
      end
  | None => v ← parse6_body s; Some (Addr6 v EmptyString)
  end.

(** netip.ParseAddr: the first of '.', ':' and '%' decides *)
Fixpoint addr_kind (s : string) : option ascii :=
  match s with
  | EmptyString => None
  | String c rest =>
      if Ascii.eqb c "." || Ascii.eqb c ":" || Ascii.eqb c "%" then Some c else addr_kind rest
  end.
Definition ParseAddr (s : string) : option Addr :=
  match addr_kind s with
  | Some "."%char => Addr4 <$> parse4 s
  | Some ":"%char => parse6 s
  | _ => None
  end.

(** ** Text form *)
Definition octets (v : Z) : list Z := [v / 2 ^ 24 mod 256; v / 2 ^ 16 mod 256; v / 2 ^ 8 mod 256; v mod 256].
Definition string4 (v : Z) : string := join "." (map format_int (octets v)).

Definition hex_char (d : Z) : ascii := ascii_of_N (Z.to_N (if d <? 10 then 48 + d else 87 + d)).
Definition hex_string (x : Z) : string :=
  let low := String (hex_char (x mod 16)) EmptyString in
  let low := if 16 <=? x then String (hex_char (x / 16 mod 16)) low else low in
  let low := if 256 <=? x then String (hex_char (x / 256 mod 16)) low else low in
  if 4096 <=? x then String (hex_char (x / 4096 mod 16)) low else low.

Definition hextets (v : Z) : list Z :=
  map (λ i, v / 2 ^ (112 - 16 * i) mod 65536) [0; 1; 2; 3; 4; 5; 6; 7].

Fixpoint zero_run (groups : list Z) : nat :=
  match groups with
  | g :: rest => if g =? 0 then S (zero_run rest) else O
  | [] => O
  end.
(** the first longest run of at least two zero groups: where it starts and its length *)
Fixpoint best_run (i : nat) (groups : list Z) (best : nat * nat) : nat * nat :=
  match groups with
  | [] => best
  | _ :: rest =>
      let l := zero_run groups in
      best_run (S i) rest (if (2 <=? l)%nat && (snd best <? l)%nat then (i, l) else best)
  end.

Definition string6 (v : Z) : string :=
  let groups := hextets v in
  let '(start, len) := best_run 0 groups (O, O) in
  if Nat.eqb len 0 then join ":" (map hex_string groups)
  else join ":" (map hex_string (take start groups)) +:+ "::" +:+
       join ":" (map hex_string (drop (start + len) groups)).

Definition zone_suffix (zone : string) : string :=
  match zone with EmptyString => EmptyString | _ => String "%" zone end.

Definition addr_string (a : Addr) : string :=
  match a with
  | Addr4 v => string4 v
  | Addr6 v zone =>
      (if Is4In6 a then "::ffff:" +:+ string4 (v mod 2 ^ 32) else string6 v) +:+ zone_suffix zone
  end.

(** ** Prefixes *)
Inductive Prefix : Type :=
| ValidPrefix (ip : Addr) (bits : Z)
| InvalidPrefix.

Definition PrefixFrom (ip : Addr) (bits : Z) : Prefix :=
  if (0 <=? bits) && (bits <=? BitLen ip) then ValidPrefix (without_zone ip) bits
  else InvalidPrefix.

Definition mask_addr (a : Addr) (bits : Z) : Addr :=
  let host := BitLen a - bits in
  let keep v := Z.shiftl (Z.shiftr v host) host in
  match a with Addr4 v => Addr4 (keep v) | Addr6 v z => Addr6 (keep v) z end.

Definition Masked (p : Prefix) : Prefix :=
  match p with
  | ValidPrefix ip bits => PrefixFrom (mask_addr ip bits) bits
  | InvalidPrefix => InvalidPrefix
  end.

Definition prefix_string (p : Prefix) : string :=
  match p with
  | ValidPrefix ip bits => addr_string ip +:+ "/" +:+ format_int bits
  | InvalidPrefix => "invalid Prefix"
  end.

Definition ParsePrefix (s : string) : option Prefix :=
  i ← last_index_of "/" s;
  ip ← ParseAddr (take_chars i s);
  if has_zone ip then None
  else
    let bits_text := drop_chars (S i) s in
    let signed_or_zero :=
      match bits_text with
      | String c (String _ _) => negb ((49 <=? code c) && (code c <=? 57))
      | _ => false
      end in
    if signed_or_zero then None
    else
      bits ← parse_int bits_text;
      if (0 <=? bits) && (bits <=? BitLen ip) then Some (PrefixFrom ip bits) else None.

Definition Contains (p : Prefix) (a : Addr) : bool :=
  match p with
  | InvalidPrefix => false
  | ValidPrefix ip bits =>
      negb (has_zone a) && (BitLen ip =? BitLen a) &&
      (Z.shiftr (Z.lxor (addr_value a) (addr_value ip)) (BitLen ip - bits) =? 0)
  end.

Example parse_v4 : ParseAddr "192.0.2.1" = Some (Addr4 3221225985).
Proof. vm_compute. reflexivity. Qed.
Example parse_v4_leading_zero : ParseAddr "192.0.02.1" = None.
Proof. vm_compute. reflexivity. Qed.
Example parse_mapped : Unmap <$> ParseAddr "::ffff:192.0.2.1" = ParseAddr "192.0.2.1".
Proof. vm_compute. reflexivity. Qed.
Example print_v6 : addr_string <$> ParseAddr "2001:DB8:0:0:1:0:0:1" = Some "2001:db8::1:0:0:1".
Proof. vm_compute. reflexivity. Qed.
Example print_v6_zone : addr_string <$> ParseAddr "fe80::1%eth0" = Some "fe80::1%eth0".
Proof. vm_compute. reflexivity. Qed.
Example parse_v6_bad : map ParseAddr ["1:2:3:4:5:6:7:8:9"; "1::2::3"; "::12345"; "1:2:3:4:5:6:7::8"; ":1"; "1:"; "1.2.3"; "%x"]
  = [None; None; None; None; None; None; None; None].
Proof. vm_compute. reflexivity. Qed.
