(* ===== verification/NetipText.v ===== *)
(** The text forms of package [net/netip] are faithful: what [addr_string] and
    [prefix_string] print, [ParseAddr] and [ParsePrefix] read back, for IPv4 and
    for the compressed IPv6 form; every parsed address is in range. *)
From S2P Require Import Prelude GoString Netip.

Local Open Scope string_scope.
Local Open Scope Z_scope.

#[local] Ltac Zify.zify_post_hook ::= Z.to_euclidean_division_equations.

(** ** IPv4 *)

(** the digit branch of [parse4_loop] alone *)
Fixpoint octet_run (val : Z) (digLen : nat) (s : string) : option (Z * nat) :=
  match s with
  | EmptyString => Some (val, digLen)
  | String c rest =>
      if is_digit c then
        if Nat.eqb digLen 1 && (val =? 0) then None
        else let val := val * 10 + (code c - 48) in
             if 255 <? val then None else octet_run val (S digLen) rest
      else None
  end.

Lemma parse4_loop_run val digLen fields s rest val' digLen' :
  octet_run val digLen s = Some (val', digLen') →
  parse4_loop val digLen fields (s +:+ rest) = parse4_loop val' digLen' fields rest.
Proof.
  revert val digLen. induction s as [|c s IH]; intros val digLen; simpl.
  - by intros [= -> ->].
  - destruct (is_digit c); [|done]. destruct (_ && _); [done|]. destruct (255 <? _); [done|]. apply IH.
Qed.

Lemma octet_run_all :
  forallb (λ n, let o := Z.of_nat n in
    bool_decide (octet_run 0 0 (format_int o) = Some (o, String.length (format_int o)))
    && negb (Nat.eqb (String.length (format_int o)) 0)) (seq 0 256) = true.
Proof. vm_compute. reflexivity. Qed.

Lemma octet_run_format o : 0 ≤ o < 256 →
  octet_run 0 0 (format_int o) = Some (o, String.length (format_int o)) ∧
  String.length (format_int o) ≠ O.
Proof.
  intros Ho. pose proof octet_run_all as H. rewrite forallb_forall in H.
  specialize (H (Z.to_nat o)). rewrite in_seq in H. specialize (H ltac:(lia)).
  rewrite Z2Nat.id in H by lia. apply andb_true_iff in H as [H1 H2].
  apply bool_decide_eq_true in H1. apply negb_true_iff, Nat.eqb_neq in H2. done.
Qed.

Lemma parse4_octet_dot o fields rest :
  0 ≤ o < 256 → (length fields < 3)%nat → rest ≠ EmptyString →
  parse4_loop 0 0 fields (format_int o +:+ String "." rest) = parse4_loop 0 0 (fields ++ [o])%list rest.
Proof.
  intros Ho Hf Hr. destruct (octet_run_format o Ho) as [Hrun Hlen].
  rewrite (parse4_loop_run _ _ _ _ _ _ _ Hrun). simpl.
  rewrite (proj2 (Nat.eqb_neq _ _) Hlen). simpl.
  destruct rest; [done|]. by rewrite (proj2 (Nat.eqb_neq (length fields) 3)) by lia.
Qed.

Lemma parse4_octet_end o fields :
  0 ≤ o < 256 → length fields = 3%nat →
  parse4_loop 0 0 fields (format_int o) = Some (fields ++ [o])%list.
Proof.
  intros Ho Hf. destruct (octet_run_format o Ho) as [Hrun _].
  rewrite <- (string_app_nil_r (format_int o)). rewrite (parse4_loop_run _ _ _ _ _ _ _ Hrun). simpl.
  by rewrite Hf.
Qed.

Lemma string4_eq v :
  string4 v = format_int (v / 2 ^ 24 mod 256) +:+ String "." (format_int (v / 2 ^ 16 mod 256) +:+
    String "." (format_int (v / 2 ^ 8 mod 256) +:+ String "." (format_int (v mod 256)))).
Proof. reflexivity. Qed.

Lemma format_int_nonempty o s : 0 ≤ o < 256 → format_int o +:+ s ≠ EmptyString.
Proof. intros Ho H. destruct (octet_run_format o Ho) as [_ Hl]. by destruct (format_int o). Qed.

Lemma format_int_octet_nonempty o : 0 ≤ o < 256 → format_int o ≠ EmptyString.
Proof. intros Ho. rewrite <- (string_app_nil_r (format_int o)). by apply format_int_nonempty. Qed.

Lemma parse4_string4 v : 0 ≤ v < 2 ^ 32 → parse4 (string4 v) = Some v.
Proof.
  intros Hv. unfold parse4. rewrite string4_eq.
  assert (Hb : ∀ x, 0 ≤ x mod 256 < 256) by (intros; lia).
  rewrite !parse4_octet_dot by first [apply Hb|apply format_int_nonempty, Hb|apply format_int_octet_nonempty, Hb|simpl; lia].
  rewrite parse4_octet_end by (auto; simpl; lia).
  change (2 ^ 24) with 16777216. change (2 ^ 16) with 65536. change (2 ^ 8) with 256.
  cbn. f_equal. clear Hb. lia.
Qed.

(** ** IPv6 groups *)
Lemma hex_value_hex_char d : 0 ≤ d < 16 → hex_value (hex_char d) = Some d.
Proof.
  intros Hd. assert (H : forallb (λ n, bool_decide (hex_value (hex_char (Z.of_nat n)) = Some (Z.of_nat n)))
    (seq 0 16) = true) by (vm_compute; reflexivity).
  rewrite forallb_forall in H. specialize (H (Z.to_nat d)). rewrite in_seq in H.
  specialize (H ltac:(lia)). rewrite Z2Nat.id in H by lia. by apply bool_decide_eq_true in H.
Qed.

Lemma read_hex_digit off acc d rest :
  (off ≤ 3)%nat → 0 ≤ d < 16 →
  read_hex off acc (String (hex_char d) rest) = read_hex (S off) (acc * 16 + d) rest.
Proof.
  intros Hoff Hd. cbn [read_hex]. rewrite hex_value_hex_char by done.
  by rewrite (proj2 (Nat.ltb_ge 3 off)).
Qed.

(** the text after a group: its end, or a separator *)
Definition group_end (rest : string) : Prop := rest = EmptyString ∨ ∃ s, rest = String ":" s.

Lemma read_hex_end off acc rest : group_end rest → read_hex off acc rest = Some (off, acc, rest).
Proof. intros [->|[s ->]]; done. Qed.

Lemma read_hex_string x rest :
  0 ≤ x < 65536 → group_end rest →
  ∃ k, read_hex 0 0 (hex_string x +:+ rest) = Some (S k, x, rest).
Proof.
  intros Hx Hrest. unfold hex_string. cbv zeta. unfold String.app.
  destruct (Z.leb_spec 4096 x); [|destruct (Z.leb_spec 256 x); [|destruct (Z.leb_spec 16 x)]].
  all: rewrite ?(proj2 (Z.leb_gt 4096 x)), ?(proj2 (Z.leb_gt 256 x)), ?(proj2 (Z.leb_gt 16 x)) by lia.
  all: rewrite ?(proj2 (Z.leb_le 256 x)), ?(proj2 (Z.leb_le 16 x)) by lia.
  all: cbn [String.append]; rewrite !read_hex_digit by lia; rewrite read_hex_end by done.
  all: eexists; do 2 f_equal; f_equal; lia.
Qed.

Definition is_group (x : Z) : Prop := 0 ≤ x < 65536.

Lemma join_cons sep x y l : join sep (x :: y :: l) = x +:+ sep +:+ join sep (y :: l).
Proof. done. Qed.

Definition hex_chars : list ascii :=
  ["0"; "1"; "2"; "3"; "4"; "5"; "6"; "7"; "8"; "9"; "a"; "b"; "c"; "d"; "e"; "f"]%char.

Lemma hex_char_in d : 0 ≤ d < 16 → In (hex_char d) hex_chars.
Proof.
  intros Hd. assert (H : forallb (λ n, existsb (Ascii.eqb (hex_char (Z.of_nat n))) hex_chars) (seq 0 16) = true)
    by (vm_compute; reflexivity).
  rewrite forallb_forall in H. specialize (H (Z.to_nat d)). rewrite Z2Nat.id in H by lia.
  rewrite in_seq, existsb_exists in H. destruct H as (c & Hc & ->%Ascii.eqb_eq); [lia|done].
Qed.

Lemma hex_string_head x : ∃ c s, hex_string x = String c s ∧ In c hex_chars.
Proof.
  unfold hex_string. cbv zeta.
  destruct (4096 <=? x); [|destruct (256 <=? x); [|destruct (16 <=? x)]];
    eexists _, _; (split; [reflexivity|]); apply hex_char_in, Z.mod_pos_bound; done.
Qed.

Lemma join_head L : L ≠ [] → Forall is_group L →
  ∃ c s, join ":" (map hex_string L) = String c s ∧ In c hex_chars.
Proof.
  intros Hne HF. destruct HF as [|x L Hx HF]; [done|].
  destruct (hex_string_head x) as (c & s & E & Hc). destruct L as [|y L].
  - by exists c, s.
  - cbn [map]. rewrite join_cons, E. by eexists c, _.
Qed.

(** one group and the separator after it *)
Lemma parse6_step fuel groups ellipsis x c rest :
  is_group x → In c hex_chars →
  parse6_loop (S fuel) groups ellipsis (hex_string x +:+ String ":" (String c rest))
  = parse6_loop fuel (groups ++ [x])%list ellipsis (String c rest).
Proof.
  intros Hx Hc. destruct (read_hex_string x (String ":" (String c rest)) Hx) as [k Hk]; [right; by eexists|].
  cbn [parse6_loop]. rewrite Hk.
  repeat (destruct Hc as [<-|Hc]; [reflexivity|]). destruct Hc.
Qed.

Lemma parse6_last fuel groups ellipsis x :
  is_group x →
  parse6_loop (S fuel) groups ellipsis (hex_string x) = Some (groups ++ [x], ellipsis, EmptyString)%list.
Proof.
  intros Hx. destruct (read_hex_string x EmptyString Hx) as [k Hk]; [by left|].
  rewrite string_app_nil_r in Hk. cbn [parse6_loop]. by rewrite Hk.
Qed.

(** the group before the ellipsis *)
Lemma parse6_ellipsis fuel groups x rest :
  is_group x →
  parse6_loop (S fuel) groups None (hex_string x +:+ String ":" (String ":" rest))
  = (let groups := (groups ++ [x])%list in
     match rest with
     | EmptyString => Some (groups, Some (length groups), EmptyString)
     | _ => parse6_loop fuel groups (Some (length groups)) rest
     end).
Proof.
  intros Hx. destruct (read_hex_string x (String ":" (String ":" rest)) Hx) as [k Hk]; [right; by eexists|].
  cbn [parse6_loop]. by rewrite Hk.
Qed.

(** a list of groups, to the end of the text *)
Lemma parse6_groups L groups ellipsis fuel :
  L ≠ [] → Forall is_group L → (length L ≤ fuel)%nat →
  parse6_loop fuel groups ellipsis (join ":" (map hex_string L)) = Some (groups ++ L, ellipsis, EmptyString)%list.
Proof.
  intros Hne HF. revert groups fuel. induction HF as [|x L Hx HF IH]; [done|]. intros groups fuel Hfuel.
  destruct fuel as [|fuel]; [simpl in Hfuel; lia|]. destruct L as [|y L].
  - by apply parse6_last.
  - cbn [map]. rewrite join_cons. destruct (join_head (y :: L)) as (c & s & E & Hc); [done..|].
    cbn [map] in *. rewrite E. change (":" +:+ String c s) with (String ":" (String c s)).
    rewrite parse6_step by done. rewrite <- E, (IH ltac:(done)) by (simpl in *; lia).
    by rewrite <- app_assoc.
Qed.

(** a list of groups, and the ellipsis after it *)
Lemma parse6_before L groups fuel rest :
  L ≠ [] → Forall is_group L → (length L ≤ fuel)%nat →
  parse6_loop fuel groups None (join ":" (map hex_string L) +:+ String ":" (String ":" rest))
  = (let all := (groups ++ L)%list in
     match rest with
     | EmptyString => Some (all, Some (length all), EmptyString)
     | _ => parse6_loop (fuel - length L) all (Some (length all)) rest
     end).
Proof.
  intros Hne HF. revert groups fuel. induction HF as [|x L Hx HF IH]; [done|]. intros groups fuel Hfuel.
  destruct fuel as [|fuel]; [simpl in Hfuel; lia|]. destruct L as [|y L].
  - change (join ":" (map hex_string [x])) with (hex_string x).
    rewrite parse6_ellipsis by done. simpl. by rewrite Nat.sub_0_r.
  - cbn [map]. rewrite join_cons, !string_app_assoc.
    destruct (join_head (y :: L)) as (c & s & E & Hc); [done..|].
    cbn [map] in *. rewrite E. change (":" +:+ String c s +:+ ?t) with (String ":" (String c (s +:+ t))).
    rewrite parse6_step by done. change (String c (s +:+ ?t)) with (String c s +:+ t).
    rewrite <- E, (IH ltac:(done)) by (simpl in *; lia). cbv zeta. rewrite <- app_assoc. cbn [app].
    by replace (S fuel - length (x :: y :: L))%nat with (fuel - length (y :: L))%nat by (simpl; lia).
Qed.

(** ** The longest run of zeros *)
Lemma zero_run_spec g :
  (zero_run g ≤ length g)%nat ∧ take (zero_run g) g = replicate (zero_run g) 0.
Proof.
  induction g as [|x g [IH1 IH2]]; simpl; [done|]. destruct (Z.eqb_spec x 0) as [->|]; simpl.
  - rewrite IH2. split; [lia|done].
  - split; [lia|done].
Qed.

Definition run_ok (G : list Z) (run : nat * nat) : Prop :=
  run.2 = O ∨ ((2 ≤ run.2)%nat ∧ (run.1 + run.2 ≤ length G)%nat ∧ take run.2 (drop run.1 G) = replicate run.2 0).

Lemma best_run_ok G pre rest best :
  G = (pre ++ rest)%list → run_ok G best → run_ok G (best_run (length pre) rest best).
Proof.
  revert pre best. induction rest as [|x rest IH]; intros pre best HG Hbest; [done|].
  cbn [best_run]. set (l := zero_run (x :: rest)).
  specialize (IH (pre ++ [x])%list). rewrite length_app in IH. simpl in IH.
  rewrite Nat.add_1_r in IH. apply IH; [by rewrite <- app_assoc|].
  destruct ((2 <=? l)%nat && (best.2 <? l)%nat) eqn:E; [|done].
  apply andb_true_iff in E as [E _]. apply Nat.leb_le in E.
  destruct (zero_run_spec (x :: rest)) as [H1 H2]. right. simpl. fold l in H1, H2.
  split; [done|]. split; [rewrite HG, length_app; lia|].
  by rewrite HG, drop_app_length.
Qed.

Lemma best_run_split G start len :
  best_run 0 G (O, O) = (start, len) →
  len = O ∨ ((2 ≤ len)%nat ∧ G = take start G ++ replicate len 0 ++ drop (start + len) G)%list.
Proof.
  intros H. pose proof (best_run_ok G [] G (O, O) eq_refl ltac:(by left)) as Hok.
  simpl in Hok. rewrite H in Hok. destruct Hok as [?|(H2 & H3 & H4)]; [by left|right].
  simpl in *. split; [done|]. rewrite <- H4, <- drop_drop, take_drop. by rewrite take_drop.
Qed.

(** ** The value of the groups *)
Lemma value_of_fields_snoc base l x :
  value_of_fields base (l ++ [x]) = value_of_fields base l * base + x.
Proof. unfold value_of_fields. by rewrite fold_left_app. Qed.

Lemma hextets_value v : 0 ≤ v < 2 ^ 128 → value_of_fields 65536 (hextets v) = v.
Proof.
  intros Hv. unfold hextets, value_of_fields. cbn [map fold_left].
  assert (Hs : ∀ k j, 0 ≤ k → j = k + 16 → v / 2 ^ j * 65536 + v / 2 ^ k mod 65536 = v / 2 ^ k).
  { intros k j Hk ->. rewrite Z.pow_add_r, <- Z.div_div by lia. change (2 ^ 16) with 65536.
    rewrite (Z.div_mod (v / 2 ^ k) 65536) at 3 by lia. lia. }
  pose proof (Hs 0 16) as H0. pose proof (Hs 16 32) as H1. pose proof (Hs 32 48) as H2.
  pose proof (Hs 48 64) as H3. pose proof (Hs 64 80) as H4. pose proof (Hs 80 96) as H5.
  pose proof (Hs 96 112) as H6. clear Hs.
  assert (H7 : v / 2 ^ 112 mod 65536 = v / 2 ^ 112).
  { apply Z.mod_small. split; [apply Z.div_pos; lia|]. apply Z.div_lt_upper_bound; lia. }
  change (112 - 16 * 0) with 112. change (112 - 16 * 1) with 96. change (112 - 16 * 2) with 80.
  change (112 - 16 * 3) with 64. change (112 - 16 * 4) with 48. change (112 - 16 * 5) with 32.
  change (112 - 16 * 6) with 16. change (112 - 16 * 7) with 0.
  rewrite H7, Z.mul_0_l, Z.add_0_l, H6, H5, H4, H3, H2, H1, H0, Z.div_1_r by done. done.
Qed.

Lemma hextets_groups v : Forall is_group (hextets v) ∧ length (hextets v) = 8%nat.
Proof.
  split; [|done]. unfold hextets. apply Forall_fmap, Forall_forall. intros i _. simpl.
  unfold is_group. by apply Z.mod_pos_bound.
Qed.

(** ** Reading back an IPv6 address *)
Definition finish6 (parsed : list Z * option nat * string) : option Z :=
  let '(groups, ellipsis, rest) := parsed in
  match rest with
  | EmptyString => value_of_fields 65536 <$> expand groups ellipsis
  | _ => None
  end.

Lemma parse6_body_hex c s : In c hex_chars →
  parse6_body (String c s) = parse6_loop 8 [] None (String c s) ≫= finish6.
Proof. intros Hc. repeat (destruct Hc as [<-|Hc]; [reflexivity|]). destruct Hc. Qed.

Lemma parse6_body_ellipsis c s : In c hex_chars →
  parse6_body (String ":" (String ":" (String c s))) = parse6_loop 8 [] (Some O) (String c s) ≫= finish6.
Proof. intros _. reflexivity. Qed.

Lemma expand_ellipsis (A B : list Z) (len : nat) :
  (length A + len + length B = 8)%nat → (2 ≤ len)%nat →
  expand (A ++ B) (Some (length A)) = Some (A ++ replicate len 0 ++ B)%list.
Proof.
  intros Hlen H2. unfold expand. rewrite length_app, (proj2 (Nat.ltb_lt _ 8)) by lia.
  rewrite take_app_length, drop_app_length. by replace (8 - (length A + length B))%nat with len by lia.
Qed.

(** the text of [A] groups, an ellipsis of [len] zeros, and [B] groups *)
Lemma parse6_compressed A B len :
  Forall is_group A → Forall is_group B → (length A + len + length B = 8)%nat → (2 ≤ len)%nat →
  parse6_body (join ":" (map hex_string A) +:+ "::" +:+ join ":" (map hex_string B))
  = Some (value_of_fields 65536 (A ++ replicate len 0 ++ B)%list).
Proof.
  intros HA HB Hlen H2. destruct A as [|a A].
  - destruct B as [|b B]; [simpl in *; by replace len with 8%nat by lia|].
    destruct (join_head (b :: B)) as (c & s & E & Hc); [done..|].
    change (join ":" (map hex_string [])) with EmptyString. rewrite E.
    change (EmptyString +:+ "::" +:+ ?t) with (String ":" (String ":" t)).
    assert (HlB : (length (b :: B) ≤ 8)%nat) by (clear -Hlen; simpl in *; lia).
    rewrite parse6_body_ellipsis, <- E, (parse6_groups (b :: B) [] _ _ ltac:(done) HB HlB) by done.
    cbn [mbind option_bind finish6 app].
    pose proof (expand_ellipsis [] (b :: B) len Hlen H2) as He. cbn [app length] in He. by rewrite He.
  - destruct (join_head (a :: A)) as (c & s & E & Hc); [done..|].
    assert (Hbody : ∀ t, parse6_body (join ":" (map hex_string (a :: A)) +:+ t)
      = parse6_loop 8 [] None (join ":" (map hex_string (a :: A)) +:+ t) ≫= finish6).
    { intros t. rewrite E. by apply parse6_body_hex. }
    rewrite Hbody. change ("::" +:+ ?t) with (String ":" (String ":" t)).
    assert (HlA : (length (a :: A) ≤ 8)%nat) by (clear -Hlen; lia).
    rewrite (parse6_before (a :: A) [] 8 (join ":" (map hex_string B)) ltac:(done) HA HlA). cbv zeta. cbn [app].
    destruct B as [|b B].
    + change (join ":" (map hex_string [])) with EmptyString. cbn [mbind option_bind finish6].
      pose proof (expand_ellipsis (a :: A) [] len Hlen H2) as He. rewrite app_nil_r in He. by rewrite He.
    + destruct (join_head (b :: B)) as (d & t & E' & _); [done..|]. rewrite E', <- E'.
      assert (HlB : (length (b :: B) ≤ 8 - length (a :: A))%nat) by (clear -Hlen; lia).
      rewrite (parse6_groups (b :: B) (a :: A) _ _ ltac:(done) HB HlB).
      cbn [mbind option_bind finish6]. by rewrite (expand_ellipsis (a :: A) (b :: B) len).
Qed.

Lemma parse6_string6 v : 0 ≤ v < 2 ^ 128 → parse6_body (string6 v) = Some v.
Proof.
  intros Hv. unfold string6. cbv zeta. destruct (hextets_groups v) as [HG H8].
  pose proof (hextets_value v Hv) as Hval. set (G := hextets v) in *. clearbody G.
  destruct (best_run 0 G (O, O)) as [start len] eqn:Hrun.
  destruct (best_run_split _ _ _ Hrun) as [->|[H2 Hsplit]].
  - simpl. destruct (join_head G) as (c & s & E & Hc); [by intros ->|done|].
    rewrite E, parse6_body_hex, <- E, parse6_groups by (done || (by intros ->) || lia).
    cbn [mbind option_bind finish6 app]. unfold expand. rewrite H8. simpl. by rewrite Hval.
  - rewrite (proj2 (Nat.eqb_neq len 0)) by lia.
    rewrite (parse6_compressed _ _ len).
    + by rewrite <- Hsplit, Hval.
    + by apply Forall_take.
    + by apply Forall_drop.
    + apply (f_equal length) in Hsplit. rewrite !length_app, length_replicate in Hsplit. lia.
    + done.
Qed.

(** ** Whole addresses *)
Definition is_hex_colon (c : ascii) : bool := existsb (Ascii.eqb c) hex_chars || Ascii.eqb c ":".

Lemma hex_char_text d : 0 ≤ d < 16 → is_hex_colon (hex_char d) = true.
Proof.
  intros Hd. unfold is_hex_colon. apply orb_true_iff. left. apply existsb_exists.
  exists (hex_char d). split; [by apply hex_char_in|apply Ascii.eqb_refl].
Qed.

Lemma hex_string_text x : string_all is_hex_colon (hex_string x) = true.
Proof.
  unfold hex_string. cbv zeta.
  destruct (4096 <=? x), (256 <=? x), (16 <=? x); cbn [string_all];
    rewrite !hex_char_text by by apply Z.mod_pos_bound.
  all: done.
Qed.

Lemma join_text L : string_all is_hex_colon (join ":" (map hex_string L)) = true.
Proof.
  induction L as [|x [|y L] IH]; [done|apply hex_string_text|].
  cbn [map] in *. rewrite join_cons, !string_all_app, hex_string_text, IH. done.
Qed.

Lemma string6_text v : string_all is_hex_colon (string6 v) = true.
Proof.
  unfold string6. cbv zeta. destruct (best_run 0 (hextets v) (O, O)) as [start len].
  destruct (Nat.eqb len 0); rewrite ?string_all_app, !join_text; done.
Qed.

Lemma addr_kind_app s t c : addr_kind s = Some c → addr_kind (s +:+ t) = Some c.
Proof.
  induction s as [|d s IH]; [done|]. change (String d s +:+ t) with (String d (s +:+ t)). cbn [addr_kind].
  case_match; [done|]. apply IH.
Qed.

Lemma addr_kind_hex s t : string_all (λ c, existsb (Ascii.eqb c) hex_chars) s = true →
  addr_kind (s +:+ String ":" t) = Some ":"%char.
Proof.
  induction s as [|d s IH]; [done|]. change (String d s +:+ ?u) with (String d (s +:+ u)).
  cbn [string_all addr_kind]. intros [Hd Hs]%andb_true_iff.
  apply existsb_exists in Hd as (c & Hc & ->%Ascii.eqb_eq).
  assert (Ascii.eqb c "." || Ascii.eqb c ":" || Ascii.eqb c "%" = false) as ->; [|by apply IH].
  repeat (destruct Hc as [<-|Hc]; [reflexivity|]). destruct Hc.
Qed.

Lemma hex_string_hex x : string_all (λ c, existsb (Ascii.eqb c) hex_chars) (hex_string x) = true.
Proof.
  assert (Hd : ∀ d, 0 ≤ d < 16 → existsb (Ascii.eqb (hex_char d)) hex_chars = true).
  { intros d Hd. apply existsb_exists. exists (hex_char d). split; [by apply hex_char_in|apply Ascii.eqb_refl]. }
  unfold hex_string. cbv zeta.
  destruct (4096 <=? x), (256 <=? x), (16 <=? x); cbn [string_all];
    rewrite !Hd by by apply Z.mod_pos_bound.
  all: done.
Qed.

Lemma join_kind L t : L ≠ [] → addr_kind (join ":" (map hex_string L) +:+ String ":" t) = Some ":"%char.
Proof.
  destruct L as [|x [|y L]]; [done|intros _; apply addr_kind_hex, hex_string_hex|intros _].
  cbn [map]. rewrite join_cons, !string_app_assoc.
  change (":" +:+ ?s) with (String ":" s). apply addr_kind_hex, hex_string_hex.
Qed.

Lemma string6_kind v : addr_kind (string6 v) = Some ":"%char.
Proof.
  unfold string6. cbv zeta. destruct (best_run 0 (hextets v) (O, O)) as [start len].
  destruct (Nat.eqb len 0).
  - unfold hextets. cbn [map]. rewrite join_cons. change (":" +:+ ?s) with (String ":" s).
    apply addr_kind_hex, hex_string_hex.
  - change ("::" +:+ ?s) with (String ":" (String ":" s)).
    destruct (decide (take start (hextets v) = [])) as [->|Hne]; [done|by apply join_kind].
Qed.

Definition digit_dot (c : ascii) : bool := is_digit c || Ascii.eqb c ".".
Lemma string4_text v : string_all digit_dot (string4 v) = true.
Proof.
  rewrite string4_eq. rewrite string_all_app. cbn [string_all]. rewrite string_all_app. cbn [string_all].
  rewrite string_all_app. cbn [string_all].
  assert (Hd : ∀ x, string_all digit_dot (format_int (x mod 256)) = true).
  { intros x. eapply string_all_weaken; [|apply format_int_digits, Z.mod_pos_bound; done].
    intros c Hc. unfold digit_dot. by rewrite Hc. }
  by rewrite !Hd.
Qed.

Lemma digit_not_separator c : is_digit c = true →
  Ascii.eqb c "." || Ascii.eqb c ":" || Ascii.eqb c "%" = false.
Proof.
  unfold is_digit. intros Hc. rewrite !orb_false_iff.
  split; [split|]; apply Ascii.eqb_neq; intros ->; by vm_compute in Hc.
Qed.

Lemma string4_kind v : addr_kind (string4 v) = Some "."%char.
Proof.
  rewrite string4_eq.
  assert (H : ∀ s t, string_all is_digit s = true → addr_kind (s +:+ String "." t) = Some "."%char).
  { intros s t. induction s as [|c s IH]; [done|]. change (String c s +:+ ?u) with (String c (s +:+ u)).
    cbn [string_all addr_kind]. intros [Hc Hs]%andb_true_iff. rewrite digit_not_separator by done. by apply IH. }
  apply H, format_int_digits, Z.mod_pos_bound. done.
Qed.

Definition addr_ok (a : Addr) : Prop :=
  match a with Addr4 v => 0 ≤ v < 2 ^ 32 | Addr6 v _ => 0 ≤ v < 2 ^ 128 end.

Lemma text_no_percent s : string_all is_hex_colon s = true →
  string_all (λ d, negb (Ascii.eqb d "%")) s = true.
Proof.
  apply string_all_weaken. intros c Hc. apply negb_true_iff, Ascii.eqb_neq. intros ->. by vm_compute in Hc.
Qed.

Lemma index_of_app c s t : string_all (λ d, negb (Ascii.eqb d c)) s = true →
  index_of c (s +:+ String c t) = Some (String.length s).
Proof.
  induction s as [|d s IH]; [intros _; simpl; by rewrite Ascii.eqb_refl|].
  change (String d s +:+ ?u) with (String d (s +:+ u)). cbn [string_all index_of String.length].
  intros [Hd Hs]%andb_true_iff. apply negb_true_iff in Hd. by rewrite Hd, (IH Hs).
Qed.

(** An address that is not an IPv4-mapped one is read back from its text. *)
Lemma ParseAddr_string a : addr_ok a → Is4In6 a = false → ParseAddr (addr_string a) = Some a.
Proof.
  intros Hok H46. unfold ParseAddr, addr_string. destruct a as [v|v zone]; cbn [addr_ok] in Hok.
  - rewrite string4_kind. by rewrite parse4_string4.
  - rewrite H46. rewrite (addr_kind_app _ _ _ (string6_kind v)). unfold parse6.
    pose proof (text_no_percent _ (string6_text v)) as Hno.
    destruct zone as [|c zone]; cbn [zone_suffix].
    + rewrite string_app_nil_r, string_all_no_index by done. by rewrite parse6_string6.
    + rewrite index_of_app, take_chars_app by done.
      assert (Hdrop : ∀ s t, drop_chars (S (String.length s)) (s +:+ String "%" t) = t).
      { intros s t. induction s as [|d s IH]; [done|exact IH]. }
      rewrite Hdrop. by rewrite parse6_string6.
Qed.

(** ** Parsed addresses are in range *)
Lemma parse4_loop_range val digLen fields s out :
  0 ≤ val < 256 → Forall (λ o, 0 ≤ o < 256) fields → (length fields ≤ 3)%nat →
  parse4_loop val digLen fields s = Some out → Forall (λ o, 0 ≤ o < 256) out ∧ length out = 4%nat.
Proof.
  revert val digLen fields. induction s as [|c s IH]; intros val digLen fields Hv HF Hl; cbn [parse4_loop].
  - destruct (Nat.ltb_spec (length fields) 3); [done|]. intros [= <-].
    rewrite length_app. simpl. split; [|lia]. apply Forall_app. split; [done|by constructor].
  - destruct (is_digit c) eqn:Hc.
    + destruct (_ && _); [done|]. destruct (Z.ltb_spec 255 (val * 10 + (code c - 48))); [done|].
      apply IH; try done. unfold is_digit in Hc. lia.
    + destruct (Ascii.eqb c "."); [|done]. destruct (_ || _); [done|].
      destruct (Nat.eqb_spec (length fields) 3); [done|]. apply IH; [lia| |].
      * apply Forall_app. split; [done|by constructor].
      * rewrite length_app. simpl. lia.
Qed.

Lemma parse4_range s v : parse4 s = Some v → 0 ≤ v < 2 ^ 32.
Proof.
  unfold parse4. destruct (parse4_loop 0 0 [] s) as [l|] eqn:E; [|done]. cbn. intros [= <-].
  apply parse4_loop_range in E as [HF Hl]; [|done|constructor|simpl; lia].
  destruct l as [|a [|b [|c [|d [|]]]]]; try done. unfold value_of_fields. cbn [fold_left].
  repeat (apply Forall_cons in HF as [? HF]). change (2 ^ 32) with 4294967296. lia.
Qed.

Lemma read_hex_range off acc s k x rest :
  0 ≤ acc < 16 ^ Z.of_nat off → (off ≤ 4)%nat →
  read_hex off acc s = Some (k, x, rest) → is_group x.
Proof.
  revert off acc. induction s as [|c s IH]; intros off acc Hacc Hoff; cbn [read_hex].
  1: intros [= <- <- <-]. 2: destruct (hex_value c) as [d|] eqn:Hd.
  2: destruct (Nat.ltb_spec 3 off); [done|]; apply IH; [|lia].
  2: { assert (0 ≤ d < 16).
       { unfold hex_value in Hd. repeat case_match; simplify_eq; lia. }
       rewrite Nat2Z.inj_succ, Z.pow_succ_r by lia. lia. }
  2: intros [= <- <- <-].
  all: unfold is_group; assert (16 ^ Z.of_nat off ≤ 16 ^ 4) by (apply Z.pow_le_mono_r; lia); lia.
Qed.

Lemma parse6_loop_range fuel groups ellipsis s groups' ellipsis' rest :
  Forall is_group groups →
  parse6_loop fuel groups ellipsis s = Some (groups', ellipsis', rest) → Forall is_group groups'.
Proof.
  revert groups ellipsis s. induction fuel as [|fuel IH]; intros groups ellipsis s HG; cbn [parse6_loop].
  { by intros [= <- _ _]. }
  destruct (read_hex 0 0 s) as [[[[|k] x] rest0]|] eqn:E; [done| |done].
  apply read_hex_range in E; [|done|lia].
  assert (HG' : Forall is_group (groups ++ [x])) by (apply Forall_app; split; [done|by constructor]).
  destruct rest0 as [|c rest0]; [by intros [= <- _ _]|].
  assert (Hdot : (if bool_decide (ellipsis = None) && negb (Nat.eqb (length groups) 6) then None
              else if (6 <? length groups)%nat then None
              else v ← parse4 s;
                   Some (groups ++ [v / 2 ^ 16; v mod 2 ^ 16], ellipsis, EmptyString)%list)
      = Some (groups', ellipsis', rest) → Forall is_group groups').
  { repeat case_match; try done. destruct (parse4 s) as [v|] eqn:E4; [|done]. cbn. intros [= <- _ _].
    apply parse4_range in E4. change (2 ^ 32) with 4294967296 in E4. apply Forall_app. split; [done|].
    unfold is_group. repeat constructor; lia. }
  destruct c as [[] [] [] [] [] [] [] []]; try exact Hdot; try done.
  destruct rest0 as [|c rest0]; [done|].
  repeat case_match; try done; try (by intros [= <- _ _]); intros Hp; by eapply IH in Hp.
Qed.

Lemma value_of_fields_range l : Forall is_group l →
  0 ≤ value_of_fields 65536 l < 65536 ^ Z.of_nat (length l).
Proof.
  induction l as [|x l IH] using rev_ind; intros HF; [done|].
  apply Forall_app in HF as [HF Hx]. apply Forall_cons in Hx as [Hx _]. specialize (IH HF).
  rewrite value_of_fields_snoc, length_app. simpl. rewrite Nat.add_1_r, Nat2Z.inj_succ, Z.pow_succ_r by lia.
  unfold is_group in Hx. nia.
Qed.

Lemma expand_range groups ellipsis l :
  Forall is_group groups → expand groups ellipsis = Some l → Forall is_group l ∧ length l = 8%nat.
Proof.
  intros HG. unfold expand. destruct ellipsis as [e|].
  - destruct (Nat.ltb_spec (length groups) 8); [|done]. intros [= <-]. split.
    + apply Forall_app. split; [by apply Forall_take|]. apply Forall_app. split; [|by apply Forall_drop].
      apply Forall_replicate. done.
    + rewrite !length_app, length_replicate, length_take, length_drop. lia.
  - destruct (Nat.eqb_spec (length groups) 8); [|done]. by intros [= <-].
Qed.

Lemma finish6_range groups ellipsis rest v :
  Forall is_group groups → finish6 (groups, ellipsis, rest) = Some v → 0 ≤ v < 2 ^ 128.
Proof.
  intros HG. unfold finish6. destruct rest; [|done].
  destruct (expand groups ellipsis) as [l|] eqn:E; [|done]. cbn. intros [= <-].
  apply expand_range in E as [HF Hl]; [|done]. pose proof (value_of_fields_range l HF) as H.
  rewrite Hl in H. exact H.
Qed.

Lemma parse6_body_range s v : parse6_body s = Some v → 0 ≤ v < 2 ^ 128.
Proof.
  assert (Hloop : ∀ e t, parse6_loop 8 [] e t ≫= finish6 = Some v → 0 ≤ v < 2 ^ 128).
  { intros e t. destruct (parse6_loop 8 [] e t) as [[[g e'] rest]|] eqn:E; [|done]. cbn [mbind option_bind].
    apply finish6_range. by eapply parse6_loop_range in E. }
  unfold parse6_body. change (λ '(groups, ellipsis, rest), _) with finish6.
  destruct s as [|c s]; [apply Hloop|].
  destruct c as [[] [] [] [] [] [] [] []]; try apply Hloop.
  destruct s as [|c s]; [apply Hloop|].
  destruct c as [[] [] [] [] [] [] [] []]; try apply Hloop.
  destruct s; [by intros [= <-]|apply Hloop].
Qed.

Lemma ParseAddr_ok s a : ParseAddr s = Some a → addr_ok a.
Proof.
  unfold ParseAddr. destruct (addr_kind s) as [c|] eqn:Hk; [|done].
  assert (H4 : Addr4 <$> parse4 s = Some a → addr_ok a).
  { destruct (parse4 s) eqn:E; [|done]. cbn. intros [= <-]. by eapply parse4_range. }
  assert (H6 : parse6 s = Some a → addr_ok a).
  { unfold parse6. destruct (index_of "%" s).
    - destruct (drop_chars _ s) as [|d zone]; [done|]. destruct (parse6_body _) eqn:E; [|done].
      cbn. intros [= <-]. by eapply parse6_body_range.
    - destruct (parse6_body s) eqn:E; [|done]. cbn. intros [= <-]. by eapply parse6_body_range. }
  destruct c as [[] [] [] [] [] [] [] []]; try done; first [exact H4|exact H6].
Qed.

Lemma Unmap_ok a : addr_ok a → addr_ok (Unmap a) ∧ Is4In6 (Unmap a) = false.
Proof.
  destruct a as [v|v z]; [done|]. intros H. unfold Unmap. destruct (Is4In6 (Addr6 v z)) eqn:E; [|done].
  split; [|done]. simpl. by apply Z.mod_pos_bound.
Qed.

(** ** Prefixes *)
Lemma bits_text_all :
  forallb (λ n, match format_int (Z.of_nat n) with
                | String c (String _ _) => (49 <=? code c) && (code c <=? 57)
                | _ => true end) (seq 0 129) = true.
Proof. vm_compute. reflexivity. Qed.

Lemma ParsePrefix_string ip bits :
  addr_ok ip → Is4In6 ip = false → has_zone ip = false → 0 ≤ bits ≤ BitLen ip →
  ParsePrefix (prefix_string (ValidPrefix ip bits)) = Some (ValidPrefix ip bits).
Proof.
  intros Hok H46 Hz Hbits. unfold ParsePrefix, prefix_string. change ("/" +:+ ?s) with (String "/" s).
  assert (Hb : 0 ≤ bits ≤ 128) by (destruct ip; simpl in Hbits; lia).
  rewrite last_index_app.
  2:{ eapply string_all_weaken; [|apply format_int_digits; lia].
      intros c Hc. apply negb_true_iff, Ascii.eqb_neq. intros ->. by vm_compute in Hc. }
  cbn [mbind option_bind]. rewrite take_chars_app, ParseAddr_string by done. cbn [mbind option_bind]. rewrite Hz.
  assert (Hdrop : ∀ s t, drop_chars (S (String.length s)) (s +:+ String "/" t) = t).
  { intros s t. induction s as [|d s IH]; [done|exact IH]. }
  rewrite Hdrop. pose proof bits_text_all as Hall. rewrite forallb_forall in Hall.
  specialize (Hall (Z.to_nat bits)). rewrite in_seq, Z2Nat.id in Hall by lia. specialize (Hall ltac:(lia)).
  assert (Hguard : match format_int bits with
      | String c (String _ _) => negb ((49 <=? code c) && (code c <=? 57)) | _ => false end = false).
  { destruct (format_int bits) as [|c [|? ?]]; [done..|]. by rewrite Hall. }
  rewrite Hguard, parse_format_int. 2:{ unfold is_int64, min_int64, max_int64. lia. }
  cbn [mbind option_bind]. rewrite (proj2 (Z.leb_le 0 bits)), (proj2 (Z.leb_le bits (BitLen ip))) by lia.
  cbn [andb]. unfold PrefixFrom.
  rewrite (proj2 (Z.leb_le 0 bits)), (proj2 (Z.leb_le bits (BitLen ip))) by lia. cbn [andb].
  destruct ip as [v|v [|? ?]]; done.
Qed.
