(* ===== verification/Model.v ===== *)
(** Package [internal/model]: the node and user records, the authorization
    snapshot, the stable user identity, and the lookup of a user by id. *)
From S2P Require Import Prelude GoString Float64.

Local Open Scope string_scope.
Local Open Scope Z_scope.

Record Node : Type := mkNode {
  node_ID : Z;
  node_Name : string;
  node_TrafficRate : float64;
  node_Class : Z;
  node_Group : Z;
  node_SpeedLimitMbps : float64;
  node_ConnectorLimit : Z;
  node_Bandwidth : Z;
  node_BandwidthLimit : Z;
  node_PublicHost : string;
  node_PublicPort : Z;
  node_ServerName : string;
  node_Target : string;
  node_RealityPublicKey : string;
  node_ShortID : string;
  node_Fingerprint : string;
  node_Flow : string;
  node_Transport : string;
  node_MinClientVersion : string;
  node_ConfigurationVersion : Z }.

Record User : Type := mkUser {
  user_ID : Z;
  user_UUID : string;
  user_SpeedLimitMbps : float64;
  user_ConnectorLimit : Z;
  user_ForbiddenIPs : list string;
  user_ForbiddenPorts : list string;
  user_DisconnectIPs : list string }.

Record Snapshot : Type := mkSnapshot {
  snap_Node : Node;
  snap_Users : list User;
  snap_LoadedAt : Z;
  snap_Hash : string }.

(** UserEmail: the identity under which the data plane knows a user *)
Definition UserEmail (nodeID userID : Z) : string :=
  "sspanel-node-" +:+ format_int nodeID +:+ "-user-" +:+ format_int userID.

(** ** UserByID *)

(** sort.Search: the least index in [i, j) at which the monotone test holds,
    else [j]; [fuel] bounds the number of halvings *)
Fixpoint sort_search (fuel : nat) (f : nat → bool) (i j : nat) : nat :=
  match fuel with
  | O => i
  | S fuel =>
      if (i <? j)%nat then
        let h := Nat.div (i + j) 2 in
        if f h then sort_search fuel f i h else sort_search fuel f (S h) j
      else i
  end.

(** every halving shortens the interval, so its length is enough fuel *)
Definition UserByID (s : Snapshot) (id : Z) : option User :=
  let users := snap_Users s in
  let n := length users in
  let i := sort_search n (λ h, match users !! h with Some u => id <=? user_ID u | None => true end) 0 n in
  match users !! i with
  | Some u => if user_ID u =? id then Some u else None
  | None => None
  end.

Section sort_search.
Context (f : nat → bool).
Hypothesis f_mono : ∀ a b, (a ≤ b)%nat → f a = true → f b = true.

Lemma sort_search_spec fuel i j :
    (i ≤ j)%nat → (j - i ≤ fuel)%nat →
    (i ≤ sort_search fuel f i j ≤ j)%nat ∧
    (∀ a, (i ≤ a < sort_search fuel f i j)%nat → f a = false) ∧
    ((sort_search fuel f i j < j)%nat → f (sort_search fuel f i j) = true).
  Proof using f_mono.
    revert i j. induction fuel as [|fuel IH]; intros i j Hij Hfuel; cbn [sort_search].
    { split; [lia|]. split; intros; lia. }
    destruct (Nat.ltb_spec i j) as [Hlt|]; [|split; [lia|]; split; intros; lia].
    set (h := Nat.div (i + j) 2).
    assert (Hh : (i ≤ h < j)%nat).
    { unfold h. split; [apply Nat.div_le_lower_bound; lia|].
      apply Nat.Div0.div_lt_upper_bound; lia. }
    destruct (f h) eqn:Hfh.
    - destruct (IH i h ltac:(lia) ltac:(lia)) as (H1 & H2 & H3).
      split; [lia|]. split; [done|]. intros Hk.
      destruct (Nat.eq_dec (sort_search fuel f i h) h) as [->|]; [done|]. apply H3. lia.
    - destruct (IH (S h) j ltac:(lia) ltac:(lia)) as (H1 & H2 & H3).
      split; [lia|]. split; [|done]. intros a Ha.
      destruct (decide (S h ≤ a)%nat); [apply H2; lia|].
      destruct (f a) eqn:Hfa; [|done].
      rewrite (f_mono a h) in Hfh; [done|lia|done].
  Qed.
End sort_search.

(** user ids strictly increase along the list, which [Finalize] establishes for
    users with distinct ids *)
Definition users_sorted (users : list User) : Prop :=
  ∀ i j u v, users !! i = Some u → users !! j = Some v → (i < j)%nat → user_ID u < user_ID v.

(** ** User maps (userMap of the session registry, usersByID of the engine) *)
Definition userMap (users : list User) : gmap Z User :=
  fold_left (λ m u, <[user_ID u := u]> m) users ∅.

(** The users of a snapshot by id: the last one of the list with that id. *)
Lemma lookup_userMap users id :
  userMap users !! id = last (filter (λ u, user_ID u = id) users).
Proof.
  unfold userMap.
  assert (∀ m : gmap Z User, fold_left (λ m u, <[user_ID u := u]> m) users m !! id =
               match last (filter (λ u, user_ID u = id) users) with
               | Some u => Some u | None => m !! id end) as H.
  { induction users as [|u users IH] using rev_ind; intros m; [done|].
    rewrite fold_left_app, filter_app. simpl. rewrite filter_cons, filter_nil.
    destruct (decide (user_ID u = id)) as [<-|Hne].
    - by rewrite last_snoc, lookup_insert_eq.
    - rewrite app_nil_r, lookup_insert_ne by done. apply IH. }
  rewrite H, lookup_empty. by destruct (last _).
Qed.

Lemma lookup_userMap_Some users id u :
  userMap users !! id = Some u → user_ID u = id ∧ u ∈ users.
Proof.
  rewrite lookup_userMap. intros H%last_Some_elem_of.
  by apply list_elem_of_filter in H.
Qed.

(** on a snapshot whose users are in strictly increasing order of their ids,
    the binary search finds a user exactly when the snapshot has one with the
    id, and then that one. *)
Theorem UserByID_finds s id u :
  users_sorted (snap_Users s) →
  UserByID s id = Some u ↔ u ∈ snap_Users s ∧ user_ID u = id.
Proof.
  intros Hs. unfold UserByID. set (users := snap_Users s) in *.
  set (f := λ h, match users !! h with Some u => id <=? user_ID u | None => true end).
  destruct (sort_search_spec f) with (fuel := length users) (i := O) (j := length users)
    as (Hk & Hbefore & Hat); [|lia|lia|].
  { intros a b Hab. unfold f. destruct (users !! b) as [v|] eqn:Hb; [|done].
    destruct (users !! a) as [w|] eqn:Ha.
    - destruct (decide (a = b)) as [->|]; [congruence|].
      pose proof (Hs a b w v Ha Hb ltac:(lia)). lia.
    - apply lookup_ge_None in Ha. apply lookup_lt_Some in Hb. lia. }
  fold f. set (k := sort_search _ f _ _) in *.
  split.
  - destruct (users !! k) as [w|] eqn:Hku; [|done].
    destruct (Z.eqb_spec (user_ID w) id); [|done]. intros [= ->].
    split; [|done]. by apply list_elem_of_lookup_2 in Hku.
  - intros [[i Hi]%list_elem_of_lookup Hid].
    assert (Hki : (k ≤ i)%nat).
    { destruct (decide (k ≤ i)%nat) as [|Hik]; [done|].
      specialize (Hbefore i ltac:(lia)). unfold f in Hbefore. rewrite Hi in Hbefore. lia. }
    pose proof (lookup_lt_Some _ _ _ Hi) as Hlen.
    destruct (lookup_lt_is_Some_2 users k) as [w Hw]; [lia|].
    specialize (Hat ltac:(lia)). unfold f in Hat. rewrite Hw in Hat.
    destruct (decide (k = i)) as [->|Hne].
    + rewrite Hi. by rewrite Hid, Z.eqb_refl.
    + pose proof (Hs k i w u Hw Hi ltac:(lia)). lia.
Qed.

Lemma UserByID_finds_witness :
  let u n := mkUser n EmptyString (f64_of_int 0) 0 [] [] [] in
  let s := mkSnapshot (mkNode 1 EmptyString (f64_of_int 1) 0 0 (f64_of_int 0) 0 0 0 EmptyString 0 EmptyString
    EmptyString EmptyString EmptyString EmptyString EmptyString EmptyString EmptyString 1) [u 2; u 5; u 9] 0 EmptyString in
  users_sorted (snap_Users s) ∧ UserByID s 5 = Some (u 5).
Proof.
  intros u s. assert (Hs : users_sorted (snap_Users s)).
  { intros [|[|[|i]]] [|[|[|j]]] x y Hx Hy Hij; simplify_eq/=; lia. }
  split; [exact Hs|]. apply (UserByID_finds s 5 (u 5) Hs).
  split; [right; left|reflexivity].
Defined.
