(* ===== verification/Policy.v ===== *)
(** Package [internal/policy]: compiling the panel's rule texts (forbidden
    addresses and prefixes, forbidden ports, disconnected sources) and the
    checks the session registry makes against the compiled rules. *)
From S2P Require Import Prelude GoString Netip.

Local Open Scope string_scope.
Local Open Scope Z_scope.

(** ** Operations *)

(** [result] with [x] appended unless it was seen *)
Definition add_once (result : list string) (x : string) : list string :=
  if bool_decide (x ∈ result) then result else (result ++ [x])%list.

(** sort.Strings: byte order *)
Definition sort_strings (l : list string) : list string := merge_sort String.le l.

Definition is_separator (c : ascii) : bool :=
  Ascii.eqb c "," || Ascii.eqb c ";" || (code c =? 10) || (code c =? 13) ||
  (code c =? 9) || Ascii.eqb c " ".
Definition fields (value : string) : list string := fields_func is_separator value.

(** one part of a rule text, normalized *)
Definition normalize_ip_rule (part : string) : option string :=
  match ParsePrefix part with
  | Some (ValidPrefix address bits) =>
      let bits := if Is4In6 address then bits - 96 else bits in
      Some (prefix_string (Masked (PrefixFrom (Unmap address) bits)))
  | Some InvalidPrefix => None
  | None =>
      address ← ParseAddr part;
      let address := Unmap address in
      Some (prefix_string (PrefixFrom address (BitLen address)))
  end.

(** the loop shared by the three parsers: stop at the first part that does not
    normalize, keep the first occurrence of each normalized part *)
Fixpoint collect (normalize : string → option string) (result : list string) (parts : list string)
  : outcome string (list string) :=
  match parts with
  | [] => Ok result
  | part :: parts =>
      match normalize part with
      | Some normalized => collect normalize (add_once result normalized) parts
      | None => Err part
      end
  end.

(** ParseIPRules; the error carries the offending part *)
Definition ParseIPRules (value : string) : outcome string (list string) :=
  let? result := collect normalize_ip_rule [] (fields value) in
  Ok (sort_strings result).

Definition CanonicalIP (value : string) : option string :=
  (λ a, addr_string (Unmap a)) <$> ParseAddr (trim value "[]").

Definition ParseSourceIPs (value : string) : outcome string (list string) :=
  let? result := collect CanonicalIP [] (fields value) in
  Ok (sort_strings result).

Definition port (value : string) : option Z :=
  n ← parse_int (trim_space value);
  if (n <? 1) || (65535 <? n) then None else Some n.

Definition normalize_port_rule (part : string) : option string :=
  match split_on "-" part with
  | [a] => first ← port a; Some (format_int first)
  | [a; b] =>
      first ← port a;
      last ← port b;
      if last <? first then None
      else Some (if negb (first =? last) then format_int first +:+ "-" +:+ format_int last
                 else format_int first)
  | _ => None
  end.

Definition ParsePorts (value : string) : outcome string (list string) :=
  let? result := collect normalize_port_rule [] (fields value) in
  Ok (sort_strings result).

Definition ip_rule_matches (address : Addr) (rule : string) : bool :=
  match ParsePrefix rule with
  | Some prefix => Contains prefix address
  | None => false
  end.

Definition IPBlocked (rules : list string) (value : string) : bool :=
  match ParseAddr (trim value "[]") with
  | None => true
  | Some address => existsb (ip_rule_matches (Unmap address)) rules
  end.

(** the loop of PortBlocked: an unreadable rule blocks *)
Definition port_rule_blocks (value : Z) (rule : string) : bool :=
  let bounds := split_on "-" rule in
  match bounds with
  | [] => true
  | a :: rest =>
      match parse_int a with
      | None => true
      | Some first =>
          match rest with
          | [b] => match parse_int b with
                   | None => true
                   | Some last => (first <=? value) && (value <=? last)
                   end
          | _ => (first <=? value) && (value <=? first)
          end
      end
  end.
Definition PortBlocked (rules : list string) (value : Z) : bool :=
  existsb (port_rule_blocks value) rules.

Example parse_ports_ex : ParsePorts "443, 1000-2000;53" = Ok ["1000-2000"; "443"; "53"].
Proof. vm_compute. reflexivity. Qed.
Example parse_ports_bad : map (λ s, is_ok (ParsePorts s)) ["0"; "65536"; "200-100"; "1-2-3"; "dns"]
  = [false; false; false; false; false].
Proof. vm_compute. reflexivity. Qed.
Example parse_ip_ex : ParseIPRules "192.0.2.1, ::ffff:192.0.2.1, 2001:db8::/32"
  = Ok ["192.0.2.1/32"; "2001:db8::/32"].
Proof. vm_compute. reflexivity. Qed.
Example parse_ip_mapped : ParseIPRules "::ffff:198.51.100.0/120" = Ok ["198.51.100.0/24"].
Proof. vm_compute. reflexivity. Qed.
Example parse_ip_short : ParseIPRules "::ffff:198.51.100.0/90" = Ok ["invalid Prefix"].
Proof. vm_compute. reflexivity. Qed.
Example parse_src_ex : ParseSourceIPs "::ffff:203.0.113.7,203.0.113.7" = Ok ["203.0.113.7"].
Proof. vm_compute. reflexivity. Qed.

(** ** Duplicate-free lists and their sorting *)
Lemma elem_of_add_once l x y : (y ∈ add_once l x) ↔ (y ∈ l) ∨ y = x.
Proof.
  unfold add_once. case_bool_decide as Hx.
  - split; [by left|intros [?| ->]; done].
  - by rewrite elem_of_app, list_elem_of_singleton.
Qed.

Lemma add_once_NoDup l x : NoDup l → NoDup (add_once l x).
Proof.
  unfold add_once. intros Hl. case_bool_decide as Hx; [done|].
  apply NoDup_app. split; [done|]. split; [|apply NoDup_singleton].
  by intros y Hy ->%list_elem_of_singleton.
Qed.

Lemma elem_of_fold_add_once xs l y : (y ∈ fold_left add_once xs l) ↔ (y ∈ l) ∨ y ∈ xs.
Proof.
  revert l. induction xs as [|x xs IH]; intros l; simpl.
  - split; [by left|by intros [?|?%not_elem_of_nil]].
  - rewrite IH, elem_of_add_once, elem_of_cons. tauto.
Qed.

Lemma fold_add_once_NoDup xs l : NoDup l → NoDup (fold_left add_once xs l).
Proof. revert l. induction xs as [|x xs IH]; intros l Hl; simpl; [done|]. by apply IH, add_once_NoDup. Qed.

(** the sorted list without repetitions of a list's elements *)
Record canonical_list (l : list string) (P : string → Prop) : Prop := mkCanonical {
  cl_sorted : Sorted String.le l;
  cl_nodup : NoDup l;
  cl_elem : ∀ x, (x ∈ l) ↔ P x }.

Lemma canonical_list_unique l l' P : canonical_list l P → canonical_list l' P → l = l'.
Proof.
  intros [S1 N1 E1] [S2 N2 E2]. apply (Sorted_unique String.le); [done..|].
  apply NoDup_Permutation; [done..|]. intros x. by rewrite E1, E2.
Qed.

Lemma sort_strings_canonical l P :
  NoDup l → (∀ x, (x ∈ l) ↔ P x) → canonical_list (sort_strings l) P.
Proof.
  intros Hnd Hl. unfold sort_strings. constructor.
  - apply (Sorted_merge_sort String.le).
  - by rewrite (merge_sort_Permutation String.le).
  - intros x. by rewrite (merge_sort_Permutation String.le).
Qed.

(** What the shared loop returns: every part normalized, each result once. *)
Lemma collect_Ok normalize parts result out :
  collect normalize result parts = Ok out ↔
  (∃ normalized, Forall2 (λ part n, normalize part = Some n) parts normalized ∧
     out = fold_left add_once normalized result).
Proof.
  revert result. induction parts as [|part parts IH]; intros result; simpl.
  - split.
    + intros [= <-]. by exists [].
    + by intros (? & ->%Forall2_nil_inv_l & ->).
  - destruct (normalize part) as [n|] eqn:E.
    + rewrite IH. split.
      * intros (ns & HF & ->). exists (n :: ns). split; [by constructor|done].
      * intros (ns & (m & ns' & Hm & HF & ->)%Forall2_cons_inv_l & ->). simplify_eq. by exists ns'.
    + split; [done|]. by intros (ns & (m & ns' & Hm & _)%Forall2_cons_inv_l & _); simplify_eq.
Qed.

Lemma collect_Err normalize parts result e :
  collect normalize result parts = Err e ↔
  ∃ before after, parts = (before ++ e :: after)%list ∧ Forall (λ p, is_Some (normalize p)) before ∧
    normalize e = None.
Proof.
  revert result. induction parts as [|part parts IH]; intros result; simpl.
  - split; [done|]. by intros ([|] & ? & ? & _).
  - destruct (normalize part) as [n|] eqn:E.
    + rewrite IH. split.
      * intros (b & a & -> & HF & He). exists (part :: b), a. split; [done|]. split; [|done]. by constructor.
      * intros ([|x b] & a & Heq & HF & He); simplify_eq/=.
        exists b, a. apply Forall_cons in HF as [_ HF]. done.
    + split.
      * intros [= <-]. by exists [], parts.
      * intros ([|x b] & a & Heq & HF & He); simplify_eq/=; [done|].
        apply Forall_cons in HF as [[? ?] _]. by simplify_eq.
Qed.

Lemma collect_no_panic normalize parts result : collect normalize result parts ≠ Panic.
Proof. revert result. induction parts as [|part parts IH]; intros result; simpl; [done|]. by case_match. Qed.
