(* ===== verification/PolicyProps.v ===== *)
(** What is proved of the policy rules: the compiled lists are canonical, and
    checking a value against them decides exactly what the rule text denotes;
    with the two ways in which an address rule does not match. *)
From S2P Require Import Prelude GoString Netip NetipText Policy.

Local Open Scope string_scope.
Local Open Scope Z_scope.

#[local] Ltac Zify.zify_post_hook ::= Z.to_euclidean_division_equations.

(** ** The compiled lists *)

(** the parser of a rule list for a way to normalize its parts *)
Definition parse_rules (normalize : string → option string) (value : string) : outcome string (list string) :=
  let? result := collect normalize [] (fields value) in Ok (sort_strings result).

Lemma fold_add_once_canonical (normalize : string → option string) parts ns :
  Forall2 (λ part n, normalize part = Some n) parts ns →
  canonical_list (sort_strings (fold_left add_once ns []))
    (λ x, ∃ part, part ∈ parts ∧ normalize part = Some x).
Proof.
  intros HF. apply sort_strings_canonical; [apply fold_add_once_NoDup, NoDup_nil_2|].
  intros x. rewrite elem_of_fold_add_once. split.
  - intros [?%not_elem_of_nil|Hx]; [done|]. apply list_elem_of_lookup in Hx as [i Hi].
    destruct (Forall2_lookup_r _ _ _ _ _ HF Hi) as (part & Hp & Hn).
    exists part. split; [by eapply list_elem_of_lookup_2|done].
  - intros (part & Hp & Hn). right. apply list_elem_of_lookup in Hp as [i Hi].
    destruct (Forall2_lookup_l _ _ _ _ _ HF Hi) as (y & Hy & Hny).
    rewrite Hn in Hny. injection Hny as ->. by eapply list_elem_of_lookup_2.
Qed.

Lemma parse_rules_Ok (normalize : string → option string) value rules :
  parse_rules normalize value = Ok rules ↔
  (∀ part, part ∈ fields value → is_Some (normalize part)) ∧
  canonical_list rules (λ x, ∃ part, part ∈ fields value ∧ normalize part = Some x).
Proof.
  unfold parse_rules. split.
  - intros H. apply obind_Ok_inv in H as (result & Hc & [= <-]).
    apply collect_Ok in Hc as (ns & HF & ->). split; [|by apply fold_add_once_canonical].
    intros part Hp. apply list_elem_of_lookup in Hp as [i Hi].
    destruct (Forall2_lookup_l _ _ _ _ _ HF Hi) as (y & _ & ->). by eexists.
  - intros [Hall Hcan]. destruct (collect normalize [] (fields value)) as [result|e|] eqn:Hc.
    + simpl. f_equal. apply collect_Ok in Hc as (ns & HF & ->).
      eapply canonical_list_unique; [by apply fold_add_once_canonical|done].
    + apply collect_Err in Hc as (b & a & Hf & _ & He). destruct (Hall e) as [x Hx].
      { rewrite Hf. apply elem_of_app. right. by left. }
      congruence.
    + by apply collect_no_panic in Hc.
Qed.

Lemma parse_rules_Err (normalize : string → option string) value e :
  parse_rules normalize value = Err e ↔
  ∃ before after, fields value = (before ++ e :: after)%list ∧
    Forall (λ p, is_Some (normalize p)) before ∧ normalize e = None.
Proof.
  unfold parse_rules. rewrite <- (collect_Err normalize (fields value) [] e). destruct (collect _ _ _) as [l|e0|]; cbn [obind].
  - by split.
  - split; intros [= ->]; done.
  - by split.
Qed.

(** the three kinds of rule list *)
Inductive rule_kind : Type := AddressRules | SourceRules | PortRules.
Definition parser (k : rule_kind) : string → outcome string (list string) :=
  match k with AddressRules => ParseIPRules | SourceRules => ParseSourceIPs | PortRules => ParsePorts end.
Definition normalizer (k : rule_kind) : string → option string :=
  match k with
  | AddressRules => normalize_ip_rule | SourceRules => CanonicalIP | PortRules => normalize_port_rule
  end.

Lemma parser_eq k value : parser k value = parse_rules (normalizer k) value.
Proof. by destruct k. Qed.

(** each of the three list parsers either returns the normalized parts of
    the text, sorted and without repetitions, when every part normalizes, or
    stops at the first part that does not, which the error names; it never
    panics. *)
Theorem rule_lists_are_canonical k value :
  (∀ rules, parser k value = Ok rules ↔
     (∀ part, part ∈ fields value → is_Some (normalizer k part)) ∧
     canonical_list rules (λ x, ∃ part, part ∈ fields value ∧ normalizer k part = Some x)) ∧
  (∀ e, parser k value = Err e ↔
     ∃ before after, fields value = (before ++ e :: after)%list ∧
       Forall (λ p, is_Some (normalizer k p)) before ∧ normalizer k e = None) ∧
  parser k value ≠ Panic.
Proof.
  rewrite parser_eq. split; [|split].
  - intros rules. apply parse_rules_Ok.
  - intros e. apply parse_rules_Err.
  - unfold parse_rules. destruct (collect _ _ _) eqn:E; try done. by apply collect_no_panic in E.
Qed.

(** ** Ports *)

(** a part of a port rule text denotes a range *)
Definition port_part (part : string) (first last : Z) : Prop :=
  (split_on "-" part = [part] ∧ port part = Some first ∧ last = first) ∨
  (∃ a b, split_on "-" part = [a; b] ∧ port a = Some first ∧ port b = Some last ∧ first ≤ last).

Lemma port_range s n : port s = Some n → 1 ≤ n ≤ 65535.
Proof.
  unfold port. destruct (parse_int _) as [m|]; [|done]. cbn [mbind option_bind].
  destruct ((m <? 1) || (65535 <? m)) eqn:E; [done|]. intros [= <-]. lia.
Qed.

Lemma format_int_no_dash n : 0 ≤ n → string_all (λ c, negb (Ascii.eqb c "-")) (format_int n) = true.
Proof.
  intros Hn. eapply string_all_weaken; [|by apply format_int_digits].
  intros c Hc. apply negb_true_iff, Ascii.eqb_neq. intros ->. by vm_compute in Hc.
Qed.

Lemma port_int64 n : 1 ≤ n ≤ 65535 → is_int64 n = true.
Proof. unfold is_int64, min_int64, max_int64. lia. Qed.

(** A normalized part denotes the range that its text denotes. *)
Lemma normalize_port_spec part n :
  normalize_port_rule part = Some n →
  ∃ first last, port_part part first last ∧
    ∀ v, port_rule_blocks v n = (first <=? v) && (v <=? last).
Proof.
  assert (Hone : ∀ f v, 1 ≤ f ≤ 65535 → port_rule_blocks v (format_int f) = (f <=? v) && (v <=? f)).
  { intros f v Hf. unfold port_rule_blocks. rewrite split_on_none by (apply format_int_no_dash; lia).
    by rewrite parse_format_int by (apply port_int64; lia). }
  unfold normalize_port_rule. destruct (split_on "-" part) as [|a [|b [|]]] eqn:Hs; try done.
  - destruct (port a) as [f|] eqn:Ha; [|done]. cbn [mbind option_bind]. intros [= <-].
    pose proof (split_on_single _ _ _ Hs) as ->. pose proof (port_range _ _ Ha).
    exists f, f. split; [by left|]. intros v. by apply Hone.
  - destruct (port a) as [f|] eqn:Ha; [|done]. cbn [mbind option_bind].
    destruct (port b) as [l|] eqn:Hb; [|done]. cbn [mbind option_bind].
    pose proof (port_range _ _ Ha). pose proof (port_range _ _ Hb).
    destruct (Z.ltb_spec l f); [done|]. intros [= <-]. exists f, l. split.
    { right. exists a, b. done. }
    intros v. destruct (Z.eqb_spec f l) as [->|]; cbn [negb]; [by apply Hone|].
    unfold port_rule_blocks. change ("-" +:+ ?s) with (String "-" s).
    rewrite split_on_app, split_on_none by (apply format_int_no_dash; lia).
    by rewrite !parse_format_int by (apply port_int64; lia).
Qed.

Lemma port_part_normalizes part first last :
  port_part part first last → is_Some (normalize_port_rule part).
Proof.
  unfold normalize_port_rule. intros [(-> & -> & ->)|(a & b & -> & -> & -> & Hle)]; [by eexists|].
  cbn [mbind option_bind]. rewrite (proj2 (Z.ltb_ge last first)) by lia. by eexists.
Qed.

Lemma port_part_unique part f l f' l' : port_part part f l → port_part part f' l' → f = f' ∧ l = l'.
Proof.
  intros [(H1 & H2 & ->)|(a & b & H1 & H2 & H3 & _)] [(G1 & G2 & ->)|(c & d & G1 & G2 & G3 & _)];
    rewrite H1 in G1; simplify_eq; done.
Qed.

(** a port rule text compiles exactly when each of its parts is a port or an
    ascending range of ports in 1..65535, and the compiled rules block a port
    exactly when one of the ranges contains it. *)
Theorem port_rules_decide_ranges text :
  ((∃ rules, ParsePorts text = Ok rules) ↔
     ∀ part, part ∈ fields text → ∃ first last, port_part part first last) ∧
  (∀ rules v, ParsePorts text = Ok rules →
     PortBlocked rules v = true ↔
     ∃ part first last, part ∈ fields text ∧ port_part part first last ∧ first ≤ v ≤ last).
Proof.
  change (ParsePorts text) with (parse_rules normalize_port_rule text). split.
  - split.
    + intros [rules [Hall _]%parse_rules_Ok] part Hp. destruct (Hall part Hp) as [n Hn].
      destruct (normalize_port_spec _ _ Hn) as (f & l & Hpart & _). eauto.
    + intros Hall. destruct (parse_rules normalize_port_rule text) as [rules|e|] eqn:E; [by eauto| |].
      * apply parse_rules_Err in E as (b & a & Hf & _ & He). destruct (Hall e) as (f & l & Hp).
        { rewrite Hf. apply elem_of_app. right. by left. }
        apply port_part_normalizes in Hp as [? ?]. congruence.
      * unfold parse_rules in E. destruct (collect _ _ _) eqn:Ec; try done. by apply collect_no_panic in Ec.
  - intros rules v [_ [_ _ Helem]]%parse_rules_Ok. unfold PortBlocked. rewrite existsb_exists. split.
    + intros (n & Hn%list_elem_of_In & Hb). apply Helem in Hn as (part & Hp & Hn).
      destruct (normalize_port_spec _ _ Hn) as (f & l & Hpart & Hv). rewrite Hv in Hb.
      exists part, f, l. split_and!; try done; lia.
    + intros (part & f & l & Hp & Hpart & Hv). destruct (port_part_normalizes _ _ _ Hpart) as [n Hn].
      exists n. split; [apply list_elem_of_In, Helem; eauto|].
      destruct (normalize_port_spec _ _ Hn) as (f' & l' & Hpart' & ->).
      destruct (port_part_unique _ _ _ _ _ Hpart Hpart') as [<- <-]. lia.
Qed.

(** ** Addresses *)

(** the form of an address in the 128-bit space: IPv4 addresses are the
    IPv4-mapped ones *)
Definition as_mapped (a : Addr) : Addr :=
  match a with Addr4 v => Addr6 (65535 * 2 ^ 32 + v) EmptyString | Addr6 _ _ => a end.

(** the first [bits] bits of the two addresses agree *)
Definition in_block (ip : Addr) (bits : Z) (a : Addr) : Prop :=
  BitLen ip = BitLen a ∧
  addr_value a / 2 ^ (BitLen a - bits) = addr_value ip / 2 ^ (BitLen a - bits).

(** the address lies in the block that a part of a rule text denotes, whatever
    its zone: the addresses with the bits of the prefix, where a prefix
    written in IPv4-mapped form is one of the 128-bit space; or the one
    address that is written *)
Definition rule_covers (part : string) (a : Addr) : Prop :=
  match ParsePrefix part with
  | Some (ValidPrefix ip bits) => in_block ip bits (if Is4In6 ip then as_mapped a else a)
  | Some InvalidPrefix => False
  | None => ∃ ip, ParseAddr part = Some ip ∧ without_zone (Unmap ip) = without_zone a
  end.

(** a prefix in IPv4-mapped form that reaches beyond the mapped addresses *)
Definition short_mapped (part : string) : Prop :=
  match ParsePrefix part with
  | Some (ValidPrefix ip bits) => Is4In6 ip = true ∧ bits < 96
  | _ => False
  end.

Lemma ParsePrefix_inv s p : ParsePrefix s = Some p →
  ∃ ip bits, p = ValidPrefix ip bits ∧ addr_ok ip ∧ has_zone ip = false ∧ 0 ≤ bits ≤ BitLen ip.
Proof.
  unfold ParsePrefix. destruct (last_index_of "/" s) as [i|]; [|done]. cbn [mbind option_bind].
  destruct (ParseAddr (take_chars i s)) as [ip|] eqn:Hip; [|done]. cbn [mbind option_bind].
  destruct (has_zone ip) eqn:Hz; [done|]. case_match; [done|].
  destruct (parse_int _) as [bits|]; [|done]. cbn [mbind option_bind].
  destruct ((0 <=? bits) && (bits <=? BitLen ip)) eqn:Hb; [|done]. intros [= <-].
  unfold PrefixFrom. rewrite Hb. exists ip, bits.
  split; [by destruct ip as [v|v [|? ?]]|]. split; [by eapply ParseAddr_ok|]. split; [done|lia].
Qed.

Lemma mask_value v h : 0 ≤ h → Z.shiftl (Z.shiftr v h) h = v / 2 ^ h * 2 ^ h.
Proof. intros Hh. by rewrite Z.shiftl_mul_pow2, Z.shiftr_div_pow2. Qed.

Lemma mask_addr_eq a bits : 0 ≤ bits ≤ BitLen a →
  mask_addr a bits = match a with
    | Addr4 v => Addr4 (v / 2 ^ (32 - bits) * 2 ^ (32 - bits))
    | Addr6 v z => Addr6 (v / 2 ^ (128 - bits) * 2 ^ (128 - bits)) z end.
Proof. intros Hb. unfold mask_addr. destruct a; simpl in *; by rewrite mask_value by lia. Qed.

Lemma masked_range v h n : 0 ≤ h → 0 ≤ v < n → 0 ≤ v / 2 ^ h * 2 ^ h < n.
Proof.
  intros Hh Hv. assert (Hp : 0 < 2 ^ h) by (apply Z.pow_pos_nonneg; lia).
  pose proof (Z.div_pos v (2 ^ h) ltac:(lia) Hp). pose proof (Z.mul_div_le v (2 ^ h) Hp). nia.
Qed.

(** Masking an address that is not IPv4-mapped does not make it one. *)
Lemma masked_not_mapped v h : 0 ≤ h →
  v / 2 ^ 32 ≠ 65535 → v / 2 ^ h * 2 ^ h / 2 ^ 32 ≠ 65535.
Proof.
  intros Hh Hv. assert (Hp : 0 < 2 ^ h) by (apply Z.pow_pos_nonneg; lia).
  destruct (Z.le_gt_cases h 32) as [Hle|Hgt].
  - assert (E : 2 ^ 32 = 2 ^ (32 - h) * 2 ^ h) by (rewrite <- Z.pow_add_r by lia; f_equal; lia).
    assert (Hq : 0 < 2 ^ (32 - h)) by (apply Z.pow_pos_nonneg; lia).
    rewrite E in *. rewrite Z.div_mul_cancel_r by lia. rewrite Z.div_div by lia.
    by rewrite (Z.mul_comm (2 ^ h)).
  - assert (E : 2 ^ h = 2 * 2 ^ (h - 33) * 2 ^ 32).
    { rewrite <- Z.pow_succ_r, <- Z.pow_add_r by lia. f_equal. lia. }
    rewrite E at 2. rewrite Z.mul_assoc, Z.div_mul by lia. nia.
Qed.

Lemma xor_shift_zero x y n : (Z.shiftr (Z.lxor x y) n =? 0) = (Z.shiftr x n =? Z.shiftr y n).
Proof.
  rewrite Z.shiftr_lxor. destruct (Z.eqb_spec (Z.shiftr x n) (Z.shiftr y n)) as [->|Hne].
  - by rewrite Z.lxor_nilpotent.
  - apply Z.eqb_neq. by rewrite Z.lxor_eq_0_iff.
Qed.

Lemma div_mask v h : 0 ≤ h → v / 2 ^ h * 2 ^ h / 2 ^ h = v / 2 ^ h.
Proof. intros Hh. apply Z.div_mul. pose proof (Z.pow_pos_nonneg 2 h). lia. Qed.

(** The printed prefix of a masked address matches exactly the block. *)
Lemma masked_prefix_matches ip bits a :
  addr_ok ip → Is4In6 ip = false → 0 ≤ bits ≤ BitLen ip →
  ip_rule_matches a (prefix_string (Masked (PrefixFrom ip bits))) = true ↔
  has_zone a = false ∧ BitLen ip = BitLen a ∧
  addr_value a / 2 ^ (BitLen a - bits) = addr_value ip / 2 ^ (BitLen a - bits).
Proof.
  intros Hok H46 Hb. unfold PrefixFrom at 1.
  rewrite (proj2 (Z.leb_le 0 bits)), (proj2 (Z.leb_le bits (BitLen ip))) by lia. cbn [andb Masked].
  rewrite mask_addr_eq by (by destruct ip).
  assert (Hpf : ∃ ip', PrefixFrom (match without_zone ip with
      | Addr4 v => Addr4 (v / 2 ^ (32 - bits) * 2 ^ (32 - bits))
      | Addr6 v z => Addr6 (v / 2 ^ (128 - bits) * 2 ^ (128 - bits)) z end) bits = ValidPrefix ip' bits ∧
    addr_ok ip' ∧ Is4In6 ip' = false ∧ has_zone ip' = false ∧ BitLen ip' = BitLen ip ∧
    addr_value ip' = addr_value ip / 2 ^ (BitLen ip - bits) * 2 ^ (BitLen ip - bits)).
  { destruct ip as [v|v z]; cbn [without_zone BitLen addr_ok] in *; unfold PrefixFrom; cbn [BitLen];
      rewrite (proj2 (Z.leb_le 0 bits)), (proj2 (Z.leb_le bits _)) by lia; cbn [andb];
      eexists; (split; [reflexivity|]); cbn [without_zone addr_ok Is4In6 has_zone BitLen addr_value].
    - pose proof (masked_range v (32 - bits) (2 ^ 32) ltac:(lia) Hok) as Hm. split_and!; try done; apply Hm.
    - pose proof (masked_range v (128 - bits) (2 ^ 128) ltac:(lia) Hok) as Hm.
      split_and!; try done; try apply Hm. apply Z.eqb_neq, masked_not_mapped; [lia|]. by apply Z.eqb_neq. }
  destruct Hpf as (ip' & -> & Hok' & H46' & Hz' & Hl' & Hval). unfold ip_rule_matches.
  rewrite ParsePrefix_string by (done || lia). unfold Contains.
  rewrite !andb_true_iff, negb_true_iff, Z.eqb_eq, Hl', xor_shift_zero, Z.eqb_eq.
  rewrite !Z.shiftr_div_pow2 by lia. rewrite Hval, div_mask by lia.
  split; [intros [[? E] ?]|intros (? & E & ?)]; rewrite <- E in *; done.
Qed.

Lemma single_prefix ip : Masked (PrefixFrom ip (BitLen ip)) = PrefixFrom ip (BitLen ip).
Proof.
  destruct ip as [v|v z]; unfold PrefixFrom, Masked; cbn [BitLen without_zone]; rewrite Z.leb_refl;
    cbn [Z.leb Z.compare andb Pos.compare]; unfold PrefixFrom; rewrite mask_addr_eq by (simpl; lia);
    simpl; by rewrite Z.mul_1_r, Z.div_1_r.
Qed.

(** A mapped prefix of at least 96 bits is the IPv4 prefix inside it. *)
Lemma mapped_block ip bits a :
  addr_ok ip → Is4In6 ip = true → 96 ≤ bits ≤ 128 → addr_ok a → Is4In6 a = false →
  in_block ip bits (as_mapped a) ↔ in_block (Unmap ip) (bits - 96) a.
Proof.
  intros Hip Hm Hb Ha Hna. destruct ip as [w|w zw]; [done|]. unfold Unmap. rewrite Hm.
  cbn [Is4In6 addr_ok] in Hm, Hip. apply Z.eqb_eq in Hm. unfold in_block.
  assert (Ew : w = 65535 * 2 ^ 32 + w mod 2 ^ 32) by (pose proof (Z.div_mod w (2 ^ 32)); lia).
  remember (w mod 2 ^ 32) as l eqn:El. clear El.
  set (h := 128 - bits). assert (Hh : 0 < 2 ^ h) by (apply Z.pow_pos_nonneg; lia).
  assert (E32 : 2 ^ 32 = 2 ^ (32 - h) * 2 ^ h) by (rewrite <- Z.pow_add_r by lia; f_equal; lia).
  destruct a as [v|v za]; cbn [as_mapped BitLen addr_value].
  - replace (32 - (bits - 96)) with h by lia.
    assert (Hs : ∀ u, (65535 * 2 ^ 32 + u) / 2 ^ h = 65535 * 2 ^ (32 - h) + u / 2 ^ h).
    { intros u. rewrite E32, Z.mul_assoc. by apply Z.div_add_l; lia. }
    rewrite Ew, !Hs. clear. intuition lia.
  - split; [|by intros [? _]]. intros [_ E]. exfalso. cbn [Is4In6] in Hna. apply Z.eqb_neq in Hna. apply Hna.
    fold h in E. rewrite <- (Z.mul_comm (2 ^ h)) in E32.
    rewrite E32, <- Z.div_div, E, Z.div_div, <- E32 by (try apply Z.pow_pos_nonneg; lia). exact Hm.
Qed.

Lemma same_address ip a :
  without_zone ip = without_zone a ↔ in_block ip (BitLen ip) a.
Proof.
  unfold in_block. split.
  - destruct ip, a; simpl; intros [= ->]; done.
  - intros [Hl E]. rewrite Hl, Z.sub_diag, !Z.div_1_r in E. destruct ip, a; simplify_eq/=; done.
Qed.

Lemma normalize_ip_covers part n a :
  normalize_ip_rule part = Some n → addr_ok a → Is4In6 a = false →
  ip_rule_matches a n = true ↔ has_zone a = false ∧ ¬ short_mapped part ∧ rule_covers part a.
Proof.
  intros Hn Ha Hna. revert Hn. unfold normalize_ip_rule, rule_covers, short_mapped.
  destruct (ParsePrefix part) as [p|] eqn:Hp.
  - destruct (ParsePrefix_inv _ _ Hp) as (ip & bits & -> & Hok & Hz & Hb). cbv zeta. intros [= <-].
    destruct (Unmap_ok ip Hok) as [Hok' H46']. destruct (Is4In6 ip) eqn:H46.
    + assert (Hb' : bits ≤ 128) by (destruct ip; simpl in *; lia).
      assert (Hl : BitLen (Unmap ip) = 32) by (destruct ip; [done|]; unfold Unmap; by rewrite H46).
      destruct (Z.lt_ge_cases bits 96) as [Hs|Hs].
      * assert (PrefixFrom (Unmap ip) (bits - 96) = InvalidPrefix) as ->.
        { unfold PrefixFrom. by rewrite (proj2 (Z.leb_gt 0 (bits - 96))) by lia. }
        change (ip_rule_matches a (prefix_string (Masked InvalidPrefix))) with false.
        split; [done|]. intros (_ & Hns & _). by destruct Hns.
      * rewrite (mapped_block ip bits a), (masked_prefix_matches (Unmap ip)) by (done || lia).
        unfold in_block. split; [intros (? & ? & ?); split_and!; try done; lia|tauto].
    + assert (Unmap ip = ip) as -> by (destruct ip; [done|unfold Unmap; by rewrite H46]).
      rewrite (masked_prefix_matches ip bits a Hok H46 Hb). unfold in_block.
      split; [intros (? & ? & ?); split_and!; try done; by intros [? _]|tauto].
  - destruct (ParseAddr part) as [ip|] eqn:Hip; [|done]. cbn [mbind option_bind]. intros [= <-].
    destruct (Unmap_ok ip (ParseAddr_ok _ _ Hip)) as [Hok' H46'].
    assert (Hb : 0 ≤ BitLen (Unmap ip) ≤ BitLen (Unmap ip)) by (destruct (Unmap ip); simpl; lia).
    rewrite <- single_prefix, (masked_prefix_matches (Unmap ip) _ a Hok' H46' Hb).
    fold (in_block (Unmap ip) (BitLen (Unmap ip)) a). rewrite <- same_address. split.
    + intros [? ?]. split_and!; [done|tauto|eauto].
    + intros (? & _ & ip0 & [= <-] & ?). done.
Qed.

(** C37: the compiled address rules block an address without a zone exactly
    when a part of the text denotes a block that contains it, unless that
    part is an IPv4-mapped prefix shorter than 96 bits; an address with a zone
    is never blocked, and whatever is not an address is. The two exceptions
    are departures of the code from what the text denotes: such a prefix
    compiles to a rule that matches nothing, and [Contains] refuses zones. *)
Theorem ip_rules_decide_blocks text rules value :
  ParseIPRules text = Ok rules →
  match ParseAddr (trim value "[]") with
  | None => IPBlocked rules value = true
  | Some a => IPBlocked rules value = true ↔
      has_zone (Unmap a) = false ∧
      ∃ part, part ∈ fields text ∧ ¬ short_mapped part ∧ rule_covers part (Unmap a)
  end.
Proof.
  change (ParseIPRules text) with (parse_rules normalize_ip_rule text).
  intros [Hall [_ _ Helem]]%parse_rules_Ok. unfold IPBlocked.
  destruct (ParseAddr (trim value "[]")) as [a|] eqn:Ha; [|done].
  destruct (Unmap_ok a (ParseAddr_ok _ _ Ha)) as [Hok H46].
  rewrite existsb_exists. split.
  - intros (n & Hn%list_elem_of_In & Hm). apply Helem in Hn as (part & Hp & Hn).
    apply (normalize_ip_covers part n) in Hm as (? & ? & ?); eauto.
  - intros (Hz & part & Hp & Hs & Hc). destruct (Hall part Hp) as [n Hn]. exists n.
    split; [apply list_elem_of_In, Helem; eauto|]. by apply (normalize_ip_covers part n).
Qed.

(** ** Sources *)
Lemma CanonicalIP_Some value c : CanonicalIP value = Some c ↔
  ∃ a, ParseAddr (trim value "[]") = Some a ∧ c = addr_string (Unmap a).
Proof.
  unfold CanonicalIP. destruct (ParseAddr (trim value "[]")) as [a|]; simpl.
  - split; [intros [= <-]; eauto|by intros (b & [= <-] & ->)].
  - split; [done|by intros (? & ? & _)].
Qed.

Lemma canonical_parses a : addr_ok a → ParseAddr (addr_string (Unmap a)) = Some (Unmap a).
Proof. intros Hok. destruct (Unmap_ok a Hok) as [H1 H2]. by apply ParseAddr_string. Qed.

Lemma canonical_inj a b : addr_ok a → addr_ok b →
  addr_string (Unmap a) = addr_string (Unmap b) → Unmap a = Unmap b.
Proof. intros Ha Hb E. apply canonical_parses in Ha, Hb. congruence. Qed.

(** source addresses are compared as addresses: the canonical text of a
    source reads back as the un-mapped address, and a compiled source list
    contains it exactly when a part of the list's text is an address that
    un-maps to the same one. *)
Theorem source_lists_compare_addresses text sources value c a :
  ParseSourceIPs text = Ok sources → CanonicalIP value = Some c →
  ParseAddr (trim value "[]") = Some a →
  ParseAddr c = Some (Unmap a) ∧
  (c ∈ sources ↔ ∃ part b, part ∈ fields text ∧ ParseAddr (trim part "[]") = Some b ∧ Unmap b = Unmap a).
Proof.
  change (ParseSourceIPs text) with (parse_rules CanonicalIP text).
  intros [_ [_ _ Helem]]%parse_rules_Ok (a' & Ha' & ->)%CanonicalIP_Some Ha.
  assert (a' = a) as -> by congruence.
  pose proof (ParseAddr_ok _ _ Ha) as Hok. split; [by apply canonical_parses|].
  rewrite Helem. split.
  - intros (part & Hp & (b & Hb & E)%CanonicalIP_Some). exists part, b. split_and!; try done.
    apply canonical_inj; [by eapply ParseAddr_ok|done|done].
  - intros (part & b & Hp & Hb & E). exists part. split; [done|]. apply CanonicalIP_Some.
    exists b. by rewrite E.
Qed.

(** ** Two rules that do not block *)

(** an IPv4-mapped prefix shorter than 96 bits is accepted as the rule
    [invalid Prefix], which blocks no address at all. *)
Theorem short_mapped_prefix_never_blocks part v z bits :
  ParsePrefix part = Some (ValidPrefix (Addr6 v z) bits) → Is4In6 (Addr6 v z) = true → bits < 96 →
  normalize_ip_rule part = Some "invalid Prefix" ∧
  ∀ value a, ParseAddr (trim value "[]") = Some a → IPBlocked ["invalid Prefix"] value = false.
Proof.
  intros Hp H46 Hb. split.
  - unfold normalize_ip_rule. rewrite Hp, H46. cbv zeta.
    assert (PrefixFrom (Unmap (Addr6 v z)) (bits - 96) = InvalidPrefix) as ->; [|done].
    unfold PrefixFrom. by rewrite (proj2 (Z.leb_gt 0 (bits - 96))) by lia.
  - intros value a Ha. unfold IPBlocked. rewrite Ha. reflexivity.
Qed.

(** an IPv6 address with a zone is blocked by no rule, not even by the
    prefix of length zero. *)
Theorem zoned_address_never_blocked rules value a :
  ParseAddr (trim value "[]") = Some a → has_zone (Unmap a) = true → IPBlocked rules value = false.
Proof.
  intros Ha Hz. unfold IPBlocked. rewrite Ha. apply not_true_is_false. rewrite existsb_exists.
  intros (rule & _ & Hm). unfold ip_rule_matches in Hm. destruct (ParsePrefix rule) as [[ip bits|]|]; try done.
  unfold Contains in Hm. by rewrite Hz in Hm.
Qed.

(** ** Witnesses *)
Lemma ip_rules_decide_blocks_witness :
  ParseIPRules "192.0.2.0/24, 2001:db8::/32" = Ok ["192.0.2.0/24"; "2001:db8::/32"] ∧
  IPBlocked ["192.0.2.0/24"; "2001:db8::/32"] "[2001:db8:1::5]" = true.
Proof.
  split; [by vm_compute|].
  pose proof (ip_rules_decide_blocks "192.0.2.0/24, 2001:db8::/32" ["192.0.2.0/24"; "2001:db8::/32"]
    "[2001:db8:1::5]" ltac:(by vm_compute)) as H.
  assert (Hp : ParseAddr (trim "[2001:db8:1::5]" "[]") = Some (Addr6 (8193 * 2 ^ 112 + 3512 * 2 ^ 96 + 2 ^ 80 + 5) EmptyString))
    by (by vm_compute).
  rewrite Hp in H. apply H. split; [by vm_compute|]. exists "2001:db8::/32".
  split; [apply (bool_decide_unpack _); by vm_compute|]. vm_compute. split; [by intros [? _]|]. by split.
Defined.

Lemma source_lists_compare_addresses_witness :
  "203.0.113.7" ∈ ["203.0.113.7"].
Proof.
  destruct (source_lists_compare_addresses "::ffff:203.0.113.7" ["203.0.113.7"] "203.0.113.7" "203.0.113.7"
    (Addr4 3405803783) ltac:(by vm_compute) ltac:(by vm_compute) ltac:(by vm_compute)) as [_ H].
  apply H. exists "::ffff:203.0.113.7", (Addr6 (65535 * 2 ^ 32 + 3405803783) EmptyString).
  split; [apply (bool_decide_unpack _); by vm_compute|]. split; by vm_compute.
Defined.

Lemma short_mapped_prefix_never_blocks_witness :
  ParseIPRules "::ffff:198.51.100.0/90" = Ok ["invalid Prefix"] ∧
  IPBlocked ["invalid Prefix"] "198.51.100.1" = false.
Proof.
  split; [by vm_compute|].
  destruct (short_mapped_prefix_never_blocks "::ffff:198.51.100.0/90" (65535 * 2 ^ 32 + 3325256704) EmptyString 90
    ltac:(by vm_compute) ltac:(by vm_compute) ltac:(lia)) as [_ H].
  apply (H "198.51.100.1" (Addr4 3325256705)). by vm_compute.
Defined.

Lemma zoned_address_never_blocked_witness :
  IPBlocked ["::/0"] "fe80::1%eth0" = false ∧ IPBlocked ["::/0"] "fe80::1" = true.
Proof.
  split; [|by vm_compute].
  apply (zoned_address_never_blocked ["::/0"] "fe80::1%eth0" (Addr6 (65152 * 2 ^ 112 + 1) "eth0")); by vm_compute.
Defined.

Lemma port_rules_decide_ranges_witness :
  ParsePorts "443, 1000-2000" = Ok ["1000-2000"; "443"] ∧ PortBlocked ["1000-2000"; "443"] 1500 = true.
Proof.
  assert (H : ParsePorts "443, 1000-2000" = Ok ["1000-2000"; "443"]) by (by vm_compute).
  split; [exact H|]. apply (proj2 (port_rules_decide_ranges "443, 1000-2000") _ 1500 H).
  exists "1000-2000", 1000, 2000. split; [apply (bool_decide_unpack _); by vm_compute|].
  split; [|lia]. right. exists "1000", "2000". split_and!; by vm_compute.
Defined.
