(* ===== verification/Identity.v ===== *)
(** Package [internal/model]: the UUID of a user, and [Finalize], which puts a
    snapshot into its canonical order and hashes it. *)
From S2P Require Import Prelude GoString Float64 Digest Json Decimal Policy Model.

Local Open Scope string_scope.
Local Open Scope Z_scope.

(** ** UUIDv3 *)
Definition dns_namespace : list Z := [107; 167; 184; 16; 157; 173; 17; 209; 128; 180; 0; 192; 79; 212; 48; 200].
Definition UUIDv3 (userID : Z) (password : string) : string :=
  format_uuid 48 (md5 (dns_namespace ++ bytes_of (format_int userID +:+ "|" +:+ password))%list).

Example UUIDv3_fixture : UUIDv3 1 "password" = "d2b7d951-3d54-3f23-abb8-f752e336b3cd".
Proof. vm_compute. reflexivity. Qed.
Example UUIDv3_fixture_2 : UUIDv3 42 "example-pass" = "9af01be3-7b93-39b9-8fa0-40f7ad54eb71".
Proof. vm_compute. reflexivity. Qed.

(** ** The text that is hashed *)
Definition float_json (x : float64) : option json := JNumber <$> format_float x.

Definition node_json (n : Node) : option json :=
  rate ← float_json (node_TrafficRate n);
  speed ← float_json (node_SpeedLimitMbps n);
  Some (JObject
    [("id", int_json (node_ID n)); ("name", JString (node_Name n)); ("traffic_rate", rate);
     ("class", int_json (node_Class n)); ("group", int_json (node_Group n));
     ("speed_limit_mbps", speed); ("connector_limit", int_json (node_ConnectorLimit n));
     ("public_host", JString (node_PublicHost n)); ("public_port", int_json (node_PublicPort n));
     ("server_name", JString (node_ServerName n)); ("target", JString (node_Target n));
     ("reality_public_key", JString (node_RealityPublicKey n)); ("short_id", JString (node_ShortID n));
     ("fingerprint", JString (node_Fingerprint n)); ("flow", JString (node_Flow n));
     ("transport", JString (node_Transport n)); ("min_client_version", JString (node_MinClientVersion n));
     ("configuration_version", int_json (node_ConfigurationVersion n))]).

(** a list of strings marked omitempty *)
Definition strings_member (name : string) (l : list string) : list (string * json) :=
  match l with [] => [] | _ => [(name, JArray (map JString l))] end.
Definition user_json (u : User) : option json :=
  speed ← float_json (user_SpeedLimitMbps u);
  Some (JObject
    ([("id", int_json (user_ID u)); ("uuid", JString (user_UUID u)); ("speed_limit_mbps", speed);
      ("connector_limit", int_json (user_ConnectorLimit u))] ++
     strings_member "forbidden_ips" (user_ForbiddenIPs u) ++
     strings_member "forbidden_ports" (user_ForbiddenPorts u) ++
     strings_member "disconnect_ips" (user_DisconnectIPs u))%list).
(** users that were appended to a nil slice: no user leaves it nil *)
Definition users_json (users : list User) : option json :=
  match users with [] => Some JNull | _ => JArray <$> mapM user_json users end.
Definition snapshot_text (n : Node) (users : list User) : option string :=
  node ← node_json n;
  users ← users_json users;
  Some (write (JObject [("node", node); ("users", users)])).

(** ** Finalize *)
Definition user_le (a b : User) : Prop := user_ID a ≤ user_ID b.
#[global] Instance user_le_dec : RelDecision user_le.
Proof. intros a b. unfold user_le. apply _. Defined.

Definition sort_lists (u : User) : User :=
  mkUser (user_ID u) (user_UUID u) (user_SpeedLimitMbps u) (user_ConnectorLimit u)
    (sort_strings (user_ForbiddenIPs u)) (sort_strings (user_ForbiddenPorts u)) (sort_strings (user_DisconnectIPs u)).
Definition sort_users (users : list User) : list User := merge_sort user_le users.

(** the snapshot in canonical order, with its hash; it fails on a number without a text *)
Definition Finalize (s : Snapshot) : outcome string Snapshot :=
  let users := map sort_lists (sort_users (snap_Users s)) in
  match snapshot_text (snap_Node s) users with
  | None => Err "unsupported value"
  | Some data => Ok (mkSnapshot (snap_Node s) users (snap_LoadedAt s) (hex_encode (sha256 data)))
  end.

(** ** The canonical form *)
#[export] Instance user_le_trans : Transitive user_le.
Proof. intros a b c. unfold user_le. lia. Qed.
#[export] Instance user_le_total : Total user_le.
Proof. intros a b. unfold user_le. lia. Qed.

(** with distinct ids, the sorted list does not depend on the order *)
Lemma sorted_users_unique (l l' : list User) :
  NoDup (map user_ID l) → l ≡ₚ l' → StronglySorted user_le l → StronglySorted user_le l' → l = l'.
Proof.
  revert l'. induction l as [|u l IH]; intros l' Hnd Hp Hs Hs'; [by apply Permutation_nil in Hp|].
  destruct l' as [|v l']; [by apply Permutation_sym, Permutation_nil in Hp|].
  apply StronglySorted_inv in Hs as [Hs Hu]. apply StronglySorted_inv in Hs' as [Hs' Hv].
  rewrite Forall_forall in Hu, Hv.
  assert (u = v) as ->.
  { assert (Huv : u ∈ v :: l') by (rewrite <- Hp; by left).
    assert (Hvu : v ∈ u :: l) by (rewrite Hp; by left).
    apply elem_of_cons in Huv as [->|Huv]; [done|]. apply elem_of_cons in Hvu as [->|Hvu]; [done|].
    specialize (Hu v Hvu). specialize (Hv u Huv). unfold user_le in *.
    cbn [map] in Hnd. apply NoDup_cons in Hnd as [Hnot _]. destruct Hnot.
    replace (user_ID u) with (user_ID v) by lia. by apply list_elem_of_fmap_2. }
  f_equal. apply Permutation_cons_inv in Hp. cbn [map] in Hnd. apply NoDup_cons in Hnd as [_ Hnd]. by apply IH.
Qed.

Lemma sort_users_perm l l' : NoDup (map user_ID l) → l ≡ₚ l' → sort_users l = sort_users l'.
Proof.
  intros Hnd Hp. unfold sort_users. apply sorted_users_unique.
  - pose proof (merge_sort_Permutation user_le l) as E. apply (fmap_Permutation user_ID) in E.
    change (NoDup (user_ID <$> merge_sort user_le l)). by rewrite E.
  - by rewrite !(merge_sort_Permutation user_le).
  - apply (StronglySorted_merge_sort user_le).
  - apply (StronglySorted_merge_sort user_le).
Qed.

Lemma sort_strings_perm l l' : l ≡ₚ l' → sort_strings l = sort_strings l'.
Proof.
  intros Hp. unfold sort_strings. apply (Sorted_unique String.le); [apply (Sorted_merge_sort String.le)..|].
  by rewrite !(merge_sort_Permutation String.le).
Qed.

(** what of a node enters the hash *)
Definition node_static (n : Node) : Node :=
  mkNode (node_ID n) (node_Name n) (node_TrafficRate n) (node_Class n) (node_Group n) (node_SpeedLimitMbps n)
    (node_ConnectorLimit n) 0 0 (node_PublicHost n) (node_PublicPort n) (node_ServerName n) (node_Target n)
    (node_RealityPublicKey n) (node_ShortID n) (node_Fingerprint n) (node_Flow n) (node_Transport n)
    (node_MinClientVersion n) (node_ConfigurationVersion n).

Lemma node_json_static n : node_json (node_static n) = node_json n.
Proof. done. Qed.

(** the same user with rules in another order *)
Definition same_user (u v : User) : Prop := sort_lists u = sort_lists v.

Lemma sort_lists_ID u : user_ID (sort_lists u) = user_ID u.
Proof. done. Qed.

Lemma sort_users_map l : NoDup (map user_ID l) → map sort_lists (sort_users l) = sort_users (map sort_lists l).
Proof.
  intros Hnd. unfold sort_users. apply sorted_users_unique.
  - rewrite map_map. rewrite (map_ext _ user_ID) by done.
    pose proof (merge_sort_Permutation user_le l) as E. apply (fmap_Permutation user_ID) in E.
    change (NoDup (user_ID <$> merge_sort user_le l)). by rewrite E.
  - rewrite (merge_sort_Permutation user_le (map sort_lists l)).
    apply (fmap_Permutation sort_lists), merge_sort_Permutation.
  - pose proof (StronglySorted_merge_sort user_le l) as Hs. induction Hs as [|u k Hs IH Hu]; [constructor|].
    constructor; [done|]. apply Forall_map. by eapply Forall_impl.
  - apply (StronglySorted_merge_sort user_le).
Qed.

Lemma finalized_users_sorted l : NoDup (map user_ID l) → users_sorted (map sort_lists (sort_users l)).
Proof.
  intros Hnd. rewrite sort_users_map by done. unfold sort_users.
  set (k := merge_sort user_le (map sort_lists l)).
  assert (Hs : StronglySorted user_le k) by apply (StronglySorted_merge_sort user_le).
  assert (Hk : NoDup (map user_ID k)).
  { pose proof (merge_sort_Permutation user_le (map sort_lists l)) as E. apply (fmap_Permutation user_ID) in E.
    change (NoDup (user_ID <$> k)). unfold k. rewrite E. change (NoDup (map user_ID (map sort_lists l))).
    by rewrite map_map. }
  clearbody k. clear l Hnd. induction Hs as [|u k Hs IH Hu]; intros i j v w Hi Hj Hij; [done|].
  cbn [map] in Hk. apply NoDup_cons in Hk as [Hnot Hk]. rewrite Forall_forall in Hu.
  destruct i as [|i], j as [|j]; simpl in Hi, Hj; try lia.
  - injection Hi as <-. assert (Hw : w ∈ k) by (by apply list_elem_of_lookup; exists j).
    specialize (Hu w Hw). unfold user_le in Hu.
    assert (user_ID w ≠ user_ID u); [|lia]. intros E. apply Hnot. rewrite <- E. by apply list_elem_of_fmap_2.
  - apply (IH Hk i j); [done..|lia].
Qed.

Lemma Finalize_canonical s1 s2 :
  NoDup (map user_ID (snap_Users s1)) → node_static (snap_Node s1) = node_static (snap_Node s2) →
  map sort_lists (snap_Users s1) ≡ₚ map sort_lists (snap_Users s2) →
  map sort_lists (sort_users (snap_Users s1)) = map sort_lists (sort_users (snap_Users s2)) ∧
  node_json (snap_Node s1) = node_json (snap_Node s2).
Proof.
  intros Hnd Hn Hp. split; [|by rewrite <- node_json_static, Hn].
  assert (Hids : map user_ID (snap_Users s1) ≡ₚ map user_ID (snap_Users s2)).
  { apply (fmap_Permutation user_ID) in Hp.
    change (map user_ID (map sort_lists (snap_Users s1)) ≡ₚ map user_ID (map sort_lists (snap_Users s2))) in Hp.
    by rewrite !map_map in Hp. }
  rewrite !sort_users_map by (done || by rewrite <- Hids). apply sort_users_perm; [by rewrite map_map|done].
Qed.

(** Snapshots that differ only in the order of their users or of the rules of a
    user, or in the bandwidth the node has used, get the same hash and the same
    users, so that a refresh that changes nothing else reloads nothing; and users
    with distinct ids come out sorted by id, as the binary search needs them. *)
Theorem finalize_is_canonical s1 s2 :
  NoDup (map user_ID (snap_Users s1)) → node_static (snap_Node s1) = node_static (snap_Node s2) →
  map sort_lists (snap_Users s1) ≡ₚ map sort_lists (snap_Users s2) →
  match Finalize s1, Finalize s2 with
  | Ok a, Ok b => snap_Hash a = snap_Hash b ∧ snap_Users a = snap_Users b ∧ users_sorted (snap_Users a)
  | Err e, Err e' => e = e'
  | _, _ => False
  end.
Proof.
  intros Hnd Hn Hp. destruct (Finalize_canonical s1 s2 Hnd Hn Hp) as [Hu Hj].
  unfold Finalize, snapshot_text. rewrite <- Hj, <- Hu.
  destruct (node_json (snap_Node s1)) as [n|]; [|done]. cbn [mbind option_bind].
  destruct (users_json _) as [us|]; [|done]. cbn [mbind option_bind]. split; [done|]. split; [done|].
  by apply finalized_users_sorted.
Qed.

Definition w_node (bandwidth : Z) : Node :=
  mkNode 1 "n" (f64_of_int 1) 0 0 (f64_of_int 0) 0 bandwidth 0 "h" 443 "s" "t:443" "k" "00" "chrome" "f" "raw"
    EmptyString 1.
Definition w_user (id : Z) (rules : list string) : User := mkUser id "u" (f64_of_int 0) 0 rules [] [].

Lemma finalize_is_canonical_witness :
  match Finalize (mkSnapshot (w_node 5) [w_user 2 ["b"; "a"]; w_user 1 []] 0 EmptyString),
        Finalize (mkSnapshot (w_node 6) [w_user 1 []; w_user 2 ["a"; "b"]] 0 EmptyString) with
  | Ok a, Ok b => snap_Hash a = snap_Hash b ∧ snap_Users a = snap_Users b ∧ users_sorted (snap_Users a)
  | Err e, Err e' => e = e'
  | _, _ => False
  end.
Proof.
  apply finalize_is_canonical.
  - apply (bool_decide_unpack _). vm_compute. exact I.
  - reflexivity.
  - apply Permutation_swap.
Defined.
