(* ===== verification/Config.v ===== *)
(** Package [internal/config]: the configuration record, its defaults and its
    validation. *)
From S2P Require Import Prelude GoString Netip.

Local Open Scope string_scope.
Local Open Scope Z_scope.

Definition defaultAuthRefresh : Z := 60.
Definition defaultReport : Z := 60.
Definition defaultAuthStale : Z := 3600.
Definition defaultShutdown : Z := 120.
Definition defaultOutboxBytes : Z := 2 ^ 30.
Definition defaultTCPUser : Z := 800.
Definition defaultTCPGlobal : Z := 3000.
Definition defaultHandshakes : Z := 1024.
Definition defaultXUDPUser : Z := 128.
Definition defaultXUDPGlobal : Z := 2048.
Definition defaultDNSSeconds : Z := 10.

Record DatabaseConfig : Type := mkDatabaseConfig {
  db_Address : string;
  db_Name : string;
  db_Username : string;
  db_PasswordFile : string;
  db_TLSMode : string;
  db_CAFile : string;
  db_ServerName : string;
  db_MaxOpen : Z;
  db_MaxIdle : Z }.

Record Intervals : Type := mkIntervals {
  AuthRefreshSeconds : Z;
  ReportSeconds : Z;
  AuthStaleSeconds : Z;
  ShutdownSeconds : Z }.

Record Limits : Type := mkLimits {
  TCPPerUser : Z;
  TCPGlobal : Z;
  ConcurrentHandshakes : Z;
  XUDPPerUser : Z;
  XUDPGlobal : Z;
  DNSResolveTimeoutSeconds : Z }.

Record Config : Type := mkConfig {
  cfg_NodeID : Z;
  cfg_Listen : string;
  cfg_StateDir : string;
  cfg_RealityPrivateKeyFile : string;
  cfg_Database : DatabaseConfig;
  cfg_Intervals : Intervals;
  cfg_Limits : Limits;
  cfg_OutboxMaxBytes : Z;
  cfg_LogLevel : string }.

(** [or_default d n] is the Go idiom [if n == 0 { n = d }] *)
Definition or_default (d n : Z) : Z := if n =? 0 then d else n.

Definition defaults (c : Config) : Config :=
  let i := cfg_Intervals c in
  let l := cfg_Limits c in
  let d := cfg_Database c in
  {| cfg_NodeID := cfg_NodeID c;
     cfg_Listen := cfg_Listen c;
     cfg_StateDir := cfg_StateDir c;
     cfg_RealityPrivateKeyFile := cfg_RealityPrivateKeyFile c;
     cfg_Database :=
       mkDatabaseConfig (db_Address d) (db_Name d) (db_Username d) (db_PasswordFile d)
         (db_TLSMode d) (db_CAFile d) (db_ServerName d)
         (or_default 4 (db_MaxOpen d)) (or_default 2 (db_MaxIdle d));
     cfg_Intervals :=
       mkIntervals (or_default defaultAuthRefresh (AuthRefreshSeconds i))
         (or_default defaultReport (ReportSeconds i))
         (or_default defaultAuthStale (AuthStaleSeconds i))
         (or_default defaultShutdown (ShutdownSeconds i));
     cfg_Limits :=
       mkLimits (or_default defaultTCPUser (TCPPerUser l))
         (or_default defaultTCPGlobal (TCPGlobal l))
         (or_default defaultHandshakes (ConcurrentHandshakes l))
         (or_default defaultXUDPUser (XUDPPerUser l))
         (or_default defaultXUDPGlobal (XUDPGlobal l))
         (or_default defaultDNSSeconds (DNSResolveTimeoutSeconds l));
     cfg_OutboxMaxBytes := or_default defaultOutboxBytes (cfg_OutboxMaxBytes c);
     cfg_LogLevel := if String.eqb (cfg_LogLevel c) EmptyString then "info" else cfg_LogLevel c |}.

(** net.SplitHostPort *)
Definition SplitHostPort (hostport : string) : option (string * string) :=
  i ← last_index_of ":" hostport;
  let portText := drop_chars (S i) hostport in
  let no_bracket c s := bool_decide (index_of c s = None) in
  match hostport with
  | String "[" _ =>
      e ← index_of "]" hostport;
      if negb (Nat.eqb (S e) i) then None
      else if no_bracket "["%char (drop_chars 1 hostport)
              && no_bracket "]"%char (drop_chars (S e) hostport)
      then Some (take_chars (e - 1) (drop_chars 1 hostport), portText)
      else None
  | _ =>
      let host := take_chars i hostport in
      if no_bracket ":"%char host && no_bracket "["%char hostport && no_bracket "]"%char hostport
      then Some (host, portText)
      else None
  end.

(** net.ParseIP succeeds on the addresses of netip that carry no zone *)
Definition ParseIP_ok (s : string) : bool :=
  match ParseAddr s with Some a => negb (has_zone a) | None => false end.

Definition validateListen (value : string) : outcome string unit :=
  match SplitHostPort value with
  | None => Err "listen must be host:port"
  | Some (host, portText) =>
      guard_err (negb (String.eqb host EmptyString) && negb (ParseIP_ok host))
        "listen host must be an IP address" ;?
      match parse_int portText with
      | None => Err "listen port must be between 1 and 65535"
      | Some port =>
          guard_err ((port <? 1) || (65535 <? port)) "listen port must be between 1 and 65535"
      end
  end.

(** filepath.IsAbs on Unix *)
Definition IsAbs (path : string) : bool := has_prefix path "/".

Definition absolutePath (name value : string) : outcome string unit :=
  guard_err (String.eqb value EmptyString || negb (IsAbs value))
    (name +:+ " must be an absolute path").

Definition contains_any (s : string) (chars : list ascii) : bool :=
  existsb (λ c, bool_decide (c ∈ chars)) (String.list_ascii_of_string s).

Definition validateTLS (d : DatabaseConfig) : outcome string unit :=
  if String.eqb (db_TLSMode d) "disabled" || String.eqb (db_TLSMode d) "required" then
    guard_err (negb (String.eqb (db_CAFile d) EmptyString)
               || negb (String.eqb (db_ServerName d) EmptyString))
      "database ca_file/server_name are only valid with tls_mode verify_ca"
  else if String.eqb (db_TLSMode d) "verify_ca" then
    absolutePath "database.ca_file" (db_CAFile d) ;?
    guard_err (String.eqb (db_ServerName d) EmptyString)
      "database.server_name is required with tls_mode verify_ca"
  else Err "database.tls_mode must be disabled, required or verify_ca".

Definition limits_invalid (l : Limits) : bool :=
  (TCPPerUser l <? 1) || (TCPGlobal l <? TCPPerUser l) ||
  (ConcurrentHandshakes l <? 1) || (XUDPPerUser l <? 1) ||
  (XUDPGlobal l <? XUDPPerUser l) || (DNSResolveTimeoutSeconds l <? 1) ||
  (1000000 <? TCPGlobal l) || (1000000 <? ConcurrentHandshakes l) ||
  (1000000 <? XUDPGlobal l) || (60 <? DNSResolveTimeoutSeconds l).

Definition Validate (c : Config) : outcome string unit :=
  let d := cfg_Database c in
  let i := cfg_Intervals c in
  guard_err (cfg_NodeID c <=? 0) "node_id must be positive" ;?
  let? _ := validateListen (cfg_Listen c) in
  let? _ := absolutePath "state_dir" (cfg_StateDir c) in
  let? _ := absolutePath "reality_private_key_file" (cfg_RealityPrivateKeyFile c) in
  let? _ := absolutePath "database.password_file" (db_PasswordFile d) in
  guard_err (String.eqb (db_Address d) EmptyString || String.eqb (db_Name d) EmptyString
             || String.eqb (db_Username d) EmptyString)
    "database address, name and username are required" ;?
  guard_err (contains_any (db_Name d) ["`"; "\"; "/"; byte 0]%char)
    "database.name contains forbidden characters" ;?
  guard_err (contains_any (db_Username d) [byte 0]) "database.username contains NUL" ;?
  let? _ := validateTLS d in
  guard_err ((db_MaxOpen d <? 1) || (64 <? db_MaxOpen d) || (db_MaxIdle d <? 0)
             || (db_MaxOpen d <? db_MaxIdle d))
    "database pool sizes are invalid" ;?
  guard_err ((AuthRefreshSeconds i <? 5) || (ReportSeconds i <? 5))
    "refresh and report intervals must be at least 5 seconds" ;?
  guard_err ((AuthStaleSeconds i <? AuthRefreshSeconds i) || (ShutdownSeconds i <? 1))
    "auth_stale_seconds or shutdown_seconds is invalid" ;?
  guard_err (cfg_OutboxMaxBytes c <? 2 ^ 20) "outbox_max_bytes must be at least 1 MiB" ;?
  guard_err (limits_invalid (cfg_Limits c)) "session limits are invalid" ;?
  guard_err (negb (existsb (String.eqb (cfg_LogLevel c)) ["debug"; "info"; "warn"; "error"]))
    "log_level must be debug, info, warn or error".

(** time.Duration counts nanoseconds in an int64 *)
Definition seconds (n : Z) : Z := wrap64 (n * 1000000000).
Definition AuthRefresh (c : Config) : Z := seconds (AuthRefreshSeconds (cfg_Intervals c)).
Definition ReportEvery (c : Config) : Z := seconds (ReportSeconds (cfg_Intervals c)).
Definition AuthStale (c : Config) : Z := seconds (AuthStaleSeconds (cfg_Intervals c)).
Definition Shutdown (c : Config) : Z := seconds (ShutdownSeconds (cfg_Intervals c)).
Definition DNSResolveTimeout (c : Config) : Z := seconds (DNSResolveTimeoutSeconds (cfg_Limits c)).

(** ** What a valid configuration guarantees *)
Lemma validateListen_Ok value : validateListen value = Ok tt →
  ∃ host portText port, SplitHostPort value = Some (host, portText) ∧
    (host = EmptyString ∨ ParseIP_ok host = true) ∧ parse_int portText = Some port ∧ 1 ≤ port ≤ 65535.
Proof.
  unfold validateListen. destruct (SplitHostPort value) as [[host portText]|]; [|done].
  destruct (String.eqb_spec host EmptyString) as [He|He]; [|destruct (ParseIP_ok host) eqn:Hip]; cbn [negb andb].
  3: done.
  all: unfold guard_err at 1; cbn [obind]; destruct (parse_int portText) as [port|] eqn:Hp; [|done];
    unfold guard_err; destruct ((port <? 1) || (65535 <? port)) eqn:E; [done|]; intros _;
    exists host, portText, port; (split; [done|]); (split; [by auto|]); (split; [done|lia]).
Qed.

Lemma absolutePath_Ok name value : absolutePath name value = Ok tt → IsAbs value = true.
Proof.
  unfold absolutePath, guard_err. destruct (_ || _) eqn:E; [done|]. intros _.
  apply orb_false_iff in E as [_ E]. by apply negb_false_iff in E.
Qed.

(** an accepted configuration names a node, listens on an IP address or on
    all of them at a port of 1..65535, reads its secrets from absolute paths,
    keeps its authorization at least as long as a refresh takes to come, and
    bounds sessions and handshakes by positive limits. *)
Theorem valid_config_guarantees c :
  Validate c = Ok tt →
  0 < cfg_NodeID c ∧
  (∃ host portText port, SplitHostPort (cfg_Listen c) = Some (host, portText) ∧
     (host = EmptyString ∨ ParseIP_ok host = true) ∧ parse_int portText = Some port ∧ 1 ≤ port ≤ 65535) ∧
  IsAbs (cfg_StateDir c) = true ∧ IsAbs (cfg_RealityPrivateKeyFile c) = true ∧
  IsAbs (db_PasswordFile (cfg_Database c)) = true ∧
  (db_TLSMode (cfg_Database c) = "verify_ca" →
     IsAbs (db_CAFile (cfg_Database c)) = true ∧ db_ServerName (cfg_Database c) ≠ EmptyString) ∧
  5 ≤ AuthRefreshSeconds (cfg_Intervals c) ≤ AuthStaleSeconds (cfg_Intervals c) ∧
  5 ≤ ReportSeconds (cfg_Intervals c) ∧ 1 ≤ ShutdownSeconds (cfg_Intervals c) ∧
  2 ^ 20 ≤ cfg_OutboxMaxBytes c ∧ limits_invalid (cfg_Limits c) = false.
Proof.
  unfold Validate. cbv zeta. intros H. split_guards.
  repeat match goal with x : unit |- _ => destruct x end.
  repeat match goal with Hp : absolutePath _ _ = Ok tt |- _ => apply absolutePath_Ok in Hp end.
  match goal with Hl : validateListen _ = Ok tt |- _ => apply validateListen_Ok in Hl end.
  assert (Htls : db_TLSMode (cfg_Database c) = "verify_ca" →
     IsAbs (db_CAFile (cfg_Database c)) = true ∧ db_ServerName (cfg_Database c) ≠ EmptyString).
  { intros E. match goal with Ht : validateTLS _ = Ok tt |- _ => unfold validateTLS in Ht; rewrite E in Ht; simpl in Ht end.
    split_guards. repeat match goal with x : unit |- _ => destruct x end.
    match goal with Hp : absolutePath _ _ = Ok tt |- _ => apply absolutePath_Ok in Hp end. split; [done|].
    match goal with Hg : guard_err _ _ = Ok tt |- _ => apply guard_err_Ok_inv, String.eqb_neq in Hg; done end. }
  split_and!; try done; lia.
Qed.

Lemma seconds_exact n : 0 ≤ n → seconds n = n * 1000000000 ↔ n ≤ 9223372036.
Proof.
  intros Hn. unfold seconds. split.
  - intros E. pose proof (wrap64_range (n * 1000000000)) as Hr. rewrite E in Hr.
    unfold is_int64, max_int64, min_int64 in Hr. lia.
  - intros Hle. apply wrap64_id. unfold is_int64, max_int64, min_int64. lia.
Qed.

(** the resolver timeout of an accepted configuration is exactly the number
    of seconds it states; its intervals are so exactly up to 9223372036 seconds,
    beyond which the product overflows, and nothing in [Validate] excludes
    that. *)
Theorem valid_config_durations c :
  Validate c = Ok tt →
  DNSResolveTimeout c = DNSResolveTimeoutSeconds (cfg_Limits c) * 1000000000 ∧
  0 < DNSResolveTimeout c ≤ 60000000000 ∧
  (AuthRefresh c = AuthRefreshSeconds (cfg_Intervals c) * 1000000000 ↔
     AuthRefreshSeconds (cfg_Intervals c) ≤ 9223372036) ∧
  (ReportEvery c = ReportSeconds (cfg_Intervals c) * 1000000000 ↔
     ReportSeconds (cfg_Intervals c) ≤ 9223372036).
Proof.
  unfold Validate. cbv zeta. intros H. split_guards.
  match goal with Hl : limits_invalid _ = false |- _ => unfold limits_invalid in Hl end.
  assert (Hd : 1 ≤ DNSResolveTimeoutSeconds (cfg_Limits c) ≤ 60) by lia.
  assert (E : DNSResolveTimeout c = DNSResolveTimeoutSeconds (cfg_Limits c) * 1000000000).
  { apply seconds_exact; lia. }
  split; [done|]. split; [lia|]. split; apply seconds_exact; lia.
Qed.

Definition exampleConfig (refresh : Z) : Config :=
  mkConfig 1 "127.0.0.1:443" "/state" "/key"
    (mkDatabaseConfig "db:3306" "sspanel" "svc" "/password" "verify_ca" "/ca.pem" "db.example.com" 4 2)
    (mkIntervals refresh 60 (refresh + 1) 120) (mkLimits 1 1 1 1 1 1) (2 ^ 20) "info".

Lemma valid_config_guarantees_witness :
  Validate (exampleConfig 60) = Ok tt ∧ IsAbs "/ca.pem" = true.
Proof.
  assert (H : Validate (exampleConfig 60) = Ok tt) by (vm_compute; reflexivity).
  split; [exact H|]. destruct (valid_config_guarantees _ H) as (_ & _ & _ & _ & _ & Htls & _).
  by apply Htls.
Defined.

(** A refresh interval of ten thousand million seconds is accepted, and becomes
    a negative duration. *)
Lemma valid_config_durations_witness :
  Validate (exampleConfig 10000000000) = Ok tt ∧ AuthRefresh (exampleConfig 10000000000) < 0 ∧
  DNSResolveTimeout (exampleConfig 10000000000) = 1000000000.
Proof.
  assert (H : Validate (exampleConfig 10000000000) = Ok tt) by (vm_compute; reflexivity).
  split; [exact H|]. split; [by vm_compute|]. exact (proj1 (valid_config_durations _ H)).
Defined.
