(* ===== verification/Session.v ===== *)
(** Package [internal/session]: the session registry, the single authority on
    which data-plane sessions may exist. This file holds its state and its
    operations; [SessionInv] and [SessionProps] hold what is proved of them.

    The mutex serializes the critical sections, so each operation that runs
    under the lock is one function of the registry. [Open] runs in three
    phases, of which only the last one is a critical section that admits a
    session; the phases are separate functions ([openLookup],
    [authorizeTarget], [openCommit]) so that other operations can come between
    them. *)
From S2P Require Import Prelude GoString Float64 Netip Model Config Policy.

Local Open Scope string_scope.
Local Open Scope Z_scope.

Definition inboundTag : string := "vless-reality-in".

Inductive Kind : Type := TCP | XUDP.
#[global] Instance Kind_eq_dec : EqDecision Kind.
Proof. solve_decision. Defined.

(** sessioncontrol.Request *)
Record Request : Type := mkRequest {
  InboundTag : string;
  Email : string;
  SourceIP : string;
  Network : string;
  DestinationHost : string;
  DestinationPort : Z;
  DestinationDomain : bool }.

(** An interrupt callback is known by its name. *)
Abbreviation callback := Z (only parsing).

(** A rate limiter is an object with an identity: the snapshot installation
    that allocated it and the user it belongs to ([None]: the node). *)
Record Limiter : Type := mkLimiter {
  lim_owner : option Z;
  lim_generation : Z;
  lim_limit : float64;
  lim_burst : Z }.

Record Lease : Type := mkLease {
  l_id : Z;
  l_userID : Z;
  l_sourceIP : string;
  l_kind : Kind;
  l_cancelled : bool;            (* the lease's own cancel function was called *)
  l_once : bool;                 (* Close ran *)
  l_interrupt : option callback;
  l_revoked : bool;
  l_userRate : option Limiter;
  l_nodeRate : option Limiter }.

(** [sessions] is the map of the source. A lease that Close removed from it can
    still be reached by its holder: those are in [detached]. [generation]
    numbers the snapshot installations, to give limiters an identity. *)
Record Registry : Type := mkRegistry {
  limits : Limits;
  dnsTimeout : Z;
  nodeID : Z;
  nodeSpeed : float64;
  nodeConnectors : Z;
  users : gmap Z User;
  sessions : gmap Z Lease;
  detached : gmap Z Lease;
  sources : gmap Z (gmap string Z);
  userTCP : gmap Z Z;
  userXUDP : gmap Z Z;
  tcp : Z;
  xudp : Z;
  handshakes : Z;
  nextID : Z;
  rejected : gmap string Z;
  nodeLimiter : option Limiter;
  userLimiters : gmap Z (option Limiter);
  closed : bool;
  generation : Z }.

(** Assignments to one field *)
Definition with_sessions v (r : Registry) : Registry :=
  mkRegistry (limits r) (dnsTimeout r) (nodeID r) (nodeSpeed r) (nodeConnectors r) (users r) v
    (detached r) (sources r) (userTCP r) (userXUDP r) (tcp r) (xudp r) (handshakes r) (nextID r)
    (rejected r) (nodeLimiter r) (userLimiters r) (closed r) (generation r).
Definition with_detached v (r : Registry) : Registry :=
  mkRegistry (limits r) (dnsTimeout r) (nodeID r) (nodeSpeed r) (nodeConnectors r) (users r)
    (sessions r) v (sources r) (userTCP r) (userXUDP r) (tcp r) (xudp r) (handshakes r)
    (nextID r) (rejected r) (nodeLimiter r) (userLimiters r) (closed r) (generation r).
Definition with_sources v (r : Registry) : Registry :=
  mkRegistry (limits r) (dnsTimeout r) (nodeID r) (nodeSpeed r) (nodeConnectors r) (users r)
    (sessions r) (detached r) v (userTCP r) (userXUDP r) (tcp r) (xudp r) (handshakes r)
    (nextID r) (rejected r) (nodeLimiter r) (userLimiters r) (closed r) (generation r).
Definition with_userTCP v (r : Registry) : Registry :=
  mkRegistry (limits r) (dnsTimeout r) (nodeID r) (nodeSpeed r) (nodeConnectors r) (users r)
    (sessions r) (detached r) (sources r) v (userXUDP r) (tcp r) (xudp r) (handshakes r)
    (nextID r) (rejected r) (nodeLimiter r) (userLimiters r) (closed r) (generation r).
Definition with_userXUDP v (r : Registry) : Registry :=
  mkRegistry (limits r) (dnsTimeout r) (nodeID r) (nodeSpeed r) (nodeConnectors r) (users r)
    (sessions r) (detached r) (sources r) (userTCP r) v (tcp r) (xudp r) (handshakes r)
    (nextID r) (rejected r) (nodeLimiter r) (userLimiters r) (closed r) (generation r).
Definition with_tcp v (r : Registry) : Registry :=
  mkRegistry (limits r) (dnsTimeout r) (nodeID r) (nodeSpeed r) (nodeConnectors r) (users r)
    (sessions r) (detached r) (sources r) (userTCP r) (userXUDP r) v (xudp r) (handshakes r)
    (nextID r) (rejected r) (nodeLimiter r) (userLimiters r) (closed r) (generation r).
Definition with_xudp v (r : Registry) : Registry :=
  mkRegistry (limits r) (dnsTimeout r) (nodeID r) (nodeSpeed r) (nodeConnectors r) (users r)
    (sessions r) (detached r) (sources r) (userTCP r) (userXUDP r) (tcp r) v (handshakes r)
    (nextID r) (rejected r) (nodeLimiter r) (userLimiters r) (closed r) (generation r).
Definition with_handshakes v (r : Registry) : Registry :=
  mkRegistry (limits r) (dnsTimeout r) (nodeID r) (nodeSpeed r) (nodeConnectors r) (users r)
    (sessions r) (detached r) (sources r) (userTCP r) (userXUDP r) (tcp r) (xudp r) v (nextID r)
    (rejected r) (nodeLimiter r) (userLimiters r) (closed r) (generation r).
Definition with_nextID v (r : Registry) : Registry :=
  mkRegistry (limits r) (dnsTimeout r) (nodeID r) (nodeSpeed r) (nodeConnectors r) (users r)
    (sessions r) (detached r) (sources r) (userTCP r) (userXUDP r) (tcp r) (xudp r)
    (handshakes r) v (rejected r) (nodeLimiter r) (userLimiters r) (closed r) (generation r).
Definition with_rejected v (r : Registry) : Registry :=
  mkRegistry (limits r) (dnsTimeout r) (nodeID r) (nodeSpeed r) (nodeConnectors r) (users r)
    (sessions r) (detached r) (sources r) (userTCP r) (userXUDP r) (tcp r) (xudp r)
    (handshakes r) (nextID r) v (nodeLimiter r) (userLimiters r) (closed r) (generation r).
Definition with_closed v (r : Registry) : Registry :=
  mkRegistry (limits r) (dnsTimeout r) (nodeID r) (nodeSpeed r) (nodeConnectors r) (users r)
    (sessions r) (detached r) (sources r) (userTCP r) (userXUDP r) (tcp r) (xudp r)
    (handshakes r) (nextID r) (rejected r) (nodeLimiter r) (userLimiters r) v (generation r).

Definition lease_revoke (l : Lease) : Lease :=
  mkLease (l_id l) (l_userID l) (l_sourceIP l) (l_kind l) true (l_once l) (l_interrupt l) true
    (l_userRate l) (l_nodeRate l).
Definition lease_bind (cb : option callback) (l : Lease) : Lease :=
  mkLease (l_id l) (l_userID l) (l_sourceIP l) (l_kind l) (l_cancelled l) (l_once l) cb (l_revoked l)
    (l_userRate l) (l_nodeRate l).
Definition lease_move (ip : string) (l : Lease) : Lease :=
  mkLease (l_id l) (l_userID l) ip (l_kind l) (l_cancelled l) (l_once l) (l_interrupt l) (l_revoked l)
    (l_userRate l) (l_nodeRate l).
Definition lease_close (l : Lease) : Lease :=
  mkLease (l_id l) (l_userID l) (l_sourceIP l) (l_kind l) true true (l_interrupt l) (l_revoked l)
    (l_userRate l) (l_nodeRate l).

(** ** Small helpers of the source *)
Definition contains (values : list string) (target : string) : bool :=
  existsb (String.eqb target) values.

Definition requestKind (network : string) : option Kind :=
  if String.eqb network "tcp" then Some TCP
  else if String.eqb network "udp" then Some XUDP
  else None.

Definition effectiveLimit (user node : Z) : Z :=
  if user <=? 0 then node
  else if (node <=? 0) || (user <? node) then user
  else node.

(** reflect.DeepEqual after both DisconnectIPs were cleared, negated: floats
    are compared with [==], so a NaN differs from itself. The lists of a snapshot are
    made by the rule parsers and are never nil. *)
Definition userPolicyWithoutDisconnectChanged (left right : User) : bool :=
  negb ((user_ID left =? user_ID right)
        && String.eqb (user_UUID left) (user_UUID right)
        && f64_eqb (user_SpeedLimitMbps left) (user_SpeedLimitMbps right)
        && (user_ConnectorLimit left =? user_ConnectorLimit right)
        && bool_decide (user_ForbiddenIPs left = user_ForbiddenIPs right)
        && bool_decide (user_ForbiddenPorts left = user_ForbiddenPorts right)).

Definition newLimiter (generation : Z) (owner : option Z) (mbps : float64) : option Limiter :=
  if f64_leb mbps (f64_of_int 0) then None
  else
    let bytesPerSecond := f64_div (f64_mul mbps (f64_of_int 1000000)) (f64_of_int 8) in
    let burst := f64_to_int64 bytesPerSecond in
    let burst := if burst <? 64 * 1024 then 64 * 1024 else burst in
    Some (mkLimiter owner generation bytesPerSecond burst).

Definition reject (reason : string) (r : Registry) : Registry :=
  with_rejected (<[reason := wrapu64 (mget (rejected r) reason + 1)]> (rejected r)) r.

(** the error of a rejection *)
Definition rejection (reason : string) : string := "session rejected: " +:+ reason.

(** the sources of a user with their session counts *)
Definition userSources (r : Registry) (userID : Z) : gmap string Z := default ∅ (sources r !! userID).

(** ** Identity *)
Definition emailPrefix (nodeID : Z) : string := "sspanel-node-" +:+ format_int nodeID +:+ "-user-".

Definition userID (r : Registry) (email : string) : option Z :=
  let prefix := emailPrefix (nodeID r) in
  if negb (has_prefix email prefix) then None
  else
    id ← parse_int (trim_prefix email prefix);
    if (id <=? 0) || negb (String.eqb email (prefix +:+ format_int id)) then None else Some id.

(** ** Handshake slots *)
Definition AcquireHandshake (r : Registry) (request : Request) : Registry * outcome string bool :=
  if negb (String.eqb (InboundTag request) inboundTag) then (r, Ok false)
  else if closed r || (ConcurrentHandshakes (limits r) <=? handshakes r) then
    (reject "handshake_limit" r, Err "concurrent handshake limit reached")
  else (with_handshakes (handshakes r + 1) r, Ok true).

(** The function AcquireHandshake returned, called when its [once] has not run. *)
Definition releaseHandshake (r : Registry) : Registry :=
  if 0 <? handshakes r then with_handshakes (handshakes r - 1) r else r.

(** ** Opening a session *)

(** The first phase of Open: who asks, from where, for what. *)
Definition openLookup (r : Registry) (request : Request)
  : Registry * outcome string (Z * string * Kind * User) :=
  match userID r (Email request) with
  | None => (reject "identity" r, Err (rejection "identity"))
  | Some uid =>
      match CanonicalIP (SourceIP request) with
      | None => (reject "source" r, Err (rejection "source"))
      | Some sourceIP =>
          match requestKind (Network request), DestinationPort request =? 0 with
          | Some kind, false =>
              match users r !! uid with
              | None => (reject "authorization" r, Err (rejection "authorization"))
              | Some user => (r, Ok (uid, sourceIP, kind, user))
              end
          | _, _ => (reject "network" r, Err (rejection "network"))
          end
      end
  end.

(** authorizeTarget: the candidate addresses of the destination and the one to
    pin. [lookup] is the answer of the resolver within the timeout. *)
Definition authorizeTarget (r : Registry) (lookup : string → option (list Addr))
    (user : User) (request : Request) : Registry * outcome string (list string * string) :=
  if PortBlocked (user_ForbiddenPorts user) (DestinationPort request) then
    (reject "forbidden_port" r, Err (rejection "forbidden_port"))
  else
    let host := trim (DestinationHost request) "[]" in
    match ParseAddr host with
    | Some address =>
        let canonical := addr_string (Unmap address) in
        if IPBlocked (user_ForbiddenIPs user) canonical then
          (reject "forbidden_ip" r, Err (rejection "forbidden_ip"))
        else (r, Ok ([canonical], EmptyString))
    | None =>
        if negb (DestinationDomain request) || String.eqb host EmptyString then
          (reject "destination" r, Err (rejection "destination"))
        else
          match lookup host with
          | None | Some [] => (reject "dns" r, Err (rejection "dns"))
          | Some resolved =>
              let addresses :=
                sort_strings (fold_left add_once (map (λ a, addr_string (Unmap a)) resolved) []) in
              if existsb (IPBlocked (user_ForbiddenIPs user)) addresses then
                (reject "forbidden_ip" r, Err (rejection "forbidden_ip"))
              else
                match addresses with
                | [] => (reject "dns" r, Err (rejection "dns"))
                | first :: _ => (r, Ok (addresses, first))
                end
          end
    end.

(** checkCapacityLocked: the reason to refuse, if any *)
Definition checkCapacity (r : Registry) (user : User) (uid : Z) (source : string) (kind : Kind)
  : option string :=
  let connectorLimit := effectiveLimit (user_ConnectorLimit user) (nodeConnectors r) in
  if (0 <? connectorLimit) && (mget (userSources r uid) source =? 0)
     && (connectorLimit <=? Z.of_nat (size (userSources r uid)))
  then Some "connector_limit"
  else
    match kind with
    | TCP =>
        if TCPGlobal (limits r) <=? tcp r then Some "tcp_global"
        else if TCPPerUser (limits r) <=? mget (userTCP r) uid then Some "tcp_user"
        else None
    | XUDP =>
        if XUDPGlobal (limits r) <=? xudp r then Some "xudp_global"
        else if XUDPPerUser (limits r) <=? mget (userXUDP r) uid then Some "xudp_user"
        else None
    end.

(** What Open carries into its critical section *)
Record Prepared : Type := mkPrepared {
  p_userID : Z;
  p_sourceIP : string;
  p_kind : Kind;
  p_port : Z;
  p_addresses : list string;
  p_resolved : string }.

(** sessioncontrol.Decision, with the lease by its id *)
Record OpenDecision : Type := mkDecision {
  ResolvedAddress : string;
  DecisionLease : option Z }.

(** the checks of the critical section, in order: the reason to refuse, if any *)
Definition commitRefusal (r : Registry) (p : Prepared) : option string :=
  match users r !! p_userID p with
  | None => Some "authorization"
  | Some user =>
      if closed r then Some "authorization"
      else if contains (user_DisconnectIPs user) (p_sourceIP p) then Some "disconnect_ip"
      else if PortBlocked (user_ForbiddenPorts user) (p_port p) then Some "forbidden_port"
      else if existsb (IPBlocked (user_ForbiddenIPs user)) (p_addresses p) then Some "forbidden_ip"
      else checkCapacity r user (p_userID p) (p_sourceIP p) (p_kind p)
  end.

Definition addSource (uid : Z) (ip : string) (r : Registry) : Registry :=
  let m := userSources r uid in
  with_sources (<[uid := <[ip := mget m ip + 1]> m]> (sources r)) r.

Definition countOpen (kind : Kind) (uid : Z) (r : Registry) : Registry :=
  match kind with
  | TCP => with_userTCP (<[uid := mget (userTCP r) uid + 1]> (userTCP r)) (with_tcp (tcp r + 1) r)
  | XUDP => with_userXUDP (<[uid := mget (userXUDP r) uid + 1]> (userXUDP r)) (with_xudp (xudp r + 1) r)
  end.

(** the lease that the critical section creates *)
Definition newLease (r : Registry) (p : Prepared) : Lease :=
  mkLease (wrapu64 (nextID r + 1)) (p_userID p) (p_sourceIP p) (p_kind p) false false None false
    (default None (userLimiters r !! p_userID p)) (nodeLimiter r).

(** The critical section of Open. *)
Definition openCommit (r : Registry) (p : Prepared) : Registry * outcome string OpenDecision :=
  match commitRefusal r p with
  | Some reason => (reject reason r, Err (rejection reason))
  | None =>
      let l := newLease r p in
      let r := with_nextID (wrapu64 (nextID r + 1)) r in
      let r := with_sessions (<[l_id l := l]> (sessions r)) r in
      let r := addSource (p_userID p) (p_sourceIP p) r in
      let r := countOpen (p_kind p) (p_userID p) r in
      (r, Ok (mkDecision (p_resolved p) (Some (l_id l))))
  end.

(** Open, when no other operation comes between its phases. *)
Definition Open (r : Registry) (lookup : string → option (list Addr)) (request : Request)
  : Registry * outcome string OpenDecision :=
  if negb (String.eqb (InboundTag request) inboundTag) then (r, Ok (mkDecision EmptyString None))
  else
    let '(r, looked) := openLookup r request in
    match looked with
    | Ok (uid, sourceIP, kind, user) =>
        let '(r, target) := authorizeTarget r lookup user request in
        match target with
        | Ok (addresses, resolved) =>
            openCommit r (mkPrepared uid sourceIP kind (DestinationPort request) addresses resolved)
        | Err e => (r, Err e)
        | Panic => (r, Panic)
        end
    | Err e => (r, Err e)
    | Panic => (r, Panic)
    end.

(** ** Revocation *)
Definition revokes (us : gset Z) (srcs : gmap Z (gset string)) (l : Lease) : bool :=
  negb (l_revoked l)
  && (bool_decide (l_userID l ∈ us)
      || bool_decide (l_sourceIP l ∈ default ∅ (srcs !! l_userID l))).

(** revokeLocked: the registry, and the interrupts to call after unlocking (in
    the unspecified order of the map) *)
Definition revokeLocked (us : gset Z) (srcs : gmap Z (gset string)) (r : Registry)
  : Registry * list callback :=
  let hit l := revokes us srcs l in
  (with_sessions ((λ l, if hit l then lease_revoke l else l) <$> sessions r) r,
   omap (λ '(_, l), if hit l then l_interrupt l else None) (map_to_list (sessions r))).

(** the id of the oldest unrevoked session of the user, by source *)
Definition sourceAges (r : Registry) (uid : Z) : gmap string Z :=
  map_fold (λ _ l ages,
    if negb (l_userID l =? uid) || l_revoked l then ages
    else match ages !! l_sourceIP l with
         | Some first => if l_id l <? first then <[l_sourceIP l := l_id l]> ages else ages
         | None => <[l_sourceIP l := l_id l]> ages
         end) ∅ (sessions r).

(** by age, then by source *)
Definition age_le (a b : string * Z) : Prop := snd a < snd b ∨ (snd a = snd b ∧ String.le (fst a) (fst b)).
#[global] Instance age_le_dec : RelDecision age_le.
Proof. intros a b. unfold age_le. apply _. Defined.

Definition orderedSources (r : Registry) (uid : Z) : list (string * Z) :=
  merge_sort age_le (map_to_list (sourceAges r uid)).

(** one iteration of enforceConnectorsLocked; [ordered[limit:]] panics when
    [limit] exceeds the length *)
Definition enforceUser (uid : Z) (srcs : gmap string Z) (st : Registry * list callback * gset Z)
  : outcome string (Registry * list callback * gset Z) :=
  let '(r, callbacks, affected) := st in
  match users r !! uid with
  | None => Ok st
  | Some user =>
      let limit := effectiveLimit (user_ConnectorLimit user) (nodeConnectors r) in
      if (limit <=? 0) || (Z.of_nat (size srcs) <=? limit) then Ok st
      else
        let ordered := orderedSources r uid in
        if Z.of_nat (length ordered) <? limit then Panic
        else
          let blocked : gset string := list_to_set (map fst (drop (Z.to_nat limit) ordered)) in
          if bool_decide (blocked = ∅) then Ok st
          else
            let '(r, more) := revokeLocked ∅ {[ uid := blocked ]} r in
            Ok (r, (callbacks ++ more)%list, {[ uid ]} ∪ affected)
  end.

Fixpoint enforceUsers (l : list (Z * gmap string Z)) (st : Registry * list callback * gset Z)
  : outcome string (Registry * list callback * gset Z) :=
  match l with
  | [] => Ok st
  | (uid, srcs) :: l => let? st := enforceUser uid srcs st in enforceUsers l st
  end.

Definition enforceConnectorsLocked (r : Registry) : outcome string (Registry * list callback * gset Z) :=
  enforceUsers (map_to_list (sources r)) (r, [], ∅).

(** ** Snapshots *)
Definition installSnapshot (r : Registry) (snapshot : Snapshot) (old : option (gmap Z User)) : Registry :=
  let node := snap_Node snapshot in
  let newUsers := userMap (snap_Users snapshot) in
  let gen := generation r + 1 in
  let freshNode :=
    bool_decide (nodeLimiter r = None) || bool_decide (old = None)
    || negb (f64_eqb (nodeSpeed r) (node_SpeedLimitMbps node)) in
  let updatedLimiters :=
    map_imap (λ id user,
      match default ∅ old !! id with
      | Some previous =>
          if f64_eqb (user_SpeedLimitMbps previous) (user_SpeedLimitMbps user)
          then Some (default None (userLimiters r !! id))
          else Some (newLimiter gen (Some id) (user_SpeedLimitMbps user))
      | None => Some (newLimiter gen (Some id) (user_SpeedLimitMbps user))
      end) newUsers in
  mkRegistry (limits r) (dnsTimeout r) (node_ID node) (node_SpeedLimitMbps node)
    (node_ConnectorLimit node) newUsers (sessions r) (detached r) (sources r) (userTCP r)
    (userXUDP r) (tcp r) (xudp r) (handshakes r) (nextID r) (rejected r)
    (if freshNode then newLimiter gen None (node_SpeedLimitMbps node) else nodeLimiter r)
    updatedLimiters (closed r) gen.

Definition New (snapshot : Snapshot) (cfg : Config) : Registry :=
  installSnapshot
    (mkRegistry (cfg_Limits cfg) (DNSResolveTimeout cfg) 0 (f64_of_int 0) 0 ∅ ∅ ∅ ∅ ∅ ∅ 0 0 0 0 ∅
       None ∅ false 0)
    snapshot None.

(** a user who left the snapshot, or whose policy changed *)
Definition goneOrChanged (newUsers : gmap Z User) (id : Z) (old : User) : bool :=
  match newUsers !! id with
  | None => true
  | Some updated => userPolicyWithoutDisconnectChanged old updated
  end.

(** the users all of whose sessions an update revokes *)
Definition revokeAllUsers (r : Registry) (snapshot : Snapshot) : gset Z :=
  let newUsers := userMap (snap_Users snapshot) in
  let changed := dom (filter (λ p, goneOrChanged newUsers p.1 p.2 = true) (users r)) in
  if f64_eqb (nodeSpeed r) (node_SpeedLimitMbps (snap_Node snapshot)) then changed
  else dom (users r).

(** the sources that an update newly disconnects, by user *)
Definition revokeNewSources (r : Registry) (snapshot : Snapshot) : gmap Z (gset string) :=
  let newUsers := userMap (snap_Users snapshot) in
  map_imap (λ id old,
    match newUsers !! id with
    | None => None
    | Some updated =>
        if userPolicyWithoutDisconnectChanged old updated then None
        else
          let added : gset string :=
            list_to_set (filter (λ s, contains (user_DisconnectIPs old) s = false)
                           (user_DisconnectIPs updated)) in
          if bool_decide (added = ∅) then None else Some added
    end) (users r).

Definition sorted_ids (s : gset Z) : list Z := merge_sort Z.le (elements s).

(** Update: the registry, the interrupts called, and the users affected *)
Definition Update (r : Registry) (snapshot : Snapshot) : outcome string (Registry * list callback * list Z) :=
  let revokeAll := revokeAllUsers r snapshot in
  let revokeSources := revokeNewSources r snapshot in
  let r := installSnapshot r snapshot (Some (users r)) in
  let '(r, callbacks) := revokeLocked revokeAll revokeSources r in
  let? (r, connectorCallbacks, connectorUsers) := enforceConnectorsLocked r in
  Ok (r, (callbacks ++ connectorCallbacks)%list,
      sorted_ids (revokeAll ∪ dom revokeSources ∪ connectorUsers)).

Definition RevokeUsers (r : Registry) (ids : list Z) : Registry * list callback :=
  revokeLocked (list_to_set ids) ∅ r.

Definition CloseRegistry (r : Registry) : Registry * list callback :=
  let r := with_closed true r in
  revokeLocked (dom (users r)) ∅ r.

(** ** Leases *)
Definition lookupLease (r : Registry) (id : Z) : option Lease :=
  match sessions r !! id with Some l => Some l | None => detached r !! id end.

Definition storeLease (id : Z) (l : Lease) (r : Registry) : Registry :=
  match sessions r !! id with
  | Some _ => with_sessions (<[id := l]> (sessions r)) r
  | None => with_detached (<[id := l]> (detached r)) r
  end.

(** BindInterrupt: the registry, and the callback if it has to run at once *)
Definition BindInterrupt (r : Registry) (id : Z) (cb : option callback) : Registry * option callback :=
  match lookupLease r id with
  | None => (r, None)
  | Some l => (storeLease id (lease_bind cb l) r, if l_revoked l then cb else None)
  end.

Definition removeSourceLocked (uid : Z) (ip : string) (r : Registry) : Registry :=
  let m := userSources r uid in
  let m := if 1 <? mget m ip then <[ip := mget m ip - 1]> m else delete ip m in
  with_sources (if bool_decide (m = ∅) then delete uid (sources r) else <[uid := m]> (sources r)) r.

(** the checks of Rebind for a new source, in order *)
Definition rebindRefusal (r : Registry) (l : Lease) (ip : string) : option string :=
  match users r !! l_userID l with
  | None => Some "authorization"
  | Some user =>
      if contains (user_DisconnectIPs user) ip then Some "disconnect_ip"
      else
        let limit := effectiveLimit (user_ConnectorLimit user) (nodeConnectors r) in
        let m := userSources r (l_userID l) in
        if (0 <? limit) && (mget m ip =? 0) then
          let after := Z.of_nat (size m) - (if mget m (l_sourceIP l) =? 1 then 1 else 0) in
          if limit <=? after then Some "connector_limit" else None
        else None
  end.

Definition Rebind (r : Registry) (id : Z) (value : string) : Registry * outcome string unit :=
  match lookupLease r id with
  | None => (r, Ok tt)
  | Some l =>
      match CanonicalIP value with
      | None => (reject "source" r, Err (rejection "source"))
      | Some ip =>
          if closed r || l_revoked l then (reject "authorization" r, Err (rejection "authorization"))
          else if String.eqb ip (l_sourceIP l) then (r, Ok tt)
          else
            match rebindRefusal r l ip with
            | Some reason => (reject reason r, Err (rejection reason))
            | None =>
                let r := removeSourceLocked (l_userID l) (l_sourceIP l) r in
                let r := addSource (l_userID l) ip r in
                (storeLease id (lease_move ip l) r, Ok tt)
            end
      end
  end.

Definition dropUser (uid : Z) (m : gmap Z Z) : gmap Z Z :=
  if 1 <? mget m uid then <[uid := mget m uid - 1]> m else delete uid m.
Definition decrement (n : Z) : Z := if 0 <? n then n - 1 else n.

Definition countClose (kind : Kind) (uid : Z) (r : Registry) : Registry :=
  match kind with
  | TCP => with_userTCP (dropUser uid (userTCP r)) (with_tcp (decrement (tcp r)) r)
  | XUDP => with_userXUDP (dropUser uid (userXUDP r)) (with_xudp (decrement (xudp r)) r)
  end.

(** Close of a lease: the first call only *)
Definition CloseLease (r : Registry) (id : Z) : Registry :=
  match lookupLease r id with
  | None => r
  | Some l =>
      if l_once l then r
      else
        let r := with_detached (<[id := lease_close l]> (detached r)) r in
        let r := with_sessions (delete id (sessions r)) r in
        let r := countClose (l_kind l) (l_userID l) r in
        removeSourceLocked (l_userID l) (l_sourceIP l) r
  end.

(** ** Rate limiting *)
Section Wait.
  (** The limiter of golang.org/x/time/rate: a call to WaitN on some state of
      the world [W] either takes the tokens or fails. *)
Context {W : Type} (WaitN : W → Limiter → Z → W * option string).

  (** the loop of [wait]; every round waits for at least one byte *)
Fixpoint wait_loop (fuel : nat) (w : W) (limiter : Limiter) (bytes : Z) : W * option string :=
    match fuel with
    | O => (w, None)
    | S fuel =>
        if bytes <=? 0 then (w, None)
        else
          let chunk := if lim_burst limiter <? bytes then lim_burst limiter else bytes in
          match WaitN w limiter chunk with
          | (w, Some e) => (w, Some e)
          | (w, None) => wait_loop fuel w limiter (bytes - chunk)
          end
    end.

Definition wait (w : W) (limiter : option Limiter) (bytes : Z) : W * option string :=
    match limiter with
    | None => (w, None)
    | Some limiter => wait_loop (Z.to_nat bytes) w limiter bytes
    end.

Definition Wait (w : W) (l : Lease) (bytes : Z) : W * option string :=
    if bytes <=? 0 then (w, None)
    else
      match wait w (l_userRate l) bytes with
      | (w, Some e) => (w, Some e)
      | (w, None) => wait w (l_nodeRate l) bytes
      end.
End Wait.

(** ** Reports *)
Definition Online (now : Z) (r : Registry) : gmap Z (gmap string Z) :=
  omap (λ m : gmap string Z, if bool_decide (m = ∅) then None else Some ((λ _, now) <$> m)) (sources r).

Record Metrics : Type := mkMetrics {
  m_TCPActive : Z;
  m_XUDPActive : Z;
  m_Handshakes : Z;
  m_Rejected : gmap string Z }.

Definition RegistryMetrics (r : Registry) : Metrics :=
  mkMetrics (tcp r) (xudp r) (handshakes r) (rejected r).

Definition HasUserSessions (r : Registry) (uid : Z) : bool :=
  (0 <? mget (userTCP r) uid) || (0 <? mget (userXUDP r) uid).
