(* ===== verification/SessionInv.v ===== *)
(** The invariants of the session registry: which sessions may be live
    (authorization), and that the registry's counters are exactly the counts of
    its sessions (accounting); every operation preserves them. A state is reachable
    for a set [moved] of users, those of whom a closed lease may be moved. *)
From S2P Require Import Prelude GoString Float64 Netip Model Config Policy Session.

Local Open Scope Z_scope.

(** ** Operations as a step relation

    A world is the registry with a ghost record of what each lease was admitted
    for. [Rebind] does not look whether its lease is still open: [moved] names
    the users for whom it may be called on a lease that was closed, [everyone]
    when nothing is assumed. The source counters of those users are the only
    part of the registry that such a call damages. *)
Record World : Type := mkWorld {
  w_reg : Registry;
  w_admitted : gmap Z Prepared }.

Definition everyone (uid : Z) : Prop := True.
Definition nobody (uid : Z) : Prop := False.

Inductive op (moved : Z → Prop) (r : Registry) : Registry → Prop :=
| op_acquire request : op moved r (AcquireHandshake r request).1
| op_release : op moved r (releaseHandshake r)
| op_lookup request : op moved r (openLookup r request).1
| op_target lookup user request : op moved r (authorizeTarget r lookup user request).1
| op_refuse p reason : commitRefusal r p = Some reason → op moved r (openCommit r p).1
| op_update snapshot r' callbacks ids :
    Update r snapshot = Ok (r', callbacks, ids) → op moved r r'
| op_revoke ids : op moved r (RevokeUsers r ids).1
| op_close : op moved r (CloseRegistry r).1
| op_bind id cb : op moved r (BindInterrupt r id cb).1
| op_rebind id value :
    (∀ l, sessions r !! id = None → detached r !! id = Some l → moved (l_userID l)) →
    op moved r (Rebind r id value).1
| op_close_lease id : op moved r (CloseLease r id).

(** Fewer than [2 ^ 64] sessions are opened in the life of a process. *)
Inductive step (moved : Z → Prop) : World → World → Prop :=
| step_op r r' a : op moved r r' → step moved (mkWorld r a) (mkWorld r' a)
| step_admit r a p :
    commitRefusal r p = None → nextID r + 1 < 2 ^ 64 →
    step moved (mkWorld r a)
      (mkWorld (openCommit r p).1 (<[nextID r + 1 := p]> a)).

Inductive reachable (moved : Z → Prop) (snapshot : Snapshot) (cfg : Config) : World → Prop :=
| reachable_new : reachable moved snapshot cfg (mkWorld (New snapshot cfg) ∅)
| reachable_step w w' :
    reachable moved snapshot cfg w → step moved w w' → reachable moved snapshot cfg w'.

(** Allowing more users to be moved allows more histories. *)
Lemma op_weaken (d d' : Z → Prop) r r' : (∀ uid, d uid → d' uid) → op d r r' → op d' r r'.
Proof. intros H Hop. destruct Hop; try by econstructor. apply op_rebind. eauto. Qed.

Lemma step_weaken (d d' : Z → Prop) w w' : (∀ uid, d uid → d' uid) → step d w w' → step d' w w'.
Proof. intros H [r r' a Hop|r a p Hc Hn]; [apply step_op; by eapply op_weaken|by apply step_admit]. Qed.

Lemma reachable_weaken (d d' : Z → Prop) snapshot cfg w :
  (∀ uid, d uid → d' uid) → reachable d snapshot cfg w → reachable d' snapshot cfg w.
Proof.
  intros H. induction 1 as [|w w' _ IH Hs]; [apply reachable_new|].
  apply (reachable_step _ _ _ w); [done|by eapply step_weaken].
Qed.

(** ** Floats that compare equal *)
Lemma f64_eqb_cases a b : f64_eqb a b = true →
  a = b ∨ ∃ s t, a = SpecFloat.S754_zero s ∧ b = SpecFloat.S754_zero t.
Proof.
  unfold f64_eqb, SpecFloat.SFeqb.
  destruct a as [s|s| |s m e], b as [t|t| |t n f]; simpl; try done; intros H.
  all: try (right; by eauto); left.
  all: try (destruct s; done); try (destruct t; done); try (destruct s, t; done).
  destruct s, t; try done; destruct (e ?= f) eqn:He; try done;
    apply Z.compare_eq in He as ->; change (Pos.compare_cont Eq m n) with (Pos.compare m n) in H;
    destruct (Pos.compare m n) eqn:Hm; try done; by apply Pos.compare_eq in Hm as ->.
Qed.

Lemma f64_leb_zero_eqb a b :
  f64_eqb a b = true → f64_leb a (f64_of_int 0) = f64_leb b (f64_of_int 0).
Proof. intros [->|(s & t & -> & ->)]%f64_eqb_cases; [done|]. by destruct s, t. Qed.

Lemma newLimiter_None gen owner mbps :
  newLimiter gen owner mbps = None ↔ f64_leb mbps (f64_of_int 0) = true.
Proof. unfold newLimiter. destruct (f64_leb _ _); split; done. Qed.

(** ** Revoking more sessions *)

(** [s'] is [s] with some sessions revoked *)
Definition more_revoked (s s' : gmap Z Lease) : Prop :=
  ∀ id, s' !! id = s !! id ∨ ∃ l, s !! id = Some l ∧ s' !! id = Some (lease_revoke l).

Lemma more_revoked_refl s : more_revoked s s.
Proof. by left. Qed.

Lemma more_revoked_trans s1 s2 s3 : more_revoked s1 s2 → more_revoked s2 s3 → more_revoked s1 s3.
Proof.
  intros H12 H23 id. destruct (H23 id) as [H|(l & H2 & H3)].
  - rewrite H. apply H12.
  - right. destruct (H12 id) as [H|(l' & H1 & H2')].
    + rewrite H in H2. eauto.
    + rewrite H2' in H2. injection H2 as <-. eauto.
Qed.

Lemma more_revoked_lookup s s' id l' : more_revoked s s' → s' !! id = Some l' →
  ∃ l, s !! id = Some l ∧ (l' = l ∨ l' = lease_revoke l).
Proof.
  intros H Hl'. destruct (H id) as [E|(l & E & E')].
  - rewrite E in Hl'. eauto.
  - rewrite E' in Hl'. injection Hl' as <-. eauto.
Qed.

Lemma more_revoked_fmap s (f : Lease → bool) :
  more_revoked s ((λ l, if f l then lease_revoke l else l) <$> s).
Proof.
  intros id. rewrite lookup_fmap. destruct (s !! id) as [l|] eqn:E; [|by left].
  simpl. destruct (f l); [right|left]; eauto.
Qed.

Lemma more_revoked_count (f : Lease → bool) s s' :
  (∀ l, f (lease_revoke l) = f l) → more_revoked s s' → mcount f s' = mcount f s.
Proof.
  intros Hf H. revert s' H. induction s as [|id l s Hid IH] using map_ind; intros s' H.
  { assert (s' = ∅) as ->; [|done]. apply map_empty. intros id.
    destruct (H id) as [->|(l & E & _)]; by rewrite ?lookup_empty in *. }
  assert (Hs' : ∃ l', s' !! id = Some l' ∧ f l' = f l).
  { destruct (H id) as [E|(l0 & E & E')]; rewrite lookup_insert_eq in E.
    - eauto.
    - injection E as <-. eauto. }
  destruct Hs' as (l' & Hl' & Hfl'). rewrite mcount_insert by done.
  rewrite (mcount_delete f s' id l' Hl'), Hfl'. f_equal. apply IH.
  intros j. rewrite lookup_delete. case_decide as Hj.
  - subst j. left. by rewrite Hid.
  - destruct (H j) as [E|(l0 & E & E')]; rewrite lookup_insert_ne in E by done; eauto.
Qed.

Lemma revokeLocked_eq us srcs r :
  (revokeLocked us srcs r).1 =
    with_sessions ((λ l, if revokes us srcs l then lease_revoke l else l) <$> sessions r) r.
Proof. done. Qed.

(** [r'] is [r] with some sessions revoked, and nothing else changed *)
Definition revoked_from (r r' : Registry) : Prop :=
  more_revoked (sessions r) (sessions r') ∧ r' = with_sessions (sessions r') r.

Lemma with_sessions_id r : with_sessions (sessions r) r = r.
Proof. by destruct r. Qed.

Lemma revoked_from_refl r : revoked_from r r.
Proof. split; [apply more_revoked_refl|by rewrite with_sessions_id]. Qed.

Lemma revoked_from_trans r1 r2 r3 : revoked_from r1 r2 → revoked_from r2 r3 → revoked_from r1 r3.
Proof.
  intros [H1 E1] [H2 E2]. split; [by eapply more_revoked_trans|].
  rewrite E2 at 1. by rewrite E1.
Qed.

Lemma revoked_from_revokeLocked us srcs r : revoked_from r (revokeLocked us srcs r).1.
Proof. split; [apply more_revoked_fmap|done]. Qed.

Lemma enforceUser_revoked uid srcs r cbs aff r' cbs' aff' :
  enforceUser uid srcs (r, cbs, aff) = Ok (r', cbs', aff') → revoked_from r r'.
Proof.
  unfold enforceUser. destruct (users r !! uid) as [user|].
  2:{ intros [= <- _ _]. apply revoked_from_refl. }
  destruct ((_ <=? 0) || _).
  { intros [= <- _ _]. apply revoked_from_refl. }
  destruct (Z.of_nat (length (orderedSources r uid)) <? _); [done|].
  destruct (bool_decide _).
  { intros [= <- _ _]. apply revoked_from_refl. }
  destruct (revokeLocked ∅ _ r) as [r2 more] eqn:E. intros [= <- _ _].
  change r2 with ((r2, more).1). rewrite <- E. apply revoked_from_revokeLocked.
Qed.

Lemma enforceUsers_revoked l r cbs aff r' cbs' aff' :
  enforceUsers l (r, cbs, aff) = Ok (r', cbs', aff') → revoked_from r r'.
Proof.
  revert r cbs aff. induction l as [|[uid srcs] l IH]; intros r cbs aff.
  { intros [= <- _ _]. apply revoked_from_refl. }
  cbn [enforceUsers]. destruct (enforceUser uid srcs (r, cbs, aff)) as [[[r1 cbs1] aff1]| |] eqn:E; try done.
  simpl. intros H%IH. eapply revoked_from_trans; [by eapply enforceUser_revoked|done].
Qed.

(** An update installs the snapshot, revokes, and then revokes some more. *)
Lemma Update_inv r snapshot r' cbs ids :
  Update r snapshot = Ok (r', cbs, ids) →
  let r1 := installSnapshot r snapshot (Some (users r)) in
  let r2 := (revokeLocked (revokeAllUsers r snapshot) (revokeNewSources r snapshot) r1).1 in
  revoked_from r2 r'.
Proof.
  unfold Update. intros H. cbv zeta in *.
  destruct (revokeLocked _ _ _) as [r2 cbs2] eqn:E. cbn [fst].
  destruct (enforceConnectorsLocked r2) as [[[r3 cbs3] aff]| |] eqn:E3; try done.
  cbn [obind] in H. injection H as <- _ _. by eapply enforceUsers_revoked.
Qed.

(** ** What an update revokes *)
Lemma unchanged_spec u v : userPolicyWithoutDisconnectChanged u v = false →
  user_ID u = user_ID v ∧ user_UUID u = user_UUID v ∧
  f64_eqb (user_SpeedLimitMbps u) (user_SpeedLimitMbps v) = true ∧
  user_ConnectorLimit u = user_ConnectorLimit v ∧
  user_ForbiddenIPs u = user_ForbiddenIPs v ∧ user_ForbiddenPorts u = user_ForbiddenPorts v.
Proof.
  unfold userPolicyWithoutDisconnectChanged. rewrite negb_false_iff, !andb_true_iff.
  intros [[[[[H1 H2] H3] H4] H5] H6].
  apply Z.eqb_eq in H1, H4. apply String.eqb_eq in H2.
  apply bool_decide_eq_true in H5, H6. done.
Qed.

Lemma contains_true values x : contains values x = true ↔ x ∈ values.
Proof.
  unfold contains. rewrite existsb_exists. split.
  - intros (y & Hy & ->%String.eqb_eq). by apply list_elem_of_In.
  - intros Hx. exists x. split; [by apply list_elem_of_In|apply String.eqb_refl].
Qed.

Lemma contains_false values x : contains values x = false ↔ x ∉ values.
Proof. rewrite <- contains_true. destruct (contains values x); split; congruence. Qed.

Lemma revokeAllUsers_spec r snapshot uid old :
  users r !! uid = Some old →
  (uid ∈ revokeAllUsers r snapshot) ↔
    f64_eqb (nodeSpeed r) (node_SpeedLimitMbps (snap_Node snapshot)) = false ∨
    goneOrChanged (userMap (snap_Users snapshot)) uid old = true.
Proof.
  intros Hold. unfold revokeAllUsers. destruct (f64_eqb _ _).
  - rewrite elem_of_dom. split.
    + intros [u (Hu & Hc)%map_lookup_filter_Some]. right.
      rewrite Hold in Hu. injection Hu as <-. done.
    + intros [?|Hc]; [done|]. exists old. by apply map_lookup_filter_Some.
  - rewrite elem_of_dom. split; [by left|]. by rewrite Hold.
Qed.

Lemma not_revoked_all r snapshot uid old :
  users r !! uid = Some old → uid ∉ revokeAllUsers r snapshot →
  f64_eqb (nodeSpeed r) (node_SpeedLimitMbps (snap_Node snapshot)) = true ∧
  ∃ updated, userMap (snap_Users snapshot) !! uid = Some updated ∧
             userPolicyWithoutDisconnectChanged old updated = false.
Proof.
  intros Hold Hnot. rewrite (revokeAllUsers_spec _ _ _ _ Hold) in Hnot.
  destruct (f64_eqb _ _); [|naive_solver]. split; [done|].
  unfold goneOrChanged in Hnot. destruct (userMap _ !! uid) as [v|]; [|naive_solver].
  exists v. split; [done|]. destruct (userPolicyWithoutDisconnectChanged old v); naive_solver.
Qed.

Lemma revokeNewSources_spec r snapshot uid old updated ip :
  users r !! uid = Some old → userMap (snap_Users snapshot) !! uid = Some updated →
  userPolicyWithoutDisconnectChanged old updated = false →
  (ip ∈ default ∅ (revokeNewSources r snapshot !! uid)) ↔
    ip ∈ user_DisconnectIPs updated ∧ ip ∉ user_DisconnectIPs old.
Proof.
  intros Hold Hnew Hc. unfold revokeNewSources.
  rewrite map_lookup_imap, Hold. simpl. rewrite Hnew, Hc.
  set (added := list_to_set _ : gset string).
  assert (Hadded : ip ∈ added ↔ ip ∈ user_DisconnectIPs updated ∧ ip ∉ user_DisconnectIPs old).
  { unfold added. rewrite elem_of_list_to_set, list_elem_of_filter, contains_false. tauto. }
  rewrite <- Hadded. case_bool_decide as He; simpl; [|done]. rewrite He. done.
Qed.

Lemma revokes_false us srcs l :
  revokes us srcs l = false → l_revoked l = false →
  (l_userID l ∉ us) ∧ (l_sourceIP l ∉ default ∅ (srcs !! l_userID l)).
Proof.
  unfold revokes. intros H Hl. rewrite Hl in H. simpl in H.
  apply orb_false_iff in H as [H1 H2]. by apply bool_decide_eq_false in H1, H2.
Qed.

(** ** Authorization *)

(** the user's policy permits the session's source and destination *)
Definition permits (user : User) (source : string) (p : Prepared) : Prop :=
  (source ∉ user_DisconnectIPs user) ∧
  PortBlocked (user_ForbiddenPorts user) (p_port p) = false ∧
  existsb (IPBlocked (user_ForbiddenIPs user)) (p_addresses p) = false.

(** a live session: the registry is open, the user is in the snapshot in force
    and permits it, and it draws from the limiters in force *)
Definition live_ok (r : Registry) (a : gmap Z Prepared) (id : Z) (l : Lease) : Prop :=
  closed r = false ∧
  ∃ user p, users r !! l_userID l = Some user ∧ a !! id = Some p ∧
    p_userID p = l_userID l ∧ p_kind p = l_kind l ∧ permits user (l_sourceIP l) p ∧
    l_userRate l = default None (userLimiters r !! l_userID l) ∧ l_nodeRate l = nodeLimiter r.

Definition session_ok (r : Registry) (a : gmap Z Prepared) (id : Z) (l : Lease) : Prop :=
  l_id l = id ∧ 0 < id ≤ nextID r ∧ l_once l = false ∧ l_cancelled l = l_revoked l ∧
  (l_revoked l = false → live_ok r a id l).

Definition detached_ok (r : Registry) (id : Z) (l : Lease) : Prop :=
  0 < id ≤ nextID r ∧ l_once l = true ∧ l_cancelled l = true ∧ sessions r !! id = None.

Record auth_inv (w : World) : Prop := mkAuthInv {
  ai_sessions : ∀ id l, sessions (w_reg w) !! id = Some l → session_ok (w_reg w) (w_admitted w) id l;
  ai_detached : ∀ id l, detached (w_reg w) !! id = Some l → detached_ok (w_reg w) id l;
  ai_nextID : 0 ≤ nextID (w_reg w) < 2 ^ 64;
  ai_nodeLimiter : nodeLimiter (w_reg w) = None →
    f64_leb (nodeSpeed (w_reg w)) (f64_of_int 0) = true }.

(** The fields that the authorization invariant depends on. *)
Definition same_auth (r r' : Registry) : Prop :=
  sessions r' = sessions r ∧ detached r' = detached r ∧ nextID r' = nextID r ∧
  closed r' = closed r ∧ users r' = users r ∧ userLimiters r' = userLimiters r ∧
  nodeLimiter r' = nodeLimiter r ∧ nodeSpeed r' = nodeSpeed r.

Lemma auth_frame r r' a : same_auth r r' → auth_inv (mkWorld r a) → auth_inv (mkWorld r' a).
Proof.
  intros (E1 & E2 & E3 & E4 & E5 & E6 & E7 & E8) [H1 H2 H3 H4].
  constructor; unfold session_ok, detached_ok, live_ok in *; simpl in *;
    rewrite ?E1, ?E2, ?E3, ?E4, ?E5, ?E6, ?E7, ?E8; done.
Qed.

Lemma same_auth_refl r : same_auth r r.
Proof. done. Qed.
Lemma same_auth_reject reason r : same_auth r (reject reason r).
Proof. done. Qed.
Lemma same_auth_addSource uid ip r : same_auth r (addSource uid ip r).
Proof. done. Qed.
Lemma same_auth_removeSource uid ip r : same_auth r (removeSourceLocked uid ip r).
Proof. done. Qed.
Lemma same_auth_countOpen kind uid r : same_auth r (countOpen kind uid r).
Proof. by destruct kind. Qed.
Lemma same_auth_countClose kind uid r : same_auth r (countClose kind uid r).
Proof. by destruct kind. Qed.
#[export] Hint Resolve same_auth_refl same_auth_reject same_auth_addSource same_auth_removeSource
  same_auth_countOpen same_auth_countClose : go.

(** The phases of Open before the critical section only count refusals. *)
Lemma openLookup_reg r request :
  (openLookup r request).1 = r ∨ ∃ reason, (openLookup r request).1 = reject reason r.
Proof. unfold openLookup. repeat case_match; simpl; eauto. Qed.

Lemma authorizeTarget_reg r lookup user request :
  (authorizeTarget r lookup user request).1 = r ∨
  ∃ reason, (authorizeTarget r lookup user request).1 = reject reason r.
Proof. unfold authorizeTarget. repeat case_match; simpl; eauto. Qed.

Lemma same_auth_lookup r request : same_auth r (openLookup r request).1.
Proof. by destruct (openLookup_reg r request) as [->|(reason & ->)]. Qed.
Lemma same_auth_target r lookup user request : same_auth r (authorizeTarget r lookup user request).1.
Proof. by destruct (authorizeTarget_reg r lookup user request) as [->|(reason & ->)]. Qed.
Lemma same_auth_acquire r request : same_auth r (AcquireHandshake r request).1.
Proof. unfold AcquireHandshake. by repeat case_match. Qed.
Lemma same_auth_release r : same_auth r (releaseHandshake r).
Proof. unfold releaseHandshake. by case_match. Qed.
#[export] Hint Resolve same_auth_lookup same_auth_target same_auth_acquire same_auth_release : go.

Lemma auth_revoked r r' a :
  revoked_from r r' → auth_inv (mkWorld r a) → auth_inv (mkWorld r' a).
Proof.
  intros [Hm ->] [H1 H2 H3 H4]. constructor; simpl in *.
  - intros id l' Hl'. destruct (more_revoked_lookup _ _ _ _ Hm Hl') as (l & Hl & [ -> | -> ]).
    + apply H1 in Hl. done.
    + apply H1 in Hl as (? & ? & ? & ? & ?). unfold session_ok; simpl. by conjs.
  - intros id l Hl. destruct (H2 id l Hl) as (? & ? & ? & Hn).
    unfold detached_ok; simpl. split; [done|]. split; [done|]. split; [done|].
    destruct (Hm id) as [->|(? & E & _)]; congruence.
  - done.
  - done.
Qed.

(** Storing a lease that differs from the stored one only in its source and its
    interrupt. *)
Lemma auth_store r a id l l' :
  lookupLease r id = Some l →
  l_id l' = l_id l → l_userID l' = l_userID l → l_kind l' = l_kind l →
  l_cancelled l' = l_cancelled l → l_once l' = l_once l → l_revoked l' = l_revoked l →
  l_userRate l' = l_userRate l → l_nodeRate l' = l_nodeRate l →
  (l_revoked l = false → ∀ user, users r !! l_userID l = Some user →
     l_sourceIP l ∉ user_DisconnectIPs user → l_sourceIP l' ∉ user_DisconnectIPs user) →
  auth_inv (mkWorld r a) → auth_inv (mkWorld (storeLease id l' r) a).
Proof.
  intros Hl E1 E2 E3 E4 E5 E6 E7 E8 Hip [H1 H2 H3 H4]. unfold lookupLease, storeLease in *.
  destruct (sessions r !! id) as [l0|] eqn:Hs.
  - injection Hl as ->. constructor; simpl in *; try done.
    + intros j k. rewrite lookup_insert. case_decide as Hj.
      * subst j. intros [= <-]. destruct (H1 id l Hs) as (F1 & F2 & F3 & F4 & F5).
        unfold session_ok, live_ok; simpl. rewrite E1, E2, E3, E4, E5, E6, E7, E8.
        conjs. intros Hr.
        destruct (F5 Hr) as (G1 & user & p & G2 & G3 & G4 & G5 & (G6 & G7) & G8).
        split; [done|]. exists user, p. conjs.
        split; [split; [by apply (Hip Hr)|done]|done].
      * intros Hk. apply (H1 j k Hk).
    + intros j k Hk. destruct (H2 j k Hk) as (F1 & F2 & F3 & F4).
      unfold detached_ok; simpl. conjs.
      rewrite lookup_insert_ne; [done|]. intros <-. congruence.
  - constructor; simpl in *; try done.
    intros j k. rewrite lookup_insert. case_decide as Hj.
    + subst j. intros [= <-]. unfold detached_ok; simpl. rewrite E4, E5. by apply H2.
    + intros Hk. apply (H2 j k Hk).
Qed.

Lemma auth_bind r a id cb :
  auth_inv (mkWorld r a) → auth_inv (mkWorld (BindInterrupt r id cb).1 a).
Proof.
  intros H. unfold BindInterrupt. destruct (lookupLease r id) as [l|] eqn:Hl; [|done].
  simpl. apply (auth_store _ _ _ l); by auto.
Qed.

Lemma rebindRefusal_None r l ip user :
  rebindRefusal r l ip = None → users r !! l_userID l = Some user → ip ∉ user_DisconnectIPs user.
Proof.
  unfold rebindRefusal. intros H Hu. rewrite Hu in H.
  destruct (contains _ ip) eqn:Hc; [done|]. by apply contains_false.
Qed.

Lemma auth_rebind r a id value :
  auth_inv (mkWorld r a) → auth_inv (mkWorld (Rebind r id value).1 a).
Proof.
  intros H. unfold Rebind. destruct (lookupLease r id) as [l|] eqn:Hl; [|done].
  destruct (CanonicalIP value) as [ip|]; [|by apply (auth_frame r)].
  destruct (closed r || l_revoked l); [by apply (auth_frame r)|].
  destruct (String.eqb ip (l_sourceIP l)); [done|].
  destruct (rebindRefusal r l ip) as [reason|] eqn:Hr; [by apply (auth_frame r)|].
  cbv zeta. cbn [fst]. apply (auth_store _ _ _ l); try done.
  - intros _ user Hu _. by apply (rebindRefusal_None r l).
  - by apply (auth_frame r).
Qed.

Lemma auth_close_lease r a id :
  auth_inv (mkWorld r a) → auth_inv (mkWorld (CloseLease r id) a).
Proof.
  intros H. unfold CloseLease. destruct (lookupLease r id) as [l|] eqn:Hl; [|done].
  destruct (l_once l) eqn:Ho; [done|]. cbv zeta.
  assert (Hs : sessions r !! id = Some l).
  { unfold lookupLease in Hl. destruct (sessions r !! id) eqn:E; [done|].
    destruct H as [_ H _ _]. destruct (H id l Hl) as (_ & ? & _). simpl in *. congruence. }
  eapply auth_frame.
  { apply same_auth_removeSource. }
  destruct H as [H1 H2 H3 H4]. simpl in *. destruct (H1 id l Hs) as (F1 & F2 & F3 & F4 & F5).
  assert (Hgoal : auth_inv (mkWorld (with_sessions (delete id (sessions r))
             (with_detached (<[id := lease_close l]> (detached r)) r)) a)).
  { constructor; simpl; try done.
    - intros j k [Hj Hk]%lookup_delete_Some. apply (H1 j k Hk).
    - intros j k. rewrite lookup_insert. case_decide as Hj.
      + subst j. intros [= <-]. unfold detached_ok; simpl. rewrite lookup_delete_eq. done.
      + intros Hk. destruct (H2 j k Hk) as (G1 & G2 & G3 & G4). unfold detached_ok; simpl.
        rewrite lookup_delete_ne; done. }
  eapply auth_frame; [|exact Hgoal]. apply same_auth_countClose.
Qed.

Lemma auth_close r a :
  auth_inv (mkWorld r a) → auth_inv (mkWorld (CloseRegistry r).1 a).
Proof.
  intros H. unfold CloseRegistry. cbv zeta. rewrite revokeLocked_eq.
  destruct H as [H1 H2 H3 H4]. constructor; simpl in *; try done.
  - intros id l'. rewrite lookup_fmap. destruct (sessions r !! id) as [l|] eqn:Hl; [|done].
    intros [= <-]. destruct (H1 id l Hl) as (F1 & F2 & F3 & F4 & F5).
    destruct (revokes _ _ l) eqn:Hr.
    + unfold session_ok; simpl. by conjs.
    + unfold session_ok; simpl. conjs. intros Hl'.
      destruct (revokes_false _ _ _ Hr Hl') as [Hnot _].
      destruct (F5 Hl') as (_ & user & _ & Hu & _). destruct Hnot. by apply elem_of_dom_2 in Hu.
  - intros id l Hl. destruct (H2 id l Hl) as (G1 & G2 & G3 & G4). unfold detached_ok; simpl.
    conjs. by rewrite lookup_fmap, G4.
Qed.

(** A session that survives the first revocation of an update is permitted by
    the new snapshot. *)
Lemma live_after_install r a snapshot id l :
  auth_inv (mkWorld r a) → sessions r !! id = Some l → l_revoked l = false →
  revokes (revokeAllUsers r snapshot) (revokeNewSources r snapshot) l = false →
  live_ok (installSnapshot r snapshot (Some (users r))) a id l.
Proof.
  intros [H1 _ _ H4] Hl Hrev Hno. simpl in *.
  destruct (H1 id l Hl) as (_ & _ & _ & _ & F5).
  destruct (F5 Hrev) as (Hcl & user & p & Hu & Ha & Hp1 & Hp2 & (Q1 & Q2 & Q3) & Hur & Hnr).
  destruct (revokes_false _ _ _ Hno Hrev) as [Hall Hsrc].
  destruct (not_revoked_all _ _ _ _ Hu Hall) as (Hspeed & updated & Hnew & Hsame).
  rewrite (revokeNewSources_spec _ _ _ _ _ _ Hu Hnew Hsame) in Hsrc.
  pose proof (unchanged_spec _ _ Hsame) as (_ & _ & Hus & _ & Hips & Hports).
  split; [done|]. exists updated, p. simpl. split; [done|]. conjs.
  split; [|split].
  - unfold permits. rewrite <- Hips, <- Hports. split; [|done].
    intros Hin. by destruct Hsrc.
  - rewrite map_lookup_imap, Hnew. simpl. by rewrite Hu, Hus, <- Hur.
  - rewrite Hspeed, !orb_false_r.
    case_bool_decide as Hn; [|done].
    rewrite Hnr, Hn. symmetry. apply newLimiter_None.
    rewrite <- (f64_leb_zero_eqb _ _ Hspeed). by apply H4.
Qed.

Lemma auth_update r a snapshot r' cbs ids :
  Update r snapshot = Ok (r', cbs, ids) →
  auth_inv (mkWorld r a) → auth_inv (mkWorld r' a).
Proof.
  intros Hup Hinv. pose proof (Update_inv _ _ _ _ _ Hup) as Hrev. cbv zeta in Hrev.
  eapply auth_revoked; [exact Hrev|]. rewrite revokeLocked_eq.
  pose proof Hinv as [H1 H2 H3 H4]. constructor; simpl in *; try done.
  - intros id l'. rewrite lookup_fmap. destruct (sessions r !! id) as [l|] eqn:Hl; [|done].
    intros [= <-]. destruct (H1 id l Hl) as (F1 & F2 & F3 & F4 & F5).
    destruct (revokes _ _ l) eqn:Hr.
    + unfold session_ok; simpl. by conjs.
    + unfold session_ok. conjs. intros Hl'.
      apply (live_after_install r a snapshot id l Hinv Hl Hl' Hr).
  - intros id l Hl. destruct (H2 id l Hl) as (G1 & G2 & G3 & G4). unfold detached_ok; simpl.
    conjs. by rewrite lookup_fmap, G4.
  - rewrite orb_false_r.
    case_bool_decide as Hn; simpl.
    + by rewrite newLimiter_None.
    + destruct (f64_eqb _ _); simpl; [done|]. by rewrite newLimiter_None.
Qed.

(** What an admission checked. *)
Lemma commitRefusal_None r p : commitRefusal r p = None →
  ∃ user, users r !! p_userID p = Some user ∧ closed r = false ∧
    permits user (p_sourceIP p) p ∧
    checkCapacity r user (p_userID p) (p_sourceIP p) (p_kind p) = None.
Proof.
  unfold commitRefusal. destruct (users r !! p_userID p) as [user|]; [|done].
  destruct (closed r); [done|]. destruct (contains _ _) eqn:Hc; [done|].
  destruct (PortBlocked _ _) eqn:Hp; [done|]. destruct (existsb _ _) eqn:Hi; [done|].
  intros Hcap. exists user. unfold permits. by apply contains_false in Hc.
Qed.

Lemma auth_admit r a p :
  commitRefusal r p = None → nextID r + 1 < 2 ^ 64 →
  auth_inv (mkWorld r a) →
  auth_inv (mkWorld (openCommit r p).1 (<[nextID r + 1 := p]> a)).
Proof.
  intros Href Hn [H1 H2 H3 H4]. simpl in *.
  destruct (commitRefusal_None _ _ Href) as (user & Hu & Hcl & Hperm & _).
  unfold openCommit. rewrite Href. cbv zeta. cbn [fst newLease l_id].
  rewrite (wrapu64_id (nextID r + 1)) by lia.
  eapply auth_frame; [apply same_auth_countOpen|].
  eapply auth_frame; [apply same_auth_addSource|].
  constructor; simpl; try done; [| |lia].
  - intros id l. rewrite lookup_insert. case_decide as Hid.
    + subst id. intros [= <-]. unfold session_ok, live_ok, newLease; simpl.
      rewrite wrapu64_id by lia. conjs. intros _.
      split; [done|]. exists user, p. by rewrite lookup_insert_eq.
    + intros Hl. destruct (H1 id l Hl) as (F1 & F2 & F3 & F4 & F5).
      unfold session_ok; simpl. conjs. intros Hr.
      destruct (F5 Hr) as (G1 & u & q & G2 & G3 & G4). split; [done|]. exists u, q.
      by rewrite lookup_insert_ne.
  - intros id l Hl. destruct (H2 id l Hl) as (G1 & G2 & G3 & G4). unfold detached_ok; simpl.
    conjs. rewrite lookup_insert_ne by lia. done.
Qed.

(** ** Every operation preserves authorization *)
Lemma auth_op d r r' a : op d r r' → auth_inv (mkWorld r a) → auth_inv (mkWorld r' a).
Proof.
  intros Hop Hinv. destruct Hop as [request| |request|lookup user request|p reason Href
    |snapshot r' cbs ids Hup|ids| |id cb|id value _|id];
    try (eapply auth_frame; [by auto with go|done]).
  - unfold openCommit. rewrite Href. by apply (auth_frame r).
  - by eapply auth_update.
  - unfold RevokeUsers. eapply auth_revoked; [apply revoked_from_revokeLocked|done].
  - by apply auth_close.
  - by apply auth_bind.
  - by apply auth_rebind.
  - by apply auth_close_lease.
Qed.

Lemma auth_step d w w' : step d w w' → auth_inv w → auth_inv w'.
Proof. intros [r r' a Hop|r a p Href Hn]; [by apply (auth_op d)|by apply auth_admit]. Qed.

Lemma auth_New snapshot cfg : auth_inv (mkWorld (New snapshot cfg) ∅).
Proof.
  constructor; simpl.
  - intros id l. by rewrite lookup_empty.
  - intros id l. by rewrite lookup_empty.
  - lia.
  - apply newLimiter_None.
Qed.

Lemma auth_reachable d snapshot cfg w : reachable d snapshot cfg w → auth_inv w.
Proof. induction 1; [apply auth_New|by eapply auth_step]. Qed.
