(* ===== verification/SessionAcct.v ===== *)
(** The accounting invariant of the session registry: its counters are the
    counts of the sessions in its map, no map keeps an empty entry, and the
    configured limits bound them. The counters by source are kept for the users
    of whom no closed lease is moved. *)
From S2P Require Import Prelude GoString Float64 Netip Model Config Policy Session SessionInv.

Local Open Scope Z_scope.

Definition is_kind (k : Kind) (l : Lease) : bool := bool_decide (l_kind l = k).
Definition of_user (k : Kind) (uid : Z) (l : Lease) : bool := is_kind k l && (l_userID l =? uid).
Definition at_source (uid : Z) (ip : string) (l : Lease) : bool :=
  (l_userID l =? uid) && String.eqb (l_sourceIP l) ip.

(** the counter that the registry keeps for all sessions of a kind, and for
    those of one user *)
Definition kindTotal (k : Kind) (r : Registry) : Z := match k with TCP => tcp r | XUDP => xudp r end.
Definition kindUsers (k : Kind) (r : Registry) : gmap Z Z :=
  match k with TCP => userTCP r | XUDP => userXUDP r end.
Definition kindGlobalLimit (k : Kind) (l : Limits) : Z :=
  match k with TCP => TCPGlobal l | XUDP => XUDPGlobal l end.
Definition kindUserLimit (k : Kind) (l : Limits) : Z :=
  match k with TCP => TCPPerUser l | XUDP => XUDPPerUser l end.

Definition positive_entries `{Countable K} (m : gmap K Z) : Prop := ∀ k n, m !! k = Some n → 0 < n.
(** The counters by source address are only claimed for the users of whom no
    closed lease was moved. *)
Definition tidy_source (s : gmap Z (gmap string Z)) (uid : Z) : Prop :=
  ∀ m, s !! uid = Some m → m ≠ ∅ ∧ positive_entries m.

Record accounting (moved : Z → Prop) (r : Registry) : Prop := mkAccounting {
  ac_total : ∀ k, kindTotal k r = mcount (is_kind k) (sessions r);
  ac_user : ∀ k uid, mget (kindUsers k r) uid = mcount (of_user k uid) (sessions r);
  ac_source : ∀ uid ip, ¬ moved uid → mget (userSources r uid) ip = mcount (at_source uid ip) (sessions r);
  ac_user_tidy : ∀ k, positive_entries (kindUsers k r);
  ac_source_tidy : ∀ uid, ¬ moved uid → tidy_source (sources r) uid }.

(** ** Counting maps *)
Lemma positive_entries_None `{Countable K} (m : gmap K Z) k :
  positive_entries m → mget m k = 0 → m !! k = None.
Proof.
  unfold mget. intros Hm E. destruct (m !! k) as [n|] eqn:Hk; [|done].
  simpl in E. pose proof (Hm k n Hk). lia.
Qed.

Lemma positive_entries_insert `{Countable K} (m : gmap K Z) k n :
  0 < n → positive_entries m → positive_entries (<[k:=n]> m).
Proof. intros Hn Hm j x. rewrite lookup_insert. case_decide; [by intros [= <-]|apply Hm]. Qed.

Lemma positive_entries_delete `{Countable K} (m : gmap K Z) k :
  positive_entries m → positive_entries (delete k m).
Proof. intros Hm j x [_ Hj]%lookup_delete_Some. by apply (Hm j). Qed.

Lemma positive_entries_mget `{Countable K} (m : gmap K Z) k :
  positive_entries m → 0 ≤ mget m k.
Proof. unfold mget. intros Hm. destruct (m !! k) as [n|] eqn:E; simpl; [|lia]. specialize (Hm k n E). lia. Qed.

(** taking one away from a positive counter, dropping the entry at zero *)
Lemma mget_less `{Countable K} (m : gmap K Z) k j :
  0 < mget m k →
  mget (if 1 <? mget m k then <[k:=mget m k - 1]> m else delete k m) j
  = mget m j - b2z (bool_decide (k = j)).
Proof.
  intros Hk. destruct (Z.ltb_spec 1 (mget m k)); autorewrite with go;
    case_decide as Hj; [subst|..]; rewrite ?bool_decide_eq_true_2, ?bool_decide_eq_false_2 by done;
    simpl; try subst; lia.
Qed.

Lemma positive_entries_less `{Countable K} (m : gmap K Z) k :
  positive_entries m →
  positive_entries (if 1 <? mget m k then <[k:=mget m k - 1]> m else delete k m).
Proof.
  intros Hm. destruct (Z.ltb_spec 1 (mget m k)).
  - apply positive_entries_insert; [lia|done].
  - by apply positive_entries_delete.
Qed.

(** raising a counter and lowering it again *)
Lemma raise_less `{Countable K} (m : gmap K Z) k :
  positive_entries m →
  (if 1 <? mget (<[k:=mget m k + 1]> m) k
   then <[k:=mget (<[k:=mget m k + 1]> m) k - 1]> (<[k:=mget m k + 1]> m)
   else delete k (<[k:=mget m k + 1]> m)) = m.
Proof.
  intros Hm. pose proof (positive_entries_mget m k Hm) as Hn. rewrite mget_insert, decide_True by done.
  destruct (Z.ltb_spec 1 (mget m k + 1)).
  - rewrite Z.add_simpl_r, insert_insert_eq. apply insert_id. unfold mget in *.
    destruct (m !! k); simpl in *; [done|lia].
  - rewrite delete_insert_eq. apply delete_id. apply positive_entries_None; [done|lia].
Qed.

Lemma userSources_positive r uid : tidy_source (sources r) uid → positive_entries (userSources r uid).
Proof.
  intros Ht. unfold userSources. destruct (sources r !! uid) as [m'|] eqn:E; [by apply (Ht _ E)|].
  intros k n. simpl. by rewrite lookup_empty.
Qed.

Lemma userSources_insert r s uid m j :
  userSources (with_sources (<[uid:=m]> s) r) j = if decide (uid = j) then m else default ∅ (s !! j).
Proof. unfold userSources; simpl. rewrite lookup_insert. by case_decide. Qed.

Lemma addSource_count r uid ip j x :
  mget (userSources (addSource uid ip r) j) x
  = mget (userSources r j) x + b2z (bool_decide (uid = j) && bool_decide (ip = x)).
Proof.
  unfold addSource. rewrite userSources_insert. case_decide as Hj.
  - subst j. rewrite mget_insert, bool_decide_eq_true_2 by done. simpl.
    case_decide; [subst; rewrite bool_decide_eq_true_2 by done|rewrite bool_decide_eq_false_2 by done];
      simpl; lia.
  - rewrite bool_decide_eq_false_2 by done. simpl. unfold userSources. lia.
Qed.

Lemma addSource_tidy r uid ip j :
  tidy_source (sources r) j → tidy_source (sources (addSource uid ip r)) j.
Proof.
  intros Ht m. simpl. rewrite lookup_insert. case_decide as Hj; [|apply Ht]. subst j.
  intros [= <-]. split; [apply insert_non_empty|].
  pose proof (userSources_positive _ _ Ht) as Hpos.
  apply positive_entries_insert; [|done]. pose proof (positive_entries_mget _ ip Hpos). lia.
Qed.

Lemma removeSource_count r uid ip j x :
  (uid = j → 0 < mget (userSources r uid) ip) →
  mget (userSources (removeSourceLocked uid ip r) j) x
  = mget (userSources r j) x - b2z (bool_decide (uid = j) && bool_decide (ip = x)).
Proof.
  intros Hpos. unfold removeSourceLocked. cbv zeta.
  pose proof (λ H, mget_less (userSources r uid) ip x (Hpos H)) as Hless.
  set (m := if 1 <? mget (userSources r uid) ip then _ else _) in *.
  destruct (decide (uid = j)) as [<-|Hj].
  - rewrite (bool_decide_eq_true_2 (uid = uid)) by done. simpl. rewrite <- (Hless eq_refl). clear Hless.
    case_bool_decide as Hm.
    + unfold userSources; simpl. by rewrite lookup_delete_eq, Hm.
    + rewrite userSources_insert, decide_True by done. done.
  - rewrite (bool_decide_eq_false_2 (uid = j)) by done. simpl. rewrite Z.sub_0_r. clear Hless.
    case_bool_decide as Hm.
    + unfold userSources; simpl. by rewrite lookup_delete_ne.
    + by rewrite userSources_insert, decide_False.
Qed.

Lemma removeSource_tidy r uid ip j :
  tidy_source (sources r) j → tidy_source (sources (removeSourceLocked uid ip r)) j.
Proof.
  intros Ht m. unfold removeSourceLocked. cbv zeta. simpl. case_bool_decide as Hm.
  - intros [_ Hj]%lookup_delete_Some. by apply Ht.
  - rewrite lookup_insert. case_decide as Hj; [|apply Ht]. subst j. intros [= <-]. split; [done|].
    by apply positive_entries_less, userSources_positive.
Qed.

(** ** Sessions and their counts *)
Section Accounting.
Context (moved : Z → Prop).
Lemma accounting_frame r r' :
  (∀ k, mcount (is_kind k) (sessions r') = mcount (is_kind k) (sessions r)) →
  (∀ k uid, mcount (of_user k uid) (sessions r') = mcount (of_user k uid) (sessions r)) →
  (∀ uid ip, mcount (at_source uid ip) (sessions r') = mcount (at_source uid ip) (sessions r)) →
  tcp r' = tcp r → xudp r' = xudp r → userTCP r' = userTCP r → userXUDP r' = userXUDP r →
  sources r' = sources r → accounting moved r → accounting moved r'.
Proof.
  intros C1 C2 C3 E1 E2 E3 E4 E5 [H1 H2 H3 H4 H5].
  assert (EK : ∀ k, kindUsers k r' = kindUsers k r) by (by intros []).
  constructor.
  - intros k. rewrite C1, <- H1. by destruct k.
  - intros k uid. by rewrite C2, EK.
  - intros uid ip Hu. rewrite C3, <- H3 by done. unfold userSources. by rewrite E5.
  - intros k. by rewrite EK.
  - by rewrite E5.
Qed.

Lemma accounting_revoked r r' : revoked_from r r' → accounting moved r → accounting moved r'.
Proof.
  intros [Hm E]. rewrite E. apply accounting_frame; intros; simpl; try done;
    by apply more_revoked_count.
Qed.

Lemma is_kind_true k l : is_kind k l = true ↔ l_kind l = k.
Proof. apply bool_decide_eq_true. Qed.

Lemma at_source_self l : at_source (l_userID l) (l_sourceIP l) l = true.
Proof. unfold at_source. by rewrite Z.eqb_refl, String.eqb_refl. Qed.

Lemma at_source_b2z uid ip l :
  b2z (bool_decide (l_userID l = uid) && bool_decide (l_sourceIP l = ip)) = b2z (at_source uid ip l).
Proof.
  unfold at_source. f_equal. f_equal.
  - case_bool_decide; symmetry; [by apply Z.eqb_eq|by apply Z.eqb_neq].
  - case_bool_decide; symmetry; [by apply String.eqb_eq|by apply String.eqb_neq].
Qed.

Lemma session_source_positive r id l :
  accounting moved r → sessions r !! id = Some l → ¬ moved (l_userID l) →
  0 < mget (userSources r (l_userID l)) (l_sourceIP l).
Proof.
  intros H Hl Hu. rewrite (ac_source _ r H) by done. by eapply mcount_pos; [|apply at_source_self].
Qed.

Lemma countOpen_total k uid r k' :
  kindTotal k' (countOpen k uid r) = kindTotal k' r + b2z (bool_decide (k = k')).
Proof. destruct k, k'; simpl; lia. Qed.

Lemma countOpen_user k uid r k' j :
  mget (kindUsers k' (countOpen k uid r)) j
  = mget (kindUsers k' r) j + b2z (bool_decide (k = k') && bool_decide (uid = j)).
Proof.
  destruct k, k'; simpl; try lia; rewrite mget_insert; case_bool_decide;
    rewrite ?decide_True, ?decide_False by done; simpl; try subst; lia.
Qed.

Lemma countOpen_tidy k uid r :
  (∀ k', positive_entries (kindUsers k' r)) → ∀ k', positive_entries (kindUsers k' (countOpen k uid r)).
Proof.
  intros H k'. pose proof (H k') as Hk'.
  destruct k, k'; simpl in *; try done; apply positive_entries_insert; try done;
    pose proof (positive_entries_mget _ uid Hk'); lia.
Qed.

Lemma countClose_total k uid r k' :
  0 < kindTotal k r →
  kindTotal k' (countClose k uid r) = kindTotal k' r - b2z (bool_decide (k = k')).
Proof.
  intros H. destruct k, k'; simpl in *; try lia; unfold decrement;
    rewrite (proj2 (Z.ltb_lt 0 _)) by done; simpl; lia.
Qed.

Lemma countClose_user k uid r k' j :
  0 < mget (kindUsers k r) uid →
  mget (kindUsers k' (countClose k uid r)) j
  = mget (kindUsers k' r) j - b2z (bool_decide (k = k') && bool_decide (uid = j)).
Proof.
  intros Hpos. destruct k, k'; simpl in *; try lia; unfold dropUser; by rewrite mget_less.
Qed.

Lemma countClose_tidy k uid r :
  (∀ k', positive_entries (kindUsers k' r)) → ∀ k', positive_entries (kindUsers k' (countClose k uid r)).
Proof.
  intros H k'. pose proof (H k'). destruct k, k'; simpl in *; try done;
    by apply positive_entries_less.
Qed.

Lemma of_user_b2z k uid l :
  b2z (bool_decide (l_kind l = k) && bool_decide (l_userID l = uid)) = b2z (of_user k uid l).
Proof.
  unfold of_user, is_kind. f_equal. f_equal.
  case_bool_decide; symmetry; [by apply Z.eqb_eq|by apply Z.eqb_neq].
Qed.

(** ** Every operation preserves the accounting *)

(** adding one session for which every count goes up as the counters do *)
Lemma accounting_admit r p :
  commitRefusal r p = None → sessions r !! wrapu64 (nextID r + 1) = None →
  accounting moved r → accounting moved (openCommit r p).1.
Proof.
  intros Href Hfresh [H1 H2 H3 H4 H5]. unfold openCommit. rewrite Href. cbv zeta. cbn [fst].
  set (l := newLease r p). set (r1 := with_sessions _ _). set (r2 := addSource _ _ r1).
  assert (Hs : sessions (countOpen (p_kind p) (p_userID p) r2) = <[l_id l:=l]> (sessions r))
    by (by destruct (p_kind p)).
  assert (HK : ∀ k, kindTotal k r2 = kindTotal k r ∧ kindUsers k r2 = kindUsers k r) by (by intros []).
  constructor; rewrite ?Hs.
  - intros k. rewrite countOpen_total, mcount_insert by done. destruct (HK k) as [-> _].
    rewrite H1. unfold is_kind. simpl. lia.
  - intros k uid. rewrite countOpen_user, mcount_insert by done. destruct (HK k) as [_ ->].
    rewrite H2, <- of_user_b2z. simpl. lia.
  - intros uid ip Hu. rewrite mcount_insert, <- at_source_b2z by done. simpl.
    assert (userSources (countOpen (p_kind p) (p_userID p) r2) = userSources r2) as ->
      by (by destruct (p_kind p)).
    unfold r2. rewrite addSource_count. rewrite <- H3 by done. unfold userSources. simpl. lia.
  - apply countOpen_tidy. intros k. destruct (HK k) as [_ ->]. apply H4.
  - intros uid Hu. assert (sources (countOpen (p_kind p) (p_userID p) r2) = sources r2) as ->
      by (by destruct (p_kind p)).
    by apply addSource_tidy, H5.
Qed.

Lemma accounting_close_lease r id :
  (∀ l, detached r !! id = Some l → l_once l = true) →
  accounting moved r → accounting moved (CloseLease r id).
Proof.
  intros Hdet Hacct. unfold CloseLease, lookupLease.
  destruct (sessions r !! id) as [l|] eqn:Hl.
  2:{ destruct (detached r !! id) as [l|] eqn:Hd; [|done]. by rewrite (Hdet l eq_refl). }
  destruct (l_once l); [done|]. cbv zeta.
  pose proof (session_source_positive r id l Hacct Hl) as Hpos.
  destruct Hacct as [H1 H2 H3 H4 H5].
  assert (Hk : 0 < kindTotal (l_kind l) r).
  { rewrite H1. eapply mcount_pos; [done|by apply is_kind_true]. }
  assert (Hu : 0 < mget (kindUsers (l_kind l) r) (l_userID l)).
  { rewrite H2. eapply mcount_pos; [done|]. unfold of_user.
    by rewrite Z.eqb_refl, (proj2 (is_kind_true _ _)). }
  set (r1 := with_sessions _ _).
  set (r2 := countClose _ _ r1).
  assert (HK : ∀ k, kindTotal k r1 = kindTotal k r ∧ kindUsers k r1 = kindUsers k r) by (by intros []).
  assert (HS : sources r2 = sources r ∧ sessions r2 = delete id (sessions r))
    by (unfold r2; by destruct (l_kind l)).
  destruct HS as [HS1 HS2].
  assert (HU : ∀ j, userSources r2 j = userSources r j) by (intros j; unfold userSources; by rewrite HS1).
  assert (Hfin : sessions (removeSourceLocked (l_userID l) (l_sourceIP l) r2) = delete id (sessions r))
    by done.
  constructor; rewrite ?Hfin.
  - intros k. change (kindTotal k (removeSourceLocked _ _ r2)) with (kindTotal k r2).
    unfold r2. rewrite countClose_total; [|by destruct (HK (l_kind l)) as [-> _]].
    destruct (HK k) as [-> _]. rewrite H1, (mcount_delete _ _ _ _ Hl). unfold is_kind. lia.
  - intros k uid. change (kindUsers k (removeSourceLocked _ _ r2)) with (kindUsers k r2).
    unfold r2. rewrite countClose_user; [|by destruct (HK (l_kind l)) as [_ ->]].
    destruct (HK k) as [_ ->]. rewrite H2, (mcount_delete _ _ _ _ Hl), of_user_b2z. lia.
  - intros uid ip Hu'. rewrite removeSource_count by (intros <-; rewrite HU; auto).
    rewrite HU, H3 by done. rewrite (mcount_delete _ _ _ _ Hl), at_source_b2z. lia.
  - intros k. change (kindUsers k (removeSourceLocked _ _ r2)) with (kindUsers k r2).
    apply countClose_tidy. intros k'. destruct (HK k') as [_ ->]. apply H4.
  - intros uid Hu'. apply removeSource_tidy. rewrite HS1. auto.
Qed.

(** overwriting a session with one of the same kind and user *)
Lemma accounting_store_same r id l l' :
  sessions r !! id = Some l →
  l_kind l' = l_kind l → l_userID l' = l_userID l → l_sourceIP l' = l_sourceIP l →
  accounting moved r → accounting moved (storeLease id l' r).
Proof.
  intros Hl E1 E2 E3. unfold storeLease. rewrite Hl.
  apply accounting_frame; try done; intros; simpl; rewrite (mcount_update _ _ _ _ _ Hl).
  - unfold is_kind. rewrite E1. lia.
  - unfold of_user, is_kind. rewrite E1, E2. lia.
  - unfold at_source. rewrite E2, E3. lia.
Qed.

Lemma accounting_bind r id cb : accounting moved r → accounting moved (BindInterrupt r id cb).1.
Proof.
  intros H. unfold BindInterrupt, lookupLease. destruct (sessions r !! id) as [l|] eqn:Hl.
  - by apply (accounting_store_same _ _ l).
  - destruct (detached r !! id) as [l|] eqn:Hd; [|done].
    simpl. unfold storeLease. rewrite Hl. by apply (accounting_frame r).
Qed.

(** Moving an open lease moves its count along; moving a closed one touches
    only the sources of its user. *)
Lemma accounting_move_open r id l ip :
  sessions r !! id = Some l → accounting moved r →
  accounting moved (storeLease id (lease_move ip l)
    (addSource (l_userID l) ip (removeSourceLocked (l_userID l) (l_sourceIP l) r))).
Proof.
  intros Hl Hacct. pose proof (session_source_positive r id l Hacct Hl) as Hpos.
  destruct Hacct as [H1 H2 H3 H4 H5].
  set (r1 := removeSourceLocked _ _ r). set (r2 := addSource _ _ r1).
  assert (Hst : storeLease id (lease_move ip l) r2 = with_sessions (<[id:=lease_move ip l]> (sessions r)) r2).
  { unfold storeLease. assert (sessions r2 !! id = Some l) as -> by done. done. }
  rewrite Hst. constructor; simpl.
  - intros k. rewrite (mcount_update _ _ _ _ _ Hl). unfold is_kind at 2 3. simpl.
    change (kindTotal k (with_sessions _ r2)) with (kindTotal k r). rewrite H1. lia.
  - intros k uid. rewrite (mcount_update _ _ _ _ _ Hl). unfold of_user at 2 3, is_kind. simpl.
    change (kindUsers k (with_sessions _ r2)) with (kindUsers k r). rewrite H2. lia.
  - intros uid x Hu. rewrite (mcount_update _ _ _ _ _ Hl), <- !at_source_b2z. simpl.
    change (userSources (with_sessions _ r2)) with (userSources r2).
    unfold r2. rewrite addSource_count. unfold r1. rewrite removeSource_count by (intros <-; auto).
    rewrite H3 by done. lia.
  - intros k. apply (H4 k).
  - intros uid Hu. exact (addSource_tidy r1 _ ip uid (removeSource_tidy r _ _ uid (H5 uid Hu))).
Qed.

Lemma accounting_move_closed r id l ip :
  sessions r !! id = None → moved (l_userID l) → accounting moved r →
  accounting moved (storeLease id (lease_move ip l)
    (addSource (l_userID l) ip (removeSourceLocked (l_userID l) (l_sourceIP l) r))).
Proof.
  intros Hl Hm [H1 H2 H3 H4 H5].
  set (r1 := removeSourceLocked _ _ r). set (r2 := addSource _ _ r1).
  assert (Hst : storeLease id (lease_move ip l) r2 = with_detached (<[id:=lease_move ip l]> (detached r)) r2).
  { unfold storeLease. assert (sessions r2 !! id = None) as -> by done. done. }
  rewrite Hst. constructor; simpl.
  - intros k. rewrite <- H1. by destruct k.
  - intros k uid. rewrite <- H2. by destruct k.
  - intros uid x Hu. rewrite <- H3 by done. change (userSources (with_detached _ r2)) with (userSources r2).
    assert (Hne : l_userID l ≠ uid) by (by intros <-).
    unfold r2. rewrite addSource_count. unfold r1. rewrite removeSource_count by done.
    rewrite bool_decide_eq_false_2 by done. simpl. lia.
  - intros k. apply (H4 k).
  - intros uid Hu. exact (addSource_tidy r1 _ ip uid (removeSource_tidy r _ _ uid (H5 uid Hu))).
Qed.

Lemma accounting_rebind r id value :
  (∀ l, sessions r !! id = None → detached r !! id = Some l → moved (l_userID l)) →
  accounting moved r → accounting moved (Rebind r id value).1.
Proof.
  intros Hmoved Hacct. unfold Rebind, lookupLease.
  assert (Hrej : ∀ reason, accounting moved (reject reason r)) by (intros; by apply (accounting_frame r)).
  destruct (sessions r !! id) as [l|] eqn:Hl; [|destruct (detached r !! id) as [l|] eqn:Hd; [|done]].
  all: destruct (CanonicalIP value) as [ip|]; [|apply Hrej].
  all: destruct (closed r || l_revoked l); [apply Hrej|].
  all: destruct (String.eqb ip (l_sourceIP l)); [done|].
  all: destruct (rebindRefusal r l ip); [apply Hrej|].
  - by apply accounting_move_open.
  - apply accounting_move_closed; auto.
Qed.

Lemma accounting_install r snapshot old : accounting moved r → accounting moved (installSnapshot r snapshot old).
Proof. by apply accounting_frame. Qed.

Lemma accounting_op r r' a :
  op moved r r' → auth_inv (mkWorld r a) → accounting moved r → accounting moved r'.
Proof.
  intros Hop Hauth Hacct. destruct Hop as [request| |request|lookup user request|p reason Href
    |snapshot r' cbs ids Hup|ids| |id cb|id value Hd|id].
  - unfold AcquireHandshake. repeat case_match; try done; by apply (accounting_frame r).
  - unfold releaseHandshake. case_match; [by apply (accounting_frame r)|done].
  - destruct (openLookup_reg r request) as [->|(reason & ->)]; [done|by apply (accounting_frame r)].
  - destruct (authorizeTarget_reg r lookup user request) as [->|(reason & ->)];
      [done|by apply (accounting_frame r)].
  - unfold openCommit. rewrite Href. by apply (accounting_frame r).
  - eapply accounting_revoked; [by eapply Update_inv|].
    eapply accounting_revoked; [apply revoked_from_revokeLocked|]. by apply accounting_install.
  - eapply accounting_revoked; [apply revoked_from_revokeLocked|done].
  - eapply accounting_revoked; [apply revoked_from_revokeLocked|]. by apply (accounting_frame r).
  - by apply accounting_bind.
  - by apply accounting_rebind.
  - apply accounting_close_lease; [|done]. intros l Hl. by apply (ai_detached _ Hauth) in Hl as (_ & ? & _).
Qed.

Lemma accounting_step w w' : step moved w w' → auth_inv w → accounting moved (w_reg w) → accounting moved (w_reg w').
Proof.
  intros [r r' a Hop|r a p Href Hn] Hauth Hacct; simpl in *; [by eapply accounting_op|].
  apply accounting_admit; try done. pose proof (ai_nextID _ Hauth) as Hid. simpl in Hid.
  rewrite wrapu64_id by lia. destruct (sessions r !! (nextID r + 1)) as [l|] eqn:Hl; [|done].
  apply (ai_sessions _ Hauth) in Hl as (_ & ? & _). simpl in *. lia.
Qed.

Lemma accounting_New snapshot cfg : accounting moved (New snapshot cfg).
Proof.
  constructor; simpl; intros.
  - rewrite mcount_empty. by destruct k.
  - rewrite mcount_empty. destruct k; simpl; apply mget_empty.
  - rewrite mcount_empty. unfold userSources. simpl. rewrite lookup_empty. apply mget_empty.
  - intros j n. destruct k; simpl; by rewrite lookup_empty.
  - intros m. by rewrite lookup_empty.
Qed.

Lemma accounting_reachable snapshot cfg w : reachable moved snapshot cfg w → accounting moved (w_reg w).
Proof.
  induction 1 as [|w w' Hr IH Hs]; [apply accounting_New|].
  eapply accounting_step; [done| |done]. by eapply auth_reachable.
Qed.

End Accounting.

(** ** The configured limits *)
Record bounded (lim : Limits) (r : Registry) : Prop := mkBounded {
  bd_limits : limits r = lim;
  bd_handshakes : 0 ≤ handshakes r ≤ ConcurrentHandshakes lim;
  bd_total : ∀ k, kindTotal k r ≤ kindGlobalLimit k lim;
  bd_user : ∀ k uid, mget (kindUsers k r) uid ≤ kindUserLimit k lim }.

Lemma limits_valid lim : limits_invalid lim = false →
  0 < ConcurrentHandshakes lim ∧ ∀ k, 0 < kindUserLimit k lim ≤ kindGlobalLimit k lim.
Proof.
  unfold limits_invalid. intros H. repeat (apply orb_false_iff in H as [H ?]).
  split; [lia|]. intros []; simpl; lia.
Qed.

Lemma bounded_frame lim r r' :
  limits r' = limits r → handshakes r' = handshakes r →
  (∀ k, kindTotal k r' = kindTotal k r) → (∀ k, kindUsers k r' = kindUsers k r) →
  bounded lim r → bounded lim r'.
Proof.
  intros E1 E2 E3 E4 [H1 H2 H3 H4].
  constructor; intros; rewrite ?E1, ?E2, ?E3, ?E4; auto.
Qed.

Lemma bounded_reject lim reason r : bounded lim r → bounded lim (reject reason r).
Proof. apply bounded_frame; try done; by intros []. Qed.

Lemma bounded_revoked lim r r' : revoked_from r r' → bounded lim r → bounded lim r'.
Proof. intros [_ ->]. apply bounded_frame; try done; by intros []. Qed.

Lemma mget_less_le `{Countable K} (m : gmap K Z) k j b :
  0 ≤ b → mget m j ≤ b →
  mget (if 1 <? mget m k then <[k:=mget m k - 1]> m else delete k m) j ≤ b.
Proof.
  intros Hb Hm. destruct (Z.ltb_spec 1 (mget m k)); autorewrite with go;
    case_decide; try subst; lia.
Qed.

Lemma bounded_close lim k uid r :
  limits_invalid lim = false → bounded lim r → bounded lim (countClose k uid r).
Proof.
  intros [_ Hv]%limits_valid [H1 H2 H3 H4].
  constructor; [by destruct k|by destruct k| |].
  - intros k'. specialize (H3 k'). destruct k, k'; simpl in *; try done; unfold decrement;
      case_match; lia.
  - intros k' j. specialize (H4 k' j). specialize (Hv k').
    destruct k, k'; simpl in *; try done; apply mget_less_le; lia.
Qed.

Lemma checkCapacity_None r user uid source k :
  checkCapacity r user uid source k = None →
  kindTotal k r < kindGlobalLimit k (limits r) ∧
  mget (kindUsers k r) uid < kindUserLimit k (limits r) ∧
  (let limit := effectiveLimit (user_ConnectorLimit user) (nodeConnectors r) in
   0 < limit → mget (userSources r uid) source = 0 → Z.of_nat (size (userSources r uid)) < limit).
Proof.
  unfold checkCapacity. cbv zeta. intros H.
  destruct (_ && _ && _) eqn:E; [done|].
  split_and!.
  - destruct k; case_match; try done; simpl; lia.
  - destruct k; case_match; try done; case_match; try done; simpl; lia.
  - intros Hl Hm. destruct (Z.leb_spec (effectiveLimit (user_ConnectorLimit user) (nodeConnectors r))
      (Z.of_nat (size (userSources r uid)))) as [Hle|]; [|done].
    rewrite !andb_false_iff in E. lia.
Qed.

Lemma bounded_admit lim r p :
  commitRefusal r p = None → bounded lim r → bounded lim (openCommit r p).1.
Proof.
  intros Href [H1 H2 H3 H4]. destruct (commitRefusal_None _ _ Href) as (user & _ & _ & _ & Hcap).
  apply checkCapacity_None in Hcap as (Hg & Hu & _). rewrite H1 in *.
  unfold openCommit. rewrite Href. cbv zeta. cbn [fst].
  set (r2 := addSource _ _ _).
  assert (HK : ∀ k, kindTotal k r2 = kindTotal k r ∧ kindUsers k r2 = kindUsers k r) by (by intros []).
  constructor; [by destruct (p_kind p)|by destruct (p_kind p)| |].
  - intros k. rewrite countOpen_total. destruct (HK k) as [-> _]. specialize (H3 k).
    case_bool_decide; simpl; [subst k|]; lia.
  - intros k uid. rewrite countOpen_user. destruct (HK k) as [_ ->]. specialize (H4 k uid).
    case_bool_decide; simpl; [subst k; case_bool_decide; simpl; [subst uid|]|]; lia.
Qed.

Lemma bounded_op lim d r r' :
  limits_invalid lim = false → op d r r' → bounded lim r → bounded lim r'.
Proof.
  intros Hv Hop Hb. destruct Hop as [request| |request|lookup user request|p reason Href
    |snapshot r' cbs ids Hup|ids| |id cb|id value _|id].
  - unfold AcquireHandshake. case_match; [done|]. destruct (_ || _) eqn:E; [by apply bounded_reject|].
    apply orb_false_iff in E as [_ E]. destruct Hb as [H1 H2 H3 H4]. rewrite H1 in E.
    constructor; simpl; [done|lia|apply H3|apply H4].
  - unfold releaseHandshake. destruct (Z.ltb_spec 0 (handshakes r)); [|done].
    destruct Hb as [H1 H2 H3 H4]. constructor; simpl; [done|lia|apply H3|apply H4].
  - destruct (openLookup_reg r request) as [->|(reason & ->)]; [done|by apply bounded_reject].
  - destruct (authorizeTarget_reg r lookup user request) as [->|(reason & ->)];
      [done|by apply bounded_reject].
  - unfold openCommit. rewrite Href. by apply bounded_reject.
  - eapply bounded_revoked; [by eapply Update_inv|].
    eapply bounded_revoked; [apply revoked_from_revokeLocked|].
    eapply bounded_frame; [..|exact Hb]; try done; by intros [].
  - eapply bounded_revoked; [apply revoked_from_revokeLocked|done].
  - eapply bounded_revoked; [apply revoked_from_revokeLocked|].
    eapply bounded_frame; [..|exact Hb]; try done; by intros [].
  - unfold BindInterrupt, storeLease. repeat case_match; try done; simpl;
      eapply bounded_frame; try exact Hb; try done; by intros [].
  - unfold Rebind, storeLease. repeat case_match; try done; simpl; try by apply bounded_reject.
    all: eapply bounded_frame; try exact Hb; try done; by intros [].
  - unfold CloseLease. case_match; [|done]. case_match; [done|]. cbv zeta.
    set (r1 := with_sessions _ _).
    assert (H1 : bounded lim r1) by (eapply bounded_frame; [..|exact Hb]; try done; by intros []).
    eapply bounded_frame; [..|apply (bounded_close lim (l_kind l) (l_userID l) _ Hv H1)];
      try done; by intros [].
Qed.

Lemma bounded_reachable d snapshot cfg w :
  limits_invalid (cfg_Limits cfg) = false →
  reachable d snapshot cfg w → bounded (cfg_Limits cfg) (w_reg w).
Proof.
  intros Hv. pose proof (limits_valid _ Hv) as [Hh Hk].
  induction 1 as [|w w' Hr IH Hs].
  - constructor; simpl; [done|lia| |].
    + intros k. specialize (Hk k). destruct k; simpl in *; lia.
    + intros k uid. specialize (Hk k).
      assert (mget (kindUsers k (New snapshot cfg)) uid = 0) as ->; [|lia].
      destruct k; apply mget_empty.
  - destruct Hs as [r r' a Hop|r a p Href Hn]; simpl in *.
    + by eapply bounded_op.
    + by apply bounded_admit.
Qed.
