(* ===== verification/SessionConn.v ===== *)
(** Connector limits in the session registry: what [enforceConnectorsLocked]
    keeps and revokes, and when its slice expression panics. *)
From S2P Require Import Prelude GoString Float64 Netip Model Config Policy Session SessionInv SessionAcct.

Local Open Scope Z_scope.

(** a live session of the user at a source *)
Definition liveAt (m : gmap Z Lease) (uid : Z) (ip : string) (id : Z) (l : Lease) : Prop :=
  m !! id = Some l ∧ l_userID l = uid ∧ l_revoked l = false ∧ l_sourceIP l = ip.

(** the sources from which the user has live sessions *)
Definition liveSources (r : Registry) (uid : Z) : gset string := dom (sourceAges r uid).

Definition age_ok (m : gmap Z Lease) (uid : Z) (ip : string) (age : option Z) : Prop :=
  match age with
  | Some first => (∃ id l, liveAt m uid ip id l ∧ l_id l = first) ∧
                  (∀ id l, liveAt m uid ip id l → first ≤ l_id l)
  | None => ∀ id l, ¬ liveAt m uid ip id l
  end.

Lemma liveAt_insert m i x uid ip id l : m !! i = None →
  liveAt (<[i:=x]> m) uid ip id l ↔
    (id = i ∧ l = x ∧ l_userID x = uid ∧ l_revoked x = false ∧ l_sourceIP x = ip) ∨ liveAt m uid ip id l.
Proof.
  intros Hi. unfold liveAt. rewrite lookup_insert. case_decide as Hid.
  - subst id. rewrite Hi. split; [intros ([= ->] & ?); left; done|intros [(_ & -> & ?)|(? & _)]; done].
  - split; [by right|intros [(-> & _)|?]; done].
Qed.

(** sourceAges maps each source with a live session to the least id there. *)
Lemma sourceAges_spec r uid ip : age_ok (sessions r) uid ip (sourceAges r uid !! ip).
Proof.
  revert ip. unfold sourceAges.
  apply (map_fold_weak_ind (λ ages m, ∀ ip, age_ok m uid ip (ages !! ip))).
  { intros ip. rewrite lookup_empty. intros id l (H & _). by rewrite lookup_empty in H. }
  intros i x m ages Hi IH ip. specialize (IH ip).
  destruct (negb (l_userID x =? uid) || l_revoked x) eqn:Hskip.
  { assert (Heq : ∀ id l, liveAt (<[i:=x]> m) uid ip id l ↔ liveAt m uid ip id l).
    { intros id l. rewrite liveAt_insert by done. split; [|by right].
      intros [(_ & _ & <- & Hr & _)|?]; [|done]. by rewrite Hr, Z.eqb_refl in Hskip. }
    unfold age_ok in *. destruct (ages !! ip); setoid_rewrite Heq; done. }
  apply orb_false_iff in Hskip as [Hu Hr]. apply negb_false_iff, Z.eqb_eq in Hu.
  set (ages' := match ages !! l_sourceIP x with Some _ => _ | None => _ end).
  destruct (decide (l_sourceIP x = ip)) as [Hip|Hip].
  - (* the source of the new session: the least of the old age and its id *)
    assert (Hnew : ages' !! ip = Some (match ages !! ip with
                     | Some first => if l_id x <? first then l_id x else first | None => l_id x end)).
    { unfold ages'. rewrite Hip. destruct (ages !! ip) as [first|] eqn:E;
        [case_match; [apply lookup_insert_eq|done]|apply lookup_insert_eq]. }
    rewrite Hnew. unfold age_ok in *. destruct (ages !! ip) as [first|] eqn:E.
    + destruct IH as [(id & l & Hl & Hid) Hmin]. destruct (Z.ltb_spec (l_id x) first).
      * split; [exists i, x; rewrite liveAt_insert by done; split; [left; by conjs|done]|].
        intros j k [(_ & -> & _)|Hk]%liveAt_insert; [lia| |done]. specialize (Hmin j k Hk). lia.
      * split; [exists id, l; rewrite liveAt_insert by done; split; [by right|done]|].
        intros j k [(_ & -> & _)|Hk]%liveAt_insert; [lia| |done]. by apply (Hmin j).
    + split; [exists i, x; rewrite liveAt_insert by done; split; [left; by conjs|done]|].
      intros j k [(_ & -> & _)|Hk]%liveAt_insert; [lia| |done]. by destruct (IH j k).
  - (* another source *)
    assert (Hsame : ages' !! ip = ages !! ip).
    { unfold ages'. destruct (ages !! l_sourceIP x); [case_match; [|done]|]; by apply lookup_insert_ne. }
    rewrite Hsame. assert (Heq : ∀ id l, liveAt (<[i:=x]> m) uid ip id l ↔ liveAt m uid ip id l).
    { intros id l. rewrite liveAt_insert by done. split; [|by right].
      by intros [(_ & _ & _ & _ & ?)|?]. }
    unfold age_ok in *. destruct (ages !! ip); setoid_rewrite Heq; done.
Qed.

Lemma elem_of_liveSources r uid ip :
  (ip ∈ liveSources r uid) ↔ ∃ id l, liveAt (sessions r) uid ip id l.
Proof.
  unfold liveSources. rewrite elem_of_dom. pose proof (sourceAges_spec r uid ip) as H.
  destruct (sourceAges r uid !! ip) as [f|]; simpl in H.
  - destruct H as [(id & l & Hl & _) _]. split; [eauto|by eexists].
  - split; [by intros [? ?]|]. intros (id & l & Hl). by destruct (H id l).
Qed.

(** The ages of a user depend only on that user's live sessions. *)
Lemma sourceAges_ext r r' uid :
  (∀ ip id l, liveAt (sessions r) uid ip id l ↔ liveAt (sessions r') uid ip id l) →
  sourceAges r uid = sourceAges r' uid.
Proof.
  intros Heq. apply map_eq. intros ip.
  pose proof (sourceAges_spec r uid ip) as H. pose proof (sourceAges_spec r' uid ip) as H'.
  destruct (sourceAges r uid !! ip) as [f|], (sourceAges r' uid !! ip) as [f'|]; simpl in *; try done.
  - destruct H as [(i & l & Hl & Hi) Hm], H' as [(i' & l' & Hl' & Hi') Hm'].
    apply Heq in Hl as Hl2. apply Heq in Hl' as Hl2'.
    specialize (Hm _ _ Hl2'). specialize (Hm' _ _ Hl2). f_equal. lia.
  - destruct H as [(i & l & Hl & _) _]. apply Heq in Hl. by destruct (H' i l).
  - destruct H' as [(i & l & Hl & _) _]. apply Heq in Hl. by destruct (H i l).
Qed.

Lemma liveAt_more_revoked s s' uid ip id l :
  more_revoked s s' → liveAt s' uid ip id l → liveAt s uid ip id l.
Proof.
  intros Hm (Hl & Hu & Hr & Hip). destruct (more_revoked_lookup _ _ _ _ Hm Hl) as (k & Hk & [ -> | -> ]);
    done.
Qed.

Lemma liveSources_more_revoked r r' uid : revoked_from r r' → liveSources r' uid ⊆ liveSources r uid.
Proof.
  intros [Hm _] ip. rewrite !elem_of_liveSources. intros (id & l & Hl).
  exists id, l. by eapply liveAt_more_revoked.
Qed.

(** ** The order of the sources *)
#[export] Instance age_le_trans : Transitive age_le.
Proof.
  intros a b c [H1|[H1 H1']] [H2|[H2 H2']]; unfold age_le; [left; lia..|right].
  split; [lia|]. by etrans.
Qed.
#[export] Instance age_le_total : Total age_le.
Proof.
  intros a b. unfold age_le. destruct (Z.lt_trichotomy (snd a) (snd b)) as [?|[?|?]].
  - by left; left.
  - destruct (total String.le (fst a) (fst b)); [left|right]; right; done.
  - right; left; lia.
Qed.

Lemma orderedSources_perm r uid : orderedSources r uid ≡ₚ map_to_list (sourceAges r uid).
Proof. apply merge_sort_Permutation. Qed.

Lemma orderedSources_fst r uid : map fst (orderedSources r uid) ≡ₚ elements (liveSources r uid).
Proof.
  rewrite orderedSources_perm. apply NoDup_Permutation.
  - apply NoDup_fst_map_to_list.
  - apply NoDup_elements.
  - intros ip. rewrite elem_of_elements. unfold liveSources. rewrite elem_of_dom.
    rewrite list_elem_of_fmap. split.
    + intros ([k v] & -> & Hv%elem_of_map_to_list). by eexists.
    + intros [v Hv]. exists (ip, v). split; [done|]. by apply elem_of_map_to_list.
Qed.

Lemma orderedSources_NoDup r uid : NoDup (map fst (orderedSources r uid)).
Proof. rewrite orderedSources_fst. apply NoDup_elements. Qed.

Lemma orderedSources_length r uid : length (orderedSources r uid) = size (liveSources r uid).
Proof. rewrite <- (length_map fst). by rewrite orderedSources_fst. Qed.

Lemma orderedSources_sorted r uid : StronglySorted age_le (orderedSources r uid).
Proof. apply (StronglySorted_merge_sort age_le). Qed.

(** the sources an enforcement keeps and blocks *)
Definition kept (r : Registry) (uid limit : Z) : list string :=
  map fst (take (Z.to_nat limit) (orderedSources r uid)).
Definition blocked (r : Registry) (uid limit : Z) : gset string :=
  list_to_set (map fst (drop (Z.to_nat limit) (orderedSources r uid))).

Lemma kept_or_blocked r uid limit ip :
  (ip ∈ liveSources r uid) ↔ (ip ∈ kept r uid limit) ∨ (ip ∈ blocked r uid limit).
Proof.
  unfold kept, blocked. rewrite elem_of_list_to_set, <- elem_of_app, <- map_app, take_drop.
  by rewrite orderedSources_fst, elem_of_elements.
Qed.

Lemma kept_not_blocked r uid limit ip : ip ∈ kept r uid limit → ip ∉ blocked r uid limit.
Proof.
  unfold kept, blocked. rewrite elem_of_list_to_set.
  pose proof (orderedSources_NoDup r uid) as Hnd.
  rewrite <- (take_drop (Z.to_nat limit) (orderedSources r uid)), map_app in Hnd.
  apply NoDup_app in Hnd as (_ & Hd & _). apply Hd.
Qed.

Lemma kept_NoDup r uid limit : NoDup (kept r uid limit).
Proof.
  pose proof (orderedSources_NoDup r uid) as Hnd.
  rewrite <- (take_drop (Z.to_nat limit) (orderedSources r uid)), map_app in Hnd.
  by apply NoDup_app in Hnd as [? _].
Qed.

Lemma kept_length r uid limit :
  0 ≤ limit → limit ≤ Z.of_nat (size (liveSources r uid)) → Z.of_nat (length (kept r uid limit)) = limit.
Proof.
  intros H0 Hl. unfold kept. rewrite length_map, length_take, orderedSources_length. lia.
Qed.

(** ** One user *)

(** the limit that applies to a user of the snapshot; 0 when there is none *)
Definition connectorLimit (r : Registry) (uid : Z) : Z :=
  match users r !! uid with
  | Some user => effectiveLimit (user_ConnectorLimit user) (nodeConnectors r)
  | None => 0
  end.

(** a user is over the limit when the map of sources, in which revoked sessions
    that are not closed yet still count, has more of them than the limit *)
Definition overLimit (r : Registry) (uid : Z) (srcs : gmap string Z) : bool :=
  (0 <? connectorLimit r uid) && (connectorLimit r uid <? Z.of_nat (size srcs)).

(** [ordered[limit:]] is out of range: fewer live sources than the limit *)
Definition sliceOutOfRange (r : Registry) (uid : Z) : bool :=
  Z.of_nat (size (liveSources r uid)) <? connectorLimit r uid.

Definition blockedBy (r : Registry) (uid : Z) (srcs : gmap string Z) : gset string :=
  if overLimit r uid srcs then blocked r uid (connectorLimit r uid) else ∅.

Lemma enforceUser_panic uid srcs st :
  enforceUser uid srcs st = Panic ↔
  overLimit st.1.1 uid srcs = true ∧ sliceOutOfRange st.1.1 uid = true.
Proof.
  destruct st as [[r cbs] aff]. unfold enforceUser, overLimit, sliceOutOfRange, connectorLimit. simpl.
  destruct (users r !! uid) as [user|]; [|by split; [|intros [? _]]].
  set (limit := effectiveLimit _ _).
  rewrite orderedSources_length.
  destruct (Z.leb_spec limit 0), (Z.leb_spec (Z.of_nat (size srcs)) limit); simpl;
    try (split; [done|lia]).
  destruct (Z.ltb_spec (Z.of_nat (size (liveSources r uid))) limit).
  - split; [lia|done].
  - split; [|lia]. by case_bool_decide.
Qed.

Lemma enforceUser_no_err uid srcs st e : enforceUser uid srcs st ≠ Err e.
Proof.
  destruct st as [[r cbs] aff]. unfold enforceUser.
  repeat case_match; done.
Qed.

Lemma liveAt_revokeLocked r us srcs uid ip id l :
  liveAt (sessions (revokeLocked us srcs r).1) uid ip id l ↔
  liveAt (sessions r) uid ip id l ∧ revokes us srcs l = false.
Proof.
  rewrite revokeLocked_eq. unfold liveAt. simpl. rewrite lookup_fmap. split.
  - intros (Hl & H). destruct (sessions r !! id) as [k|] eqn:Hk; [|done].
    simpl in Hl. injection Hl as Hl. destruct (revokes us srcs k) eqn:Hr; subst l; [|done].
    by destruct H as (_ & ? & _).
  - intros [(Hl & H) Hr]. rewrite Hl. simpl. by rewrite Hr.
Qed.

Lemma enforceUser_live uid srcs r cbs aff r' cbs' aff' :
  enforceUser uid srcs (r, cbs, aff) = Ok (r', cbs', aff') →
  (∀ j ip id l, liveAt (sessions r') j ip id l ↔
     liveAt (sessions r) j ip id l ∧ ¬ (j = uid ∧ ip ∈ blockedBy r uid srcs)).
Proof.
  intros H j ip id l.
  assert (Hnone : blockedBy r uid srcs = ∅ → r' = r →
    liveAt (sessions r') j ip id l ↔
      liveAt (sessions r) j ip id l ∧ ¬ (j = uid ∧ ip ∈ blockedBy r uid srcs)).
  { intros -> ->. split; [intros Hl; split; [done|intros [_ Hin]; by apply not_elem_of_empty in Hin]|by intros [? _]]. }
  revert H. unfold enforceUser, blockedBy, overLimit, connectorLimit in *.
  destruct (users r !! uid) as [user|]; [|by intros [= <- _ _]; apply Hnone].
  set (limit := effectiveLimit _ _) in *.
  destruct (Z.leb_spec limit 0) as [Hl0|Hl0]; cbn [orb].
  { intros [= <- _ _]. apply Hnone; [|done]. by rewrite (proj2 (Z.ltb_ge 0 limit)). }
  rewrite (proj2 (Z.ltb_lt 0 limit)) in * by done. cbn [andb] in *.
  destruct (Z.leb_spec (Z.of_nat (size srcs)) limit) as [Hs|Hs].
  { intros [= <- _ _]. apply Hnone; [|done]. by rewrite (proj2 (Z.ltb_ge limit (Z.of_nat (size srcs)))). }
  rewrite (proj2 (Z.ltb_lt limit (Z.of_nat (size srcs)))) in * by done.
  destruct (Z.of_nat (length _) <? limit); [done|].
  change (list_to_set (map fst (drop (Z.to_nat limit) (orderedSources r uid))))
    with (blocked r uid limit).
  case_bool_decide as Hb; [intros [= <- _ _]; by apply Hnone|]. clear Hnone.
  destruct (revokeLocked ∅ {[uid := blocked r uid limit]} r) as [r2 more] eqn:E.
  intros [= <- _ _]. change r2 with ((r2, more).1). rewrite <- E, liveAt_revokeLocked.
  split; intros [Hlive Hrev]; (split; [done|]); pose proof Hlive as (_ & Hu & Hr & Hip).
  - intros [-> Hin]. destruct (revokes_false _ _ _ Hrev Hr) as [_ Hnot]. destruct Hnot.
    by rewrite Hu, lookup_singleton_eq, Hip.
  - unfold revokes. rewrite Hr, Hu, Hip. cbn [negb andb].
    rewrite bool_decide_eq_false_2 by apply not_elem_of_empty. cbn [orb].
    apply bool_decide_eq_false_2. intros Hin. destruct (decide (j = uid)) as [->|Hj].
    + rewrite lookup_singleton_eq in Hin. by apply Hrev.
    + rewrite lookup_singleton_ne in Hin by done. by apply not_elem_of_empty in Hin.
Qed.

(** ** All users *)

(** Enforcing the limit of one user leaves the other users' decisions alone. *)
Lemma decisions_ext r r' uid srcs :
  users r' = users r → nodeConnectors r' = nodeConnectors r →
  sourceAges r' uid = sourceAges r uid →
  blockedBy r' uid srcs = blockedBy r uid srcs ∧
  overLimit r' uid srcs = overLimit r uid srcs ∧ sliceOutOfRange r' uid = sliceOutOfRange r uid.
Proof.
  intros E1 E2 E3.
  unfold blockedBy, overLimit, sliceOutOfRange, connectorLimit, blocked, liveSources, orderedSources.
  by rewrite E1, E2, E3.
Qed.

Lemma revoked_from_fields r r' : revoked_from r r' →
  users r' = users r ∧ nodeConnectors r' = nodeConnectors r ∧ sources r' = sources r ∧
  closed r' = closed r.
Proof. by intros [_ ->]. Qed.

Lemma enforceUser_other uid srcs r cbs aff r' cbs' aff' j s :
  enforceUser uid srcs (r, cbs, aff) = Ok (r', cbs', aff') → j ≠ uid →
  blockedBy r' j s = blockedBy r j s ∧ overLimit r' j s = overLimit r j s ∧
  sliceOutOfRange r' j = sliceOutOfRange r j.
Proof.
  intros H Hj. pose proof (enforceUser_revoked _ _ _ _ _ _ _ _ H) as Hrev.
  destruct (revoked_from_fields _ _ Hrev) as (E1 & E2 & _).
  apply decisions_ext; try done. apply sourceAges_ext. intros ip id l.
  rewrite (enforceUser_live _ _ _ _ _ _ _ _ H). split; [by intros [? _]|].
  intros Hl. split; [done|]. by intros [? _].
Qed.

Lemma enforceUsers_live l r cbs aff r' cbs' aff' :
  NoDup l.*1 →
  enforceUsers l (r, cbs, aff) = Ok (r', cbs', aff') →
  ∀ j ip id k, liveAt (sessions r') j ip id k ↔
    liveAt (sessions r) j ip id k ∧ ¬ (∃ srcs, (j, srcs) ∈ l ∧ ip ∈ blockedBy r j srcs).
Proof.
  revert r cbs aff. induction l as [|[uid srcs] l IH]; intros r cbs aff Hnd H j ip id k.
  { injection H as <- _ _. split; [intros ?; split; [done|]|by intros [? _]].
    intros (s & Hs & _). by apply not_elem_of_nil in Hs. }
  cbn [fmap list_fmap fst] in Hnd. apply NoDup_cons in Hnd as [Hnotin Hnd].
  cbn [enforceUsers] in H.
  destruct (enforceUser uid srcs (r, cbs, aff)) as [[[r1 cbs1] aff1]| |] eqn:E; try done.
  cbn [obind] in H. rewrite (IH _ _ _ Hnd H), (enforceUser_live _ _ _ _ _ _ _ _ E).
  assert (Hother : ∀ s, (j, s) ∈ l → j ≠ uid).
  { intros s Hs ->. apply Hnotin, list_elem_of_fmap. by exists (uid, s). }
  split.
  - intros [[Hl H1] H2]. split; [done|]. intros (s & [[= -> ->]|Hs]%elem_of_cons & Hin).
    + by apply H1.
    + apply H2. exists s. split; [done|].
      by rewrite (proj1 (enforceUser_other _ _ _ _ _ _ _ _ _ s E (Hother s Hs))).
  - intros [Hl Hn]. split; [split; [done|]|].
    + intros [-> Hin]. apply Hn. exists srcs. split; [by left|done].
    + intros (s & Hs & Hin). apply Hn. exists s. split; [by right|].
      by rewrite (proj1 (enforceUser_other _ _ _ _ _ _ _ _ _ s E (Hother s Hs))) in Hin.
Qed.

Lemma enforceUsers_panic l r cbs aff :
  NoDup l.*1 →
  enforceUsers l (r, cbs, aff) = Panic ↔
  ∃ uid srcs, (uid, srcs) ∈ l ∧ overLimit r uid srcs = true ∧ sliceOutOfRange r uid = true.
Proof.
  revert r cbs aff. induction l as [|[uid srcs] l IH]; intros r cbs aff Hnd.
  { split; [done|]. intros (u & s & Hs & _). by apply not_elem_of_nil in Hs. }
  cbn [fmap list_fmap fst] in Hnd. apply NoDup_cons in Hnd as [Hnotin Hnd].
  cbn [enforceUsers].
  destruct (enforceUser uid srcs (r, cbs, aff)) as [[[r1 cbs1] aff1]|e|] eqn:E.
  - cbn [obind]. rewrite (IH _ _ _ Hnd).
    assert (Hno : ¬ (overLimit r uid srcs = true ∧ sliceOutOfRange r uid = true)).
    { intros Hp. assert (enforceUser uid srcs (r, cbs, aff) = Panic) as Hp' by by apply enforceUser_panic.
      congruence. }
    assert (Hother : ∀ u s, (u, s) ∈ l → u ≠ uid).
    { intros u s Hs ->. apply Hnotin, list_elem_of_fmap. by exists (uid, s). }
    split.
    + intros (u & s & Hs & H1 & H2). exists u, s. split; [by right|].
      destruct (enforceUser_other _ _ _ _ _ _ _ _ _ s E (Hother u s Hs)) as (_ & <- & <-). done.
    + intros (u & s & [[= -> ->]|Hs]%elem_of_cons & H1); [by destruct Hno|].
      exists u, s. split; [done|].
      destruct (enforceUser_other _ _ _ _ _ _ _ _ _ s E (Hother u s Hs)) as (_ & -> & ->). done.
  - by apply enforceUser_no_err in E.
  - split; [|done]. intros _. exists uid, srcs. split; [by left|].
    by apply enforceUser_panic in E.
Qed.

Lemma enforceUsers_no_err l st e : enforceUsers l st ≠ Err e.
Proof.
  revert st. induction l as [|[uid srcs] l IH]; intros st; [done|]. cbn [enforceUsers].
  destruct (enforceUser uid srcs st) eqn:E; cbn [obind]; [apply IH| |done].
  by apply enforceUser_no_err in E.
Qed.

Lemma overLimit_empty r uid : overLimit r uid ∅ = false.
Proof.
  unfold overLimit. rewrite map_size_empty. apply andb_false_iff.
  destruct (Z.ltb_spec 0 (connectorLimit r uid)); [right|by left]. apply Z.ltb_ge. simpl. lia.
Qed.

Lemma enforceConnectors_live r r' cbs aff :
  enforceConnectorsLocked r = Ok (r', cbs, aff) →
  ∀ uid ip id l, liveAt (sessions r') uid ip id l ↔
    liveAt (sessions r) uid ip id l ∧ ip ∉ blockedBy r uid (userSources r uid).
Proof.
  intros H uid ip id l.
  rewrite (enforceUsers_live _ _ _ _ _ _ _ (NoDup_fst_map_to_list _) H).
  unfold userSources. split; intros [Hl Hn]; (split; [done|]).
  - intros Hin. destruct (sources r !! uid) as [m|] eqn:Em; simpl in Hin.
    + apply Hn. exists m. split; [by apply elem_of_map_to_list|done].
    + unfold blockedBy in Hin. rewrite overLimit_empty in Hin. by apply not_elem_of_empty in Hin.
  - intros (s & Hs%elem_of_map_to_list & Hin). by rewrite Hs in Hn.
Qed.

Lemma enforceConnectors_panic r :
  enforceConnectorsLocked r = Panic ↔
  ∃ uid, overLimit r uid (userSources r uid) = true ∧ sliceOutOfRange r uid = true.
Proof.
  unfold enforceConnectorsLocked. rewrite (enforceUsers_panic _ _ _ _ (NoDup_fst_map_to_list _)).
  unfold userSources. split.
  - intros (uid & s & Hs%elem_of_map_to_list & H). exists uid. by rewrite Hs.
  - intros (uid & H1 & H2). destruct (sources r !! uid) as [m|] eqn:Em; simpl in H1.
    + exists uid, m. split; [by apply elem_of_map_to_list|done].
    + by rewrite overLimit_empty in H1.
Qed.
