(* ===== verification/SessionProps.v ===== *)
(** What is proved of the session registry: who may have a live session, what
    the counters and limits mean, what each operation does on every branch,
    and where the code departs from its documentation. *)
From S2P Require Import Prelude GoString Float64 Netip Model Config Policy.
From S2P Require Import Session SessionInv SessionAcct SessionConn.

Local Open Scope string_scope.
Local Open Scope Z_scope.

(** ** A concrete world, for the witnesses *)
Definition demoLimits : Limits := mkLimits 2 2 1 1 1 1.
Definition demoConfig : Config :=
  mkConfig 15 "127.0.0.1:8443" "/state" "/key"
    (mkDatabaseConfig "127.0.0.1:3306" "sspanel" "service" "/password" "disabled" EmptyString EmptyString 4 2)
    (mkIntervals 60 60 3600 120) demoLimits (2 ^ 30) "info".
Definition demoNode (connectors : Z) : Node :=
  mkNode 15 "demo" (f64_of_int 1) 0 0 (f64_of_int 0) connectors 0 0 "node.example.com" 443
    "www.example.com" "www.example.com:443" EmptyString EmptyString "chrome" "xtls-rprx-vision" "raw"
    EmptyString 1.
Definition demoUser (connectors : Z) (disconnect : list string) : User :=
  mkUser 42 "uuid-42" (f64_of_int 8) connectors ["192.0.2.0/24"] ["25"] disconnect.
Definition demoSnapshot (connectors : Z) (disconnect : list string) : Snapshot :=
  mkSnapshot (demoNode 2) [demoUser connectors disconnect] 0 EmptyString.
Definition demoRequest (source network : string) : Request :=
  mkRequest inboundTag "sspanel-node-15-user-42" source network "198.51.100.1" 443 false.
Definition demoPrepared (source : string) (kind : Kind) : Prepared :=
  mkPrepared 42 source kind 443 ["198.51.100.1"] EmptyString.

Definition demo0 : Registry := New (demoSnapshot 2 []) demoConfig.
Definition demo1 : Registry := (openCommit demo0 (demoPrepared "203.0.113.1" TCP)).1.
Definition demo2 : Registry := (openCommit demo1 (demoPrepared "203.0.113.2" XUDP)).1.
Definition demoAdmitted1 : gmap Z Prepared :=
  <[nextID demo0 + 1 := demoPrepared "203.0.113.1" TCP]> ∅.
Definition demoAdmitted : gmap Z Prepared :=
  <[nextID demo1 + 1 := demoPrepared "203.0.113.2" XUDP]> demoAdmitted1.

Lemma demo1_reachable : reachable nobody (demoSnapshot 2 []) demoConfig (mkWorld demo1 demoAdmitted1).
Proof.
  apply (reachable_step _ _ _ (mkWorld demo0 ∅)); [exact (reachable_new _ _ _)|].
  apply step_admit; by vm_compute.
Qed.

Lemma demo_reachable : reachable nobody (demoSnapshot 2 []) demoConfig (mkWorld demo2 demoAdmitted).
Proof.
  apply (reachable_step _ _ _ (mkWorld demo1 demoAdmitted1)); [exact demo1_reachable|].
  apply step_admit; by vm_compute.
Qed.

(** ** Authorization *)

(** C1: in every state the registry can reach, under any interleaving of its
    operations, a live (unrevoked) session exists only while the registry is
    open, its user is in the snapshot in force, and that user's current policy
    permits the session's source address, its destination port and every
    candidate address of its destination. *)
Theorem live_sessions_authorized d snapshot cfg w id l :
  reachable d snapshot cfg w →
  sessions (w_reg w) !! id = Some l → l_revoked l = false →
  closed (w_reg w) = false ∧
  ∃ user p, users (w_reg w) !! l_userID l = Some user ∧ w_admitted w !! id = Some p ∧
    p_userID p = l_userID l ∧ permits user (l_sourceIP l) p.
Proof.
  intros Hr Hl Hrev. apply auth_reachable in Hr.
  destruct (ai_sessions _ Hr _ _ Hl) as (_ & _ & _ & _ & Hlive).
  destruct (Hlive Hrev) as (Hc & user & p & ? & ? & ? & _ & ? & _). split; [done|]. by exists user, p.
Qed.

Lemma live_sessions_authorized_witness :
  ∃ user p, users demo2 !! 42 = Some user ∧ demoAdmitted !! 1 = Some p ∧
    permits user "203.0.113.1" p.
Proof.
  destruct (live_sessions_authorized nobody (demoSnapshot 2 []) demoConfig (mkWorld demo2 demoAdmitted) 1
    (newLease demo0 (demoPrepared "203.0.113.1" TCP)) demo_reachable
    ltac:(by vm_compute) ltac:(by vm_compute)) as (_ & user & p & H1 & H2 & _ & H4).
  exists user, p. split; [exact H1|]. split; [exact H2|exact H4].
Defined.

(** ** Counters *)

(** The source counters of a user of whom no closed lease was moved. *)
Lemma source_entries moved r uid ip : accounting moved r → ¬ moved uid →
  is_Some (userSources r uid !! ip) ↔ ∃ id l, sessions r !! id = Some l ∧ at_source uid ip l = true.
Proof.
  intros [_ _ H3 _ H5] Hu. split.
  - intros [n Hn]. apply (mcount_pos_inv (at_source uid ip)). rewrite <- H3 by done.
    unfold mget. rewrite Hn. simpl. unfold userSources in Hn.
    destruct (sources r !! uid) as [m|] eqn:Em; simpl in Hn; [|by rewrite lookup_empty in Hn].
    by apply (H5 uid Hu m Em) in Hn.
  - intros (id & l & Hl & Hs). pose proof (mcount_pos _ _ _ _ Hl Hs) as Hp.
    rewrite <- H3 in Hp by done. unfold mget in Hp.
    destruct (userSources r uid !! ip); [by eexists|simpl in Hp; lia].
Qed.

Lemma source_users moved r uid : accounting moved r → ¬ moved uid →
  is_Some (sources r !! uid) ↔ ∃ id l, sessions r !! id = Some l ∧ l_userID l = uid.
Proof.
  intros Hacct Hu. pose proof (λ ip, source_entries _ _ _ ip Hacct Hu) as Hsrc. split.
  - intros [m Hm]. destruct (ac_source_tidy _ _ Hacct uid Hu m Hm) as [Hne _].
    apply map_choose in Hne as (ip & n & Hn).
    destruct (proj1 (Hsrc ip)) as (id & l & Hl & Hs).
    { unfold userSources. rewrite Hm. by eexists. }
    exists id, l. split; [done|]. unfold at_source in Hs. lia.
  - intros (id & l & Hl & E). destruct (proj2 (Hsrc (l_sourceIP l))) as [n Hn].
    { exists id, l. split; [done|]. rewrite <- E. apply at_source_self. }
    unfold userSources in Hn. destruct (sources r !! uid); [by eexists|simpl in Hn; by rewrite lookup_empty in Hn].
Qed.

(** C13: in every state the registry can reach, its counters by kind are
    exactly the counts of its sessions, in total and by user, with no empty
    entry. So are its counters by user and source address (a user appears
    among the sources, or a source under its user, only with a session) for
    every user of whom no closed lease was moved: [moved] names the users for
    whom the history may call Rebind on a lease that was already closed, which
    damages the source counters of that user only (see the finding on
    Rebind). *)
Theorem counters_are_session_counts moved snapshot cfg w :
  reachable moved snapshot cfg w →
  let r := w_reg w in
  (∀ k, kindTotal k r = mcount (is_kind k) (sessions r)) ∧
  (∀ k uid, mget (kindUsers k r) uid = mcount (of_user k uid) (sessions r)) ∧
  (∀ k uid, is_Some (kindUsers k r !! uid) ↔ ∃ id l, sessions r !! id = Some l ∧ of_user k uid l = true) ∧
  (∀ uid, ¬ moved uid →
     (∀ ip, mget (userSources r uid) ip = mcount (at_source uid ip) (sessions r)) ∧
     (is_Some (sources r !! uid) ↔ ∃ id l, sessions r !! id = Some l ∧ l_userID l = uid) ∧
     (∀ ip, is_Some (userSources r uid !! ip) ↔ ∃ id l, sessions r !! id = Some l ∧ at_source uid ip l = true)).
Proof.
  intros Hr r. apply accounting_reachable in Hr. fold r in Hr. pose proof Hr as [H1 H2 H3 H4 _].
  split; [done|]. split; [done|]. split.
  - intros k uid. split.
    + intros [n Hn]. apply (mcount_pos_inv (of_user k uid)). rewrite <- H2.
      unfold mget. rewrite Hn. exact (H4 k uid n Hn).
    + intros (id & l & Hl & Hs). pose proof (mcount_pos _ _ _ _ Hl Hs) as Hp.
      rewrite <- H2 in Hp. unfold mget in Hp. destruct (kindUsers k r !! uid); [by eexists|simpl in Hp; lia].
  - intros uid Hu. split; [by intros ip; apply H3|]. split; [by eapply source_users|].
    intros ip. by eapply source_entries.
Qed.

Lemma counters_are_session_counts_witness :
  mget (userTCP demo2) 42 = mcount (of_user TCP 42) (sessions demo2) ∧ mget (userTCP demo2) 42 = 1.
Proof.
  destruct (counters_are_session_counts _ _ _ _ demo_reachable) as (_ & H & _).
  split; [exact (H TCP 42)|by vm_compute].
Defined.

(** C24: with a validated configuration, in every state the registry can reach
    (after a Rebind of a closed lease, too), the numbers of sessions of each kind,
    in total and by user, and of concurrent handshakes never exceed the limits. *)
Theorem limits_never_exceeded moved snapshot cfg w :
  limits_invalid (cfg_Limits cfg) = false → reachable moved snapshot cfg w →
  (∀ k, mcount (is_kind k) (sessions (w_reg w)) ≤ kindGlobalLimit k (cfg_Limits cfg)) ∧
  (∀ k uid, mcount (of_user k uid) (sessions (w_reg w)) ≤ kindUserLimit k (cfg_Limits cfg)) ∧
  0 ≤ handshakes (w_reg w) ≤ ConcurrentHandshakes (cfg_Limits cfg).
Proof.
  intros Hv Hr. destruct (bounded_reachable _ _ _ _ Hv Hr) as [_ Hh Ht Hu].
  apply accounting_reachable in Hr as [H1 H2 _ _ _].
  split; [|split; [|done]]; intros; rewrite <- ?H1, <- ?H2; auto.
Qed.

Lemma limits_never_exceeded_witness :
  limits_invalid demoLimits = false ∧ mcount (is_kind TCP) (sessions demo2) ≤ 2.
Proof.
  split; [by vm_compute|].
  destruct (limits_never_exceeded nobody (demoSnapshot 2 []) demoConfig (mkWorld demo2 demoAdmitted)
    ltac:(by vm_compute) demo_reachable) as (H & _). exact (H TCP).
Defined.
