(* ===== verification/SessionUpdate.v ===== *)
(** Updates of the session registry by a new snapshot: the connector limit
    holds afterwards, the oldest sources stay, every revoked session is
    interrupted once and its user reported; and when an update panics. *)
From S2P Require Import Prelude GoString Float64 Netip Model Config Policy.
From S2P Require Import Session SessionInv SessionAcct SessionConn SessionProps.

Local Open Scope string_scope.
Local Open Scope Z_scope.

(** ** The state between the two revocations of an update *)
Definition updateBase (r : Registry) (snapshot : Snapshot) : Registry :=
  (revokeLocked (revokeAllUsers r snapshot) (revokeNewSources r snapshot)
     (installSnapshot r snapshot (Some (users r)))).1.

Lemma Update_split r snapshot :
  Update r snapshot =
    let cbs := (revokeLocked (revokeAllUsers r snapshot) (revokeNewSources r snapshot)
                  (installSnapshot r snapshot (Some (users r)))).2 in
    let? (r', more, connectorUsers) := enforceConnectorsLocked (updateBase r snapshot) in
    Ok (r', (cbs ++ more)%list,
        sorted_ids (revokeAllUsers r snapshot ∪ dom (revokeNewSources r snapshot) ∪ connectorUsers)).
Proof. reflexivity. Qed.

Lemma Update_Ok_inv r snapshot r' cbs ids :
  Update r snapshot = Ok (r', cbs, ids) →
  ∃ more aff, enforceConnectorsLocked (updateBase r snapshot) = Ok (r', more, aff) ∧
    cbs = ((revokeLocked (revokeAllUsers r snapshot) (revokeNewSources r snapshot)
              (installSnapshot r snapshot (Some (users r)))).2 ++ more)%list ∧
    ids = sorted_ids (revokeAllUsers r snapshot ∪ dom (revokeNewSources r snapshot) ∪ aff).
Proof.
  rewrite Update_split. cbv zeta.
  destruct (enforceConnectorsLocked _) as [[[r2 more] aff]| |]; try done.
  cbn [obind]. intros [= <- <- <-]. by exists more, aff.
Qed.

Lemma enforce_revoked r r' cbs aff :
  enforceConnectorsLocked r = Ok (r', cbs, aff) → revoked_from r r'.
Proof. apply enforceUsers_revoked. Qed.

Lemma accounting_updateBase moved r snapshot :
  accounting moved r → accounting moved (updateBase r snapshot).
Proof.
  intros H. eapply accounting_revoked; [apply revoked_from_revokeLocked|]. by apply accounting_install.
Qed.

(** The sources with live sessions are among the counted ones. *)
Lemma liveSources_counted moved r uid : accounting moved r → ¬ moved uid → liveSources r uid ⊆ dom (userSources r uid).
Proof.
  intros H Hm ip (id & l & Hl & Hu & _ & Hip)%elem_of_liveSources.
  pose proof (session_source_positive _ r id l H Hl) as Hp. rewrite Hu, Hip in Hp. specialize (Hp Hm).
  apply elem_of_dom. unfold mget in Hp. destruct (userSources r uid !! ip); [by eexists|simpl in Hp; lia].
Qed.

Lemma liveSources_size moved r uid : accounting moved r → ¬ moved uid →
  (size (liveSources r uid) ≤ size (userSources r uid))%nat.
Proof. intros H Hu. rewrite <- size_dom. by eapply subseteq_size, liveSources_counted. Qed.

(** ** What an enforcement leaves *)
Lemma enforced_sources r r' cbs aff uid ip :
  enforceConnectorsLocked r = Ok (r', cbs, aff) →
  (ip ∈ liveSources r' uid) ↔ (ip ∈ liveSources r uid) ∧ (ip ∉ blockedBy r uid (userSources r uid)).
Proof.
  intros H. rewrite !elem_of_liveSources. setoid_rewrite (enforceConnectors_live _ _ _ _ H).
  split; [intros (id & l & ? & ?); split; eauto|intros [(id & l & ?) ?]; eauto].
Qed.

Lemma enforced_over r r' cbs aff uid :
  enforceConnectorsLocked r = Ok (r', cbs, aff) → overLimit r uid (userSources r uid) = true →
  liveSources r' uid = list_to_set (kept r uid (connectorLimit r uid)) ∧
  Z.of_nat (size (liveSources r' uid)) = connectorLimit r uid.
Proof.
  intros H Hover.
  assert (Hset : liveSources r' uid = list_to_set (kept r uid (connectorLimit r uid))).
  { apply leibniz_equiv. intros ip. rewrite (enforced_sources _ _ _ _ _ _ H), elem_of_list_to_set.
    unfold blockedBy. rewrite Hover, (kept_or_blocked r uid (connectorLimit r uid)).
    pose proof (kept_not_blocked r uid (connectorLimit r uid) ip). tauto. }
  split; [done|]. rewrite Hset, size_list_to_set.
  - assert (Hno : sliceOutOfRange r uid = false).
    { apply not_true_is_false. intros Hs.
      assert (enforceConnectorsLocked r = Panic) by (apply enforceConnectors_panic; by exists uid).
      congruence. }
    unfold sliceOutOfRange in Hno. unfold overLimit in Hover. apply kept_length; lia.
  - apply kept_NoDup.
Qed.

Lemma enforced_within r r' cbs aff uid :
  enforceConnectorsLocked r = Ok (r', cbs, aff) → overLimit r uid (userSources r uid) = false →
  liveSources r' uid = liveSources r uid.
Proof.
  intros H Hover. apply leibniz_equiv. intros ip. rewrite (enforced_sources _ _ _ _ _ _ H).
  unfold blockedBy. rewrite Hover. split; [by intros [? _]|]. intros Hin. split; [done|].
  apply not_elem_of_empty.
Qed.

(** A kept source is at least as old as a blocked one. *)
Lemma StronglySorted_take_drop {A} (R : A → A → Prop) n l x y :
  StronglySorted R l → x ∈ take n l → y ∈ drop n l → R x y.
Proof.
  intros Hs. rewrite <- (take_drop n l) in Hs. intros Hx Hy.
  apply list_elem_of_lookup in Hx as [i Hi]. apply list_elem_of_lookup in Hy as [j Hj].
  revert Hi Hs. generalize (take n l) as a. intros a Hi Hs. revert i Hi Hs.
  induction a as [|z a IH]; intros [|i] Hi Hs; simplify_eq/=.
  - apply StronglySorted_inv in Hs as [_ Hall]. rewrite Forall_forall in Hall.
    apply Hall, elem_of_app. right. by eapply list_elem_of_lookup_2.
  - apply StronglySorted_inv in Hs as [Hs _]. by eapply IH.
Qed.

Lemma ordered_lookup r uid x : x ∈ orderedSources r uid → sourceAges r uid !! x.1 = Some x.2.
Proof. rewrite orderedSources_perm. destruct x. by intros ?%elem_of_map_to_list. Qed.

Lemma kept_older r uid limit ip ip' :
  ip ∈ kept r uid limit → ip' ∈ blocked r uid limit →
  ∃ id l, liveAt (sessions r) uid ip id l ∧
    ∀ id' l', liveAt (sessions r) uid ip' id' l' → l_id l ≤ l_id l'.
Proof.
  unfold kept, blocked. rewrite elem_of_list_to_set, !list_elem_of_fmap.
  intros (x & -> & Hx) (y & -> & Hy).
  pose proof (StronglySorted_take_drop _ _ _ _ _ (orderedSources_sorted r uid) Hx Hy) as Hle.
  assert (Hx' : x ∈ orderedSources r uid) by (by eapply elem_of_take in Hx as (? & ?%list_elem_of_lookup_2 & _)).
  assert (Hy' : y ∈ orderedSources r uid) by (rewrite <- (take_drop (Z.to_nat limit)); apply elem_of_app; by right).
  pose proof (sourceAges_spec r uid x.1) as HX. pose proof (sourceAges_spec r uid y.1) as HY.
  rewrite (ordered_lookup _ _ _ Hx') in HX. rewrite (ordered_lookup _ _ _ Hy') in HY.
  destruct HX as [(id & l & Hl & Hid) _]. exists id, l. split; [done|].
  intros id' l' Hl'. destruct HY as [_ HY]. specialize (HY id' l' Hl').
  destruct Hle as [?|[? _]]; lia.
Qed.

Lemma enforced_same_or_limit r r' cbs aff uid :
  enforceConnectorsLocked r = Ok (r', cbs, aff) →
  liveSources r' uid = liveSources r uid ∨
  overLimit r uid (userSources r uid) = true.
Proof.
  intros H. destruct (overLimit _ _ _) eqn:E; [by right|left]. by eapply enforced_within.
Qed.

(** C32: after an update that completes, a user has no live sessions from more
    source addresses than the connector limit in force for that user, provided
    that no lease of that user was moved by Rebind after it was closed
    ([moved] names the users for whom that may have happened: for them Rebind
    miscounts the sources that the update enforces, see the finding). *)
Theorem update_enforces_connectors moved snapshot cfg w new r' cbs ids uid :
  reachable moved snapshot cfg w → ¬ moved uid →
  Update (w_reg w) new = Ok (r', cbs, ids) → 0 < connectorLimit r' uid →
  Z.of_nat (size (liveSources r' uid)) ≤ connectorLimit r' uid.
Proof.
  intros Hr%accounting_reachable Hu (more & aff & H & _ & _)%Update_Ok_inv Hlim.
  apply (accounting_updateBase _ _ new) in Hr. set (b := updateBase (w_reg w) new) in *.
  assert (connectorLimit r' uid = connectorLimit b uid) as E.
  { unfold connectorLimit. pose proof (revoked_from_fields _ _ (enforce_revoked _ _ _ _ H)) as (-> & -> & _).
    done. }
  rewrite E in *. destruct (overLimit b uid (userSources b uid)) eqn:Hover.
  - destruct (enforced_over _ _ _ _ _ H Hover) as [_ Hs]. lia.
  - rewrite (enforced_within _ _ _ _ _ H Hover). pose proof (liveSources_size _ b uid Hr Hu).
    unfold overLimit in Hover. lia.
Qed.

(** enforcing the connector limits works source by source and keeps the
    oldest: a live session stays exactly as it was when its source is kept and
    is revoked when it is not; no source appears; and when a source of a user
    is dropped, exactly as many as the limit remain, each with a session opened
    no later than every session of the dropped source. *)
Theorem enforcement_keeps_oldest r r' cbs aff :
  enforceConnectorsLocked r = Ok (r', cbs, aff) →
  (∀ id l, sessions r !! id = Some l → l_revoked l = false →
     sessions r' !! id = Some (if bool_decide (l_sourceIP l ∈ liveSources r' (l_userID l))
                               then l else lease_revoke l)) ∧
  (∀ uid, liveSources r' uid ⊆ liveSources r uid) ∧
  (∀ uid ip', (ip' ∈ liveSources r uid) → (ip' ∉ liveSources r' uid) →
     Z.of_nat (size (liveSources r' uid)) = connectorLimit r uid ∧
     ∀ ip, ip ∈ liveSources r' uid →
       ∃ id l, liveAt (sessions r) uid ip id l ∧
         ∀ id' l', liveAt (sessions r) uid ip' id' l' → l_id l ≤ l_id l').
Proof.
  intros H. pose proof (enforce_revoked _ _ _ _ H) as Hrev. split; [|split].
  - intros id l Hl Hr. destruct Hrev as [Hm _].
    assert (Hlive : liveAt (sessions r) (l_userID l) (l_sourceIP l) id l) by done.
    case_bool_decide as Hin.
    + apply (enforced_sources _ _ _ _ _ _ H) in Hin as [_ Hin].
      by apply (proj2 (enforceConnectors_live _ _ _ _ H _ _ _ _) (conj Hlive Hin)).
    + destruct (Hm id) as [E|(k & E & E')]; [|by simplify_eq].
      destruct Hin. apply elem_of_liveSources. exists id, l. unfold liveAt. by rewrite E.
  - intros uid. by apply liveSources_more_revoked.
  - intros uid ip' Hin Hout. destruct (enforced_same_or_limit _ _ _ _ uid H) as [E|Hover].
    { by rewrite E in Hout. }
    destruct (enforced_over _ _ _ _ _ H Hover) as [Hset Hsize]. split; [done|].
    intros ip Hip. rewrite Hset, elem_of_list_to_set in Hip, Hout. apply (kept_older r uid (connectorLimit r uid)); [done|].
    apply (kept_or_blocked r uid (connectorLimit r uid)) in Hin as [?|?]; done.
Qed.

(** the limit of a user under a snapshot *)
Definition snapshotLimit (new : Snapshot) (uid : Z) : Z :=
  match userMap (snap_Users new) !! uid with
  | Some user => effectiveLimit (user_ConnectorLimit user) (node_ConnectorLimit (snap_Node new))
  | None => 0
  end.

(** the sources of the user's sessions that the snapshot itself does not revoke *)
Definition survivingSources (r : Registry) (new : Snapshot) (uid : Z) : gset string :=
  liveSources (updateBase r new) uid.

Lemma elem_of_survivingSources r new uid ip :
  (ip ∈ survivingSources r new uid) ↔
  ∃ id l, liveAt (sessions r) uid ip id l ∧
    revokes (revokeAllUsers r new) (revokeNewSources r new) l = false.
Proof.
  unfold survivingSources. rewrite elem_of_liveSources. unfold updateBase.
  by setoid_rewrite liveAt_revokeLocked.
Qed.

Lemma update_defined_aux r new :
  (∃ r' cbs ids, Update r new = Ok (r', cbs, ids)) ↔
  ∀ uid, 0 < snapshotLimit new uid < Z.of_nat (size (userSources r uid)) →
    snapshotLimit new uid ≤ Z.of_nat (size (survivingSources r new uid)).
Proof.
  rewrite Update_split. cbv zeta. set (b := updateBase r new).
  assert (Hp : enforceConnectorsLocked b = Panic ↔ ∃ uid,
            0 < snapshotLimit new uid < Z.of_nat (size (userSources r uid)) ∧
            Z.of_nat (size (survivingSources r new uid)) < snapshotLimit new uid).
  { rewrite enforceConnectors_panic. unfold overLimit, sliceOutOfRange.
    change (userSources b) with (userSources r). change (connectorLimit b) with (snapshotLimit new).
    change (liveSources b) with (survivingSources r new).
    by setoid_rewrite andb_true_iff; setoid_rewrite Z.ltb_lt. }
  destruct (enforceConnectorsLocked b) as [[[r' more] aff]|e|] eqn:E; cbn [obind].
  - split; [|by eauto]. intros _ uid Hlim.
    destruct (Z.le_gt_cases (snapshotLimit new uid) (Z.of_nat (size (survivingSources r new uid)))); [done|].
    assert (Ok (r', more, aff) = Panic) by (apply Hp; exists uid; lia). done.
  - exfalso. by apply enforceUsers_no_err in E.
  - split; [by intros (? & ? & ? & ?)|]. intros H. destruct (proj1 Hp eq_refl) as (uid & H1 & H2).
    specialize (H uid H1). lia.
Qed.

Lemma revoked_user_no_survivors r new uid :
  uid ∈ revokeAllUsers r new → survivingSources r new uid = ∅.
Proof.
  intros Hall. apply leibniz_equiv. intros ip. split; [|by intros ?%not_elem_of_empty].
  intros (id & l & (_ & Hu & Hr & _) & Hno)%elem_of_survivingSources.
  destruct (revokes_false _ _ _ Hno Hr) as [Hnot _]. by rewrite Hu in Hnot.
Qed.

Lemma Update_no_err r new e : Update r new ≠ Err e.
Proof.
  rewrite Update_split. cbv zeta.
  destruct (enforceConnectorsLocked _) as [[[? ?] ?]|e'|] eqn:E; try done.
  by apply enforceUsers_no_err in E.
Qed.

(** an update either completes or panics; it completes exactly when every
    user with more counted sources than the new limit still has at least that
    many sources whose sessions the snapshot does not itself revoke. *)
Theorem update_defined r new :
  (Update r new = Panic ∨ ∃ r' cbs ids, Update r new = Ok (r', cbs, ids)) ∧
  ((∃ r' cbs ids, Update r new = Ok (r', cbs, ids)) ↔
   ∀ uid, 0 < snapshotLimit new uid < Z.of_nat (size (userSources r uid)) →
     snapshotLimit new uid ≤ Z.of_nat (size (survivingSources r new uid))).
Proof.
  split; [|apply update_defined_aux]. destruct (Update r new) as [[[r' cbs] ids]|e|] eqn:E; [by eauto 6| |by left].
  by apply Update_no_err in E.
Qed.

(** C38: an update that lowers the connector limit of a user below the number of
    its sources, by changing that user's own limit, panics: the change revokes
    all sessions of the user before the sources are ordered. *)
Theorem lowered_limit_panics r new uid old updated :
  users r !! uid = Some old → userMap (snap_Users new) !! uid = Some updated →
  user_ConnectorLimit old ≠ user_ConnectorLimit updated →
  0 < effectiveLimit (user_ConnectorLimit updated) (node_ConnectorLimit (snap_Node new))
    < Z.of_nat (size (userSources r uid)) →
  Update r new = Panic.
Proof.
  intros Hold Hnew Hdiff Hlim.
  assert (Hall : uid ∈ revokeAllUsers r new).
  { apply (revokeAllUsers_spec _ _ _ _ Hold). right. unfold goneOrChanged. rewrite Hnew.
    apply not_false_is_true. by intros (_ & _ & _ & ? & _)%unchanged_spec. }
  destruct (Update r new) as [[[r' cbs] ids]|e|] eqn:E; [| |done].
  - assert (H : ∃ r' cbs ids, Update r new = Ok (r', cbs, ids)) by eauto.
    rewrite update_defined_aux in H. specialize (H uid). unfold snapshotLimit in H.
    rewrite Hnew, revoked_user_no_survivors, size_empty in H by done. lia.
  - by apply Update_no_err in E.
Qed.

(** ** Interrupts *)

(** [s'] is [s] with the sessions that [hit] selects revoked, and [cbs] are
    their interrupts, each once *)
Definition notified (s s' : gmap Z Lease) (cbs : list callback) : Prop :=
  ∃ hit : Lease → bool,
    (∀ l, hit l = true → l_revoked l = false) ∧
    s' = (λ l, if hit l then lease_revoke l else l) <$> s ∧
    cbs ≡ₚ omap (λ p, if hit p.2 then l_interrupt p.2 else None) (map_to_list s).

Lemma notified_refl s : notified s s [].
Proof.
  exists (λ _, false). split; [done|]. split; [by rewrite map_fmap_id|].
  by induction (map_to_list s).
Qed.

Lemma notified_trans s1 s2 s3 cbs1 cbs2 :
  notified s1 s2 cbs1 → notified s2 s3 cbs2 → notified s1 s3 (cbs1 ++ cbs2).
Proof.
  intros (hit1 & H1 & -> & P1) (hit2 & H2 & -> & P2).
  set (f := λ l, if hit1 l then lease_revoke l else l) in *.
  exists (λ l, hit1 l || hit2 l). split; [|split].
  - intros l [?|?]%orb_true_iff; auto.
  - rewrite <- map_fmap_compose. apply map_fmap_ext. intros id l _. unfold f. simpl.
    destruct (hit1 l); simpl; [|by destruct (hit2 l)].
    destruct (hit2 (lease_revoke l)) eqn:E; [by apply H2 in E|done].
  - rewrite P1, P2, map_to_list_fmap. clear P1 P2.
    induction (map_to_list s1) as [|[id l] k IH]; [done|]. simpl.
    change (f l) with (if hit1 l then lease_revoke l else l).
    destruct (hit1 l) eqn:E1; simpl.
    + destruct (hit2 (lease_revoke l)) eqn:E; [by apply H2 in E|].
      destruct (l_interrupt l); simpl; by rewrite <- IH.
    + destruct (hit2 l); [destruct (l_interrupt l)|]; try exact IH.
      rewrite <- IH. symmetry. by apply Permutation_middle.
Qed.

Lemma notified_revokeLocked us srcs r :
  notified (sessions r) (sessions (revokeLocked us srcs r).1) (revokeLocked us srcs r).2.
Proof.
  exists (revokes us srcs). split; [|split; [done|]].
  - unfold revokes. intros l. by destruct (l_revoked l).
  - simpl. induction (map_to_list (sessions r)) as [|[id l] k IH]; [done|]. simpl.
    destruct (revokes us srcs l); [destruct (l_interrupt l)|]; by rewrite IH.
Qed.

Lemma enforceUser_notified uid srcs r cbs aff r' cbs' aff' :
  enforceUser uid srcs (r, cbs, aff) = Ok (r', cbs', aff') →
  ∃ more, cbs' = (cbs ++ more)%list ∧ notified (sessions r) (sessions r') more ∧
    aff' = (if bool_decide (blockedBy r uid srcs = ∅) then aff else {[ uid ]} ∪ aff).
Proof.
  intros H.
  assert (Hnone : blockedBy r uid srcs = ∅ → (Ok (r, cbs, aff) : outcome string _) = Ok (r', cbs', aff') →
    ∃ more, cbs' = (cbs ++ more)%list ∧ notified (sessions r) (sessions r') more ∧
      aff' = (if bool_decide (blockedBy r uid srcs = ∅) then aff else {[ uid ]} ∪ aff)).
  { intros E [= -> -> ->]. exists []. rewrite app_nil_r, bool_decide_eq_true_2 by done.
    split; [done|]. split; [apply notified_refl|done]. }
  revert H. unfold enforceUser, blockedBy, overLimit, connectorLimit in *.
  destruct (users r !! uid) as [user|]; [|by apply Hnone].
  set (limit := effectiveLimit _ _) in *. rewrite (Z.leb_antisym 0 limit).
  destruct (0 <? limit); cbn [negb orb andb] in *; [|by apply Hnone].
  rewrite Z.leb_antisym. destruct (limit <? Z.of_nat (size srcs)); cbn [negb] in *; [|by apply Hnone].
  destruct (Z.of_nat (length _) <? limit); [done|].
  change (list_to_set (map fst (drop (Z.to_nat limit) (orderedSources r uid))))
    with (blocked r uid limit).
  case_bool_decide as Hb; [by apply Hnone|]. clear Hnone.
  destruct (revokeLocked ∅ {[uid := blocked r uid limit]} r) as [r2 more] eqn:E.
  intros [= <- <- <-]. exists more. split; [done|]. split; [|done].
  change r2 with ((r2, more).1). change more with ((r2, more).2) at 2. rewrite <- E.
  apply notified_revokeLocked.
Qed.

Lemma enforceUsers_notified l r cbs aff r' cbs' aff' :
  NoDup l.*1 → enforceUsers l (r, cbs, aff) = Ok (r', cbs', aff') →
  ∃ more, cbs' = (cbs ++ more)%list ∧ notified (sessions r) (sessions r') more ∧
    ∀ uid, (uid ∈ aff') ↔ (uid ∈ aff) ∨ ∃ srcs, (uid, srcs) ∈ l ∧ blockedBy r uid srcs ≠ ∅.
Proof.
  revert r cbs aff. induction l as [|[uid srcs] l IH]; intros r cbs aff Hnd.
  { intros [= -> -> ->]. exists []. rewrite app_nil_r. split; [done|]. split; [apply notified_refl|].
    intros uid. split; [by left|]. by intros [?|(? & ?%not_elem_of_nil & _)]. }
  cbn [fmap list_fmap fst] in Hnd. apply NoDup_cons in Hnd as [Hnotin Hnd]. cbn [enforceUsers].
  destruct (enforceUser uid srcs (r, cbs, aff)) as [[[r1 cbs1] aff1]|e|] eqn:E; [|done..].
  cbn [obind]. intros H. destruct (IH _ _ _ Hnd H) as (more2 & -> & Hn2 & Ha2).
  destruct (enforceUser_notified _ _ _ _ _ _ _ _ E) as (more1 & -> & Hn1 & ->).
  exists (more1 ++ more2)%list. split; [by rewrite app_assoc|]. split; [by eapply notified_trans|].
  intros j. rewrite Ha2.
  assert (Hother : ∀ s, (j, s) ∈ l → blockedBy r1 j s = blockedBy r j s).
  { intros s Hs. apply (enforceUser_other _ _ _ _ _ _ _ _ _ s E). intros ->.
    apply Hnotin, list_elem_of_fmap. by exists (uid, s). }
  assert (Hl : (∃ s, (j, s) ∈ l ∧ blockedBy r1 j s ≠ ∅) ↔ ∃ s, (j, s) ∈ l ∧ blockedBy r j s ≠ ∅).
  { split; intros (s & Hs & Hne); exists s; by rewrite ?(Hother s Hs) in *. }
  rewrite Hl. setoid_rewrite elem_of_cons. clear Hl Hother Ha2 H. case_bool_decide as Hb.
  - split; [intros [?|(s & ? & ?)]; eauto|intros [?|(s & [[= -> ->]|Hs] & Hne)]; [eauto|done|eauto]].
  - rewrite elem_of_union, elem_of_singleton. split.
    + intros [[->|?]|(s & ? & ?)]; eauto.
    + intros [?|(s & [[= -> ->]|Hs] & Hne)]; eauto.
Qed.

(** the users that an enforcement reports *)
Lemma enforce_notified r r' cbs aff :
  enforceConnectorsLocked r = Ok (r', cbs, aff) →
  notified (sessions r) (sessions r') cbs ∧
  ∀ uid, (uid ∈ aff) ↔ blockedBy r uid (userSources r uid) ≠ ∅.
Proof.
  intros H. destruct (enforceUsers_notified _ _ _ _ _ _ _ (NoDup_fst_map_to_list _) H) as (more & -> & Hn & Ha).
  split; [done|]. intros uid. rewrite Ha. unfold userSources. split.
  - intros [?%not_elem_of_empty|(s & Hs%elem_of_map_to_list & Hne)]; [done|]. by rewrite Hs.
  - intros Hne. right. destruct (sources r !! uid) as [m|] eqn:Em; simpl in Hne.
    + exists m. split; [by apply elem_of_map_to_list|done].
    + unfold blockedBy in Hne. by rewrite overLimit_empty in Hne.
Qed.

(** the session was live before and is revoked in [s'] *)
Definition newly_revoked (s' : gmap Z Lease) (id : Z) (l : Lease) : bool :=
  negb (l_revoked l) && match s' !! id with Some l' => l_revoked l' | None => false end.

Lemma notified_newly s s' cbs :
  notified s s' cbs →
  cbs ≡ₚ omap (λ p, if newly_revoked s' p.1 p.2 then l_interrupt p.2 else None) (map_to_list s).
Proof.
  intros (hit & H & -> & P). rewrite P. clear P.
  assert (Hin : ∀ id l, (id, l) ∈ map_to_list s →
    newly_revoked ((λ l, if hit l then lease_revoke l else l) <$> s) id l = hit l).
  { intros id l Hl%elem_of_map_to_list. unfold newly_revoked. rewrite lookup_fmap, Hl. simpl.
    destruct (hit l) eqn:E; simpl; [by rewrite (H l E)|by destruct (l_revoked l)]. }
  induction (map_to_list s) as [|[id l] k IH]; [done|]. simpl.
  rewrite Hin by by left. destruct (hit l); [destruct (l_interrupt l)|]; rewrite IH by (intros; apply Hin; by right); done.
Qed.

Lemma sorted_ids_elem s uid : (uid ∈ sorted_ids s) ↔ uid ∈ s.
Proof. unfold sorted_ids. by rewrite (merge_sort_Permutation Z.le), elem_of_elements. Qed.

Lemma sorted_ids_sorted s : StronglySorted Z.lt (sorted_ids s).
Proof.
  assert (Hs : StronglySorted Z.le (sorted_ids s)) by apply (StronglySorted_merge_sort Z.le).
  assert (Hnd : NoDup (sorted_ids s)).
  { unfold sorted_ids. rewrite (merge_sort_Permutation Z.le). apply NoDup_elements. }
  induction Hs as [|x l Hs IH Hall]; [constructor|].
  apply NoDup_cons in Hnd as [Hx Hnd]. constructor; [by apply IH|].
  apply Forall_forall. intros y Hy. rewrite Forall_forall in Hall. specialize (Hall y Hy).
  assert (x ≠ y) by (by intros ->). lia.
Qed.

Lemma revokes_true us srcs l :
  revokes us srcs l = true → (l_userID l ∈ us) ∨ l_userID l ∈ dom srcs.
Proof.
  unfold revokes. rewrite andb_true_iff, orb_true_iff, !bool_decide_eq_true.
  intros [_ [?|H]]; [by left|right]. apply elem_of_dom.
  destruct (srcs !! l_userID l); [by eexists|by apply not_elem_of_empty in H].
Qed.

(** the interrupts that an update calls are those of the sessions it
    revokes, each exactly once, and of no other session; the ids it returns are
    strictly increasing and include the user of every session it revokes. *)
Theorem update_interrupts_revoked r new r' cbs ids :
  Update r new = Ok (r', cbs, ids) →
  cbs ≡ₚ omap (λ p, if newly_revoked (sessions r') p.1 p.2 then l_interrupt p.2 else None)
           (map_to_list (sessions r)) ∧
  StronglySorted Z.lt ids ∧
  (∀ id l, sessions r !! id = Some l → newly_revoked (sessions r') id l = true → l_userID l ∈ ids).
Proof.
  intros (more & aff & H & -> & ->)%Update_Ok_inv.
  destruct (enforce_notified _ _ _ _ H) as [Hn Ha].
  split; [|split; [apply sorted_ids_sorted|]].
  - apply notified_newly. eapply notified_trans; [|exact Hn].
    exact (notified_revokeLocked _ _ (installSnapshot r new (Some (users r)))).
  - intros id l Hl [Hr Hl']%andb_true_iff. apply negb_true_iff in Hr.
    rewrite sorted_ids_elem, !elem_of_union.
    destruct (revokes (revokeAllUsers r new) (revokeNewSources r new) l) eqn:Hrev.
    { apply revokes_true in Hrev as [?|?]; tauto. }
    right. apply Ha. intros Hempty.
    assert (Hb : liveAt (sessions (updateBase r new)) (l_userID l) (l_sourceIP l) id l).
    { apply liveAt_revokeLocked. by split. }
    assert (Hnot : l_sourceIP l ∉ blockedBy (updateBase r new) (l_userID l)
                     (userSources (updateBase r new) (l_userID l))).
    { rewrite Hempty. apply not_elem_of_empty. }
    destruct (proj2 (enforceConnectors_live _ _ _ _ H _ _ _ _) (conj Hb Hnot)) as (E & _).
    by rewrite E, Hr in Hl'.
Qed.

(** ** Witnesses *)
Definition lowered (connectors userConnectors : Z) : Snapshot :=
  mkSnapshot (demoNode connectors) [demoUser userConnectors []] 0 EmptyString.

(** the node's limit drops to one: the session of the first source stays *)
Definition demo3 : Registry :=
  match Update demo2 (lowered 1 2) with Ok (r, _, _) => r | _ => demo2 end.

Lemma demo3_update : Update demo2 (lowered 1 2) = Ok (demo3, [], [42]).
Proof. vm_compute. reflexivity. Qed.

Lemma update_enforces_connectors_witness :
  connectorLimit demo3 42 = 1 ∧ Z.of_nat (size (liveSources demo3 42)) ≤ 1.
Proof.
  split; [by vm_compute|].
  exact (update_enforces_connectors _ _ _ _ _ _ _ _ 42 demo_reachable (λ H, H) demo3_update ltac:(by vm_compute)).
Defined.

(** Why the condition on moved leases is there. A user with one source allowed has two
    sessions from it; one is closed and then moved to another source, which takes the
    count of the first source away. A session from the second source is admitted, and
    the next update leaves both sources alone. *)
Definition evading : list Registry :=
  let r1 := (openCommit (New (demoSnapshot 1 []) demoConfig) (demoPrepared "203.0.113.1" XUDP)).1 in
  let r2 := (openCommit r1 (demoPrepared "203.0.113.1" TCP)).1 in
  let r3 := CloseLease r2 1 in
  let r4 := (Rebind r3 1 "203.0.113.2").1 in
  [r1; r2; r3; r4; (openCommit r4 (demoPrepared "203.0.113.2" TCP)).1].

Lemma moved_lease_evades_the_limit : ∃ w r' cbs ids,
  reachable everyone (demoSnapshot 1 []) demoConfig w ∧
  Update (w_reg w) (demoSnapshot 1 []) = Ok (r', cbs, ids) ∧ connectorLimit r' 42 = 1 ∧
  elements (liveSources r' 42) ≡ₚ ["203.0.113.1"; "203.0.113.2"].
Proof.
  assert (H : ∃ w, w_reg w = List.last evading demo0 ∧ reachable everyone (demoSnapshot 1 []) demoConfig w).
  { eexists (mkWorld _ _). split; [reflexivity|].
    eapply (reachable_step _ _ _ (mkWorld (nth 3 evading demo0) _)); [|apply step_admit; by vm_compute].
    eapply (reachable_step _ _ _ (mkWorld (nth 2 evading demo0) _)); [|by apply step_op, op_rebind].
    eapply (reachable_step _ _ _ (mkWorld (nth 1 evading demo0) _)); [|apply step_op, op_close_lease].
    eapply (reachable_step _ _ _ (mkWorld (nth 0 evading demo0) _)); [|apply step_admit; by vm_compute].
    eapply reachable_step; [apply reachable_new|apply step_admit; by vm_compute]. }
  destruct H as (w & E & Hw). exists w. rewrite E. eexists _, _, _. split; [exact Hw|].
  split; [vm_compute; reflexivity|]. split; [by vm_compute|]. apply (bool_decide_unpack _). by vm_compute.
Qed.

Lemma enforcement_keeps_oldest_witness :
  ∃ r' cbs aff, enforceConnectorsLocked (updateBase demo2 (lowered 1 2)) = Ok (r', cbs, aff) ∧
    ∀ ip, ip ∈ liveSources r' 42 → ∃ id l, liveAt (sessions demo2) 42 ip id l.
Proof.
  destruct (enforceConnectorsLocked (updateBase demo2 (lowered 1 2))) as [[[r' cbs] aff]|e|] eqn:E;
    [|by exfalso; vm_compute in E..].
  exists r', cbs, aff. split; [done|]. intros ip Hip.
  destruct (enforcement_keeps_oldest _ _ _ _ E) as (_ & Hsub & _).
  apply (Hsub 42) in Hip. apply elem_of_survivingSources in Hip as (id & l & H & _). eauto.
Defined.

Lemma lowered_limit_panics_witness :
  reachable nobody (demoSnapshot 2 []) demoConfig (mkWorld demo2 demoAdmitted) ∧
  Update demo2 (lowered 2 1) = Panic.
Proof.
  split; [exact demo_reachable|].
  apply (lowered_limit_panics demo2 (lowered 2 1) 42 (demoUser 2 []) (demoUser 1 [])); by vm_compute.
Defined.

Lemma update_interrupts_revoked_witness :
  ∃ cbs, cbs ≡ₚ [7; 9] ∧ ∃ r', Update (BindInterrupt (BindInterrupt demo2 1 (Some 7)).1 2 (Some 9)).1
    (mkSnapshot (demoNode 2) [] 0 EmptyString) = Ok (r', cbs, [42]).
Proof.
  destruct (Update (BindInterrupt (BindInterrupt demo2 1 (Some 7)).1 2 (Some 9)).1
    (mkSnapshot (demoNode 2) [] 0 EmptyString)) as [[[r' cbs] ids]|e|] eqn:E; [|by exfalso; vm_compute in E..].
  destruct (update_interrupts_revoked _ _ _ _ _ E) as (H & _ & _).
  assert (Hids : ids = [42]) by (vm_compute in E; congruence). subst ids.
  exists cbs. split; [|by exists r'].
  rewrite H. assert (r' = match Update (BindInterrupt (BindInterrupt demo2 1 (Some 7)).1 2 (Some 9)).1
    (mkSnapshot (demoNode 2) [] 0 EmptyString) with Ok (r, _, _) => r | _ => demo2 end) as -> by (by rewrite E).
  vm_compute. apply Permutation_swap.
Defined.
