(* ===== verification/SessionLease.v ===== *)
(** The life of one session: who may open one and what the refusal of the
    others leaves behind, that closing undoes opening, how a session moves to
    another source, and how its traffic is paced. *)
From S2P Require Import Prelude GoString Float64 Netip Model Config Policy.
From S2P Require Import Session SessionInv SessionAcct SessionConn SessionProps.

Local Open Scope string_scope.
Local Open Scope Z_scope.

(** ** Identity *)
Lemma UserEmail_prefix node id : UserEmail node id = emailPrefix node +:+ format_int id.
Proof. unfold UserEmail, emailPrefix. by rewrite !string_app_assoc. Qed.

(** an email identifies a user exactly when it is the one that the running
    configuration gives to that user: [userID] inverts [UserEmail] on positive
    64-bit ids and refuses every other text (leading zeros, signs, other nodes). *)
Theorem userID_inverts_UserEmail r email id :
  userID r email = Some id ↔ 0 < id ∧ is_int64 id = true ∧ email = UserEmail (nodeID r) id.
Proof.
  unfold userID. rewrite UserEmail_prefix. set (prefix := emailPrefix (nodeID r)). split.
  - destruct (has_prefix email prefix); simpl; [|done].
    destruct (parse_int (trim_prefix email prefix)) as [n|] eqn:Hn; simpl; [|done].
    destruct ((n <=? 0) || _) eqn:E; [done|]. intros [= ->].
    apply orb_false_iff in E as [E1 E2]. apply negb_false_iff, String.eqb_eq in E2.
    split; [lia|]. split; [by eapply parse_int_range|done].
  - intros (Hpos & Hid & ->). rewrite has_prefix_app, trim_prefix_app, parse_format_int by done.
    simpl. by rewrite String.eqb_refl, (proj2 (Z.leb_gt id 0)).
Qed.

(** ** Opening *)

(** the candidate addresses of a destination and the address to pin *)
Definition resolves (lookup : string → option (list Addr)) (request : Request)
    (addresses : list string) (resolved : string) : Prop :=
  let host := trim (DestinationHost request) "[]" in
  (∃ a, ParseAddr host = Some a ∧ addresses = [addr_string (Unmap a)] ∧ resolved = EmptyString) ∨
  (ParseAddr host = None ∧ DestinationDomain request = true ∧ host ≠ EmptyString ∧
   ∃ answer, lookup host = Some answer ∧
     canonical_list addresses (λ x, ∃ a, a ∈ answer ∧ x = addr_string (Unmap a)) ∧
     head addresses = Some resolved).

(** what a well-formed request prepares *)
Definition prepares (r : Registry) (lookup : string → option (list Addr)) (request : Request)
    (p : Prepared) : Prop :=
  userID r (Email request) = Some (p_userID p) ∧
  CanonicalIP (SourceIP request) = Some (p_sourceIP p) ∧
  requestKind (Network request) = Some (p_kind p) ∧
  p_port p = DestinationPort request ∧ p_port p ≠ 0 ∧
  resolves lookup request (p_addresses p) (p_resolved p).

Lemma openLookup_Ok r request r' uid ip kind user :
  openLookup r request = (r', Ok (uid, ip, kind, user)) ↔
  r' = r ∧ userID r (Email request) = Some uid ∧ CanonicalIP (SourceIP request) = Some ip ∧
  requestKind (Network request) = Some kind ∧ DestinationPort request ≠ 0 ∧
  users r !! uid = Some user.
Proof.
  unfold openLookup. split.
  - repeat case_match; intros; simplify_eq; try done.
    split_and!; try done. by apply Z.eqb_neq.
  - intros (-> & -> & -> & -> & Hp & ->). by rewrite (proj2 (Z.eqb_neq _ _) Hp).
Qed.

(** the addresses that a resolver's answer yields *)
Definition canonicalAddresses (answer : list Addr) : list string :=
  sort_strings (fold_left add_once (map (λ a, addr_string (Unmap a)) answer) []).

Lemma canonicalAddresses_spec answer :
  canonical_list (canonicalAddresses answer) (λ x, ∃ a, a ∈ answer ∧ x = addr_string (Unmap a)).
Proof.
  apply sort_strings_canonical; [apply fold_add_once_NoDup, NoDup_nil_2|].
  intros x. rewrite elem_of_fold_add_once, list_elem_of_fmap. split.
  - intros [?%not_elem_of_nil|(a & -> & Ha)]; [done|]. by exists a.
  - intros (a & Ha & ->). right. by exists a.
Qed.

Lemma authorizeTarget_Ok r lookup user request r' addresses resolved :
  authorizeTarget r lookup user request = (r', Ok (addresses, resolved)) ↔
  r' = r ∧ PortBlocked (user_ForbiddenPorts user) (DestinationPort request) = false ∧
  existsb (IPBlocked (user_ForbiddenIPs user)) addresses = false ∧
  resolves lookup request addresses resolved.
Proof.
  unfold authorizeTarget, resolves. cbv zeta. set (host := trim (DestinationHost request) "[]").
  destruct (PortBlocked _ _) eqn:Hport; [by split; [|intros (_ & ? & _)]|].
  destruct (ParseAddr host) as [a|] eqn:Ha.
  { destruct (IPBlocked _ (addr_string (Unmap a))) eqn:Hip.
    - split; [done|]. intros (_ & _ & Hx & [(b & [= <-] & -> & ->)|(? & _)]); [|done].
      simpl in Hx. by rewrite Hip in Hx.
    - split.
      + intros [= <- <- <-]. split_and!; try done; [by simpl; rewrite Hip|]. left. by exists a.
      + intros (-> & _ & _ & [(b & [= <-] & -> & ->)|(? & _)]); done. }
  destruct (DestinationDomain request) eqn:Hd; simpl.
  2:{ split; [done|]. by intros (_ & _ & _ & [(? & ? & _)|(_ & ? & _)]). }
  destruct (String.eqb_spec host EmptyString) as [He|He].
  { split; [done|]. by intros (_ & _ & _ & [(? & ? & _)|(_ & _ & ? & _)]). }
  change (sort_strings (fold_left add_once (map (λ a, addr_string (Unmap a)) ?l) []))
    with (canonicalAddresses l).
  destruct (lookup host) as [[|a0 answer]|] eqn:Hl.
  - split; [done|]. intros (_ & _ & _ & [(? & ? & _)|(_ & _ & _ & ans & [= <-] & Hc & Hhd)]); [done|].
    destruct addresses as [|x xs]; [done|].
    destruct (proj1 (cl_elem _ _ Hc x)) as (a & Hin & _); [by left|]. by apply not_elem_of_nil in Hin.
  - pose proof (canonicalAddresses_spec (a0 :: answer)) as Hcan.
    change (sort_strings _) with (canonicalAddresses (a0 :: answer)).
    destruct (existsb _ (canonicalAddresses (a0 :: answer))) eqn:Hx.
    + split; [by repeat case_match|].
      intros (_ & _ & Hno & [(? & ? & _)|(_ & _ & _ & ans & [= <-] & Hc & Hhd)]); [done|].
      rewrite (canonical_list_unique _ _ _ Hc Hcan) in Hno. congruence.
    + split.
      * intros E. destruct (canonicalAddresses (a0 :: answer)) as [|x xs] eqn:Hxs; [done|].
        injection E as <- <- <-. split_and!; try done. right. split_and!; try done.
        exists (a0 :: answer). split; [done|]. split; [exact Hcan|done].
      * intros (-> & _ & Hno & [(? & ? & _)|(_ & _ & _ & ans & [= <-] & Hc & Hhd)]); [done|].
        rewrite (canonical_list_unique _ _ _ Hc Hcan) in *.
        destruct (canonicalAddresses (a0 :: answer)); [done|]. simpl in Hhd. by injection Hhd as ->.
  - split; [done|]. by intros (_ & _ & _ & [(? & ? & _)|(_ & _ & _ & ans & ? & _)]).
Qed.

Lemma openCommit_Ok r p r' d :
  openCommit r p = (r', Ok d) →
  commitRefusal r p = None ∧ d = mkDecision (p_resolved p) (Some (wrapu64 (nextID r + 1))).
Proof.
  unfold openCommit. destruct (commitRefusal r p); [done|]. cbv zeta. by intros [= <- <-].
Qed.

Lemma Open_prepares r lookup request r' d :
  InboundTag request = inboundTag → Open r lookup request = (r', Ok d) →
  ∃ p, prepares r lookup request p ∧ commitRefusal r p = None ∧ openCommit r p = (r', Ok d).
Proof.
  intros Htag. unfold Open. rewrite Htag, String.eqb_refl. cbn [negb].
  destruct (openLookup r request) as [r1 [[[[uid ip] kind] user]|e|]] eqn:E1; [|done..].
  apply openLookup_Ok in E1 as (-> & H1 & H2 & H3 & H4 & H5).
  destruct (authorizeTarget r lookup user request) as [r2 [[addresses resolved]|e|]] eqn:E2; [|done..].
  apply authorizeTarget_Ok in E2 as (-> & _ & _ & Hres). intros Hc.
  eexists. split; [|split; [by eapply openCommit_Ok|exact Hc]].
  unfold prepares; simpl. done.
Qed.

(** the lease that a commit creates *)
Lemma openCommit_session r p r' d : openCommit r p = (r', Ok d) →
  ∃ id, DecisionLease d = Some id ∧ sessions r' !! id = Some (newLease r p) ∧ users r' = users r.
Proof.
  intros Hc. destruct (openCommit_Ok _ _ _ _ Hc) as [Href ->]. unfold openCommit in Hc. rewrite Href in Hc.
  injection Hc as <-. exists (wrapu64 (nextID r + 1)). split; [done|].
  destruct (p_kind p); cbn [countOpen addSource sessions users with_userTCP with_userXUDP with_tcp with_xudp
    with_sources with_sessions newLease l_id]; by rewrite lookup_insert_eq.
Qed.

(** C33: an inbound request opens a session exactly when it is well formed (it
    names a user of the node, a source address, a network and a port; its
    destination is an address, or a domain that resolves) and the critical
    section finds no reason to refuse. The candidates checked are the canonical
    addresses of the whole answer, in order and without repetitions, and the
    address pinned is one of them. *)
Theorem Open_admits r lookup request r' d :
  InboundTag request = inboundTag →
  Open r lookup request = (r', Ok d) ↔
  ∃ p, prepares r lookup request p ∧ commitRefusal r p = None ∧ openCommit r p = (r', Ok d).
Proof.
  intros Htag. split; [by apply Open_prepares|].
  intros (p & (H1 & H2 & H3 & H4 & H5 & Hres) & Href & Hc). unfold Open. rewrite Htag, String.eqb_refl. cbn [negb].
    destruct (commitRefusal_None _ _ Href) as (user & Hu & _ & (_ & Hport & Hips) & _).
    rewrite H4 in Hport. rewrite (proj2 (openLookup_Ok r request r (p_userID p) (p_sourceIP p) (p_kind p) user)).
    2:{ by rewrite <- H4. }
    rewrite (proj2 (authorizeTarget_Ok r lookup user request r (p_addresses p) (p_resolved p))) by done.
    rewrite <- H4. by destruct p.
Qed.

(** Whatever refuses counts its reason, and only that. *)
Lemma openLookup_Err r request r' e : openLookup r request = (r', Err e) → ∃ reason, e = rejection reason ∧ r' = reject reason r.
Proof. unfold openLookup. repeat case_match; intros; simplify_eq; by eexists. Qed.
Lemma authorizeTarget_Err r lookup user request r' e :
  authorizeTarget r lookup user request = (r', Err e) → ∃ reason, e = rejection reason ∧ r' = reject reason r.
Proof. unfold authorizeTarget. cbv zeta. repeat case_match; intros; simplify_eq; by eexists. Qed.
Lemma openCommit_Err r p r' e : openCommit r p = (r', Err e) → ∃ reason, e = rejection reason ∧ r' = reject reason r.
Proof. unfold openCommit. case_match; cbv zeta; intros; simplify_eq; by eexists. Qed.

(** [Open] leaves a foreign inbound alone, else it either refuses, and then
    counts its reason and changes nothing more, or hands out the next lease and
    counts no refusal. *)
Theorem Open_refusal_only_counts r lookup request r' res :
  Open r lookup request = (r', res) →
  (InboundTag request ≠ inboundTag ∧ r' = r ∧ res = Ok (mkDecision EmptyString None)) ∨
  (∃ reason, res = Err (rejection reason) ∧ r' = reject reason r) ∨
  (∃ d, res = Ok d ∧ DecisionLease d = Some (wrapu64 (nextID r + 1)) ∧ rejected r' = rejected r).
Proof.
  unfold Open. destruct (String.eqb_spec (InboundTag request) inboundTag) as [Ht|Ht]; cbn [negb].
  2:{ intros [= <- <-]. by left. }
  destruct (openLookup r request) as [r1 [[[[uid ip] kind] user]|e|]] eqn:E1.
  - apply openLookup_Ok in E1 as (-> & _).
    destruct (authorizeTarget r lookup user request) as [r2 [[addresses resolved]|e|]] eqn:E2.
    + apply authorizeTarget_Ok in E2 as (-> & _). intros Hc. destruct res as [d|e|].
      * right; right. exists d. split; [done|]. pose proof (openCommit_Ok _ _ _ _ Hc) as [Href ->].
        split; [done|]. unfold openCommit in Hc. rewrite Href in Hc. cbv zeta in Hc.
        injection Hc as <-. by destruct kind.
      * right; left. apply openCommit_Err in Hc as (reason & -> & ->). by exists reason.
      * exfalso. revert Hc. unfold openCommit. by case_match.
    + intros [= <- <-]. right; left. apply authorizeTarget_Err in E2 as (reason & -> & ->). by exists reason.
    + exfalso. revert E2. unfold authorizeTarget. cbv zeta. by repeat case_match.
  - intros [= <- <-]. right; left. apply openLookup_Err in E1 as (reason & -> & ->). by exists reason.
  - exfalso. revert E1. unfold openLookup. by repeat case_match.
Qed.

(** ** Closing *)

Lemma dropUser_raise m uid : positive_entries m → dropUser uid (<[uid := mget m uid + 1]> m) = m.
Proof. apply raise_less. Qed.

Lemma removeSource_addSource uid ip r r2 :
  tidy_source (sources r) uid → sources r2 = sources (addSource uid ip r) →
  removeSourceLocked uid ip r2 = with_sources (sources r) r2.
Proof.
  intros Ht Hr2. unfold removeSourceLocked. cbv zeta.
  assert (Hu : userSources r2 uid = <[ip:=mget (userSources r uid) ip + 1]> (userSources r uid)).
  { unfold userSources at 1. rewrite Hr2. simpl. by rewrite lookup_insert_eq. }
  rewrite !Hu, raise_less by by apply userSources_positive. rewrite Hr2. simpl.
  rewrite insert_insert_eq, delete_insert_eq. f_equal. unfold userSources.
  case_bool_decide as He; destruct (sources r !! uid) as [m'|] eqn:E; simpl in *.
  - by destruct (Ht _ E).
  - by apply delete_id.
  - by apply insert_id.
  - done.
Qed.

(** closing a session right after it was opened restores the registry:
    every counter, every map and every refusal count; what remains is the used
    session number and the closed lease itself. (The user is one of whom no
    closed lease was moved.) *)
Theorem close_undoes_open moved snapshot cfg w p r' d id :
  reachable moved snapshot cfg w → ¬ moved (p_userID p) → nextID (w_reg w) + 1 < 2 ^ 64 →
  openCommit (w_reg w) p = (r', Ok d) → DecisionLease d = Some id →
  CloseLease r' id =
    with_detached (<[id := lease_close (newLease (w_reg w) p)]> (detached (w_reg w)))
      (with_nextID id (w_reg w)).
Proof.
  intros Hreach Hmoved Hn Hc Hid. pose proof (auth_reachable _ _ _ _ Hreach) as Hauth.
  pose proof (accounting_reachable _ _ _ _ Hreach) as [Ht Hu Hs Hut Hst].
  destruct w as [r a]. simpl in *.
  pose proof (ai_nextID _ Hauth) as Hrange. simpl in Hrange.
  destruct (openCommit_Ok _ _ _ _ Hc) as [Href ->]. simpl in Hid. injection Hid as <-.
  rewrite wrapu64_id by lia.
  assert (Hfresh : sessions r !! (nextID r + 1) = None).
  { destruct (sessions r !! (nextID r + 1)) as [l|] eqn:E; [|done].
    apply (ai_sessions _ Hauth) in E as (_ & ? & _). simpl in *. lia. }
  unfold openCommit in Hc. rewrite Href in Hc. cbv zeta in Hc.
  assert (Hlid : l_id (newLease r p) = nextID r + 1) by (simpl; rewrite wrapu64_id; lia).
  rewrite Hlid, (wrapu64_id (nextID r + 1)) in Hc by lia. injection Hc as <-.
  set (l := newLease r p). set (id := nextID r + 1).
  set (r2 := addSource _ _ _). set (r3 := countOpen _ _ r2).
  assert (Hl : sessions r3 !! id = Some l) by (unfold r3; destruct (p_kind p); apply lookup_insert_eq).
  unfold CloseLease, lookupLease. rewrite Hl. change (l_once l) with false. cbv zeta.
  change (l_kind l) with (p_kind p). change (l_userID l) with (p_userID p).
  change (l_sourceIP l) with (p_sourceIP p).
  rewrite (removeSource_addSource _ _ r) by (by apply Hst || done || by destruct (p_kind p)).
  assert (Hdel : delete id (sessions r3) = sessions r).
  { unfold r3, r2. destruct (p_kind p); apply delete_insert_id, Hfresh. }
  assert (Hdet : detached r3 = detached r) by (unfold r3; by destruct (p_kind p)).
  change (sessions (with_detached ?x r3)) with (sessions r3). rewrite Hdel, Hdet.
  assert (Htcp : decrement (tcp r + 1) = tcp r ∧ decrement (xudp r + 1) = xudp r).
  { pose proof (Ht TCP). pose proof (Ht XUDP). simpl in *.
    pose proof (mcount_nonneg (is_kind TCP) (sessions r)). pose proof (mcount_nonneg (is_kind XUDP) (sessions r)).
    unfold decrement. rewrite !(proj2 (Z.ltb_lt 0 _)) by lia. lia. }
  pose proof (dropUser_raise _ (p_userID p) (Hut TCP)) as E1.
  pose proof (dropUser_raise _ (p_userID p) (Hut XUDP)) as E2. simpl in E1, E2.
  unfold r3, r2. clearbody l. destruct r; simpl in *; destruct (p_kind p); simpl in *;
    unfold with_detached; simpl; rewrite ?E1, ?E2, ?(proj1 Htcp), ?(proj2 Htcp); done.
Qed.

(** a second Close of a lease does nothing, whatever the first one did. *)
Theorem close_runs_once r id : CloseLease (CloseLease r id) id = CloseLease r id.
Proof.
  unfold CloseLease at 2 3. destruct (lookupLease r id) as [l|] eqn:Hl.
  2:{ unfold CloseLease. by rewrite Hl. }
  destruct (l_once l) eqn:Ho.
  { unfold CloseLease. by rewrite Hl, Ho. }
  cbv zeta. set (r2 := with_sessions _ _).
  set (r3 := removeSourceLocked _ _ _).
  assert (lookupLease r3 id = Some (lease_close l)) as E; [|unfold CloseLease; by rewrite E].
  unfold lookupLease, r3. assert (sessions (countClose (l_kind l) (l_userID l) r2) = delete id (sessions r) ∧
    detached (countClose (l_kind l) (l_userID l) r2) = <[id := lease_close l]> (detached r)) as [E1 E2]
    by (by destruct (l_kind l)).
  change (sessions (removeSourceLocked ?a ?b ?c)) with (sessions c).
  change (detached (removeSourceLocked ?a ?b ?c)) with (detached c).
  by rewrite E1, E2, lookup_delete_eq, lookup_insert_eq.
Qed.

(** ** Moving *)
Lemma move_sources r uid old ip j x :
  0 < mget (userSources r uid) old →
  mget (userSources (addSource uid ip (removeSourceLocked uid old r)) j) x
  = mget (userSources r j) x - b2z (bool_decide (uid = j) && bool_decide (old = x))
    + b2z (bool_decide (uid = j) && bool_decide (ip = x)).
Proof. intros H. by rewrite addSource_count, removeSource_count by done. Qed.

Lemma lease_move_self l : lease_move (l_sourceIP l) l = l.
Proof. by destruct l. Qed.

(** moving an open session to another source either refuses, and then only
    counts the reason, or takes one session from the old source and gives one to
    the new one, which the policy in force permits; no other session, counter of
    a kind or count of another source changes. *)
Theorem rebind_moves_source moved snapshot cfg w id l value r' res :
  reachable moved snapshot cfg w → sessions (w_reg w) !! id = Some l → ¬ moved (l_userID l) →
  Rebind (w_reg w) id value = (r', res) →
  (∃ reason, res = Err (rejection reason) ∧ r' = reject reason (w_reg w)) ∨
  (∃ ip user, res = Ok tt ∧ CanonicalIP value = Some ip ∧ closed (w_reg w) = false ∧
     l_revoked l = false ∧ users (w_reg w) !! l_userID l = Some user ∧
     (ip ∉ user_DisconnectIPs user) ∧
     sessions r' = <[id := lease_move ip l]> (sessions (w_reg w)) ∧
     (∀ k, kindTotal k r' = kindTotal k (w_reg w) ∧ kindUsers k r' = kindUsers k (w_reg w)) ∧
     (∀ uid x, mget (userSources r' uid) x = mget (userSources (w_reg w) uid) x
        - b2z (bool_decide (l_userID l = uid) && bool_decide (l_sourceIP l = x))
        + b2z (bool_decide (l_userID l = uid) && bool_decide (ip = x)))).
Proof.
  intros Hreach Hl Hmoved. pose proof (auth_reachable _ _ _ _ Hreach) as Hauth.
  pose proof (accounting_reachable _ _ _ _ Hreach) as Hacct.
  pose proof (session_source_positive _ _ _ _ Hacct Hl Hmoved) as Hpos.
  pose proof (ai_sessions _ Hauth _ _ Hl) as (_ & _ & _ & _ & Hlive).
  unfold Rebind, lookupLease. rewrite Hl.
  destruct (CanonicalIP value) as [ip|]; [|intros [= <- <-]; left; by eexists].
  destruct (closed (w_reg w) || l_revoked l) eqn:Hcr; [intros [= <- <-]; left; by eexists|].
  apply orb_false_iff in Hcr as [Hc Hr]. destruct (Hlive Hr) as (_ & user & p & Hu & _ & _ & _ & (Hd & _) & _).
  destruct (String.eqb_spec ip (l_sourceIP l)) as [->|Hne].
  { intros [= <- <-]. right. exists (l_sourceIP l), user. rewrite lease_move_self, insert_id by done.
    split_and!; try done. intros; lia. }
  destruct (rebindRefusal _ l ip) eqn:Href; [intros [= <- <-]; left; by eexists|].
  cbv zeta. intros [= <- <-]. right. exists ip, user.
  unfold storeLease.
  change (sessions (addSource ?a ?b (removeSourceLocked ?c ?d ?e))) with (sessions e).
  rewrite Hl. split_and!; try done.
  - by eapply rebindRefusal_None.
  - intros uid x. change (userSources (with_sessions ?s ?e)) with (userSources e). by apply move_sources.
Qed.

(** moving a lease that was closed succeeds when a session could move there,
    and then (the first time for its user) counts one session too many at the
    new source; closing the lease again does not take it back. *)
Theorem rebind_after_close_leaks moved snapshot cfg w id l value ip :
  reachable moved snapshot cfg w → ¬ moved (l_userID l) → detached (w_reg w) !! id = Some l → l_revoked l = false →
  closed (w_reg w) = false → CanonicalIP value = Some ip → ip ≠ l_sourceIP l →
  rebindRefusal (w_reg w) l ip = None →
  ∃ r', Rebind (w_reg w) id value = (r', Ok tt) ∧ CloseLease r' id = r' ∧
    sessions r' = sessions (w_reg w) ∧
    mget (userSources r' (l_userID l)) ip = mcount (at_source (l_userID l) ip) (sessions r') + 1.
Proof.
  intros Hreach Hmoved Hl Hr Hc Hip Hne Href. pose proof (auth_reachable _ _ _ _ Hreach) as Hauth.
  pose proof (accounting_reachable _ _ _ _ Hreach) as Hacct.
  destruct (ai_detached _ Hauth _ _ Hl) as (_ & Honce & _ & Hnone).
  unfold Rebind, lookupLease. rewrite Hnone, Hl, Hip, Hc, Hr. cbn [orb].
  rewrite (proj2 (String.eqb_neq _ _) Hne), Href. cbv zeta.
  eexists. split; [done|]. unfold storeLease.
  change (sessions (addSource ?a ?b (removeSourceLocked ?c ?d ?e))) with (sessions e). rewrite Hnone.
  split_and!.
  - unfold CloseLease, lookupLease. simpl. rewrite Hnone, lookup_insert_eq. simpl. by rewrite Honce.
  - done.
  - change (userSources (with_detached ?s ?e)) with (userSources e).
    rewrite addSource_count, !bool_decide_eq_true_2 by done. simpl. f_equal.
    rewrite <- (ac_source _ _ Hacct) by done. unfold removeSourceLocked. cbv zeta.
    unfold userSources. simpl. case_bool_decide as He.
    + rewrite lookup_delete_eq. simpl. rewrite mget_empty.
      symmetry. apply (f_equal (λ m : gmap string Z, mget m ip)) in He. rewrite mget_empty in He.
      rewrite <- He. destruct (1 <? _); autorewrite with go; by rewrite decide_False.
    + rewrite lookup_insert_eq. simpl.
      destruct (1 <? _); autorewrite with go; by rewrite decide_False.
Qed.

(** ** Rate limiters *)

(** the limiter that belongs to a configured speed: none for an unlimited one,
    else one of that speed in bytes per second with a burst of one second and
    at least 64 KiB *)
Definition limiter_for (owner : option Z) (mbps : float64) (o : option Limiter) : Prop :=
  match o with
  | None => f64_leb mbps (f64_of_int 0) = true
  | Some lim =>
      f64_leb mbps (f64_of_int 0) = false ∧ lim_owner lim = owner ∧
      lim_limit lim = f64_div (f64_mul mbps (f64_of_int 1000000)) (f64_of_int 8) ∧
      lim_burst lim = Z.max 65536 (f64_to_int64 (lim_limit lim))
  end.

Lemma newLimiter_for gen owner mbps : limiter_for owner mbps (newLimiter gen owner mbps).
Proof.
  unfold newLimiter. destruct (f64_leb _ _) eqn:E; [done|]. cbv zeta. simpl. split_and!; try done.
  change (64 * 1024) with 65536. case_match; lia.
Qed.

Lemma limiter_for_eqb owner a b o : f64_eqb a b = true → limiter_for owner a o → limiter_for owner b o.
Proof.
  intros Heq. pose proof (f64_leb_zero_eqb _ _ Heq) as Hleb.
  destruct o as [lim|]; simpl; rewrite <- Hleb; [|done]. intros (H1 & H2 & H3 & H4).
  destruct (f64_eqb_cases _ _ Heq) as [->|(s & t & -> & ->)]; [done|].
  destruct s; vm_compute in H1; congruence.
Qed.

Definition limiters_inv (r : Registry) : Prop :=
  limiter_for None (nodeSpeed r) (nodeLimiter r) ∧
  ∀ uid user, users r !! uid = Some user →
    limiter_for (Some uid) (user_SpeedLimitMbps user) (default None (userLimiters r !! uid)).

Lemma limiters_install r snapshot old :
  old = None ∨ (old = Some (users r) ∧ limiters_inv r) → limiters_inv (installSnapshot r snapshot old).
Proof.
  intros Hold. split; simpl.
  - destruct (_ || _ || _) eqn:E; [apply newLimiter_for|].
    apply orb_false_iff in E as [E E3]. apply orb_false_iff in E as [_ E2].
    apply negb_false_iff in E3. destruct Hold as [->|[-> [Hn _]]]; [done|].
    by eapply limiter_for_eqb.
  - intros uid user Hu. rewrite map_lookup_imap, Hu. simpl.
    destruct (default ∅ old !! uid) as [previous|] eqn:Ho; [|apply newLimiter_for].
    destruct (f64_eqb _ _) eqn:E; [|apply newLimiter_for]. simpl.
    destruct Hold as [->|[-> [_ Hinv]]]; [simpl in Ho; by rewrite lookup_empty in Ho|].
    eapply limiter_for_eqb; [exact E|]. by apply Hinv.
Qed.

Lemma limiters_frame r r' :
  users r' = users r → userLimiters r' = userLimiters r → nodeLimiter r' = nodeLimiter r →
  nodeSpeed r' = nodeSpeed r → limiters_inv r → limiters_inv r'.
Proof. unfold limiters_inv. by intros -> -> -> ->. Qed.

Lemma limiters_auth r r' : same_auth r r' → limiters_inv r → limiters_inv r'.
Proof. intros (_ & _ & _ & _ & ? & ? & ? & ?). by apply limiters_frame. Qed.

Lemma limiters_revoked r r' : revoked_from r r' → limiters_inv r → limiters_inv r'.
Proof. intros [_ ->]. by apply limiters_frame. Qed.

Lemma limiters_op d r r' : op d r r' → limiters_inv r → limiters_inv r'.
Proof.
  intros Hop Hinv. destruct Hop as [request| |request|lookup user request|p reason Href
    |snapshot r' cbs ids Hup|ids| |id cb|id value _|id];
    try (apply (limiters_auth r); [by auto with go|done]).
  - unfold openCommit. rewrite Href. by apply (limiters_frame r).
  - eapply limiters_revoked; [by eapply Update_inv|]. eapply limiters_revoked; [apply revoked_from_revokeLocked|].
    apply limiters_install. by right.
  - eapply limiters_revoked; [apply revoked_from_revokeLocked|done].
  - eapply limiters_revoked; [apply revoked_from_revokeLocked|]. by apply (limiters_frame r).
  - unfold BindInterrupt, storeLease. repeat case_match; try done; by apply (limiters_frame r).
  - unfold Rebind, storeLease. repeat case_match; try done; by apply (limiters_frame r).
  - unfold CloseLease. repeat case_match; try done; cbv zeta; destruct (l_kind _); by apply (limiters_frame r).
Qed.

Lemma limiters_reachable d snapshot cfg w : reachable d snapshot cfg w → limiters_inv (w_reg w).
Proof.
  induction 1 as [|w w' Hr IH Hs].
  - apply limiters_install. by left.
  - destruct Hs as [r r' a Hop|r a p Href Hn]; simpl in *; [by eapply limiters_op|].
    unfold openCommit. rewrite Href. cbv zeta. destruct (p_kind p); by apply (limiters_frame r).
Qed.

(** live sessions of a user draw from one limiter, the one in force, and all
    sessions of the node from the node's; each has the configured speed, or is
    absent when the speed is not positive, across every sequence of updates. *)
Theorem live_sessions_share_limiters d snapshot cfg w id l :
  reachable d snapshot cfg w → sessions (w_reg w) !! id = Some l → l_revoked l = false →
  ∃ user, users (w_reg w) !! l_userID l = Some user ∧
    l_userRate l = default None (userLimiters (w_reg w) !! l_userID l) ∧
    l_nodeRate l = nodeLimiter (w_reg w) ∧
    limiter_for (Some (l_userID l)) (user_SpeedLimitMbps user) (l_userRate l) ∧
    limiter_for None (nodeSpeed (w_reg w)) (l_nodeRate l).
Proof.
  intros Hreach Hl Hr. destruct (limiters_reachable _ _ _ _ Hreach) as [Hn Hu].
  apply auth_reachable in Hreach. destruct (ai_sessions _ Hreach _ _ Hl) as (_ & _ & _ & _ & Hlive).
  destruct (Hlive Hr) as (_ & user & p & Hus & _ & _ & _ & _ & E1 & E2).
  exists user. rewrite E1, E2. split_and!; try done. by apply Hu.
Qed.

(** ** Pacing *)
Section Pacing.
Context {W : Type} (WaitN : W → Limiter → Z → W * option string).

(** the limiter with a record of what was asked of it *)
Definition recorded (w : W * list Z) (lim : Limiter) (n : Z) : (W * list Z) * option string :=
  let '(w', e) := WaitN w.1 lim n in ((w', (w.2 ++ [n])%list), e).

Definition sum_list (l : list Z) : Z := fold_right Z.add 0 l.

Lemma sum_list_app l k : sum_list (l ++ k) = sum_list l + sum_list k.
Proof. induction l; simpl; lia. Qed.

Lemma wait_loop_spec fuel w trace lim bytes w' trace' e :
  0 < lim_burst lim → bytes ≤ Z.of_nat fuel →
  wait_loop recorded fuel (w, trace) lim bytes = ((w', trace'), e) →
  ∃ asked, trace' = (trace ++ asked)%list ∧ Forall (λ n, 0 < n ≤ lim_burst lim) asked ∧
    sum_list asked ≤ Z.max 0 bytes ∧ (e = None → sum_list asked = Z.max 0 bytes).
Proof.
  intros Hb. revert w trace bytes. induction fuel as [|fuel IH]; intros w trace bytes Hf; cbn [wait_loop].
  { intros [= <- <- <-]. exists []. rewrite app_nil_r. simpl. split_and!; try done; lia. }
  destruct (Z.leb_spec bytes 0) as [H0|H0].
  { intros [= <- <- <-]. exists []. rewrite app_nil_r. simpl. split_and!; try done; lia. }
  set (chunk := if lim_burst lim <? bytes then lim_burst lim else bytes).
  assert (Hc : 0 < chunk ≤ lim_burst lim ∧ chunk ≤ bytes).
  { unfold chunk. destruct (Z.ltb_spec (lim_burst lim) bytes); lia. }
  unfold recorded at 1. simpl. destruct (WaitN w lim chunk) as [w1 [e1|]] eqn:E.
  - intros [= <- <- <-]. exists [chunk]. simpl. split_and!; try done; [|lia].
    constructor; [lia|constructor].
  - intros H. apply IH in H as (asked & -> & HF & Hle & Heq); [|lia].
    exists (chunk :: asked). split_and!.
    + by rewrite <- app_assoc.
    + constructor; [lia|done].
    + simpl. lia.
    + intros He. specialize (Heq He). simpl. lia.
Qed.

(** [wait] asks the limiter for every byte: in portions that are positive
    and within its burst, so that none is refused for its size, never for more
    than the bytes at hand, and for all of them when it succeeds; the burst is
    at least 64 KiB. The limiter itself (golang.org/x/time/rate) is arbitrary. *)
Theorem wait_paces_every_byte gen owner mbps lim w bytes w' asked e :
  newLimiter gen owner mbps = Some lim → 0 ≤ bytes →
  wait recorded (w, []) (Some lim) bytes = ((w', asked), e) →
  Forall (λ n, 0 < n ≤ lim_burst lim) asked ∧ 65536 ≤ lim_burst lim ∧
  sum_list asked ≤ bytes ∧ (e = None → sum_list asked = bytes).
Proof.
  intros Hl Hb Hw. pose proof (newLimiter_for gen owner mbps) as Hfor. rewrite Hl in Hfor.
  destruct Hfor as (_ & _ & _ & Hburst). simpl in Hw.
  apply wait_loop_spec in Hw as (l & -> & HF & Hle & Heq); [|lia|lia].
  simpl. split_and!; [done|lia|lia|]. intros He. specialize (Heq He). lia.
Qed.
End Pacing.

(** ** Witnesses *)
Definition noDNS : string → option (list Addr) := λ _, None.
Definition demoDNS : string → option (list Addr) :=
  λ _, Some [Addr4 3325256706; Addr4 3325256705; Addr6 (2 ^ 48 - 2 ^ 32 + 3325256705) EmptyString].
Definition demoDomainRequest : Request :=
  mkRequest inboundTag "sspanel-node-15-user-42" "203.0.113.1" "tcp" "example.org" 443 true.

Lemma Open_admits_witness :
  ∃ r' d p, Open demo0 demoDNS demoDomainRequest = (r', Ok d) ∧
    prepares demo0 demoDNS demoDomainRequest p ∧ ResolvedAddress d = "198.51.100.1".
Proof.
  destruct (Open demo0 demoDNS demoDomainRequest) as [r' [d|e|]] eqn:E; [|exfalso; by vm_compute in E..].
  destruct (proj1 (Open_admits demo0 demoDNS demoDomainRequest r' d eq_refl) E) as (p & H & _).
  exists r', d, p. split; [done|]. split; [exact H|].
  assert (d = match (Open demo0 demoDNS demoDomainRequest).2 with Ok d => d | _ => mkDecision EmptyString None end)
    as -> by (by rewrite E). by vm_compute.
Defined.

Lemma Open_refusal_only_counts_witness :
  Open demo2 noDNS (demoRequest "203.0.113.1" "udp") = (reject "xudp_global" demo2, Err (rejection "xudp_global")).
Proof.
  destruct (Open demo2 noDNS (demoRequest "203.0.113.1" "udp")) as [r' res] eqn:E.
  assert (Hres : res = Err (rejection "xudp_global")).
  { assert (res = (Open demo2 noDNS (demoRequest "203.0.113.1" "udp")).2) as -> by (by rewrite E). by vm_compute. }
  destruct (Open_refusal_only_counts _ _ _ _ _ E) as [(_ & _ & H)|[(e & H & ->)|(d & H & _)]].
  - rewrite Hres in H. discriminate H.
  - rewrite Hres in H. assert (Ee : "xudp_global" = e) by (injection H as H; exact H).
    rewrite <- Ee, Hres. reflexivity.
  - rewrite Hres in H. discriminate H.
Defined.

Lemma close_undoes_open_witness :
  CloseLease demo2 2 =
    with_detached (<[2 := lease_close (newLease demo1 (demoPrepared "203.0.113.2" XUDP))]> ∅)
      (with_nextID 2 demo1).
Proof.
  apply (close_undoes_open nobody (demoSnapshot 2 []) demoConfig (mkWorld demo1 demoAdmitted1)
    (demoPrepared "203.0.113.2" XUDP) demo2 (mkDecision EmptyString (Some 2)) 2 demo1_reachable);
    [exact (λ H, H)|by vm_compute..].
Defined.

Lemma rebind_moves_source_witness :
  ∃ r', Rebind demo2 1 "203.0.113.9" = (r', Ok tt) ∧
    mget (userSources r' 42) "203.0.113.9" = mget (userSources demo2 42) "203.0.113.9" + 1.
Proof.
  destruct (Rebind demo2 1 "203.0.113.9") as [r' res] eqn:E.
  assert (Hres : res = Ok tt).
  { assert (res = (Rebind demo2 1 "203.0.113.9").2) as -> by (by rewrite E). by vm_compute. }
  destruct (rebind_moves_source nobody (demoSnapshot 2 []) demoConfig (mkWorld demo2 demoAdmitted) 1
    (newLease demo0 (demoPrepared "203.0.113.1" TCP)) "203.0.113.9" r' res demo_reachable
    ltac:(by vm_compute) (λ H, H) E) as [(e & H & _)|(ip & user & _ & Hip & _ & _ & _ & _ & _ & _ & H)]; [congruence|].
  assert (ip = "203.0.113.9") as -> by (vm_compute in Hip; congruence).
  exists r'. split; [by rewrite Hres|]. rewrite H.
  change (l_userID _) with 42. change (l_sourceIP _) with "203.0.113.1".
  rewrite (bool_decide_eq_false_2 ("203.0.113.1" = "203.0.113.9")) by done.
  rewrite !bool_decide_eq_true_2 by done. simpl. lia.
Defined.

Lemma demo1_closed_reachable :
  reachable nobody (demoSnapshot 2 []) demoConfig (mkWorld (CloseLease demo1 1) demoAdmitted1).
Proof.
  eapply reachable_step; [exact demo1_reachable|]. apply step_op, op_close_lease.
Qed.

(** A phantom source: the user has no session, and one counted source. *)
Lemma rebind_after_close_leaks_witness :
  ∃ r', Rebind (CloseLease demo1 1) 1 "203.0.113.9" = (r', Ok tt) ∧ CloseLease r' 1 = r' ∧
    sessions r' = ∅ ∧ mget (userSources r' 42) "203.0.113.9" = 1.
Proof.
  destruct (rebind_after_close_leaks nobody (demoSnapshot 2 []) demoConfig (mkWorld (CloseLease demo1 1) demoAdmitted1) 1
    (lease_close (newLease demo0 (demoPrepared "203.0.113.1" TCP))) "203.0.113.9" "203.0.113.9"
    demo1_closed_reachable (λ H, H) ltac:(by vm_compute) ltac:(by vm_compute) ltac:(by vm_compute)
    ltac:(by vm_compute) ltac:(done) ltac:(by vm_compute)) as (r' & H1 & H2 & H3 & H4).
  exists r'. assert (Hs : sessions r' = ∅) by (rewrite H3; by vm_compute).
  split; [exact H1|]. split; [exact H2|]. split; [exact Hs|].
  change 42 with (l_userID (lease_close (newLease demo0 (demoPrepared "203.0.113.1" TCP)))).
  rewrite H4, Hs. by vm_compute.
Defined.

Lemma live_sessions_share_limiters_witness :
  ∃ user, users demo2 !! 42 = Some user ∧
    limiter_for (Some 42) (user_SpeedLimitMbps user) (l_userRate (newLease demo0 (demoPrepared "203.0.113.1" TCP))).
Proof.
  destruct (live_sessions_share_limiters nobody (demoSnapshot 2 []) demoConfig
    (mkWorld demo2 demoAdmitted) 1 (newLease demo0 (demoPrepared "203.0.113.1" TCP)) demo_reachable
    ltac:(by vm_compute) ltac:(by vm_compute)) as (user & H1 & _ & _ & H2 & _).
  exists user. split; [exact H1|exact H2].
Defined.

Lemma wait_paces_every_byte_witness :
  ∃ lim, newLimiter 0 None (f64_of_int 8) = Some lim ∧ lim_burst lim = 1000000 ∧
    sum_list [100] = 100 ∧ 65536 ≤ lim_burst lim.
Proof.
  destruct (newLimiter 0 None (f64_of_int 8)) as [lim|] eqn:E; [|exfalso; by vm_compute in E].
  assert (Hb : lim_burst lim = 1000000) by (vm_compute in E; by injection E as <-).
  exists lim. split; [done|]. split; [done|].
  assert (Hw : wait (recorded (λ w _ _, (w, None))) (tt, []) (Some lim) 100 = ((tt, [100]), None)).
  { vm_compute in E. injection E as <-. by vm_compute. }
  destruct (wait_paces_every_byte (λ w _ _, (w, None)) 0 None (f64_of_int 8) lim tt 100 tt [100] None
    E ltac:(lia) Hw) as (_ & H1 & _ & H2).
  split; [by apply H2|exact H1].
Defined.
