(* ===== verification/NetAddress.v ===== *)
(** Xray-core's destination addresses ([common/net/address.go],
    [common/protocol/address.go] in the vendored core): what a client can name
    as a destination in a VLESS header or a Mux frame, the text the session
    controller is given for it, and the address that a controller's answer is
    parsed back into. A destination read from the wire is an address or a name
    that is not an address in any notation. *)
From S2P Require Import Prelude GoString Digest Netip NetipText.

Local Open Scope string_scope.
Local Open Scope Z_scope.

(** ** Addresses

    The three implementations of net.Address; an IPv4 or IPv6 address is the
    big-endian value of its bytes. *)
Inductive Address : Type :=
| ipv4Address (value : Z)
| ipv6Address (value : Z)
| domainAddress (domain : string).

#[global] Instance Address_eq_dec : EqDecision Address.
Proof. solve_decision. Defined.

Definition IsDomain (a : Address) : bool := match a with domainAddress _ => true | _ => false end.

(** the [n] big-endian bytes of a value, and back *)
Fixpoint be_bytes (n : nat) (v : Z) : list Z :=
  match n with O => [] | S n => (be_bytes n (v / 256) ++ [v mod 256])%list end.
Definition be_value (l : list Z) : Z := value_of_fields 256 l.

(** IPAddress; [None] is the nil interface that an ill-formed length gives *)
Definition IPAddress (ip : list Z) : option Address :=
  if (length ip =? 4)%nat then Some (ipv4Address (be_value ip))
  else if (length ip =? 16)%nat then
    if bool_decide (take 10 ip = replicate 10 0) && (nth 10 ip 0 =? 255) && (nth 11 ip 0 =? 255)
    then Some (ipv4Address (be_value (drop 12 ip)))
    else Some (ipv6Address (be_value ip))
  else None.

(** the first bytes of an IPv4-mapped address *)
Definition mapped_prefix : list Z := replicate 10 0 ++ [255; 255].

(** net.ParseIP of the standard library: netip's parser, without zones; the
    result has 16 bytes *)
Definition As16 (a : Addr) : list Z :=
  match a with
  | Addr4 v => (mapped_prefix ++ be_bytes 4 v)%list
  | Addr6 v _ => be_bytes 16 v
  end.
Definition ParseIP (s : string) : option (list Z) :=
  match ParseAddr s with
  | Some a => if has_zone a then None else Some (As16 a)
  | None => None
  end.

Definition isAlphaNum (c : ascii) : bool :=
  let n := code c in
  ((48 <=? n) && (n <=? 57)) || ((97 <=? n) && (n <=? 122)) || ((65 <=? n) && (n <=? 90)).

Definition first_char (s : string) : option ascii := match s with String c _ => Some c | EmptyString => None end.
Definition last_char (s : string) : option ascii := first_char (String.rev s).

(** ParseAddress *)
Definition ParseAddress (addr : string) : option Address :=
  let addr :=
    match first_char addr, last_char addr with
    | Some "["%char, Some "]"%char => take_chars (String.length addr - 2) (drop_chars 1 addr)
    | _, _ => addr
    end in
  let addr :=
    match first_char addr, last_char addr with
    | Some first, Some last =>
        if negb (isAlphaNum first) || negb (isAlphaNum last) then trim_space addr else addr
    | _, _ => addr
    end in
  match ParseIP addr with
  | Some ip => IPAddress ip
  | None => Some (domainAddress addr)
  end.

(** the String method: a 16-byte address prints as [netip] prints it, an
    IPv4-mapped one in the dotted form *)
Definition Address_String (a : Address) : string :=
  match a with
  | ipv4Address v => string4 v
  | ipv6Address v => "[" +:+ addr_string (Unmap (Addr6 v EmptyString)) +:+ "]"
  | domainAddress d => d
  end.

(** ** Reading an address from the wire

    A buffer and what is left of the input. Buffers hold [buf.Size] bytes. *)
Record Reading : Type := mkReading { rd_buffer : string; rd_input : string }.

Definition ReadFullFrom (size : Z) (st : Reading) : option Reading :=
  if 8192 <? slen (rd_buffer st) + size then None
  else if slen (rd_input st) <? size then None
  else Some (mkReading (rd_buffer st +:+ take_chars (Z.to_nat size) (rd_input st))
               (drop_chars (Z.to_nat size) (rd_input st))).

(** BytesFrom with a negative position counts from the end; [-0] is the start *)
Definition BytesFrom (from : Z) (b : string) : string :=
  drop_chars (Z.to_nat (if from <? 0 then from + slen b else from)) b.

Definition readPort (st : Reading) : option (Reading * Z) :=
  st ← ReadFullFrom 2 st;
  Some (st, be_value (bytes_of (BytesFrom (-2) (rd_buffer st)))).

Definition maybeIPPrefix (c : ascii) : bool :=
  Ascii.eqb c "[" || ((48 <=? code c) && (code c <=? 57)).

(** the loop ranges over runes; none outside ASCII is accepted *)
Definition domain_char (c : ascii) : bool :=
  isAlphaNum c || Ascii.eqb c "-" || Ascii.eqb c "." || Ascii.eqb c "_".
Definition isValidDomain (d : string) : bool := string_all domain_char d.

(** the families of the parser that VLESS and Mux configure: 1, 2 and 3 *)
Definition readAddress (st : Reading) : option (Reading * Address) :=
  st ← ReadFullFrom 1 st;
  match bytes_of (BytesFrom (-1) (rd_buffer st)) with
  | [1] =>
      st ← ReadFullFrom 4 st;
      a ← IPAddress (bytes_of (BytesFrom (-4) (rd_buffer st)));
      Some (st, a)
  | [3] =>
      st ← ReadFullFrom 16 st;
      a ← IPAddress (bytes_of (BytesFrom (-16) (rd_buffer st)));
      Some (st, a)
  | [2] =>
      st ← ReadFullFrom 1 st;
      match bytes_of (BytesFrom (-1) (rd_buffer st)) with
      | [domainLength] =>
          st ← ReadFullFrom domainLength st;
          let domain := BytesFrom (- domainLength) (rd_buffer st) in
          let ip :=
            match domain with
            | String c _ =>
                if maybeIPPrefix c then
                  match ParseAddress domain with
                  | Some a => if IsDomain a then None else Some a
                  | None => None
                  end
                else None
            | EmptyString => None
            end in
          match ip with
          | Some a => Some (st, a)
          | None => if isValidDomain domain then Some (st, domainAddress domain) else None
          end
      | _ => None
      end
  | _ => None
  end.

(** ReadAddressPort of the parser with PortThenAddress *)
Definition ReadAddressPort (st : Reading) : option (Reading * Address * Z) :=
  '(st, port) ← readPort st;
  '(st, addr) ← readAddress st;
  Some (st, addr, port).

Example wire_v4 :
  (λ x, x.1.2) <$> ReadAddressPort (mkReading EmptyString (bytes [1; 187; 1; 192; 0; 2; 1]%nat))
    = Some (ipv4Address 3221225985).
Proof. vm_compute. reflexivity. Qed.
Example wire_domain :
  (λ x, (x.1.2, x.2)) <$> ReadAddressPort (mkReading EmptyString (bytes [1; 187; 2; 4]%nat +:+ "a.io"))
    = Some (domainAddress "a.io", 443).
Proof. vm_compute. reflexivity. Qed.
Example wire_disguised :
  (λ x, x.1.2) <$> ReadAddressPort (mkReading EmptyString (bytes [1; 187; 2; 9]%nat +:+ "192.0.2.1"))
    = Some (ipv4Address 3221225985).
Proof. vm_compute. reflexivity. Qed.
Example wire_refused :
  map (λ s, bool_decide (is_Some (ReadAddressPort (mkReading EmptyString (bytes [1; 187]%nat +:+ s)))))
    [bytes [2; 0]%nat; bytes [2; 1]%nat +:+ "%"; bytes [2; 2]%nat +:+ "a"; bytes [4]%nat; bytes [2; 3]%nat +:+ "::1"]
    = [false; false; false; false; false].
Proof. vm_compute. reflexivity. Qed.
Example parse_address_ex :
  map (λ s, Address_String <$> ParseAddress s) ["[2001:db8::1]"; " example.org "; "::ffff:192.0.2.1"; "fe80::1%eth0"]
    = [Some "[2001:db8::1]"; Some "example.org"; Some "192.0.2.1"; Some "fe80::1%eth0"].
Proof. vm_compute. reflexivity. Qed.

(** ** Bytes and values *)
Lemma be_bytes_length n v : length (be_bytes n v) = n.
Proof. revert v. induction n as [|n IH]; intros v; [done|]. cbn [be_bytes]. rewrite length_app, IH. simpl. lia. Qed.

Lemma be_value_mod n v : be_value (be_bytes n v) = v mod 256 ^ Z.of_nat n.
Proof.
  revert v. induction n as [|n IH]; intros v; [by rewrite Z.pow_0_r, Z.mod_1_r|].
  cbn [be_bytes]. unfold be_value in *. rewrite value_of_fields_snoc, IH, Nat2Z.inj_succ, Z.pow_succ_r by lia.
  rewrite Z.rem_mul_r by lia. ring.
Qed.

Lemma be_value_bytes n v : 0 ≤ v < 256 ^ Z.of_nat n → be_value (be_bytes n v) = v.
Proof. intros Hv. by rewrite be_value_mod, Z.mod_small. Qed.

Lemma be_bytes_value l : Forall (λ b, 0 ≤ b < 256) l → be_bytes (length l) (be_value l) = l.
Proof.
  induction l as [|b l IH] using rev_ind; [done|]. rewrite Forall_app, Forall_singleton. intros [Hl Hb].
  rewrite length_app, Nat.add_1_r. cbn [be_bytes]. unfold be_value in *. rewrite value_of_fields_snoc.
  assert ((value_of_fields 256 l * 256 + b) / 256 = value_of_fields 256 l) as -> by (rewrite Z.div_add_l, Z.div_small by lia; lia).
  rewrite IH by done. do 2 f_equal. rewrite Z.add_comm, Z.mod_add by lia. by apply Z.mod_small.
Qed.

Lemma be_value_range l : Forall (λ b, 0 ≤ b < 256) l → 0 ≤ be_value l < 256 ^ Z.of_nat (length l).
Proof.
  induction l as [|b l IH] using rev_ind; [done|].
  rewrite Forall_app, Forall_singleton. intros [Hl%IH Hb]. unfold be_value in *.
  rewrite value_of_fields_snoc, length_app, Nat.add_1_r, Nat2Z.inj_succ, Z.pow_succ_r by lia. nia.
Qed.

Lemma be_bytes_app n m v :
  be_bytes (n + m) v = (be_bytes n (v / 256 ^ Z.of_nat m) ++ be_bytes m v)%list.
Proof.
  revert v. induction m as [|m IH]; intros v.
  - rewrite Nat.add_0_r, Z.pow_0_r, Z.div_1_r. simpl. by rewrite app_nil_r.
  - rewrite Nat.add_succ_r. cbn [be_bytes]. rewrite IH.
    rewrite Nat2Z.inj_succ, Z.pow_succ_r, Z.div_div by lia. by rewrite app_assoc.
Qed.

(** ** Addresses in range *)
Definition is_ip (a : Address) : Prop :=
  match a with
  | ipv4Address v => 0 ≤ v < 2 ^ 32
  | ipv6Address v => 0 ≤ v < 2 ^ 128 ∧ v / 2 ^ 32 ≠ 65535
  | domainAddress _ => False
  end.

(** the address as netip has it *)
Definition netip_of (a : Address) : option Addr :=
  match a with
  | ipv4Address v => Some (Addr4 v)
  | ipv6Address v => Some (Addr6 v EmptyString)
  | domainAddress _ => None
  end.

Lemma IPAddress_4 v : 0 ≤ v < 2 ^ 32 → IPAddress (be_bytes 4 v) = Some (ipv4Address v).
Proof. intros Hv. unfold IPAddress. rewrite be_bytes_length. cbn [Nat.eqb]. by rewrite be_value_bytes. Qed.

Lemma mapped_prefix_check l t : length l = 12%nat →
  bool_decide (take 10 (l ++ t) = replicate 10 0) && (nth 10 (l ++ t) 0 =? 255) && (nth 11 (l ++ t) 0 =? 255)
    = bool_decide (l = mapped_prefix).
Proof.
  intros Hl. do 12 (destruct l as [|? l]; [done|]). destruct l; [|done]. unfold mapped_prefix.
  cbn [app take replicate nth]. apply eq_true_iff_eq.
  rewrite !andb_true_iff, !bool_decide_eq_true, !Z.eqb_eq. split.
  - intros [[[= -> -> -> -> -> -> -> -> -> ->] ->] ->]. done.
  - by intros [= -> -> -> -> -> -> -> -> -> -> -> ->].
Qed.

Lemma IPAddress_16 v : 0 ≤ v < 2 ^ 128 →
  IPAddress (be_bytes 16 v) =
    Some (if v / 2 ^ 32 =? 65535 then ipv4Address (v mod 2 ^ 32) else ipv6Address v).
Proof.
  intros Hv. unfold IPAddress. rewrite be_bytes_length. cbn [Nat.eqb].
  assert (Hr : 0 ≤ v / 2 ^ 32 < 256 ^ Z.of_nat 12).
  { split; [apply Z.div_pos; lia|]. apply Z.div_lt_upper_bound; [done|]. by destruct Hv. }
  assert (E : be_bytes 16 v = (be_bytes 12 (v / 2 ^ 32) ++ be_bytes 4 v)%list).
  { change 16%nat with (12 + 4)%nat. by rewrite be_bytes_app. }
  assert (Hm : bool_decide (be_bytes 12 (v / 2 ^ 32) = mapped_prefix) = (v / 2 ^ 32 =? 65535)).
  { apply eq_true_iff_eq. rewrite bool_decide_eq_true, Z.eqb_eq. split; [|by intros ->].
    intros H. by rewrite <- (be_value_bytes 12 (v / 2 ^ 32) Hr), H. }
  assert (Hc : bool_decide (take 10 (be_bytes 16 v) = replicate 10 0) && (nth 10 (be_bytes 16 v) 0 =? 255)
             && (nth 11 (be_bytes 16 v) 0 =? 255) = (v / 2 ^ 32 =? 65535)).
  { by rewrite E, mapped_prefix_check by apply be_bytes_length. }
  rewrite Hc.
  rewrite (be_value_bytes 16 v Hv). destruct (v / 2 ^ 32 =? 65535); [|done].
  rewrite E.
  rewrite drop_app_length' by (by rewrite be_bytes_length). by rewrite be_value_mod.
Qed.

Lemma IPAddress_mapped v : 0 ≤ v < 2 ^ 32 → IPAddress (mapped_prefix ++ be_bytes 4 v) = Some (ipv4Address v).
Proof.
  intros Hv. unfold IPAddress. rewrite length_app, be_bytes_length. cbn [length Nat.eqb].
  change (length mapped_prefix + 4 =? 4)%nat with false. change (length mapped_prefix + 4 =? 16)%nat with true.
  cbv iota. rewrite (mapped_prefix_check mapped_prefix) by done. rewrite bool_decide_eq_true_2 by done.
  change (drop 12 (mapped_prefix ++ be_bytes 4 v)) with (be_bytes 4 v). by rewrite be_value_bytes.
Qed.

Lemma IPAddress_is_ip ip a : Forall (λ b, 0 ≤ b < 256) ip → IPAddress ip = Some a → is_ip a.
Proof.
  intros HF. destruct (Nat.eq_dec (length ip) 4%nat) as [E|E4]; [|destruct (Nat.eq_dec (length ip) 16%nat) as [E|E]].
  - pose proof (be_value_range ip HF) as Hr. pose proof (be_bytes_value ip HF) as Hb. rewrite E in Hr, Hb. rewrite <- Hb.
    rewrite IPAddress_4 by done. by intros [= <-].
  - pose proof (be_value_range ip HF) as Hr. pose proof (be_bytes_value ip HF) as Hb. rewrite E in Hr, Hb. rewrite <- Hb.
    rewrite IPAddress_16 by done. destruct (Z.eqb_spec (be_value ip / 2 ^ 32) 65535); intros [= <-]; [|done].
    by apply Z.mod_pos_bound.
  - unfold IPAddress. by rewrite !(proj2 (Nat.eqb_neq _ _)).
Qed.

(** ** The text of an address *)
Definition text_char (c : ascii) : bool := is_hex_colon c || digit_dot c.

Lemma text_char_plain c : text_char c = true → graphic c = true ∧ char_in c "[]" = false.
Proof. destruct c as [[] [] [] [] [] [] [] []]; intros Hc; first [discriminate Hc | split; reflexivity]. Qed.

Lemma text_graphic s : string_all text_char s = true → string_all graphic s = true.
Proof. apply string_all_weaken. intros c Hc. by apply text_char_plain. Qed.

Lemma text_unbracketed s : string_all text_char s = true → string_all (λ c, negb (char_in c "[]")) s = true.
Proof. apply string_all_weaken. intros c Hc. apply negb_true_iff. by apply text_char_plain. Qed.

Lemma canonical_text n : has_zone n = false → string_all text_char (addr_string (Unmap n)) = true.
Proof.
  assert (H4 : ∀ v, string_all text_char (string4 v) = true).
  { intros v. eapply string_all_weaken; [|apply string4_text]. intros c Hc. unfold text_char. by rewrite Hc, orb_true_r. }
  destruct n as [v|v z]; intros Hz; [apply H4|]. unfold Unmap. destruct (Is4In6 (Addr6 v z)) eqn:E; [apply H4|].
  unfold addr_string. rewrite E. destruct z; [|done]. cbn [zone_suffix]. rewrite string_app_nil_r.
  eapply string_all_weaken; [|apply string6_text]. intros c Hc. unfold text_char. by rewrite Hc.
Qed.

(** the text of an address, brackets off, is netip's canonical text *)
Lemma Address_String_trim a n : netip_of a = Some n → is_ip a →
  trim (Address_String a) "[]" = addr_string (Unmap n).
Proof.
  intros Hn Hip. destruct a as [v|v|]; simplify_eq/=.
  - apply trim_func_none, text_unbracketed, (canonical_text (Addr4 v) eq_refl).
  - change ("[" +:+ ?s +:+ "]") with (String "[" (s +:+ "]")).
    by apply trim_bracketed, text_unbracketed, (canonical_text (Addr6 v EmptyString)).
Qed.

Lemma netip_of_ok a n : netip_of a = Some n → is_ip a → addr_ok n ∧ Unmap n = n ∧ has_zone n = false.
Proof.
  destruct a as [v|v|]; intros [= <-]; simpl; [done|]. intros [Hv Hm].
  by rewrite (proj2 (Z.eqb_neq _ _) Hm).
Qed.

(** a text of graphic characters that does not begin with a bracket is parsed
    as it is *)
Lemma ParseAddress_plain s : string_all graphic s = true → first_char s ≠ Some "["%char →
  ParseAddress s = match ParseIP s with Some ip => IPAddress ip | None => Some (domainAddress s) end.
Proof.
  intros Hg Hb. unfold ParseAddress. destruct s as [|c s]; [done|]. cbn [first_char] in *.
  assert ((match Some c, last_char (String c s) with
           | Some "["%char, Some "]"%char => take_chars (String.length (String c s) - 2) (drop_chars 1 (String c s))
           | _, _ => String c s end) = String c s) as ->.
  { destruct c as [[] [] [] [] [] [] [] []]; done. }
  cbv zeta. cbn [first_char]. rewrite trim_space_graphic by done.
  destruct (last_char (String c s)); [|done]. by destruct (negb _ || _).
Qed.

(** ParseAddress reads the canonical text of an address back as that address. *)
Lemma ParseAddress_canonical n : addr_ok n → has_zone n = false →
  ∃ a, ParseAddress (addr_string (Unmap n)) = Some a ∧ is_ip a ∧ netip_of a = Some (Unmap n).
Proof.
  intros Hok Hz. pose proof (canonical_text n Hz) as Ht.
  destruct (Unmap_ok n Hok) as [Hok' H46]. pose proof (ParseAddr_string _ Hok' H46) as Hparse.
  assert (Hz' : has_zone (Unmap n) = false).
  { destruct n as [|v z]; [done|]. unfold Unmap. destruct (Is4In6 (Addr6 v z)); [done|exact Hz]. }
  revert Ht Hparse. generalize (addr_string (Unmap n)). intros s Ht Hparse.
  rewrite ParseAddress_plain; [|by apply text_graphic|].
  2:{ destruct s as [|c s]; [done|]. simpl in Ht. apply andb_true_iff in Ht as [Ht _]. by intros [= ->]. }
  unfold ParseIP. rewrite Hparse, Hz'. destruct (Unmap n) as [v|v z]; cbn [As16 addr_ok Is4In6] in *.
  - exists (ipv4Address v). by rewrite IPAddress_mapped.
  - exists (ipv6Address v). rewrite IPAddress_16, H46 by done. destruct z; [|done].
    split; [done|]. split; [|done]. split; [done|by apply Z.eqb_neq].
Qed.

(** ** What the wire can name *)
Lemma code_range c : 0 ≤ code c < 256.
Proof. unfold code. pose proof (N_ascii_bounded c). lia. Qed.

Lemma bytes_of_length s : length (bytes_of s) = String.length s.
Proof. unfold bytes_of. rewrite length_map. induction s as [|c s IH]; simpl; [done|by rewrite IH]. Qed.

Lemma bytes_of_range s : Forall (λ b, 0 ≤ b < 256) (bytes_of s).
Proof. unfold bytes_of. apply Forall_fmap, Forall_forall. intros c _. apply code_range. Qed.

(** a name without bracket, colon or percent sign is an address only if it is
    one in the dotted form, which begins with a digit *)
Lemma domain_kind d : isValidDomain d = true → addr_kind d = None ∨ addr_kind d = Some "."%char.
Proof.
  unfold isValidDomain. induction d as [|c d IH]; [by left|]. cbn [string_all addr_kind].
  intros [Hc Hd]%andb_true_iff. destruct (Ascii.eqb_spec c "."); [subst; by right|].
  destruct (Ascii.eqb_spec c ":"); [by subst|]. destruct (Ascii.eqb_spec c "%"); [by subst|]. by apply IH.
Qed.

Lemma domain_ParseAddr d a : isValidDomain d = true → ParseAddr d = Some a →
  has_zone a = false ∧ ∃ c rest, d = String c rest ∧ is_digit c = true.
Proof.
  intros Hd. unfold ParseAddr. destruct (domain_kind d Hd) as [-> | ->]; [done|].
  destruct (parse4 d) as [v|] eqn:Hp; [|done]. intros [= <-]. split; [done|].
  destruct d as [|c rest]; [done|]. exists c, rest. split; [done|].
  unfold parse4 in Hp. cbn [parse4_loop] in Hp. destruct (is_digit c); [done|].
  by destruct (Ascii.eqb c ".").
Qed.

Lemma domain_char_graphic c : domain_char c = true → graphic c = true.
Proof. destruct c as [[] [] [] [] [] [] [] []]; intros Hc; first [discriminate Hc | reflexivity]. Qed.

Lemma ReadFullFrom_inv size st st' : 0 ≤ size → ReadFullFrom size st = Some st' →
  slen (rd_buffer st') = slen (rd_buffer st) + size.
Proof.
  intros Hs. unfold ReadFullFrom. destruct (8192 <? _); [done|].
  destruct (Z.ltb_spec (slen (rd_input st)) size); [done|]. intros [= <-]. simpl.
  unfold slen in *. rewrite string_length_app, take_chars_length_le by lia. lia.
Qed.

(** the name that the parser reads is never empty *)
Lemma BytesFrom_nonempty size b : 0 ≤ size ≤ slen b → 0 < slen b → BytesFrom (- size) b ≠ EmptyString.
Proof.
  intros Hs Hb E. assert (Hl : slen (BytesFrom (- size) b) = 0) by by rewrite E.
  unfold BytesFrom, slen in *. rewrite drop_chars_length in Hl. destruct (Z.ltb_spec (- size) 0); lia.
Qed.

(** the destinations that the wire can name: an address, or a name that no
    notation makes an address *)
Definition is_name (d : string) : Prop := d ≠ EmptyString ∧ isValidDomain d = true ∧ ParseAddr d = None.
Definition wire_address (a : Address) : Prop :=
  match a with domainAddress d => is_name d | _ => is_ip a end.

Lemma domain_is_name c rest : isValidDomain (String c rest) = true →
  (maybeIPPrefix c = true → ∀ a, ParseAddress (String c rest) = Some a → IsDomain a = true) →
  is_name (String c rest).
Proof.
  intros Hd Hip. split; [done|]. split; [done|].
  destruct (ParseAddr (String c rest)) as [n|] eqn:Hn; [exfalso|done].
  destruct (domain_ParseAddr _ _ Hd Hn) as [Hz (c' & rest' & [= <- <-] & Hdigit)].
  assert (Hmaybe : maybeIPPrefix c = true) by (unfold maybeIPPrefix; fold (is_digit c); by rewrite Hdigit, orb_true_r).
  pose proof (string_all_weaken _ _ _ domain_char_graphic Hd) as Hg.
  assert (Hb : first_char (String c rest) ≠ Some "["%char) by (intros [= ->]; by vm_compute in Hdigit).
  assert (E : ParseAddress (String c rest) = IPAddress (As16 n)).
  { rewrite (ParseAddress_plain _ Hg Hb). unfold ParseIP. by rewrite Hn, Hz. }
  apply ParseAddr_ok in Hn. specialize (Hip Hmaybe). rewrite E in Hip.
  destruct n as [v|v z]; cbn [As16 addr_ok] in *.
  - rewrite IPAddress_mapped in Hip by done. by specialize (Hip _ eq_refl).
  - rewrite IPAddress_16 in Hip by done. specialize (Hip _ eq_refl). by destruct (_ =? _).
Qed.

Lemma wire_ip s a : IPAddress (bytes_of s) = Some a → wire_address a.
Proof. intros Ha%IPAddress_is_ip; [by destruct a|apply bytes_of_range]. Qed.

Lemma ParseIP_ip s ip a : ParseIP s = Some ip → IPAddress ip = Some a → is_ip a.
Proof.
  unfold ParseIP. destruct (ParseAddr s) as [n|] eqn:Hn; [|done]. apply ParseAddr_ok in Hn.
  destruct (has_zone n); [done|]. intros [= <-]. destruct n as [v|v z]; cbn [As16 addr_ok] in *.
  - rewrite IPAddress_mapped by done. by intros [= <-].
  - rewrite IPAddress_16 by done. destruct (Z.eqb_spec (v / 2 ^ 32) 65535); intros [= <-]; [|done].
    by apply Z.mod_pos_bound.
Qed.

Lemma ParseAddress_ip s a : ParseAddress s = Some a → IsDomain a = false → is_ip a.
Proof.
  unfold ParseAddress. cbv zeta. set (t := match first_char s with Some _ => _ | None => s end).
  set (u := match first_char t with Some _ => _ | None => t end).
  destruct (ParseIP u) as [ip|] eqn:Hip; [by intros ?%(ParseIP_ip _ _ _ Hip)|by intros [= <-]].
Qed.

(** the address family bytes of the parser: IPv4, IPv6 and names *)
Lemma readAddress_wire st st' a : readAddress st = Some (st', a) → wire_address a.
Proof.
  unfold readAddress. destruct (ReadFullFrom 1 st) as [st1|]; [|done]. cbn [mbind option_bind].
  assert (Hip : ∀ size, (st2 ← ReadFullFrom size st1; a0 ← IPAddress (bytes_of (BytesFrom (- size) (rd_buffer st2)));
                         Some (st2, a0)) = Some (st', a) → wire_address a).
  { intros size. destruct (ReadFullFrom size st1) as [st2|]; [|done]. cbn [mbind option_bind].
    destruct (IPAddress _) as [b|] eqn:Hb; [|done]. intros [= _ <-]. by eapply wire_ip. }
  destruct (bytes_of _) as [|f [|]]; [done| |by repeat case_match].
  destruct f as [|[[]|[]|]|]; try done; [apply (Hip 16)| |apply (Hip 4)].
  destruct (ReadFullFrom 1 st1) as [st2|] eqn:E2; [|done]. cbn [mbind option_bind].
  destruct (bytes_of (BytesFrom (-1) (rd_buffer st2))) as [|len [|]] eqn:Hl; [done| |done].
  assert (Hlen : 0 ≤ len).
  { pose proof (bytes_of_range (BytesFrom (-1) (rd_buffer st2))) as HF. rewrite Hl in HF.
    apply Forall_cons in HF as [HF _]. lia. }
  destruct (ReadFullFrom len st2) as [st3|] eqn:E3; [|done]. cbn [mbind option_bind].
  apply ReadFullFrom_inv in E2, E3; [|lia..].
  assert (Hne : BytesFrom (- len) (rd_buffer st3) ≠ EmptyString).
  { unfold slen in *. apply BytesFrom_nonempty; unfold slen; lia. }
  destruct (BytesFrom (- len) (rd_buffer st3)) as [|c d]; [done|].
  destruct (maybeIPPrefix c) eqn:Hm.
  - destruct (ParseAddress (String c d)) as [b|] eqn:Hb.
    + destruct (IsDomain b) eqn:Hdom.
      * destruct (isValidDomain (String c d)) eqn:Hv; [|done]. intros [= _ <-].
        apply domain_is_name; [done|]. intros _ b'. rewrite Hb. by intros [= <-].
      * intros [= _ <-]. pose proof (ParseAddress_ip _ _ Hb Hdom). by destruct b.
    + destruct (isValidDomain (String c d)) eqn:Hv; [|done]. intros [= _ <-].
      apply domain_is_name; [done|]. intros _ b'. by rewrite Hb.
  - destruct (isValidDomain (String c d)) eqn:Hv; [|done]. intros [= _ <-].
    apply domain_is_name; [done|]. by rewrite Hm.
Qed.

Lemma ReadAddressPort_wire st st' a port :
  ReadAddressPort st = Some (st', a, port) → wire_address a ∧ 0 ≤ port < 65536.
Proof.
  unfold ReadAddressPort, readPort. destruct (ReadFullFrom 2 st) as [st1|] eqn:E; [|done]. cbn [mbind option_bind].
  destruct (readAddress st1) as [[st2 b]|] eqn:Ha; [|done]. cbn [mbind option_bind]. intros [= <- <- <-].
  split; [by eapply readAddress_wire|].
  pose proof (be_value_range _ (bytes_of_range (BytesFrom (-2) (rd_buffer st1)))) as Hr.
  enough (length (bytes_of (BytesFrom (-2) (rd_buffer st1))) = 2%nat) as El by by rewrite El in Hr.
  apply ReadFullFrom_inv in E; [|lia]. rewrite bytes_of_length.
  unfold BytesFrom. rewrite drop_chars_length. unfold slen in *. cbn [Z.ltb Z.compare Z.opp]. lia.
Qed.
