(* ===== verification/WireAddress.v ===== *)
(** Addresses written to the wire ([common/protocol/address.go] in the vendored core):
    what the address writer of VLESS and Mux writes, and that its reader, which NetAddress
    models, reads it back. *)
From S2P Require Import Prelude GoString Digest Netip NetipText NetAddress.

Local Open Scope string_scope.
Local Open Scope Z_scope.

(** ** Bytes to write *)
Definition char_of (b : Z) : ascii := ascii_of_N (Z.to_N b).
Definition string_of (l : list Z) : string := fold_right (λ b s, String (char_of b) s) EmptyString l.

Lemma code_char_of b : 0 ≤ b < 256 → code (char_of b) = b.
Proof. intros Hb. unfold code, char_of. rewrite N_ascii_embedding by lia. lia. Qed.

Lemma bytes_of_string_of l : Forall (λ b, 0 ≤ b < 256) l → bytes_of (string_of l) = l.
Proof.
  induction 1 as [|b l Hb _ IH]; [done|].
  change (code (char_of b) :: bytes_of (string_of l) = b :: l). by rewrite IH, code_char_of.
Qed.

Lemma string_of_length l : String.length (string_of l) = length l.
Proof. induction l as [|b l IH]; [done|]. cbn [string_of fold_right String.length length]. by rewrite <- IH. Qed.

Lemma be_bytes_range n v : Forall (λ b, 0 ≤ b < 256) (be_bytes n v).
Proof.
  revert v. induction n as [|n IH]; intros v; [constructor|]. cbn [be_bytes]. apply Forall_app. split; [apply IH|].
  apply Forall_singleton. apply Z.mod_pos_bound. lia.
Qed.

(** ** The writer *)
Definition writePort (port : Z) : string := string_of (be_bytes 2 port).

Definition isDomainTooLong (domain : string) : bool := 256 <? slen domain.

(** the families and their bytes: 1, 2 and 3 *)
Definition writeAddress (a : Address) : outcome string string :=
  match a with
  | ipv4Address v => Ok (string_of (1 :: be_bytes 4 v))
  | ipv6Address v => Ok (string_of (3 :: be_bytes 16 v))
  | domainAddress d =>
      guard_err (isDomainTooLong d) "Super long domain is not supported" ;?
      Ok (string_of [2; slen d mod 256] +:+ d)
  end.

(** WriteAddressPort of the parser with PortThenAddress: what is written, and the error;
    the port is written before an address is refused *)
Definition WriteAddressPort (a : Address) (port : Z) : string * outcome string unit :=
  match writeAddress a with
  | Ok s => (writePort port +:+ s, Ok tt)
  | Err e => (writePort port, Err e)
  | Panic => (writePort port, Panic)
  end.

Example write_v4 : WriteAddressPort (ipv4Address 3221225985) 443 = (bytes [1; 187; 1; 192; 0; 2; 1]%nat, Ok tt).
Proof. vm_compute. reflexivity. Qed.
Example write_name : WriteAddressPort (domainAddress "a.io") 443 = (bytes [1; 187; 2; 4]%nat +:+ "a.io", Ok tt).
Proof. vm_compute. reflexivity. Qed.

(** ** Reading it back *)
Lemma ReadFullFrom_app w b rest : slen b + slen w ≤ 8192 →
  ReadFullFrom (slen w) (mkReading b (w +:+ rest)) = Some (mkReading (b +:+ w) rest).
Proof.
  intros Hfit. unfold ReadFullFrom. cbn [rd_buffer rd_input].
  destruct (Z.ltb_spec 8192 (slen b + slen w)); [lia|].
  destruct (Z.ltb_spec (slen (w +:+ rest)) (slen w)) as [Hl|_]; [unfold slen in Hl; rewrite string_length_app in Hl; lia|].
  unfold slen. rewrite Nat2Z.id. by rewrite take_chars_app, drop_chars_app.
Qed.

Lemma BytesFrom_app w b : 0 < slen w → BytesFrom (- slen w) (b +:+ w) = w.
Proof.
  intros Hw. unfold BytesFrom. destruct (Z.ltb_spec (- slen w) 0) as [_|?]; [|lia].
  replace (Z.to_nat (- slen w + slen (b +:+ w))) with (String.length b)
    by (unfold slen; rewrite string_length_app; lia).
  apply drop_chars_app.
Qed.

(** reading as many bytes as were written, and looking at them *)
Lemma read_back (size from : Z) w b rest : size = slen w → from = - size → 0 < size → slen b + size ≤ 8192 →
  ReadFullFrom size (mkReading b (w +:+ rest)) = Some (mkReading (b +:+ w) rest) ∧ BytesFrom from (b +:+ w) = w.
Proof. intros -> -> Hw Hfit. split; [by apply ReadFullFrom_app|by apply BytesFrom_app]. Qed.

Lemma name_ParseAddress d : is_name d → ParseAddress d = Some (domainAddress d).
Proof.
  intros (Hne & Hd & Hp). rewrite ParseAddress_plain.
  - unfold ParseIP. by rewrite Hp.
  - eapply string_all_weaken; [|exact Hd]. apply domain_char_graphic.
  - destruct d as [|c d]; [done|]. intros [= ->]. by vm_compute in Hd.
Qed.

(** what the writer takes *)
Definition writable (a : Address) : Prop :=
  wire_address a ∧ match a with domainAddress d => slen d ≤ 255 | _ => True end.

(** a byte of a family or a length, and the bytes of an address *)
Lemma byte_back f b rest : 0 ≤ f < 256 → slen b ≤ 1024 →
  ReadFullFrom 1 (mkReading b (string_of [f] +:+ rest)) = Some (mkReading (b +:+ string_of [f]) rest) ∧
  bytes_of (BytesFrom (-1) (b +:+ string_of [f])) = [f].
Proof.
  intros Hf Hb. destruct (read_back 1 (-1) (string_of [f]) b rest) as [-> ->]; [done|done|done|lia|].
  split; [done|]. apply bytes_of_string_of. by apply Forall_singleton.
Qed.

Lemma value_back (n : nat) v b rest : (0 < n ≤ 16)%nat → slen b ≤ 2048 →
  ReadFullFrom (Z.of_nat n) (mkReading b (string_of (be_bytes n v) +:+ rest)) = Some (mkReading (b +:+ string_of (be_bytes n v)) rest) ∧
  bytes_of (BytesFrom (- Z.of_nat n) (b +:+ string_of (be_bytes n v))) = be_bytes n v.
Proof.
  intros Hn Hb.
  destruct (read_back (Z.of_nat n) (- Z.of_nat n) (string_of (be_bytes n v)) b rest) as [-> ->];
    [unfold slen; by rewrite string_of_length, be_bytes_length|done|lia|lia|].
  split; [done|]. apply bytes_of_string_of, be_bytes_range.
Qed.

Lemma string_of_slen l : slen (string_of l) = Z.of_nat (length l).
Proof. unfold slen. by rewrite string_of_length. Qed.
Lemma slen_app s t : slen (s +:+ t) = slen s + slen t.
Proof. unfold slen. rewrite string_length_app. lia. Qed.

(** an address of [n] bytes behind its family *)
Lemma ip_back f (n : nat) v b rest : 0 ≤ f < 256 → (0 < n ≤ 16)%nat → slen b ≤ 1024 →
  let w := string_of (f :: be_bytes n v) in
  ∃ st, ReadFullFrom 1 (mkReading b (w +:+ rest)) = Some st ∧ bytes_of (BytesFrom (-1) (rd_buffer st)) = [f] ∧
    ReadFullFrom (Z.of_nat n) st = Some (mkReading (b +:+ w) rest) ∧
    bytes_of (BytesFrom (- Z.of_nat n) (b +:+ w)) = be_bytes n v.
Proof.
  intros Hf Hn Hb w. change w with (string_of [f] +:+ string_of (be_bytes n v)). rewrite string_app_assoc.
  destruct (byte_back f b (string_of (be_bytes n v) +:+ rest) Hf Hb) as [-> E1].
  assert (Hb1 : slen (b +:+ string_of [f]) ≤ 2048) by (rewrite slen_app, string_of_slen; cbn [length]; lia).
  destruct (value_back n v (b +:+ string_of [f]) rest Hn Hb1) as [E2 E3].
  eexists. split; [done|]. split; [done|]. rewrite string_app_assoc in E2, E3. by split.
Qed.

Lemma name_back d b rest : is_name d → slen d ≤ 255 → slen b ≤ 1024 →
  readAddress (mkReading b ((string_of [2; slen d] +:+ d) +:+ rest)) =
    Some (mkReading (b +:+ string_of [2; slen d] +:+ d) rest, domainAddress d).
Proof.
  intros Hname Hlong Hb. assert (Hd : 0 < slen d) by (destruct Hname as [? _]; destruct d; [done|unfold slen; cbn; lia]).
  unfold readAddress. change (string_of [2; slen d]) with (string_of [2] +:+ string_of [slen d]). rewrite !string_app_assoc.
  destruct (byte_back 2 b (string_of [slen d] +:+ d +:+ rest)) as [-> E1]; [lia|lia|].
  cbn [mbind option_bind rd_buffer]. rewrite E1. cbn iota.
  assert (H2 : ReadFullFrom 1 (mkReading (b +:+ string_of [2]) (string_of [slen d] +:+ d +:+ rest)) =
      Some (mkReading ((b +:+ string_of [2]) +:+ string_of [slen d]) (d +:+ rest)) ∧
    BytesFrom (-1) ((b +:+ string_of [2]) +:+ string_of [slen d]) = string_of [slen d]).
  { apply read_back; [done|done|done|rewrite slen_app, string_of_slen; cbn [length]; lia]. }
  destruct H2 as [-> E2]. cbn [mbind option_bind rd_buffer]. rewrite E2, bytes_of_string_of by (apply Forall_singleton; lia).
  destruct (read_back (slen d) (- slen d) d ((b +:+ string_of [2]) +:+ string_of [slen d]) rest) as [-> E3];
    [done|done|done|rewrite !slen_app, !string_of_slen; cbn [length]; lia|].
  cbn [mbind option_bind rd_buffer]. cbv zeta. rewrite E3, (name_ParseAddress d Hname). cbn [IsDomain].
  rewrite (proj1 (proj2 Hname)), !string_app_assoc. destruct d as [|c d]; [done|]. by destruct (maybeIPPrefix c).
Qed.

Lemma readAddress_back a b rest : writable a → slen b ≤ 1024 →
  ∃ w, writeAddress a = Ok w ∧ readAddress (mkReading b (w +:+ rest)) = Some (mkReading (b +:+ w) rest, a) ∧ 3 ≤ slen w ≤ 257.
Proof.
  intros [Hwire Hlong] Hb. destruct a as [v|v|d]; cbn [writeAddress wire_address is_ip] in *.
  - eexists. split; [done|]. split; [|rewrite string_of_slen; cbn [length]; rewrite be_bytes_length; lia].
    destruct (ip_back 1 4 v b rest) as (st & E1 & E2 & E3 & E4); [lia|lia|done|]. change (- Z.of_nat 4) with (-4) in E4. change (Z.of_nat 4) with 4 in E3.
    unfold readAddress. rewrite E1. cbn [mbind option_bind]. rewrite E2, E3. cbn [mbind option_bind rd_buffer].
    by rewrite E4, IPAddress_4.
  - destruct Hwire as [Hv Hm]. eexists. split; [done|].
    split; [|rewrite string_of_slen; cbn [length]; rewrite be_bytes_length; lia].
    destruct (ip_back 3 16 v b rest) as (st & E1 & E2 & E3 & E4); [lia|lia|done|]. change (- Z.of_nat 16) with (-16) in E4. change (Z.of_nat 16) with 16 in E3.
    unfold readAddress. rewrite E1. cbn [mbind option_bind]. rewrite E2, E3. cbn [mbind option_bind rd_buffer].
    by rewrite E4, IPAddress_16, (proj2 (Z.eqb_neq _ _) Hm).
  - unfold isDomainTooLong. destruct (Z.ltb_spec 256 (slen d)); [lia|]. rewrite (Z.mod_small (slen d)) by (unfold slen in *; lia).
    eexists. split; [done|]. split; [by apply name_back|].
    assert (0 < slen d) by (destruct Hwire as [? _]; destruct d; [done|unfold slen; cbn; lia]).
    rewrite slen_app, string_of_slen. cbn [length]. lia.
Qed.

(** what is written is read back, and not a byte more *)
Lemma ReadAddressPort_back a port rest : writable a → 0 ≤ port < 65536 →
  ∃ w, WriteAddressPort a port = (w, Ok tt) ∧ ReadAddressPort (mkReading EmptyString (w +:+ rest)) = Some (mkReading w rest, a, port) ∧
    5 ≤ slen w ≤ 259.
Proof.
  intros Ha Hport. destruct (readAddress_back a (writePort port) rest Ha) as (w & Hw & Hr & Hlen).
  { unfold slen, writePort. rewrite string_of_length, be_bytes_length. lia. }
  exists (writePort port +:+ w). unfold WriteAddressPort. rewrite Hw. split; [done|]. split.
  - unfold ReadAddressPort, readPort. rewrite string_app_assoc.
    destruct (read_back 2 (-2) (writePort port) EmptyString (w +:+ rest)) as [-> E];
      [unfold slen, writePort; by rewrite string_of_length, be_bytes_length|done|done|by vm_compute|].
    cbn [mbind option_bind rd_buffer]. rewrite E. change (EmptyString +:+ writePort port) with (writePort port).
    rewrite Hr. cbn [mbind option_bind]. unfold writePort at 2.
    rewrite bytes_of_string_of by apply be_bytes_range. by rewrite be_value_bytes.
  - unfold slen in *. rewrite string_length_app. unfold writePort. rewrite string_of_length, be_bytes_length. lia.
Qed.

(** a name of 256 bytes passes the check of its length, and its length byte is zero: the
    reader refuses what was written *)
Lemma name_of_256_bytes_is_refused :
  let d := string_of (replicate 256 97) in
  (WriteAddressPort (domainAddress d) 443).2 = Ok tt ∧
  ReadAddressPort (mkReading EmptyString (WriteAddressPort (domainAddress d) 443).1) = None.
Proof. vm_compute. split; reflexivity. Qed.
