(* ===== verification/SessionControl.v ===== *)
(** The project's patch to Xray-core ([core/patches], applied in the vendored
    tree): the process-wide controller ([common/sessioncontrol]), and the
    dispatcher's controlled sessions ([app/dispatcher/sessioncontrol.go]),
    which ask it for a lease, pin the destination, pace every buffer by the
    lease, and give the lease a callback that interrupts the link. *)
From S2P Require Import Prelude GoString Float64 Netip NetipText Model Config Policy PolicyProps.
From S2P Require Import Identity Session SessionInv SessionProps SessionLease NetAddress.

Local Open Scope string_scope.
Local Open Scope Z_scope.

(** ** The controller of the process

    Controllers are compared by identity. [once] is the state of the
    sync.Once of an unregister function. *)
Definition ErrControllerRegistered : string := "session controller is already registered".
Definition ErrSourceUnavailable : string := "session source is unavailable".

Definition Register (state : option Z) (controller : Z) : option Z * outcome string unit :=
  match state with
  | Some _ => (state, Err ErrControllerRegistered)
  | None => (Some controller, Ok tt)
  end.

Definition unregister (controller : Z) (once : bool) (state : option Z) : option Z * bool :=
  if once then (state, true)
  else (if bool_decide (state = Some controller) then None else state, true).

(** Open and AcquireHandshake of the package: without a controller everything
    is admitted, and no lease comes with it. *)
Definition ControlOpen (controller : option Registry) (lookup : string → option (list Addr)) (request : Request)
  : option Registry * outcome string OpenDecision :=
  match controller with
  | None => (None, Ok (mkDecision EmptyString None))
  | Some r => let '(r, d) := Open r lookup request in (Some r, d)
  end.

Definition ControlAcquire (controller : option Registry) (request : Request)
  : option Registry * outcome string bool :=
  match controller with
  | None => (None, Ok false)
  | Some r => let '(r, d) := AcquireHandshake r request in (Some r, d)
  end.

(** ** Destinations and the inbound of a connection *)
Inductive NetNetwork : Type := Network_Unknown | Network_TCP | Network_UDP | Network_UNIX.
#[global] Instance NetNetwork_eq_dec : EqDecision NetNetwork.
Proof. solve_decision. Defined.

Definition SystemString (n : NetNetwork) : string :=
  match n with
  | Network_TCP => "tcp"
  | Network_UDP => "udp"
  | Network_UNIX => "unix"
  | Network_Unknown => "unknown"
  end.

Record Destination : Type := mkDestination {
  dst_Address : Address;
  dst_Port : Z;
  dst_Network : NetNetwork }.

(** session.Inbound; [None] is a nil user or a nil source address *)
Record Inbound : Type := mkInbound {
  in_Tag : string;
  in_User : option string;
  in_Source : option Address;
  in_CanSpliceCopy : Z }.

Definition with_splice (n : Z) (i : Inbound) : Inbound := mkInbound (in_Tag i) (in_User i) (in_Source i) n.

(** proxy/vless/inbound: the request for a handshake slot *)
Definition handshakeRequest (inbound : option Inbound) : Request :=
  let blank := mkRequest EmptyString EmptyString EmptyString EmptyString EmptyString 0 false in
  match inbound with
  | None => blank
  | Some i =>
      mkRequest (in_Tag i) EmptyString (default EmptyString (Address_String <$> in_Source i))
        EmptyString EmptyString 0 false
  end.
Definition acquireHandshake (controller : option Registry) (inbound : option Inbound)
  : option Registry * outcome string bool := ControlAcquire controller (handshakeRequest inbound).

(** the request of openControlledSession *)
Definition sessionRequest (inbound : option Inbound) (d : Destination) : Request :=
  mkRequest (default EmptyString (in_Tag <$> inbound)) (default EmptyString (inbound ≫= in_User))
    (default EmptyString (Address_String <$> (inbound ≫= in_Source)))
    (SystemString (dst_Network d)) (Address_String (dst_Address d)) (dst_Port d)
    (IsDomain (dst_Address d)).

(** openControlledSession: the destination to dial and the lease, if there is
    one. A nil address would be dereferenced later. *)
Definition openControlledSession (controller : option Registry) (lookup : string → option (list Addr))
    (inbound : option Inbound) (d : Destination)
  : option Registry * option Inbound * outcome string (Destination * option Z) :=
  match ControlOpen controller lookup (sessionRequest inbound d) with
  | (c, Err e) => (c, inbound, Err e)
  | (c, Panic) => (c, inbound, Panic)
  | (c, Ok decision) =>
      let pinned :=
        if String.eqb (ResolvedAddress decision) EmptyString then Some (dst_Address d)
        else ParseAddress (ResolvedAddress decision) in
      match pinned with
      | None => (c, inbound, Panic)
      | Some a =>
          let d := mkDestination a (dst_Port d) (dst_Network d) in
          match DecisionLease decision with
          | None => (c, inbound, Ok (d, None))
          | Some id => (c, with_splice 3 <$> inbound, Ok (d, Some id))
          end
      end
  end.

(** the target of the outbound that Dispatch and DispatchLink set: the
    generated configuration sniffs nothing and its freedom outbound overrides
    nothing, so it is the destination that is dialled *)
Definition DispatchLink (controller : option Registry) (lookup : string → option (list Addr))
    (inbound : option Inbound) (d : Destination)
  : option Registry * option Inbound * outcome string (Destination * option Z) :=
  if bool_decide (dst_Network d = Network_Unknown)
  then (controller, inbound, Err "Dispatcher: Invalid destination.")
  else openControlledSession controller lookup inbound d.
Definition Dispatch (controller : option Registry) (lookup : string → option (list Addr))
    (inbound : option Inbound) (d : Destination)
  : option Registry * option Inbound * outcome string (Destination * option Z) :=
  if bool_decide (dst_Network d = Network_Unknown) then (controller, inbound, Panic)
  else openControlledSession controller lookup inbound d.

(** rebind of a controlled session *)
Definition session_rebind (r : Registry) (id : Z) (inbound : option Inbound) : Registry * outcome string unit :=
  match inbound ≫= in_Source with
  | None => (r, Err ErrSourceUnavailable)
  | Some source => Rebind r id (Address_String source)
  end.

(** ** What is dialled *)
Lemma Address_String_nonempty n : addr_ok n → addr_string (Unmap n) ≠ EmptyString.
Proof. intros Hok%canonical_parses E. by rewrite E in Hok. Qed.

Lemma name_trim d : is_name d → trim d "[]" = d.
Proof.
  intros (_ & Hd & _). apply trim_func_none. eapply string_all_weaken; [|exact Hd].
  intros c. destruct c as [[] [] [] [] [] [] [] []]; intros Hc; first [discriminate Hc | reflexivity].
Qed.

(** a resolver's answers are addresses without zones *)
Definition resolver_ok (lookup : string → option (list Addr)) : Prop :=
  ∀ host answer a, lookup host = Some answer → a ∈ answer → addr_ok a ∧ has_zone a = false.

(** the address that a decision pins, for the destinations of the wire *)
Definition pinned (a : Address) (resolved : string) : option Address :=
  if String.eqb resolved EmptyString then Some a else ParseAddress resolved.

Lemma resolves_pins lookup request a addresses resolved :
  resolver_ok lookup → wire_address a → DestinationHost request = Address_String a →
  resolves lookup request addresses resolved →
  ∃ target n, pinned a resolved = Some target ∧ is_ip target ∧ netip_of target = Some n ∧
    (addr_string n ∈ addresses) ∧ (IsDomain a = false → target = a).
Proof.
  intros Hlookup Ha Hhost. unfold resolves. rewrite Hhost.
  assert (Hip : ∀ n, is_ip a → netip_of a = Some n → IsDomain a = false →
    (∃ b, ParseAddr (trim (Address_String a) "[]") = Some b ∧ addresses = [addr_string (Unmap b)] ∧ resolved = EmptyString) ∨
    (ParseAddr (trim (Address_String a) "[]") = None ∧ DestinationDomain request = true ∧
     trim (Address_String a) "[]" ≠ EmptyString ∧ ∃ answer, lookup (trim (Address_String a) "[]") = Some answer ∧
       canonical_list addresses (λ x, ∃ a, a ∈ answer ∧ x = addr_string (Unmap a)) ∧ head addresses = Some resolved) →
    ∃ target n, pinned a resolved = Some target ∧ is_ip target ∧ netip_of target = Some n ∧
      (addr_string n ∈ addresses) ∧ (IsDomain a = false → target = a)).
  { intros n Hisip Hn Hd. destruct (netip_of_ok a n Hn Hisip) as (Hok & Hu & _).
    rewrite (Address_String_trim a n Hn Hisip), (canonical_parses n Hok).
    intros [(b & [= <-] & -> & ->)|(? & _)]; [|done]. exists a, n. rewrite !Hu. split_and!; try done. by left. }
  destruct a as [v|v|d]; [by apply (Hip (Addr4 v))|by apply (Hip (Addr6 v EmptyString))|clear Hip].
  cbn [Address_String]. rewrite (name_trim d Ha). destruct Ha as (_ & _ & Hnone).
  intros [(b & ? & _)|(_ & _ & _ & answer & Hans & Hcan & Hhd)]; [congruence|].
  assert (Hin : resolved ∈ addresses).
  { destruct addresses as [|x l]; [done|]. injection Hhd as ->. by left. }
  destruct (proj1 (cl_elem _ _ Hcan resolved) Hin) as (b & Hb & ->).
  destruct (Hlookup d answer b Hans Hb) as [Hok Hz].
  destruct (ParseAddress_canonical b Hok Hz) as (target & Ht & Hip & Hn).
  exists target, (Unmap b). unfold pinned.
  rewrite (proj2 (String.eqb_neq _ _) (Address_String_nonempty b Hok)). split_and!; try done.
Qed.

Lemma openControlledSession_inv r lookup inb d c' inb' target lease :
  in_Tag inb = inboundTag →
  openControlledSession (Some r) lookup (Some inb) d = (c', inb', Ok (target, lease)) →
  ∃ r' p a id, prepares r lookup (sessionRequest (Some inb) d) p ∧ commitRefusal r p = None ∧
    openCommit r p = (r', Ok (mkDecision (p_resolved p) (Some id))) ∧ c' = Some r' ∧
    pinned (dst_Address d) (p_resolved p) = Some a ∧
    target = mkDestination a (dst_Port d) (dst_Network d) ∧ lease = Some id ∧ inb' = Some (with_splice 3 inb).
Proof.
  intros Htag. unfold openControlledSession, ControlOpen.
  destruct (Open r lookup (sessionRequest (Some inb) d)) as [r' [decision|e|]] eqn:Hopen; [|done..].
  apply Open_prepares in Hopen as (p & Hp & Href & Hc); [|done].
  destruct (openCommit_Ok _ _ _ _ Hc) as [_ ->]. cbn [ResolvedAddress DecisionLease].
  change (if String.eqb (p_resolved p) EmptyString then Some (dst_Address d) else ParseAddress (p_resolved p))
    with (pinned (dst_Address d) (p_resolved p)).
  destruct (pinned (dst_Address d) (p_resolved p)) as [a|] eqn:Ha; [|done].
  intros [= <- <- <- <-]. exists r', p, a, (wrapu64 (nextID r + 1)). split_and!; done.
Qed.

(** the session and the target of a dispatch that a controller allowed *)
Lemma openControlledSession_permits r lookup inb d c' inb' target lease :
  resolver_ok lookup → in_Tag inb = inboundTag → wire_address (dst_Address d) →
  openControlledSession (Some r) lookup (Some inb) d = (c', inb', Ok (target, lease)) →
  ∃ r' id l user n, c' = Some r' ∧ lease = Some id ∧ users r' = users r ∧
    sessions r' !! id = Some l ∧ l_revoked l = false ∧ users r' !! l_userID l = Some user ∧
    is_int64 (l_userID l) = true ∧ in_User inb = Some (UserEmail (nodeID r) (l_userID l)) ∧
    dst_Port target = dst_Port d ∧ dst_Network target = dst_Network d ∧
    is_ip (dst_Address target) ∧ netip_of (dst_Address target) = Some n ∧
    IPBlocked (user_ForbiddenIPs user) (addr_string n) = false ∧
    PortBlocked (user_ForbiddenPorts user) (dst_Port d) = false ∧
    (IsDomain (dst_Address d) = false → dst_Address target = dst_Address d).
Proof.
  intros Hlookup Htag Hwire
    (r' & p & a & id & (H1 & H2 & H3 & H4 & H5 & Hres) & Href & Hc & -> & Ha & -> & -> & ->)%openControlledSession_inv; [|done].
  destruct (resolves_pins lookup (sessionRequest (Some inb) d) (dst_Address d) _ _ Hlookup Hwire eq_refl Hres)
    as (t & n & Ht & Hip & Hn & Hin & Heq).
  rewrite Ht in Ha. injection Ha as <-. destruct (openCommit_session _ _ _ _ Hc) as (id' & [= <-] & Hs & Hus).
  destruct (commitRefusal_None _ _ Href) as (user & Hu & _ & (_ & Hport & Hips) & _).
  apply userID_inverts_UserEmail in H1 as (_ & Hint & H1). cbn [sessionRequest Email] in H1.
  exists r', id, (newLease r p), user, n. rewrite Hus. split_and!; try done.
  - rewrite UserEmail_prefix in *. cbn [newLease l_userID mbind option_bind] in *.
    by destruct (in_User inb) as [email|]; simpl in H1; [rewrite <- H1|].
  - apply not_true_is_false. intros Hb. apply not_true_iff_false in Hips. destruct Hips.
    apply existsb_exists. exists (addr_string n). split; [by apply list_elem_of_In|done].
  - rewrite H4 in Hport. exact Hport.
Qed.

(** C3: what a direct connection dials is an address the user may reach. The
    destination a client names on the wire is an address or a name; once the
    dispatcher has opened a controlled session for it (and without a lease it
    opens none), the lease is a live session of the user that the connection
    authenticated as, the target has the client's port and network, it is an
    address and never a name, no rule of the user's current policy forbids the
    address or the port, and a destination given as an address is left alone. *)
Theorem dialed_address_is_permitted r lookup inb st st' addr port net c' inb' target lease :
  resolver_ok lookup → in_Tag inb = inboundTag →
  ReadAddressPort st = Some (st', addr, port) →
  DispatchLink (Some r) lookup (Some inb) (mkDestination addr port net) = (c', inb', Ok (target, lease)) →
  ∃ r' id l user n, c' = Some r' ∧ lease = Some id ∧
    sessions r' !! id = Some l ∧ l_revoked l = false ∧ users r' !! l_userID l = Some user ∧
    in_User inb = Some (UserEmail (nodeID r) (l_userID l)) ∧
    dst_Port target = port ∧ dst_Network target = net ∧
    is_ip (dst_Address target) ∧ netip_of (dst_Address target) = Some n ∧
    IPBlocked (user_ForbiddenIPs user) (addr_string n) = false ∧
    PortBlocked (user_ForbiddenPorts user) port = false ∧
    (IsDomain addr = false → dst_Address target = addr).
Proof.
  intros Hlookup Htag [Hwire _]%ReadAddressPort_wire. unfold DispatchLink. destruct (bool_decide _); [done|].
  intros (r' & id & l & user & n & H1 & H2 & _ & H3 & H4 & H5 & _ & H6 & H7 & H8 & H9 & H10 & H11 & H12 & H13)
    %openControlledSession_permits; [|done..].
  by exists r', id, l, user, n.
Qed.

(** ** Witness: a name is dialled by the pinned address *)
Definition demoInbound (source : Z) : Inbound :=
  mkInbound inboundTag (Some "sspanel-node-15-user-42") (Some (ipv4Address source)) 2.
Definition demoWire : Reading := mkReading EmptyString (bytes [1; 187; 2; 11]%nat +:+ "example.org").

Lemma demoDNS_ok : resolver_ok demoDNS.
Proof.
  intros host answer a [= <-] Ha. repeat (apply elem_of_cons in Ha as [->|Ha]; [by vm_compute|]).
  by apply not_elem_of_nil in Ha.
Qed.

Definition demo_dial : option Registry * option Inbound * outcome string (Destination * option Z) :=
  DispatchLink (Some demo0) demoDNS (Some (demoInbound 3405803777))
    (mkDestination (domainAddress "example.org") 443 Network_TCP).

Lemma dialed_address_is_permitted_witness :
  ∃ r' inb' l user n,
    demo_dial = (Some r', inb', Ok (mkDestination (ipv4Address 3325256705) 443 Network_TCP, Some 1)) ∧
    sessions r' !! 1 = Some l ∧ users r' !! l_userID l = Some user ∧ addr_string n = "198.51.100.1" ∧
    IPBlocked (user_ForbiddenIPs user) (addr_string n) = false.
Proof.
  destruct (ReadAddressPort demoWire) as [[[st' addr] port]|] eqn:Hw; [|exfalso; by vm_compute in Hw].
  assert (Hw' : addr = domainAddress "example.org" ∧ port = 443) by (vm_compute in Hw; by simplify_eq).
  destruct Hw' as [-> ->].
  assert (E : ∃ r' inb', demo_dial = (Some r', inb', Ok (mkDestination (ipv4Address 3325256705) 443 Network_TCP, Some 1)))
    by (eexists; eexists; vm_compute; reflexivity).
  destruct E as (r1 & inb' & E).
  destruct (dialed_address_is_permitted demo0 demoDNS (demoInbound 3405803777) demoWire st' _ 443 Network_TCP _ _ _ _
      demoDNS_ok eq_refl Hw E) as (r' & id & l & user & n & [= ->] & [= <-] & H1 & _ & H3 & _ & _ & _ & _ & H8 & H9 & _).
  exists r', inb', l, user, n. injection H8 as <-.
  split; [exact E|]. split; [exact H1|]. split; [exact H3|]. split; [by vm_compute|exact H9].
Defined.
