(* ===== verification/Links.v ===== *)
(** The links of a controlled session ([app/dispatcher] in the vendored
    Xray-core): the stacks of readers and writers that Dispatch and DispatchLink
    build, what common.Interrupt does to them, and the readers and writers that
    wait for the lease before they forward a buffer. *)
From S2P Require Import Prelude GoString Float64 Netip Model Config Policy.
From S2P Require Import Session SessionInv SessionProps SessionLease SessionControl.

Local Open Scope string_scope.
Local Open Scope Z_scope.

(** ** Readers and writers

    What the stacks end in: the two pipes of a dispatched link, and the
    client's connection for a direct one. *)
Inductive Endpoint : Type := UplinkPipe | DownlinkPipe | ClientConnection.
#[global] Instance Endpoint_eq_dec : EqDecision Endpoint.
Proof. solve_decision. Defined.
#[global] Instance Endpoint_countable : Countable Endpoint.
Proof.
  refine (inj_countable' (λ e, match e with UplinkPipe => 0 | DownlinkPipe => 1 | ClientConnection => 2 end)
    (λ n, if n =? 0 then UplinkPipe else if n =? 1 then DownlinkPipe else ClientConnection) _).
  by intros [].
Defined.

(** [SingleReader] stands for the readers of package buf that read a connection *)
Inductive Reader : Type :=
| PipeReader (e : Endpoint)
| SingleReader
| LengthPacketReader
| VisionReader (r : Reader)
| controlledReader (r : Reader)
| TimeoutWrapperReader (r : Reader).

Inductive Writer : Type :=
| PipeWriter (e : Endpoint)
| BufferedWriter
| MultiLengthPacketWriter (w : Writer)
| VisionWriter (w : Writer)
| controlledWriter (w : Writer)
| SizeStatWriter (w : Writer).

(** common.Interrupt: the Interrupt method of the object, else its Close
    method, else nothing. A structure that embeds an interface has that
    interface's methods only: [TimeoutWrapperReader], [VisionReader] and
    [VisionWriter] embed [buf.Reader] and [buf.Writer] and have neither method,
    nor have the readers of a connection. Closing a [BufferedWriter] flushes it and
    closes what it wraps, a [BufferToBytesWriter], which has no Close method. *)
Fixpoint InterruptReader (r : Reader) : gset Endpoint :=
  match r with
  | PipeReader e => {[ e ]}
  | controlledReader r => InterruptReader r
  | SingleReader | LengthPacketReader | VisionReader _ | TimeoutWrapperReader _ => ∅
  end.
Fixpoint InterruptWriter (w : Writer) : gset Endpoint :=
  match w with
  | PipeWriter e => {[ e ]}
  | controlledWriter w | SizeStatWriter w => InterruptWriter w
  | BufferedWriter | MultiLengthPacketWriter _ | VisionWriter _ => ∅
  end.

Record Link : Type := mkLink { link_Reader : Reader; link_Writer : Writer }.

Definition InterruptLink (l : Link) : gset Endpoint :=
  InterruptReader (link_Reader l) ∪ InterruptWriter (link_Writer l).

(** ** The links of Dispatch *)

(** getLink; [counted]: the inbound has a user with an email, whose traffic the
    generated configuration counts *)
Definition getLink (counted : bool) : Link * Link :=
  let size w := if counted then SizeStatWriter w else w in
  (mkLink (PipeReader DownlinkPipe) (size (PipeWriter UplinkPipe)),
   mkLink (PipeReader UplinkPipe) (size (PipeWriter DownlinkPipe))).

(** bind: the links afterwards; the interrupt callback reads them when it runs *)
Definition bind (links : Link * Link) : Link * Link :=
  (links.1, mkLink (controlledReader (link_Reader links.2)) (controlledWriter (link_Writer links.2))).
Definition bind_callback (links : Link * Link) : gset Endpoint := InterruptLink links.1 ∪ InterruptLink links.2.

Definition dispatched_links (counted : bool) : Link * Link := bind (getLink counted).

(** ** The link of DispatchLink *)
Definition bindDirect (link : Link) : Link :=
  mkLink (controlledReader (link_Reader link)) (controlledWriter (link_Writer link)).
Definition WrapLink (counted : bool) (link : Link) : Link :=
  mkLink (TimeoutWrapperReader (link_Reader link))
    (if counted then SizeStatWriter (link_Writer link) else link_Writer link).

(** the link that the VLESS inbound passes: of a Vision flow, or of the UDP
    command, which comes without a flow *)
Inductive Command : Type := CommandTCP | CommandUDP.
Definition client_link (c : Command) : Link :=
  match c with
  | CommandTCP => mkLink (VisionReader SingleReader) (VisionWriter BufferedWriter)
  | CommandUDP => mkLink LengthPacketReader (MultiLengthPacketWriter BufferedWriter)
  end.
Definition direct_link (counted : bool) (c : Command) : Link := WrapLink counted (bindDirect (client_link c)).

(** ** Forwarding *)
Abbreviation MultiBuffer := (list string) (only parsing).
Definition int32 (z : Z) : Z := (z + 2 ^ 31) mod 2 ^ 32 - 2 ^ 31.
Definition mb_size (mb : MultiBuffer) : Z := fold_right (λ b n, slen b + n) 0 mb.
Definition mb_Len (mb : MultiBuffer) : Z := int32 (mb_size mb).
Definition mb_IsEmpty (mb : MultiBuffer) : bool := forallb (λ b, String.eqb b EmptyString) mb.

Section Forward.
Context {W : Type} (WaitN : W → Limiter → Z → W * option string).

(** ReadMultiBuffer of a controlledReader, given what the reader under it read *)
Definition ControlledRead (l : Lease) (w : W) (read : MultiBuffer * option string)
  : W * (MultiBuffer * option string) :=
  let '(mb, err) := read in
  if bool_decide (mb = []) then (w, (mb, err))
  else
    match Wait WaitN w l (mb_Len mb) with
    | (w, Some waitErr) => (w, ([], Some waitErr))
    | (w, None) => (w, (mb, err))
    end.

(** WriteMultiBuffer of a controlledWriter; [sink] is the writer under it *)
Definition ControlledWrite (l : Lease) (sink : MultiBuffer → option string) (w : W) (mb : MultiBuffer)
  : W * bool * option string :=
  if bool_decide (mb = []) then (w, true, sink mb)
  else
    match Wait WaitN w l (mb_Len mb) with
    | (w, Some err) => (w, false, Some err)
    | (w, None) => (w, true, sink mb)
    end.

(** a reader and a writer without a controlled session *)
Definition PlainRead (w : W) (read : MultiBuffer * option string) : W * (MultiBuffer * option string) := (w, read).
Definition PlainWrite (sink : MultiBuffer → option string) (w : W) (mb : MultiBuffer) : W * bool * option string :=
  (w, true, sink mb).

(** buf.Copy over the reads made so far: the buffers handed to the sink, and the
    error that ended the copying *)
Fixpoint Copy (rd : W → MultiBuffer * option string → W * (MultiBuffer * option string))
    (wr : W → MultiBuffer → W * bool * option string) (w : W) (reads : list (MultiBuffer * option string))
  : W * list MultiBuffer * option string :=
  match reads with
  | [] => (w, [], None)
  | read :: reads =>
      let '(w, (mb, err)) := rd w read in
      let '(w, sent, werr) :=
        if mb_IsEmpty mb then (w, [], None)
        else let '(w, reached, werr) := wr w mb in (w, if reached : bool then [mb] else [], werr) in
      match werr, err with
      | Some e, _ | None, Some e => (w, sent, Some e)
      | None, None => let '(w, more, e) := Copy rd wr w reads in (w, (sent ++ more)%list, e)
      end
  end.

(** the two directions of a session *)
Definition CopyUplink (l : Lease) (sink : MultiBuffer → option string) := Copy (ControlledRead l) (PlainWrite sink).
Definition CopyDownlink (l : Lease) (sink : MultiBuffer → option string) := Copy PlainRead (ControlledWrite l sink).
End Forward.

(** ** Interrupting *)

(** The callback of a dispatched session interrupts both pipes of its links. *)
Lemma dispatched_interrupt counted : bind_callback (dispatched_links counted) = {[ UplinkPipe; DownlinkPipe ]}.
Proof. destruct counted; reflexivity. Qed.

(** The callback of a direct session, whichever command opened it, interrupts
    nothing: nothing under the wrappers has an Interrupt or Close method. *)
Lemma direct_interrupt counted c : InterruptLink (direct_link counted c) = ∅.
Proof. destruct counted, c; reflexivity. Qed.

(** ** What a limiter grants *)
Section Metered.
Context {W : Type} (WaitN : W → Limiter → Z → W * option string).

(** the limiters with a record of the tokens they granted *)
Definition metered (w : W * list (Limiter * Z)) (lim : Limiter) (n : Z)
  : (W * list (Limiter * Z)) * option string :=
  match WaitN w.1 lim n with
  | (w', None) => ((w', (w.2 ++ [(lim, n)])%list), None)
  | (w', Some e) => ((w', w.2), Some e)
  end.

(** the tokens granted by the limiter of a user, or by the node's *)
Definition granted (owner : option Z) (paid : list (Limiter * Z)) : Z :=
  fold_right (λ p n, (if bool_decide (lim_owner p.1 = owner) then p.2 else 0) + n) 0 paid.

Lemma granted_app owner l k : granted owner (l ++ k) = granted owner l + granted owner k.
Proof. induction l as [|p l IH]; simpl; [done|]. rewrite IH. lia. Qed.

Lemma wait_loop_granted fuel w lim bytes w' e owner :
  0 < lim_burst lim → 0 ≤ bytes ≤ Z.of_nat fuel →
  wait_loop metered fuel w lim bytes = (w', e) →
  granted owner w.2 ≤ granted owner w'.2 ∧
  (e = None → lim_owner lim = owner → granted owner w'.2 = granted owner w.2 + bytes).
Proof.
  intros Hb. revert w bytes. induction fuel as [|fuel IH]; intros w bytes Hf; cbn [wait_loop].
  { intros [= <- <-]. split; [lia|]. intros _ _. lia. }
  destruct (Z.leb_spec bytes 0) as [H0|H0].
  { intros [= <- <-]. split; [lia|]. intros _ _. lia. }
  set (chunk := if lim_burst lim <? bytes then lim_burst lim else bytes).
  assert (Hc : 0 < chunk ≤ bytes) by (unfold chunk; destruct (Z.ltb_spec (lim_burst lim) bytes); lia).
  unfold metered at 1. destruct (WaitN w.1 lim chunk) as [w1 [e1|]] eqn:E.
  - intros [= <- <-]. cbn [snd]. split; [lia|done].
  - intros H. apply IH in H as [Hm He]; [|lia]. cbn [snd] in *. rewrite granted_app in *.
    unfold granted at 2 in Hm. unfold granted at 3 in He. cbn [fold_right fst snd] in *.
    split; [destruct (bool_decide _); lia|]. intros Hn Ho. specialize (He Hn Ho).
    rewrite (bool_decide_eq_true_2 _ Ho) in He. lia.
Qed.

Lemma wait_granted limiter w bytes w' e owner :
  (∀ lim, limiter = Some lim → 0 < lim_burst lim) → 0 ≤ bytes →
  wait metered w limiter bytes = (w', e) →
  granted owner w.2 ≤ granted owner w'.2 ∧
  (e = None → ∀ lim, limiter = Some lim → lim_owner lim = owner → granted owner w'.2 = granted owner w.2 + bytes).
Proof.
  intros Hb H0. destruct limiter as [lim|]; cbn [wait].
  - intros H. apply wait_loop_granted with (owner := owner) in H as [Hm He]; [|by apply Hb|lia].
    split; [done|]. intros Hn lim' [= <-] Ho. by apply He.
  - intros [= <- <-]. split; [lia|done].
Qed.

(** the lease draws from limiters with a burst *)
Definition bursts (l : Lease) : Prop :=
  (∀ lim, l_userRate l = Some lim → 0 < lim_burst lim) ∧ (∀ lim, l_nodeRate l = Some lim → 0 < lim_burst lim).
(** one of the lease's limiters is that of [owner] *)
Definition draws (l : Lease) (owner : option Z) : Prop :=
  ∃ lim, (l_userRate l = Some lim ∨ l_nodeRate l = Some lim) ∧ lim_owner lim = owner.

Lemma Wait_granted l w bytes w' e owner :
  bursts l → 0 ≤ bytes → Wait metered w l bytes = (w', e) →
  granted owner w.2 ≤ granted owner w'.2 ∧
  (e = None → draws l owner → granted owner w.2 + bytes ≤ granted owner w'.2).
Proof.
  intros [Hu Hn] H0. unfold Wait. destruct (Z.leb_spec bytes 0).
  { intros [= <- <-]. split; [lia|]. intros _ _. lia. }
  destruct (wait metered w (l_userRate l) bytes) as [w1 [e1|]] eqn:E1;
    apply wait_granted with (owner := owner) in E1 as [M1 E1]; try done.
  - intros [= <- <-]. done.
  - intros E2. apply wait_granted with (owner := owner) in E2 as [M2 E2]; [|done|lia].
    split; [lia|]. intros -> (lim & [Hl|Hl] & Ho).
    + specialize (E1 eq_refl lim Hl Ho). lia.
    + specialize (E2 eq_refl lim Hl Ho). lia.
Qed.
End Metered.

(** ** Copying *)
Definition bytes_sent (sent : list MultiBuffer) : Z := fold_right (λ mb n, mb_size mb + n) 0 sent.

Lemma bytes_sent_app l k : bytes_sent (l ++ k) = bytes_sent l + bytes_sent k.
Proof. induction l as [|mb l IH]; simpl; [done|]. rewrite IH. lia. Qed.

Lemma mb_size_nonneg mb : 0 ≤ mb_size mb.
Proof. induction mb as [|b mb IH]; simpl; [done|]. unfold slen. lia. Qed.

Lemma mb_Len_small mb : mb_size mb < 2 ^ 31 → mb_Len mb = mb_size mb.
Proof. intros H. pose proof (mb_size_nonneg mb). unfold mb_Len, int32. rewrite Z.mod_small; lia. Qed.

Inductive Flow : Type := Uplink | Downlink.

(** a direction of a session: the uplink is paced as it is read, the downlink as
    it is written *)
Definition CopyFlow {W : Type} (WaitN : W → Limiter → Z → W * option string) (f : Flow) (l : Lease)
    (sink : MultiBuffer → option string) (w : W) (reads : list (MultiBuffer * option string))
  : W * list MultiBuffer * option string :=
  match f with
  | Uplink => CopyUplink WaitN l sink w reads
  | Downlink => CopyDownlink WaitN l sink w reads
  end.

Section Copies.
Context {W : Type} (WaitN : W → Limiter → Z → W * option string).
Context (l : Lease) (owner : option Z) (Hburst : bursts l) (Hdraws : draws l owner).

(** what one step of the copying pays for what it hands on *)
Lemma ControlledRead_granted w read w' mb err : mb_size read.1 < 2 ^ 31 →
  ControlledRead (metered WaitN) l w read = (w', (mb, err)) →
  granted owner w.2 + mb_size mb ≤ granted owner w'.2.
Proof using Hburst Hdraws.
  destruct read as [mb0 err0]. cbn [fst]. intros Hs. unfold ControlledRead. case_bool_decide as Hnil.
  { intros [= <- <- <-]. subst. simpl. lia. }
  pose proof (mb_size_nonneg mb0). rewrite (mb_Len_small _ Hs).
  destruct (Wait (metered WaitN) w l (mb_size mb0)) as [w1 [e1|]] eqn:E;
    apply (Wait_granted _ _ _ _ _ _ owner Hburst) in E as [Hm He]; try done; intros [= <- <- <-].
  - simpl. lia.
  - by apply He.
Qed.

Lemma ControlledWrite_granted sink w mb w' reached err : mb_size mb < 2 ^ 31 →
  ControlledWrite (metered WaitN) l sink w mb = (w', reached, err) →
  granted owner w.2 + (if reached then mb_size mb else 0) ≤ granted owner w'.2.
Proof using Hburst Hdraws.
  intros Hs. unfold ControlledWrite. case_bool_decide as Hnil.
  { intros [= <- <- <-]. subst. simpl. lia. }
  pose proof (mb_size_nonneg mb). rewrite (mb_Len_small _ Hs).
  destruct (Wait (metered WaitN) w l (mb_size mb)) as [w1 [e1|]] eqn:E;
    apply (Wait_granted _ _ _ _ _ _ owner Hburst) in E as [Hm He]; try done; intros [= <- <- <-].
  - lia.
  - by apply He.
Qed.

Lemma CopyFlow_granted f sink w reads w' sent e :
  Forall (λ read, mb_size read.1 < 2 ^ 31) reads →
  CopyFlow (metered WaitN) f l sink w reads = (w', sent, e) →
  granted owner w.2 + bytes_sent sent ≤ granted owner w'.2.
Proof using Hburst Hdraws.
  intros HF. revert w w' sent e. induction HF as [|[mb0 err0] reads Hs HF IH]; intros w w' sent e.
  { destruct f; intros [= <- <- <-]; simpl; lia. }
  unfold CopyFlow, CopyUplink, CopyDownlink in *. destruct f; cbn [Copy].
  - destruct (ControlledRead (metered WaitN) l w (mb0, err0)) as [w1 [mb err]] eqn:E1.
    apply ControlledRead_granted in E1; [|done]. unfold PlainWrite at 1.
    pose proof (mb_size_nonneg mb). destruct (mb_IsEmpty mb); cbn [fst snd].
    + destruct err as [e1|]; [intros [= <- <- <-]; simpl; lia|].
      destruct (Copy _ _ w1 reads) as [[w2 more] e2] eqn:E2. apply IH in E2.
      intros [= <- <- <-]. simpl. lia.
    + destruct (sink mb), err as [e1|]; try (intros [= <- <- <-]; simpl; lia).
      destruct (Copy _ _ w1 reads) as [[w2 more] e2] eqn:E2. apply IH in E2.
      intros [= <- <- <-]. simpl. lia.
  - cbn [PlainRead]. destruct (mb_IsEmpty mb0).
    + destruct err0 as [e1|]; [intros [= <- <- <-]; simpl; lia|].
      destruct (Copy _ _ w reads) as [[w2 more] e2] eqn:E2. apply IH in E2.
      intros [= <- <- <-]. simpl. lia.
    + destruct (ControlledWrite (metered WaitN) l sink w mb0) as [[w1 reached] werr] eqn:E1.
      apply ControlledWrite_granted in E1; [|done].
      assert (Hb : bytes_sent (if reached then [mb0] else []) = if reached then mb_size mb0 else 0)
        by (destruct reached; simpl; lia).
      destruct werr, err0 as [e1|]; try (intros [= <- <- <-]; rewrite Hb; lia).
      destruct (Copy _ _ w1 reads) as [[w2 more] e2] eqn:E2. apply IH in E2.
      intros [= <- <- <-]. rewrite bytes_sent_app, Hb. lia.
Qed.
End Copies.

(** C8: no byte is forwarded for free. In every reachable state, whatever a
    session's link forwards in either direction, and however the copying ends,
    the user's limiter has granted at least as many tokens as bytes were
    forwarded, if the user's speed is limited, and so has the node's limiter, if
    the node's is; the limiter itself (golang.org/x/time/rate) is arbitrary. *)
Theorem forwarded_bytes_are_paid {W} (WaitN : W → Limiter → Z → W * option string)
    d snapshot cfg w id l user f sink reads s s' paid sent e :
  reachable d snapshot cfg w → sessions (w_reg w) !! id = Some l → l_revoked l = false →
  users (w_reg w) !! l_userID l = Some user →
  Forall (λ read, mb_size read.1 < 2 ^ 31) reads →
  CopyFlow (metered WaitN) f l sink (s, []) reads = ((s', paid), sent, e) →
  (f64_leb (user_SpeedLimitMbps user) (f64_of_int 0) = false → bytes_sent sent ≤ granted (Some (l_userID l)) paid) ∧
  (f64_leb (nodeSpeed (w_reg w)) (f64_of_int 0) = false → bytes_sent sent ≤ granted None paid).
Proof.
  intros Hreach Hl Hr Hus HF Hcopy.
  destruct (limiters_reachable _ _ _ _ Hreach) as [Hn Hu]. specialize (Hu _ _ Hus).
  apply auth_reachable in Hreach. destruct (ai_sessions _ Hreach _ _ Hl) as (_ & _ & _ & _ & Hlive).
  destruct (Hlive Hr) as (_ & user' & p & Hus' & _ & _ & _ & _ & E1 & E2).
  rewrite <- E1 in Hu. rewrite <- E2 in Hn.
  assert (Hb : bursts l).
  { split; intros lim Hlim; rewrite Hlim in *; [destruct Hu as (_ & _ & _ & ->)|destruct Hn as (_ & _ & _ & ->)]; lia. }
  assert (Hpay : ∀ owner, draws l owner → bytes_sent sent ≤ granted owner paid).
  { intros owner Hd. by apply (CopyFlow_granted WaitN l owner Hb Hd) in Hcopy. }
  split; intros Hlim; apply Hpay.
  - destruct (l_userRate l) as [lim|] eqn:Hrate; simpl in Hu; [|congruence].
    exists lim. split; [by left|apply Hu].
  - destruct (l_nodeRate l) as [lim|] eqn:Hrate; simpl in Hn; [|congruence].
    exists lim. split; [by right|apply Hn].
Qed.

(** ** Revoking a direct session *)
Lemma Wait_unlimited {W} (WaitN : W → Limiter → Z → W * option string) w l n :
  l_userRate l = None → l_nodeRate l = None → Wait WaitN w l n = (w, None).
Proof. intros Hu Hn. unfold Wait. rewrite Hu, Hn. by destruct (n <=? 0). Qed.

Lemma Copy_unlimited {W} (WaitN : W → Limiter → Z → W * option string) f l sink w reads :
  l_userRate l = None → l_nodeRate l = None →
  CopyFlow WaitN f l sink w reads = Copy PlainRead (PlainWrite sink) w reads.
Proof.
  intros Hu Hn. unfold CopyFlow, CopyUplink, CopyDownlink.
  assert (Er : ∀ w read, ControlledRead WaitN l w read = PlainRead w read).
  { intros w' [mb err]. unfold ControlledRead. rewrite Wait_unlimited by done. by case_bool_decide. }
  assert (Ew : ∀ w mb, ControlledWrite WaitN l sink w mb = PlainWrite sink w mb).
  { intros w' mb. unfold ControlledWrite. rewrite Wait_unlimited by done. by case_bool_decide. }
  revert w. induction reads as [|read reads IH]; intros w; [by destruct f|].
  destruct f; cbn [Copy]; rewrite ?Er; destruct (PlainRead w read) as [w1 [mb err]];
    destruct (mb_IsEmpty mb); rewrite ?Ew; cbn [PlainWrite]; try rewrite IH; try done.
  all: by destruct (PlainWrite sink w1 mb) as [[? ?] [?|]], err; rewrite ?IH.
Qed.

(** C18: revoking a direct session of a user without a speed limit, on a node
    without one, does not end it. RevokeUsers marks the session revoked and calls
    its interrupt, but interrupting the link that DispatchLink built reaches no
    endpoint, and the revoked lease lets every later buffer through: in both
    directions the link copies exactly what it would without a controlled
    session. *)
Theorem revoked_direct_link_keeps_flowing {W} (WaitN : W → Limiter → Z → W * option string)
    r ids r' cbs id l callback counted command :
  RevokeUsers r ids = (r', cbs) →
  sessions r !! id = Some l → l_revoked l = false → l_userID l ∈ ids → l_interrupt l = Some callback →
  l_userRate l = None → l_nodeRate l = None →
  ∃ l', sessions r' !! id = Some l' ∧ l_revoked l' = true ∧ (callback ∈ cbs) ∧
    InterruptLink (direct_link counted command) = ∅ ∧
    ∀ f sink w reads, CopyFlow WaitN f l' sink w reads = Copy PlainRead (PlainWrite sink) w reads.
Proof.
  intros Hrev Hl Hr Hin Hcb Hu Hn.
  assert (Hhit : revokes (list_to_set ids) ∅ l = true).
  { unfold revokes. rewrite Hr, bool_decide_eq_true_2 by by apply elem_of_list_to_set. done. }
  unfold RevokeUsers, revokeLocked in Hrev. injection Hrev as <- <-.
  exists (lease_revoke l). split; [|split; [done|split; [|split; [apply direct_interrupt|]]]].
  - cbn [sessions with_sessions]. by rewrite lookup_fmap, Hl; simpl; rewrite Hhit.
  - apply list_elem_of_omap. exists (id, l). split; [by apply elem_of_map_to_list|]. by rewrite Hhit.
  - intros f sink w reads. by apply Copy_unlimited.
Qed.

(** ** Witnesses *)
Definition always {W} (w : W) (_ : Limiter) (_ : Z) : W * option string := (w, None).

(** the user of the concrete world is limited, its node is not *)
Lemma forwarded_bytes_are_paid_witness :
  ∃ sent, CopyFlow (metered always) Uplink (newLease demo0 (demoPrepared "203.0.113.1" TCP)) (λ _, None) (tt, [])
      [(["hello"], None); (["!"], Some "EOF")] =
    ((tt, [(default (mkLimiter None 0 (f64_of_int 0) 0) (newLimiter 1 (Some 42) (f64_of_int 8)), 5);
           (default (mkLimiter None 0 (f64_of_int 0) 0) (newLimiter 1 (Some 42) (f64_of_int 8)), 1)]), sent, Some "EOF") ∧
    bytes_sent sent = 6 ∧ 6 ≤ granted (Some 42) [(default (mkLimiter None 0 (f64_of_int 0) 0) (newLimiter 1 (Some 42) (f64_of_int 8)), 5);
           (default (mkLimiter None 0 (f64_of_int 0) 0) (newLimiter 1 (Some 42) (f64_of_int 8)), 1)].
Proof.
  exists [["hello"]; ["!"]]. assert (E : CopyFlow (metered always) Uplink (newLease demo0 (demoPrepared "203.0.113.1" TCP)) (λ _, None) (tt, [])
      [(["hello"], None); (["!"], Some "EOF")] =
    ((tt, [(default (mkLimiter None 0 (f64_of_int 0) 0) (newLimiter 1 (Some 42) (f64_of_int 8)), 5);
           (default (mkLimiter None 0 (f64_of_int 0) 0) (newLimiter 1 (Some 42) (f64_of_int 8)), 1)]), [["hello"]; ["!"]], Some "EOF"))
    by (vm_compute; reflexivity).
  split; [exact E|]. split; [reflexivity|].
  assert (HF : Forall (λ read, mb_size read.1 < 2 ^ 31) [(["hello"], None); (["!"], Some "EOF")])
    by (repeat (constructor; [by vm_compute|]); constructor).
  destruct (forwarded_bytes_are_paid always nobody (demoSnapshot 2 []) demoConfig (mkWorld demo2 demoAdmitted) 1
    (newLease demo0 (demoPrepared "203.0.113.1" TCP)) (demoUser 2 []) Uplink (λ _, None) _ _ _ _ _ _
    demo_reachable ltac:(by vm_compute) ltac:(by vm_compute) ltac:(by vm_compute) HF E) as [H _].
  apply H. by vm_compute.
Defined.

(** a user without a speed limit *)
Definition freeUser : User := mkUser 42 "uuid-42" (f64_of_int 0) 2 [] [] [].
Definition free1 : Registry :=
  (openCommit (New (mkSnapshot (demoNode 2) [freeUser] 0 EmptyString) demoConfig) (demoPrepared "203.0.113.1" TCP)).1.
Definition free2 : Registry := (BindInterrupt free1 1 (Some 7)).1.
Definition freeLease : Lease := mkLease 1 42 "203.0.113.1" TCP false false (Some 7) false None None.

Lemma revoked_direct_link_keeps_flowing_witness :
  ∃ l', sessions (RevokeUsers free2 [42]).1 !! 1 = Some l' ∧ l_revoked l' = true ∧ (RevokeUsers free2 [42]).2 = [7] ∧
    CopyFlow always Uplink l' (λ _, None) tt [(["after"; "revocation"], None)] = (tt, [["after"; "revocation"]], None).
Proof.
  destruct (RevokeUsers free2 [42]) as [r' cbs] eqn:E.
  assert (Hcbs : cbs = [7]) by (assert (cbs = (RevokeUsers free2 [42]).2) as -> by (by rewrite E); by vm_compute).
  destruct (revoked_direct_link_keeps_flowing (W := unit) always free2 [42] r' cbs 1 freeLease 7 true CommandTCP E
    ltac:(by vm_compute) eq_refl ltac:(by left) eq_refl eq_refl eq_refl) as (l' & H1 & H2 & _ & _ & H3).
  exists l'. split; [exact H1|]. split; [exact H2|]. split; [exact Hcbs|]. rewrite H3. reflexivity.
Defined.
