(* ===== verification/LinkWorld.v ===== *)
(** The session registry together with the links that the dispatcher builds:
    callbacks are called after the registry's lock is released, so a link can be
    bound, revoked, ended and closed in any order with calls still pending. The
    invariant says that a revocation gets to the link while the lease is held:
    in time every link that still carries traffic belongs to an authorized
    session, or to a lease that the end of its connection's context closed. *)
From S2P Require Import Prelude GoString Float64 Netip Model Config Policy.
From S2P Require Import Session SessionInv SessionAcct SessionConn SessionProps SessionUpdate SessionLease SessionControl Links.

Local Open Scope string_scope.
Local Open Scope Z_scope.

(** ** State

    A link by the name of its callback: the lease behind it, what Dispatch or
    DispatchLink built, whether bind ran, whether the link still carries
    traffic, whether the context of the connection that opened it has ended,
    and the endpoints that an interrupt reached. *)
Inductive Built : Type :=
| Dispatched (counted : bool)
| DirectLink (counted : bool) (command : Command).

Definition callback_reaches (b : Built) : gset Endpoint :=
  match b with
  | Dispatched counted => bind_callback (dispatched_links counted)
  | DirectLink counted command => InterruptLink (direct_link counted command)
  end.

Record Carried : Type := mkCarried {
  c_lease : Z;
  c_built : Built;
  c_bound : bool;
  c_open : bool;
  c_ended : bool;
  c_hit : gset Endpoint }.

Definition carried_bind (k : Carried) : Carried :=
  mkCarried (c_lease k) (c_built k) true (c_open k) (c_ended k) (c_hit k).
Definition carried_end (k : Carried) : Carried :=
  mkCarried (c_lease k) (c_built k) (c_bound k) false (c_ended k) (c_hit k).
Definition carried_context (k : Carried) : Carried :=
  mkCarried (c_lease k) (c_built k) (c_bound k) (c_open k) true (c_hit k).
Definition carried_run (k : Carried) : Carried :=
  mkCarried (c_lease k) (c_built k) (c_bound k) (c_open k) (c_ended k) (c_hit k ∪ callback_reaches (c_built k)).

Record Plane : Type := mkPlane {
  pl_world : World;
  pl_links : gmap callback Carried;
  pl_pending : list callback }.

(** ** Operations of the registry, with the callbacks they owe *)
Inductive notify (r : Registry) : Registry → list callback → Prop :=
| n_update snapshot r' cbs ids : Update r snapshot = Ok (r', cbs, ids) → notify r r' cbs
| n_revoke ids : notify r (RevokeUsers r ids).1 (RevokeUsers r ids).2
| n_close : notify r (CloseRegistry r).1 (CloseRegistry r).2
| n_acquire request : notify r (AcquireHandshake r request).1 []
| n_release : notify r (releaseHandshake r) []
| n_lookup request : notify r (openLookup r request).1 []
| n_target lookup user request : notify r (authorizeTarget r lookup user request).1 []
| n_refuse p reason : commitRefusal r p = Some reason → notify r (openCommit r p).1 []
| n_rebind id inbound : notify r (session_rebind r id inbound).1 [].

(** [ps_close]: a lease is closed after its link ended (DispatchLink's deferred
    close, and the Done callback of a Mux session that was closed), or by
    [context.AfterFunc] after the context of the connection that opened it has
    ended ([ps_context]), whether the link goes on or not *)
Inductive pstep : Plane → Plane → Prop :=
| ps_registry r r' a links pending cbs :
    notify r r' cbs →
    pstep (mkPlane (mkWorld r a) links pending) (mkPlane (mkWorld r' a) links (pending ++ cbs))
| ps_open r a links pending p c built :
    commitRefusal r p = None → nextID r + 1 < 2 ^ 64 → links !! c = None →
    pstep (mkPlane (mkWorld r a) links pending)
      (mkPlane (mkWorld (openCommit r p).1 (<[nextID r + 1 := p]> a))
         (<[c := mkCarried (nextID r + 1) built false true false ∅]> links) pending)
| ps_bind r a links pending c k :
    links !! c = Some k → c_bound k = false →
    pstep (mkPlane (mkWorld r a) links pending)
      (mkPlane (mkWorld (BindInterrupt r (c_lease k) (Some c)).1 a) (<[c := carried_bind k]> links)
         (pending ++ option_list (BindInterrupt r (c_lease k) (Some c)).2))
| ps_run w links before c after :
    pstep (mkPlane w links (before ++ c :: after)) (mkPlane w (alter carried_run c links) (before ++ after))
| ps_end w links pending c k :
    links !! c = Some k →
    pstep (mkPlane w links pending) (mkPlane w (<[c := carried_end k]> links) pending)
| ps_context w links pending c k :
    links !! c = Some k →
    pstep (mkPlane w links pending) (mkPlane w (<[c := carried_context k]> links) pending)
| ps_close r a links pending c k :
    links !! c = Some k → c_open k = false ∨ c_ended k = true →
    pstep (mkPlane (mkWorld r a) links pending)
      (mkPlane (mkWorld (CloseLease r (c_lease k)) a) links pending).

Inductive preachable (snapshot : Snapshot) (cfg : Config) : Plane → Prop :=
| pr_new : preachable snapshot cfg (mkPlane (mkWorld (New snapshot cfg) ∅) ∅ [])
| pr_step s s' : preachable snapshot cfg s → pstep s s' → preachable snapshot cfg s'.

(** ** How an operation of the registry changes its leases *)
Record evolves (r r' : Registry) (cbs : list callback) : Prop := mkEvolves {
  ev_lease : ∀ id l, lookupLease r id = Some l → ∃ l', lookupLease r' id = Some l' ∧
    l_interrupt l' = l_interrupt l ∧
    (l_revoked l' = true → l_revoked l = true ∨ ∀ c, l_interrupt l = Some c → c ∈ cbs);
  ev_session : ∀ id, is_Some (sessions r !! id) → is_Some (sessions r' !! id) }.

Lemma evolves_same r r' : sessions r' = sessions r → detached r' = detached r → evolves r r' [].
Proof.
  intros E1 E2. constructor; unfold lookupLease; rewrite E1, ?E2; [|done].
  intros id l Hl. exists l. split_and!; [done..|]. by left.
Qed.

Lemma evolves_auth r r' : same_auth r r' → evolves r r' [].
Proof. intros (E1 & E2 & _). by apply evolves_same. Qed.

Lemma evolves_notified r r' cbs :
  notified (sessions r) (sessions r') cbs → detached r' = detached r → evolves r r' cbs.
Proof.
  intros (hit & _ & E & P) Hd. constructor; unfold lookupLease; rewrite E, ?Hd.
  - intros id l. rewrite lookup_fmap. destruct (sessions r !! id) as [k|] eqn:Hk; simpl; intros Hl.
    + injection Hl as ->. exists (if hit l then lease_revoke l else l). split; [done|].
      destruct (hit l) eqn:Hhit; split; try done; [|by left]. intros _. right. intros c Hc.
      rewrite P. apply list_elem_of_omap. exists (id, l). split; [by apply elem_of_map_to_list|]. simpl. by rewrite Hhit.
    + exists l. split_and!; [done..|]. by left.
  - intros id [l Hl]. rewrite lookup_fmap, Hl. by eexists.
Qed.

Lemma Update_notified r snapshot r' cbs ids :
  Update r snapshot = Ok (r', cbs, ids) → notified (sessions r) (sessions r') cbs ∧ detached r' = detached r.
Proof.
  intros (more & aff & H & -> & _)%Update_Ok_inv. split.
  - destruct (enforce_notified _ _ _ _ H) as [Hn _]. eapply notified_trans; [|exact Hn].
    exact (notified_revokeLocked _ _ (installSnapshot r snapshot (Some (users r)))).
  - destruct (enforce_revoked _ _ _ _ H) as [_ ->]. done.
Qed.

Lemma evolves_store r id l l' :
  lookupLease r id = Some l → l_interrupt l' = l_interrupt l → l_revoked l' = l_revoked l →
  evolves r (storeLease id l' r) [].
Proof.
  intros Hl E1 E2. unfold storeLease. unfold lookupLease in *.
  destruct (sessions r !! id) as [k|] eqn:Hk; constructor; unfold lookupLease; simpl.
  - intros j m. rewrite lookup_insert. case_decide as Hj.
    + subst j. rewrite Hk. intros [= <-]. exists l'. simplify_eq. rewrite E1, E2. split_and!; [done..|]. by left.
    + intros Hm. exists m. split_and!; [done..|]. by left.
  - intros j Hj. rewrite lookup_insert. case_decide; [by eexists|done].
  - intros j m. destruct (sessions r !! j) eqn:Hj.
    + intros [= <-]. eexists. split_and!; [done..|]. by left.
    + rewrite lookup_insert. case_decide as Hij; intros Hm.
      * subst j. exists l'. simplify_eq. rewrite E1, E2. split_and!; [done..|]. by left.
      * exists m. split_and!; [done..|]. by left.
  - done.
Qed.

Lemma evolves_Rebind r id value : evolves r (Rebind r id value).1 [].
Proof.
  unfold Rebind. destruct (lookupLease r id) as [l|] eqn:Hl; [|by apply evolves_same].
  destruct (CanonicalIP value) as [ip|]; [|by apply evolves_same].
  destruct (closed r || l_revoked l); [by apply evolves_same|].
  destruct (String.eqb ip (l_sourceIP l)); [by apply evolves_same|].
  destruct (rebindRefusal r l ip); [by apply evolves_same|]. cbv zeta. cbn [fst].
  set (r1 := addSource _ _ _). assert (Hl1 : lookupLease r1 id = Some l) by exact Hl.
  pose proof (evolves_store r1 id l (lease_move ip l) Hl1 eq_refl eq_refl) as [H1 H2].
  by constructor.
Qed.

Lemma notify_evolves r r' cbs : notify r r' cbs → evolves r r' cbs.
Proof.
  intros [snapshot r1 cbs1 ids H|ids| |request| |request|lookup user request|p reason H|id inbound].
  - apply Update_notified in H as [Hn Hd]. by apply evolves_notified.
  - apply evolves_notified; [apply notified_revokeLocked|done].
  - apply evolves_notified; [|done]. exact (notified_revokeLocked _ _ (with_closed true r)).
  - apply evolves_auth, same_auth_acquire.
  - apply evolves_auth, same_auth_release.
  - apply evolves_auth, same_auth_lookup.
  - apply evolves_auth, same_auth_target.
  - unfold openCommit. rewrite H. by apply evolves_same.
  - unfold session_rebind. destruct (inbound ≫= in_Source); [apply evolves_Rebind|by apply evolves_same].
Qed.

(** every step of the plane is a step of the registry, or leaves it alone *)
Lemma notify_op r r' cbs : notify r r' cbs → op everyone r r' ∨ r' = r.
Proof.
  intros [snapshot r1 cbs1 ids H|ids| |request| |request|lookup user request|p reason H|id inbound].
  1-8: left; by econstructor.
  unfold session_rebind. destruct (inbound ≫= in_Source); [left; by constructor|by right].
Qed.

Lemma pstep_world s s' : pstep s s' → step everyone (pl_world s) (pl_world s') ∨ pl_world s' = pl_world s.
Proof.
  intros [r r' a links pending cbs H|r a links pending p c built Href Hn _|r a links pending c k _ _
         |w links before c after|w links pending c k _|w links pending c k _|r a links pending c k _ _]; simpl.
  - destruct (notify_op _ _ _ H) as [Hop| ->]; [left; by apply step_op|by right].
  - left. by apply step_admit.
  - left. by apply step_op, op_bind.
  - by right.
  - by right.
  - by right.
  - left. by apply step_op, op_close_lease.
Qed.

Lemma preachable_world snapshot cfg s : preachable snapshot cfg s → reachable everyone snapshot cfg (pl_world s).
Proof.
  induction 1 as [|s s' Hr IH Hs]; [apply reachable_new|].
  destruct (pstep_world _ _ Hs) as [H| ->]; [by eapply reachable_step|done].
Qed.

(** ** The invariant of the links *)

(** the state of a link's lease, as the link needs it *)
Definition link_ok (r : Registry) (pending : list callback) (c : callback) (k : Carried) : Prop :=
  (∃ l, lookupLease r (c_lease k) = Some l ∧
     (c_bound k = true → l_interrupt l = Some c ∧
        (l_revoked l = true → callback_reaches (c_built k) ⊆ c_hit k ∨ c ∈ pending))) ∧
  (c_open k = true → c_ended k = false → is_Some (sessions r !! c_lease k)).

Record plane_inv (s : Plane) : Prop := mkPlaneInv {
  pi_auth : auth_inv (pl_world s);
  pi_link : ∀ c k, pl_links s !! c = Some k → link_ok (w_reg (pl_world s)) (pl_pending s) c k;
  pi_own : ∀ c c' k k', pl_links s !! c = Some k → pl_links s !! c' = Some k' → c_lease k = c_lease k' → c = c' }.

Lemma link_ok_evolves r r' cbs pending c k :
  evolves r r' cbs → link_ok r pending c k → link_ok r' (pending ++ cbs) c k.
Proof.
  intros [Hl Hs] [(l & Hlook & Hb) Ho]. split; [|by intros H1 H2; apply Hs, Ho].
  destruct (Hl _ _ Hlook) as (l' & Hlook' & Ei & Er). exists l'. split; [done|].
  intros Hbound. destruct (Hb Hbound) as [Hi Hr]. split; [congruence|].
  intros [H|H]%Er; [destruct (Hr H) as [?|?]; [by left|]|]; right; apply elem_of_app; [by left|right; by apply H].
Qed.

Lemma lookupLease_bound r a id l : auth_inv (mkWorld r a) → lookupLease r id = Some l → id ≤ nextID r.
Proof.
  intros H. unfold lookupLease. destruct (sessions r !! id) as [k|] eqn:Hk.
  - intros _. destruct (ai_sessions _ H id k Hk) as (_ & ? & _). simpl in *. lia.
  - intros Hd. destruct (ai_detached _ H id l Hd) as (? & _). simpl in *. lia.
Qed.

Lemma evolves_openCommit r a p :
  auth_inv (mkWorld r a) → commitRefusal r p = None → nextID r + 1 < 2 ^ 64 →
  evolves r (openCommit r p).1 [] ∧ sessions (openCommit r p).1 !! (nextID r + 1) = Some (newLease r p).
Proof.
  intros Ha Href Hn. pose proof (ai_nextID _ Ha) as Hnext. simpl in Hnext.
  assert (Hs : sessions (openCommit r p).1 = <[nextID r + 1 := newLease r p]> (sessions r)).
  { unfold openCommit. rewrite Href. cbv zeta. cbn [fst newLease l_id]. rewrite wrapu64_id by lia.
    by destruct (p_kind p). }
  assert (Hd : detached (openCommit r p).1 = detached r).
  { unfold openCommit. rewrite Href. by destruct (p_kind p). }
  split; [|by rewrite Hs, lookup_insert_eq]. constructor; unfold lookupLease; rewrite Hs, ?Hd.
  - intros id l Hl. pose proof (lookupLease_bound r a id l Ha Hl).
    rewrite lookup_insert_ne by lia. exists l. split_and!; [done..|]. by left.
  - intros id Hid. rewrite lookup_insert. case_decide; [by eexists|done].
Qed.

Lemma lookup_storeLease r id l j : is_Some (lookupLease r id) →
  lookupLease (storeLease id l r) j = if decide (id = j) then Some l else lookupLease r j.
Proof.
  intros Hid. unfold storeLease, lookupLease in *. destruct (sessions r !! id) as [k|] eqn:Hk; simpl.
  - rewrite lookup_insert. by case_decide.
  - rewrite lookup_insert. case_decide as Hj; [|done]. subst j. by rewrite Hk.
Qed.

Lemma sessions_storeLease r id l j : is_Some (sessions r !! j) → is_Some (sessions (storeLease id l r) !! j).
Proof.
  intros Hj. unfold storeLease. destruct (sessions r !! id); simpl; [|done].
  rewrite lookup_insert. case_decide; [by eexists|done].
Qed.

Lemma lookup_CloseLease r id j l : lookupLease r j = Some l →
  ∃ l', lookupLease (CloseLease r id) j = Some l' ∧ l_interrupt l' = l_interrupt l ∧ l_revoked l' = l_revoked l.
Proof.
  intros Hj. unfold CloseLease. destruct (lookupLease r id) as [k|] eqn:Hk; [|by exists l].
  destruct (l_once k); [by exists l|]. cbv zeta.
  assert (Hgoal : ∀ r1, sessions r1 = delete id (sessions r) → detached r1 = <[id := lease_close k]> (detached r) →
    ∃ l', lookupLease r1 j = Some l' ∧ l_interrupt l' = l_interrupt l ∧ l_revoked l' = l_revoked l).
  { intros r1 E1 E2. unfold lookupLease in *. rewrite E1, E2. destruct (decide (id = j)) as [->|Hne].
    - rewrite lookup_delete_eq, lookup_insert_eq. exists (lease_close k). split; [done|].
      rewrite Hk in Hj. by injection Hj as ->.
    - rewrite lookup_delete_ne, lookup_insert_ne by done. by exists l. }
  apply Hgoal; by destruct (l_kind k).
Qed.

Lemma sessions_CloseLease r id j : id ≠ j → is_Some (sessions r !! j) → is_Some (sessions (CloseLease r id) !! j).
Proof.
  intros Hne Hj. unfold CloseLease. destruct (lookupLease r id) as [k|]; [|done].
  destruct (l_once k); [done|]. cbv zeta.
  assert (E : ∀ r1, sessions r1 = delete id (sessions r) → is_Some (sessions r1 !! j)).
  { intros r1 ->. by rewrite lookup_delete_ne. }
  apply E. by destruct (l_kind k).
Qed.

(** ** Each step keeps it *)
Lemma plane_registry r r' a links pending cbs :
  notify r r' cbs → plane_inv (mkPlane (mkWorld r a) links pending) →
  plane_inv (mkPlane (mkWorld r' a) links (pending ++ cbs)).
Proof.
  intros H [Ha Hl Ho]. constructor; simpl in *; [|intros c k Hk; by eapply link_ok_evolves, Hl; [apply notify_evolves|]|done].
  destruct (notify_op _ _ _ H) as [Hop| ->]; [by apply (auth_op everyone r)|done].
Qed.

Lemma plane_open r a links pending p c built :
  commitRefusal r p = None → nextID r + 1 < 2 ^ 64 → links !! c = None →
  plane_inv (mkPlane (mkWorld r a) links pending) →
  plane_inv (mkPlane (mkWorld (openCommit r p).1 (<[nextID r + 1 := p]> a))
    (<[c := mkCarried (nextID r + 1) built false true false ∅]> links) pending).
Proof.
  intros Href Hn Hc [Ha Hl Ho]. simpl in *. destruct (evolves_openCommit r a p Ha Href Hn) as [Hev Hnew].
  assert (Hold : ∀ c' k', links !! c' = Some k' → c_lease k' ≠ nextID r + 1).
  { intros c' k' Hk' E. destruct (Hl c' k' Hk') as [(l & Hlook & _) _].
    pose proof (lookupLease_bound r a _ l Ha Hlook). lia. }
  constructor; simpl; [by apply auth_admit| |].
  - intros c' k'. rewrite lookup_insert. case_decide as Hcc.
    + intros [= <-]. unfold link_ok. cbn [c_lease c_bound]. unfold lookupLease. rewrite Hnew.
      split; [by exists (newLease r p)|intros _ _; by eexists].
    + intros Hk'. rewrite <- (app_nil_r pending). by eapply link_ok_evolves, Hl.
  - intros c1 c2 k1 k2. rewrite !lookup_insert. repeat case_decide; subst; try done.
    + intros [= <-] Hk2 E. by destruct (Hold _ _ Hk2).
    + intros Hk1 [= <-] E. by destruct (Hold _ _ Hk1).
    + by apply Ho.
Qed.

Lemma plane_bind r a links pending c k :
  links !! c = Some k → c_bound k = false →
  plane_inv (mkPlane (mkWorld r a) links pending) →
  plane_inv (mkPlane (mkWorld (BindInterrupt r (c_lease k) (Some c)).1 a) (<[c := carried_bind k]> links)
    (pending ++ option_list (BindInterrupt r (c_lease k) (Some c)).2)).
Proof.
  intros Hk Hb [Ha Hl Ho]. simpl in *. pose proof (auth_bind r a (c_lease k) (Some c) Ha) as Ha'.
  unfold BindInterrupt in *. destruct (Hl c k Hk) as [(l & Hlook & _) Hopen]. rewrite Hlook in *. cbn [fst snd] in *.
  assert (His : is_Some (lookupLease r (c_lease k))) by (by rewrite Hlook).
  constructor; simpl; [exact Ha'| |].
  - intros c' k'. rewrite lookup_insert. case_decide as Hcc.
    + subst c'. intros [= <-]. split; [|intros H He; apply sessions_storeLease; by apply Hopen].
      exists (lease_bind (Some c) l). cbn [c_lease carried_bind]. rewrite (lookup_storeLease _ _ _ _ His), decide_True by done.
      split; [done|]. intros _. split; [done|]. cbn [lease_bind l_revoked]. intros ->. right.
      apply elem_of_app. right. by left.
    + intros Hk'. destruct (Hl c' k' Hk') as [(l' & Hlook' & Hb') Hopen'].
      assert (c_lease k ≠ c_lease k') by (intros E; by destruct Hcc; eapply Ho).
      split; [|intros H' He; by apply sessions_storeLease, Hopen']. exists l'.
      rewrite (lookup_storeLease _ _ _ _ His), decide_False by done. split; [done|]. intros H'.
      destruct (Hb' H') as [Hi Hr]. split; [done|]. intros Hrev. destruct (Hr Hrev) as [?|?]; [by left|right].
      apply elem_of_app. by left.
  - intros c1 c2 k1 k2. rewrite !lookup_insert. repeat case_decide; subst; try done.
    + intros [= <-] Hk2 E. by eapply Ho.
    + intros Hk1 [= <-] E. by eapply Ho.
    + by apply Ho.
Qed.

(** replacing a link by one with the same lease *)
Lemma plane_own_alter (f : Carried → Carried) (links : gmap callback Carried) c :
  (∀ k, c_lease (f k) = c_lease k) →
  (∀ c1 c2 k1 k2, links !! c1 = Some k1 → links !! c2 = Some k2 → c_lease k1 = c_lease k2 → c1 = c2) →
  ∀ c1 c2 k1 k2, alter f c links !! c1 = Some k1 → alter f c links !! c2 = Some k2 → c_lease k1 = c_lease k2 → c1 = c2.
Proof.
  intros Hf Ho c1 c2 k1 k2. rewrite !lookup_alter.
  assert (H : ∀ j kj, (if decide (c = j) then f <$> links !! c else links !! j) = Some kj →
    ∃ kj', links !! j = Some kj' ∧ c_lease kj = c_lease kj').
  { intros j kj. case_decide as Hj; [|by eauto]. subst. destruct (links !! _) as [k|]; [|done].
    intros [= <-]. by exists k. }
  intros (k1' & H1 & ->)%H (k2' & H2 & ->)%H. by apply Ho.
Qed.

Lemma plane_run w links before c after :
  plane_inv (mkPlane w links (before ++ c :: after)) →
  plane_inv (mkPlane w (alter carried_run c links) (before ++ after)).
Proof.
  intros [Ha Hl Ho]. simpl in *. constructor; simpl; [done| |by apply plane_own_alter].
  intros c' k'. rewrite lookup_alter. case_decide as Hcc.
  - subst c'. destruct (links !! c) as [k|] eqn:Hk; [|done]. simpl. intros [= <-].
    destruct (Hl c k Hk) as [(l & Hlook & Hb) Hopen]. split; [|exact Hopen].
    exists l. split; [done|]. intros H. destruct (Hb H) as [Hi Hr]. split; [done|]. intros _. left.
    cbn [c_built c_hit carried_run]. apply union_subseteq_r.
  - intros Hk'. destruct (Hl c' k' Hk') as [(l & Hlook & Hb) Hopen]. split; [|exact Hopen].
    exists l. split; [done|]. intros H. destruct (Hb H) as [Hi Hr]. split; [done|]. intros Hrev.
    destruct (Hr Hrev) as [?|Hin]; [by left|right]. apply elem_of_app. apply elem_of_app in Hin as [?|Hin]; [by left|right].
    apply elem_of_cons in Hin as [->|?]; done.
Qed.

(** a step that changes neither the lease of a link nor what was called *)
Lemma plane_alter (f : Carried → Carried) w links pending c k :
  (∀ k, c_lease (f k) = c_lease k ∧ c_built (f k) = c_built k ∧ c_bound (f k) = c_bound k ∧ c_hit (f k) = c_hit k ∧
     (c_open (f k) = true → c_ended (f k) = false → c_open k = true ∧ c_ended k = false)) →
  links !! c = Some k → plane_inv (mkPlane w links pending) →
  plane_inv (mkPlane w (<[c := f k]> links) pending).
Proof.
  intros Hf Hk [Ha Hl Ho]. simpl in *.
  assert (E : <[c := f k]> links = alter f c links).
  { apply map_eq. intros j. rewrite lookup_insert, lookup_alter. case_decide; [subst j; by rewrite Hk|done]. }
  rewrite E. constructor; simpl; [done| |].
  - intros c' k'. rewrite lookup_alter. case_decide as Hcc; [|by apply Hl].
    subst c'. rewrite Hk. intros [= <-]. destruct (Hf k) as (E1 & E2 & E3 & E4 & H).
    destruct (Hl c k Hk) as [(l & Hlook & Hb) Hopen]. unfold link_ok. rewrite E1, E2, E3, E4.
    split; [by exists l|]. intros H1 H2. destruct (H H1 H2). by apply Hopen.
  - apply plane_own_alter; [|done]. intros k0. by destruct (Hf k0).
Qed.

Lemma plane_end w links pending c k :
  links !! c = Some k → plane_inv (mkPlane w links pending) →
  plane_inv (mkPlane w (<[c := carried_end k]> links) pending).
Proof. by apply plane_alter. Qed.

Lemma plane_context w links pending c k :
  links !! c = Some k → plane_inv (mkPlane w links pending) →
  plane_inv (mkPlane w (<[c := carried_context k]> links) pending).
Proof. by apply plane_alter. Qed.

Lemma plane_close r a links pending c k :
  links !! c = Some k → c_open k = false ∨ c_ended k = true →
  plane_inv (mkPlane (mkWorld r a) links pending) →
  plane_inv (mkPlane (mkWorld (CloseLease r (c_lease k)) a) links pending).
Proof.
  intros Hk Hend [Ha Hl Ho]. simpl in *. constructor; simpl; [by apply auth_close_lease| |done].
  intros c' k' Hk'. destruct (Hl c' k' Hk') as [(l & Hlook & Hb) Hopen].
  destruct (lookup_CloseLease r (c_lease k) _ _ Hlook) as (l' & Hlook' & Ei & Er). split.
  - exists l'. split; [done|]. by rewrite Ei, Er.
  - intros Hop He. apply sessions_CloseLease; [|by apply Hopen]. intros E.
    assert (c = c') as <- by by eapply Ho. destruct Hend; congruence.
Qed.

Lemma plane_invariant snapshot cfg s : preachable snapshot cfg s → plane_inv s.
Proof.
  induction 1 as [|s s' _ IH Hs]; [by constructor; [apply auth_New|..]|].
  destruct Hs; eauto using plane_registry, plane_open, plane_bind, plane_run, plane_end, plane_context, plane_close.
Qed.

(** C7: a revocation reaches the link, as long as its lease is held. In every
    state that the dispatcher and the registry can reach, under any
    interleaving of openings, binds, updates, revocations, callbacks,
    migrations (of closed leases, too), ends of links, ends of contexts and
    closes, a bound link that Dispatch built and that still carries traffic is
    one of four things: its session is live, hence its user is in the snapshot
    in force and that user's current policy permits the session's source, port
    and destination; or its callback is owed and still to be called; or it was
    called, and interrupted both pipes of the link; or the context of the
    connection that opened it has ended and closed its lease, so that the
    registry knows the flow no more. The last is the way of the flow of
    [retained_flow_escapes_revocation] in [Xudp]. *)
Theorem revocation_reaches_the_link snapshot cfg s c k counted :
  preachable snapshot cfg s → pl_links s !! c = Some k →
  c_built k = Dispatched counted → c_bound k = true → c_open k = true →
  (∃ l user p, sessions (w_reg (pl_world s)) !! c_lease k = Some l ∧ l_revoked l = false ∧
     closed (w_reg (pl_world s)) = false ∧ users (w_reg (pl_world s)) !! l_userID l = Some user ∧
     w_admitted (pl_world s) !! c_lease k = Some p ∧ permits user (l_sourceIP l) p) ∨
  (c ∈ pl_pending s) ∨ ((UplinkPipe ∈ c_hit k) ∧ DownlinkPipe ∈ c_hit k) ∨
  (c_ended k = true ∧ sessions (w_reg (pl_world s)) !! c_lease k = None).
Proof.
  intros Hreach Hk Hbuilt Hb Hop. apply plane_invariant in Hreach as [Ha Hl _].
  destruct (Hl c k Hk) as [(l & Hlook & Hbound) Hopen].
  destruct (sessions (w_reg (pl_world s)) !! c_lease k) as [l'|] eqn:Hs.
  2:{ right; right; right. split; [|done]. destruct (c_ended k); [done|].
      by destruct (Hopen Hop eq_refl). }
  unfold lookupLease in Hlook. rewrite Hs in Hlook. injection Hlook as ->.
  destruct (Hbound Hb) as [_ Hr]. destruct (l_revoked l) eqn:Hrev.
  - right. destruct (Hr eq_refl) as [Hhit|?]; [right; left|by left].
    rewrite Hbuilt in Hhit. cbn [callback_reaches] in Hhit. rewrite dispatched_interrupt in Hhit.
    split; apply Hhit, elem_of_union; [left|right]; by apply elem_of_singleton.
  - left. destruct (ai_sessions _ Ha _ _ Hs) as (_ & _ & _ & _ & Hlive).
    destruct (Hlive Hrev) as (Hcl & user & p & Hu & Hp & _ & _ & Hperm & _). by exists l, user, p.
Qed.

(** ** Witness: a link revoked between two steps, its callback called *)
Definition demoUnbound : Carried := mkCarried (nextID demo0 + 1) (Dispatched true) false true false ∅.
Definition demoPlane : Plane :=
  mkPlane (mkWorld (RevokeUsers (BindInterrupt demo1 (c_lease demoUnbound) (Some 7)).1 [42]).1 demoAdmitted1)
    (alter carried_run 7 (<[7 := carried_bind demoUnbound]> (<[7 := demoUnbound]> ∅))) [].

Lemma demoPlane_reachable : preachable (demoSnapshot 2 []) demoConfig demoPlane.
Proof.
  set (bound := (BindInterrupt demo1 (c_lease demoUnbound) (Some 7)).1).
  set (links := <[7 := carried_bind demoUnbound]> (<[7 := demoUnbound]> ∅) : gmap callback Carried).
  assert (E1 : (BindInterrupt demo1 (c_lease demoUnbound) (Some 7)).2 = None) by (vm_compute; reflexivity).
  assert (E2 : (RevokeUsers bound [42]).2 = [7]) by (vm_compute; reflexivity).
  assert (H0 : preachable (demoSnapshot 2 []) demoConfig
    (mkPlane (mkWorld demo1 demoAdmitted1) (<[7 := demoUnbound]> ∅) [])).
  { eapply pr_step; [apply pr_new|]. apply ps_open; by vm_compute. }
  pose proof (pr_step _ _ _ _ H0 (ps_bind demo1 demoAdmitted1 (<[7 := demoUnbound]> ∅) [] 7 demoUnbound eq_refl eq_refl)) as H1.
  rewrite E1 in H1. pose proof (pr_step _ _ _ _ H1 (ps_registry bound _ demoAdmitted1 links _ _ (n_revoke bound [42]))) as H2.
  rewrite E2 in H2. exact (pr_step _ _ _ _ H2 (ps_run _ links [] 7 [])).
Qed.

Lemma revocation_reaches_the_link_witness :
  ∃ k, pl_links demoPlane !! 7 = Some k ∧ c_open k = true ∧ pl_pending demoPlane = [] ∧
    (UplinkPipe ∈ c_hit k) ∧ DownlinkPipe ∈ c_hit k.
Proof.
  assert (E : pl_links demoPlane !! 7 = Some (carried_run (carried_bind demoUnbound))) by (vm_compute; reflexivity).
  exists (carried_run (carried_bind demoUnbound)). split; [exact E|]. split; [reflexivity|]. split; [reflexivity|].
  destruct (revocation_reaches_the_link (demoSnapshot 2 []) demoConfig demoPlane 7 _ true
    demoPlane_reachable E eq_refl eq_refl eq_refl) as [(l & user & p & Hl & Hr & _)|[Hp|[H|[H _]]]]; [exfalso| |exact H|discriminate H].
  - assert (Hl' : sessions (w_reg (pl_world demoPlane)) !! c_lease (carried_run (carried_bind demoUnbound)) =
      Some (lease_revoke (lease_bind (Some 7) (newLease demo0 (demoPrepared "203.0.113.1" TCP))))) by (vm_compute; reflexivity).
    rewrite Hl' in Hl. injection Hl as <-. discriminate Hr.
  - by apply not_elem_of_nil in Hp.
Defined.
