(* ===== verification/Xudp.v ===== *)
(** Mux and XUDP on the server side ([common/mux] in the vendored Xray-core,
    with the project's patch): a UDP flow with a GlobalID outlives the Mux
    connection that carried it for a minute, and moves to the connection on
    which its client comes back. This file models the flows with the sessions
    of the registry behind them, shows what a reconnection does, and where the
    lease of a flow and its traffic part. *)
From S2P Require Import Prelude GoString Float64 Netip NetipText Model Config Policy.
From S2P Require Import Session SessionInv SessionProps SessionLease NetAddress SessionControl Links.

Local Open Scope string_scope.
Local Open Scope Z_scope.

(** ** State

    Pointers are numbers. A flow is the link that Dispatch returned: its lease
    (none without a controller), the connection whose context it was opened
    under, and whether its pipes are interrupted or closed. *)
Record UdpFlow : Type := mkUdpFlow {
  fl_lease : option Z;
  fl_context : Z;
  fl_stopped : bool }.

(** mux.Session; its input, output, onClose and rebind are those of its flow, and
    [ms_packet] is the transfer type *)
Record MuxSession : Type := mkMuxSession {
  ms_flow : Z;
  ms_parent : Z;
  ms_ID : Z;
  ms_xudp : option Z;
  ms_packet : bool;
  ms_closed : bool }.

Inductive Status : Type := Initializing | Active | Expiring.
#[global] Instance Status_eq_dec : EqDecision Status.
Proof. solve_decision. Defined.

Record XUDPEntry : Type := mkXUDP {
  x_GlobalID : Z;
  x_Status : Status;
  x_Expire : Z;
  x_Mux : option Z }.

(** a Mux connection: its inbound, its session manager, whether its context was
    cancelled, whether the context allows UDP only, and how many sessions the manager
    was given (16 bits) *)
Record Carrier : Type := mkCarrier {
  ca_inbound : Inbound;
  ca_sessions : gmap Z Z;
  ca_closed : bool;
  ca_cancelled : bool;
  ca_udp_only : bool;
  ca_count : Z }.

Record MuxState : Type := mkMux {
  mx_registry : Registry;
  mx_flows : gmap Z UdpFlow;
  mx_sessions : gmap Z MuxSession;
  mx_xudp : gmap Z XUDPEntry;
  mx_Map : gmap Z Z;
  mx_carriers : gmap Z Carrier;
  mx_next : Z }.

Definition set_registry r (m : MuxState) : MuxState :=
  mkMux r (mx_flows m) (mx_sessions m) (mx_xudp m) (mx_Map m) (mx_carriers m) (mx_next m).
Definition set_flow p f (m : MuxState) : MuxState :=
  mkMux (mx_registry m) (<[p := f]> (mx_flows m)) (mx_sessions m) (mx_xudp m) (mx_Map m) (mx_carriers m) (mx_next m).
Definition set_session p s (m : MuxState) : MuxState :=
  mkMux (mx_registry m) (mx_flows m) (<[p := s]> (mx_sessions m)) (mx_xudp m) (mx_Map m) (mx_carriers m) (mx_next m).
Definition set_xudp p x (m : MuxState) : MuxState :=
  mkMux (mx_registry m) (mx_flows m) (mx_sessions m) (<[p := x]> (mx_xudp m)) (mx_Map m) (mx_carriers m) (mx_next m).
Definition set_Map f (m : MuxState) : MuxState :=
  mkMux (mx_registry m) (mx_flows m) (mx_sessions m) (mx_xudp m) (f (mx_Map m)) (mx_carriers m) (mx_next m).
Definition set_carrier c k (m : MuxState) : MuxState :=
  mkMux (mx_registry m) (mx_flows m) (mx_sessions m) (mx_xudp m) (mx_Map m) (<[c := k]> (mx_carriers m)) (mx_next m).
(** a new pointer *)
Definition fresh (m : MuxState) : Z * MuxState :=
  (mx_next m, mkMux (mx_registry m) (mx_flows m) (mx_sessions m) (mx_xudp m) (mx_Map m) (mx_carriers m) (mx_next m + 1)).

Definition with_status (s : Status) (x : XUDPEntry) : XUDPEntry := mkXUDP (x_GlobalID x) s (x_Expire x) (x_Mux x).
Definition with_mux (p : Z) (x : XUDPEntry) : XUDPEntry := mkXUDP (x_GlobalID x) (x_Status x) (x_Expire x) (Some p).

(** ** Ending flows and sessions *)

(** the Done callback of the link: close of the controlled session *)
Definition flow_done (p : Z) (m : MuxState) : MuxState :=
  match mx_flows m !! p ≫= fl_lease with
  | Some id => set_registry (CloseLease (mx_registry m) id) m
  | None => m
  end.

(** interrupting the input and closing the output of a session *)
Definition stop_flow (p : Z) (m : MuxState) : MuxState :=
  match mx_flows m !! p with
  | Some f => set_flow p (mkUdpFlow (fl_lease f) (fl_context f) true) m
  | None => m
  end.

(** SessionManager.Remove and Add *)
Definition Remove (c sid : Z) (m : MuxState) : MuxState :=
  match mx_carriers m !! c with
  | Some k =>
      if ca_closed k then m
      else set_carrier c (mkCarrier (ca_inbound k) (delete sid (ca_sessions k)) (ca_closed k) (ca_cancelled k) (ca_udp_only k) (ca_count k)) m
  | None => m
  end.
Definition Add (c sid p : Z) (m : MuxState) : MuxState * bool :=
  match mx_carriers m !! c with
  | Some k =>
      if ca_closed k then (m, false)
      else (set_carrier c (mkCarrier (ca_inbound k) (<[sid := p]> (ca_sessions k)) (ca_closed k) (ca_cancelled k) (ca_udp_only k)
              ((ca_count k + 1) mod 65536)) m, true)
  | None => (m, false)
  end.

(** Session.Close; [now] in seconds *)
Definition SessionClose (now : Z) (p : Z) (m : MuxState) : MuxState :=
  match mx_sessions m !! p with
  | None => m
  | Some s =>
      if ms_closed s then m
      else
        let m := set_session p (mkMuxSession (ms_flow s) (ms_parent s) (ms_ID s) (ms_xudp s) (ms_packet s) true) m in
        let m :=
          match ms_xudp s with
          | None => flow_done (ms_flow s) (stop_flow (ms_flow s) m)
          | Some xp =>
              match mx_xudp m !! xp with
              | Some x =>
                  if bool_decide (x_Status x = Active)
                  then set_xudp xp (mkXUDP (x_GlobalID x) Expiring (now + 60) (x_Mux x)) m
                  else m
              | None => m
              end
          end in
        Remove (ms_parent s) (ms_ID s) m
  end.

(** XUDP.Interrupt *)
Definition XUDPInterrupt (xp : Z) (m : MuxState) : MuxState :=
  match mx_xudp m !! xp ≫= x_Mux with
  | Some p =>
      match mx_sessions m !! p with
      | Some s => flow_done (ms_flow s) (stop_flow (ms_flow s) m)
      | None => m
      end
  | None => m
  end.

(** the end of a Mux connection: cancelling its context runs the AfterFunc of
    every controlled session opened under it, and the monitor closes the
    session manager *)
Definition cancel_context (c : Z) (m : MuxState) : MuxState :=
  fold_left (λ m p, if bool_decide (fl_context p.2 = c) then flow_done p.1 m else m) (map_to_list (mx_flows m)) m.

Definition ManagerClose (now c : Z) (m : MuxState) : MuxState :=
  match mx_carriers m !! c with
  | Some k =>
      if ca_closed k then m
      else
        let sessions := map snd (map_to_list (ca_sessions k)) in
        let m := set_carrier c (mkCarrier (ca_inbound k) (ca_sessions k) true (ca_cancelled k) (ca_udp_only k) (ca_count k)) m in
        let m := fold_left (λ m p, SessionClose now p m) sessions m in
        set_carrier c (mkCarrier (ca_inbound k) ∅ true (ca_cancelled k) (ca_udp_only k) (ca_count k)) m
  | None => m
  end.

Definition CarrierEnd (now c : Z) (m : MuxState) : MuxState :=
  match mx_carriers m !! c with
  | Some k =>
      let m := set_carrier c (mkCarrier (ca_inbound k) (ca_sessions k) (ca_closed k) true (ca_udp_only k) (ca_count k)) m in
      ManagerClose now c (cancel_context c m)
  | None => m
  end.

(** the sweep of the XUDP manager, once a minute *)
Definition Sweep (now : Z) (m : MuxState) : MuxState :=
  fold_left (λ m e,
    match mx_xudp m !! e.2 with
    | Some x =>
        if bool_decide (x_Status x = Expiring) && (x_Expire x <? now)
        then set_Map (delete e.1) (XUDPInterrupt e.2 m) else m
    | None => m
    end) (map_to_list (mx_Map m)) m.

(** ** Opening *)

(** Dispatch of the dispatcher and bind: a new flow; the interrupt callback of
    the lease is named after it. A callback that is owed at once is called. *)
Definition MuxDispatch (lookup : string → option (list Addr)) (c : Z) (k : Carrier) (target : Destination) (m : MuxState)
  : MuxState * outcome string Z :=
  match Dispatch (Some (mx_registry m)) lookup (Some (ca_inbound k)) target with
  | (r, _, Ok (_, lease)) =>
      let m := set_registry (default (mx_registry m) r) m in
      let '(p, m) := fresh m in
      let m := set_flow p (mkUdpFlow lease c false) m in
      match lease with
      | Some id =>
          let '(r, owed) := BindInterrupt (mx_registry m) id (Some p) in
          let m := set_registry r m in
          (match owed with Some _ => stop_flow p m | None => m end, Ok p)
      | None => (m, Ok p)
      end
  | (r, _, Err e) => (set_registry (default (mx_registry m) r) m, Err e)
  | (r, _, Panic) => (m, Panic)
  end.

(** a new session of the carrier for a flow *)
Definition new_session (now c sid : Z) (xp : option Z) (packet : bool) (flow : Z) (m : MuxState) : MuxState * outcome string Z :=
  let '(p, m) := fresh m in
  let m := set_session p (mkMuxSession flow c sid xp packet false) m in
  let m :=
    match xp with
    | Some xp =>
        match mx_xudp m !! xp with
        | Some x => set_xudp xp (with_status Active (with_mux p x)) m
        | None => m
        end
    | None => m
    end in
  match Add c sid p m with
  | (m, true) => (m, Ok p)
  | (m, false) => (SessionClose now p m, Err "failed to add new session")
  end.

(** the first half of a hit: rebind the lease, detach from the previous Mux;
    [Ok None] says that the flow takes the packet, [Ok (Some _)] that a new flow is
    needed; every flow takes an empty packet *)
Definition reattach (empty : bool) (now : Z) (k : Carrier) (xp : Z) (x : XUDPEntry) (m : MuxState)
  : MuxState * outcome string (option Z) :=
  let m := set_xudp xp (with_status Initializing x) m in
  match x_Mux x ≫= (mx_sessions m !!.) with
  | None => (m, Panic)
  | Some s =>
      let rebound :=
        match mx_flows m !! ms_flow s ≫= fl_lease with
        | Some id =>
            let '(r, res) := session_rebind (mx_registry m) id (Some (ca_inbound k)) in (set_registry r m, res)
        | None => (m, Ok tt)
        end in
      match rebound with
      | (m, Ok _) =>
          let m := match x_Mux x with Some p => SessionClose now p m | None => m end in
          match mx_flows m !! ms_flow s with
          | Some f => if fl_stopped f && negb empty then (XUDPInterrupt xp m, Ok (Some xp)) else (m, Ok None)
          | None => (m, Panic)
          end
      | (m, Err e) => (set_Map (delete (x_GlobalID x)) (XUDPInterrupt xp m), Err ("XUDP source rebind rejected > " +:+ e))
      | (m, Panic) => (m, Panic)
      end
  end.

(** handleStatusNew of a frame with a GlobalID ([0] is the empty one; a frame of
    another network than UDP has none), for the target of its metadata; [empty] says
    that its packet is. An error ends the whole Mux connection. *)
Definition handleNewFrame (empty : bool) (lookup : string → option (list Addr)) (now c sid gid : Z) (target : Destination)
    (m : MuxState) : MuxState * outcome string unit :=
  match mx_carriers m !! c with
  | None => (m, Ok tt)
  | Some k =>
      let finish xp (packet : bool) (r : MuxState * outcome string Z) : MuxState * outcome string unit :=
        match r with
        | (m, Ok flow) => let '(m, res) := new_session now c sid xp packet flow m in (m, let? _ := res in Ok tt)
        | (m, Err e) => (m, Err e)
        | (m, Panic) => (m, Panic)
        end in
      (* a dispatch for the XUDP entry [xp]; a refusal forgets the entry *)
      let open xp (m : MuxState) :=
        match MuxDispatch lookup c k target m with
        | (m, Err e) => (set_Map (delete gid) m, Err e)
        | r => r
        end in
      if ca_udp_only k && negb (bool_decide (dst_Network target = Network_UDP)) then (m, Err "unexpected network")
      else if gid =? 0 then finish None (bool_decide (dst_Network target = Network_UDP)) (MuxDispatch lookup c k target m)
      else
        match mx_Map m !! gid with
        | None =>
            let '(xp, m) := fresh m in
            let m := set_Map (insert gid xp) (set_xudp xp (mkXUDP gid Initializing 0 None) m) in
            finish (Some xp) true (open xp m)
        | Some xp =>
            match mx_xudp m !! xp with
            | None => (m, Panic)
            | Some x =>
                if bool_decide (x_Status x = Initializing) then (m, Ok tt)
                else
                  match reattach empty now k xp x m with
                  | (m, Ok None) =>
                      match x_Mux x ≫= (mx_sessions m !!.) with
                      | Some s => finish (Some xp) true (m, Ok (ms_flow s))
                      | None => (m, Panic)
                      end
                  | (m, Ok (Some xp)) => finish (Some xp) true (open xp m)
                  | (m, Err e) => (m, Err e)
                  | (m, Panic) => (m, Panic)
                  end
            end
        end
  end.

Definition handleStatusNew := handleNewFrame false.

(** frames of a session that is open: data for it, and its end. Data goes to the flow;
    when that takes no more, the session is closed. The answer to data for an unknown
    session is an end frame, which changes nothing here. *)
Definition handleStatusKeep (now c sid : Z) (m : MuxState) : MuxState :=
  match mx_carriers m !! c ≫= λ k, ca_sessions k !! sid with
  | Some p =>
      match mx_sessions m !! p ≫= λ s, mx_flows m !! ms_flow s with
      | Some f => if fl_stopped f then SessionClose now p m else m
      | None => m
      end
  | None => m
  end.
Definition handleStatusEnd (now c sid : Z) (m : MuxState) : MuxState :=
  match mx_carriers m !! c ≫= λ k, ca_sessions k !! sid with
  | Some p => SessionClose now p m
  | None => m
  end.

(** ** Control *)

(** a registry operation with its callbacks: each stops the flow it is named after *)
Definition run_callbacks (cbs : list callback) (m : MuxState) : MuxState := fold_left (λ m c, stop_flow c m) cbs m.
Definition MuxRevoke (ids : list Z) (m : MuxState) : MuxState :=
  let '(r, cbs) := RevokeUsers (mx_registry m) ids in run_callbacks cbs (set_registry r m).

(** ** Registry lemmas *)
Lemma CloseLease_sessions r id j :
  sessions (CloseLease r id) !! j = sessions r !! j ∨ (j = id ∧ sessions (CloseLease r id) !! j = None).
Proof.
  unfold CloseLease. destruct (lookupLease r id) as [l|]; [|by left]. destruct (l_once l); [by left|]. cbv zeta.
  assert (E : ∀ r1, sessions r1 = delete id (sessions r) →
    sessions r1 !! j = sessions r !! j ∨ (j = id ∧ sessions r1 !! j = None)).
  { intros r1 ->. rewrite lookup_delete. case_decide; [right; by subst|by left]. }
  apply E. by destruct (l_kind l).
Qed.

(** the sessions of [r'] are sessions of [r] *)
Definition fewer (r r' : Registry) : Prop := ∀ j l, sessions r' !! j = Some l → sessions r !! j = Some l.

Lemma fewer_refl r : fewer r r.
Proof. by intros j l. Qed.
Lemma fewer_trans r1 r2 r3 : fewer r1 r2 → fewer r2 r3 → fewer r1 r3.
Proof. intros H1 H2 j l Hl. by apply H1, H2. Qed.
Lemma fewer_CloseLease r id : fewer r (CloseLease r id).
Proof. intros j l Hl. destruct (CloseLease_sessions r id j) as [E|[_ E]]; rewrite E in Hl; done. Qed.

(** a session that is in the table was not closed *)
Definition unclosed (r : Registry) : Prop := ∀ id l, sessions r !! id = Some l → l_once l = false.

Lemma unclosed_fewer r r' : fewer r r' → unclosed r → unclosed r'.
Proof. intros H Hu id l Hl. by apply (Hu id), H. Qed.

Lemma CloseLease_gone r id : unclosed r → sessions (CloseLease r id) !! id = None.
Proof.
  intros Hu. destruct (sessions r !! id) as [l|] eqn:Hl.
  - unfold CloseLease, lookupLease. rewrite Hl, (Hu id l Hl). cbv zeta.
    assert (E : ∀ r1, sessions r1 = delete id (sessions r) → sessions r1 !! id = None).
    { intros r1 ->. apply lookup_delete_eq. }
    apply E. by destruct (l_kind l).
  - destruct (CloseLease_sessions r id id) as [E|[_ E]]; [by rewrite E|done].
Qed.

(** ** What the end of a connection leaves alone *)

(** [m'] is [m] with some leases closed, some plain Mux flows stopped, and XUDP
    flows left as they are *)
Definition plain_flow (m : MuxState) (p : Z) : Prop :=
  ∃ q s, mx_sessions m !! q = Some s ∧ ms_flow s = p ∧ ms_xudp s = None.

Record winds_down (m m' : MuxState) : Prop := mkWinds {
  wd_registry : fewer (mx_registry m) (mx_registry m');
  wd_flows : ∀ p, ¬ plain_flow m p → mx_flows m' !! p = mx_flows m !! p;
  wd_plain : ∀ p, plain_flow m' p → plain_flow m p;
  wd_Map : mx_Map m' = mx_Map m }.

Lemma winds_refl m : winds_down m m.
Proof. constructor; [apply fewer_refl|done..]. Qed.

Lemma winds_trans m1 m2 m3 : winds_down m1 m2 → winds_down m2 m3 → winds_down m1 m3.
Proof.
  intros [R1 F1 P1 M1] [R2 F2 P2 M2]. constructor; [by eapply fewer_trans| |by auto|congruence].
  intros p Hp. rewrite F2; [by apply F1|]. by intros ?%P1.
Qed.

Lemma winds_fold {A} (f : MuxState → A → MuxState) l m :
  (∀ m a, winds_down m (f m a)) → winds_down m (fold_left f l m).
Proof.
  intros H. revert m. induction l as [|a l IH]; intros m; [apply winds_refl|].
  simpl. by eapply winds_trans.
Qed.

Lemma winds_flow_done p m : winds_down m (flow_done p m).
Proof.
  unfold flow_done. destruct (mx_flows m !! p ≫= fl_lease) as [id|]; [|apply winds_refl].
  constructor; simpl; [apply fewer_CloseLease|done..].
Qed.

Lemma winds_carrier c k m : winds_down m (set_carrier c k m).
Proof. constructor; simpl; [apply fewer_refl|done..]. Qed.

Lemma winds_Remove c sid m : winds_down m (Remove c sid m).
Proof. unfold Remove. destruct (mx_carriers m !! c) as [k|]; [|apply winds_refl]. destruct (ca_closed k); [apply winds_refl|apply winds_carrier]. Qed.

(** marking a session closed *)
Lemma winds_mark p s m : mx_sessions m !! p = Some s →
  winds_down m (set_session p (mkMuxSession (ms_flow s) (ms_parent s) (ms_ID s) (ms_xudp s) (ms_packet s) true) m).
Proof.
  intros Hs. constructor; simpl; [apply fewer_refl|done| |done].
  intros q (j & t & Hj & Hf & Hx). simpl in Hj. rewrite lookup_insert in Hj. case_decide as E.
  - injection Hj as <-. exists p, s. done.
  - by exists j, t.
Qed.

Lemma winds_stop_plain p m : plain_flow m p → winds_down m (stop_flow p m).
Proof.
  intros Hp. unfold stop_flow. destruct (mx_flows m !! p) as [f|]; [|apply winds_refl].
  constructor; simpl; [apply fewer_refl| |done|done].
  intros q Hq. rewrite lookup_insert_ne; [done|]. by intros <-.
Qed.

Lemma winds_SessionClose now p m : winds_down m (SessionClose now p m).
Proof.
  unfold SessionClose. destruct (mx_sessions m !! p) as [s|] eqn:Hs; [|apply winds_refl].
  destruct (ms_closed s); [apply winds_refl|]. cbv zeta. eapply winds_trans; [by apply (winds_mark p s)|].
  set (m1 := set_session _ _ m). eapply winds_trans; [|apply winds_Remove].
  destruct (ms_xudp s) as [xp|] eqn:Hx.
  - destruct (mx_xudp m1 !! xp) as [x|]; [|apply winds_refl].
    destruct (bool_decide _); [|apply winds_refl]. constructor; simpl; [apply fewer_refl|done..].
  - eapply winds_trans; [apply winds_stop_plain|apply winds_flow_done].
    exists p. eexists. split; [apply lookup_insert_eq|]. split; [done|]. by rewrite <- ?Hx.
Qed.

Lemma winds_ManagerClose now c m : winds_down m (ManagerClose now c m).
Proof.
  unfold ManagerClose. destruct (mx_carriers m !! c) as [k|]; [|apply winds_refl].
  destruct (ca_closed k); [apply winds_refl|]. cbv zeta.
  eapply winds_trans; [apply winds_carrier|]. eapply winds_trans; [|apply winds_carrier].
  apply winds_fold. intros. apply winds_SessionClose.
Qed.

Lemma winds_cancel c m : winds_down m (cancel_context c m).
Proof.
  unfold cancel_context. apply winds_fold. intros m' [p f]. simpl.
  case_bool_decide; [apply winds_flow_done|apply winds_refl].
Qed.

Lemma winds_CarrierEnd now c m : winds_down m (CarrierEnd now c m).
Proof.
  unfold CarrierEnd. destruct (mx_carriers m !! c) as [k|]; [|apply winds_refl]. cbv zeta.
  eapply winds_trans; [apply winds_carrier|]. eapply winds_trans; [apply winds_cancel|apply winds_ManagerClose].
Qed.

(** cancelling the context closes every lease that was opened under it *)
Lemma flow_done_gone p f id m : unclosed (mx_registry m) → mx_flows m !! p = Some f → fl_lease f = Some id →
  sessions (mx_registry (flow_done p m)) !! id = None.
Proof.
  intros Hu Hp Hid. unfold flow_done. rewrite Hp. cbn [mbind option_bind]. rewrite Hid. by apply CloseLease_gone.
Qed.

Lemma flow_done_flows p m : mx_flows (flow_done p m) = mx_flows m.
Proof. unfold flow_done. by destruct (mx_flows m !! p ≫= fl_lease). Qed.

Lemma fewer_None r r' id : fewer r r' → sessions r !! id = None → sessions r' !! id = None.
Proof. intros H Hn. destruct (sessions r' !! id) as [l|] eqn:E; [apply H in E; congruence|done]. Qed.

Lemma cancel_context_gone c p f id m :
  unclosed (mx_registry m) → mx_flows m !! p = Some f → fl_context f = c → fl_lease f = Some id →
  sessions (mx_registry (cancel_context c m)) !! id = None.
Proof.
  intros Hu Hp Hc Hid. unfold cancel_context.
  set (step := λ m' (q : Z * UdpFlow), if bool_decide (fl_context q.2 = c) then flow_done q.1 m' else m').
  assert (Hstep : ∀ m' q, winds_down m' (step m' q) ∧ mx_flows (step m' q) = mx_flows m').
  { intros m' [q g]. unfold step. simpl.
    case_bool_decide; split; [apply winds_flow_done|apply flow_done_flows|apply winds_refl|done]. }
  assert (Hin : (p, f) ∈ map_to_list (mx_flows m)) by by apply elem_of_map_to_list.
  revert Hin. generalize (map_to_list (mx_flows m)). intros l Hin. revert m Hu Hp Hin.
  induction l as [|q l IH]; intros m Hu Hp Hin; [by apply not_elem_of_nil in Hin|].
  cbn [fold_left]. destruct (Hstep m q) as [Hw Hf].
  apply elem_of_cons in Hin as [<-|Hin].
  - eapply fewer_None; [apply (wd_registry (step m (p, f))), winds_fold; intros; by apply Hstep|].
    unfold step. simpl. rewrite bool_decide_eq_true_2 by done. by eapply flow_done_gone.
  - apply IH; [by eapply unclosed_fewer; [apply Hw|]|by rewrite Hf|done].
Qed.

(** ** A session that a connection opens *)

(** the session [sid] of the connection is open, and so is its flow, with a live lease
    of the user *)
Definition carries (m : MuxState) (c sid uid : Z) : Prop :=
  ∃ k p s id l, mx_carriers m !! c = Some k ∧ ca_closed k = false ∧ ca_sessions k !! sid = Some p ∧
    mx_sessions m !! p = Some s ∧ ms_closed s = false ∧
    mx_flows m !! ms_flow s = Some (mkUdpFlow (Some id) c false) ∧
    sessions (mx_registry m) !! id = Some l ∧ l_userID l = uid ∧ l_revoked l = false.

Lemma MuxDispatch_opens lookup c k target m r inb d id l :
  Dispatch (Some (mx_registry m)) lookup (Some (ca_inbound k)) target = (Some r, inb, Ok (d, Some id)) →
  sessions r !! id = Some l → l_revoked l = false →
  ∃ m' p, MuxDispatch lookup c k target m = (m', Ok p) ∧ mx_carriers m' = mx_carriers m ∧
    mx_flows m' !! p = Some (mkUdpFlow (Some id) c false) ∧
    sessions (mx_registry m') !! id = Some (lease_bind (Some p) l).
Proof.
  intros Hd Hl Hr. unfold MuxDispatch. rewrite Hd. unfold fresh. cbv zeta.
  cbn [default set_registry set_flow mx_registry mx_next].
  assert (E : ∀ cb, BindInterrupt r id cb = (with_sessions (<[id := lease_bind cb l]> (sessions r)) r, None)).
  { intros cb. unfold BindInterrupt, lookupLease, storeLease. by rewrite Hl, Hr. }
  cbn [mx_registry default from_option]. rewrite E. eexists _, _. split; [done|].
  cbn [set_registry set_flow mx_carriers mx_flows mx_registry with_sessions sessions]. by rewrite !lookup_insert_eq.
Qed.

Lemma handleStatusNew_opens lookup now c sid k target m r inb d id l :
  mx_carriers m !! c = Some k → ca_closed k = false → (ca_udp_only k = true → dst_Network target = Network_UDP) →
  Dispatch (Some (mx_registry m)) lookup (Some (ca_inbound k)) target = (Some r, inb, Ok (d, Some id)) →
  sessions r !! id = Some l → l_revoked l = false →
  ∃ m', handleStatusNew lookup now c sid 0 target m = (m', Ok tt) ∧ carries m' c sid (l_userID l).
Proof.
  intros Hk Hopen Hnet Hd Hl Hr. unfold handleStatusNew, handleNewFrame. rewrite Hk. cbv zeta.
  assert (ca_udp_only k && negb (bool_decide (dst_Network target = Network_UDP)) = false) as ->.
  { destruct (ca_udp_only k); [|done]. by rewrite bool_decide_eq_true_2 by auto. }
  change (0 =? 0) with true. cbv iota.
  destruct (MuxDispatch_opens lookup c k target m r inb d id l Hd Hl Hr) as (m1 & p & -> & Hc & Hf & Hs).
  unfold new_session, fresh, Add. cbn [set_session mx_carriers]. rewrite Hc, Hk, Hopen. eexists. split; [done|].
  eexists _, _, _, id, _. cbn [set_carrier set_session mx_carriers mx_sessions mx_flows mx_registry].
  rewrite !lookup_insert_eq. split; [done|]. split; [done|]. cbn [ca_sessions]. rewrite lookup_insert_eq.
  by split_and!.
Qed.

(** the callbacks of the registry stop flows; connections stay as they are *)
Lemma run_callbacks_carriers cbs m :
  mx_carriers (run_callbacks cbs m) = mx_carriers m ∧ mx_registry (run_callbacks cbs m) = mx_registry m.
Proof.
  unfold run_callbacks. revert m. induction cbs as [|c cbs IH]; intros m; [done|]. cbn [fold_left].
  destruct (IH (stop_flow c m)) as [-> ->]. unfold stop_flow. by destruct (mx_flows m !! c).
Qed.

(** ** The flow without its lease *)
Lemma stop_flow_other c p m : c ≠ p → mx_flows (stop_flow c m) !! p = mx_flows m !! p.
Proof. intros Hne. unfold stop_flow. destruct (mx_flows m !! c); [|done]. simpl. by rewrite lookup_insert_ne. Qed.

Lemma run_callbacks_other cbs p m : p ∉ cbs → mx_flows (run_callbacks cbs m) !! p = mx_flows m !! p.
Proof.
  unfold run_callbacks. revert m. induction cbs as [|c cbs IH]; intros m Hp; [done|]. cbn [fold_left].
  apply not_elem_of_cons in Hp as [Hne Hp]. rewrite IH by done. by apply stop_flow_other.
Qed.

Lemma RevokeUsers_callback r ids c : c ∈ (RevokeUsers r ids).2 →
  ∃ id l, sessions r !! id = Some l ∧ l_interrupt l = Some c.
Proof.
  unfold RevokeUsers, revokeLocked. cbn [snd]. intros ([id l] & Hin & Hc)%list_elem_of_omap.
  apply elem_of_map_to_list in Hin. destruct (revokes _ _ l); [|done]. by exists id, l.
Qed.

(** C19: the lease of a UDP flow ends with the connection the flow was opened
    on, and the flow does not. When that connection ends, the flow's lease is
    closed, so that it is no session of the registry any more, neither counted
    nor revocable; the flow itself, retained for reconnection or already moved to
    another connection, keeps its pipes, its entry in the XUDP table keeps
    leading to it, and revoking any users at any time afterwards does not touch
    it. *)
Theorem retained_flow_escapes_revocation now c m k p f id ids :
  unclosed (mx_registry m) → mx_carriers m !! c = Some k →
  mx_flows m !! p = Some f → fl_context f = c → fl_lease f = Some id → ¬ plain_flow m p →
  (∀ j l, sessions (mx_registry m) !! j = Some l → l_interrupt l = Some p → j = id) →
  let ended := CarrierEnd now c m in
  sessions (mx_registry ended) !! id = None ∧ mx_Map ended = mx_Map m ∧
  mx_flows ended !! p = Some f ∧ mx_flows (MuxRevoke ids ended) !! p = Some f.
Proof.
  intros Hu Hk Hp Hc Hid Hplain Hown ended.
  pose proof (winds_CarrierEnd now c m) as Hw. fold ended in Hw.
  assert (Hgone : sessions (mx_registry ended) !! id = None).
  { unfold ended, CarrierEnd. rewrite Hk. cbv zeta.
    eapply fewer_None; [apply (wd_registry _ _ (winds_ManagerClose now c _))|].
    by apply (cancel_context_gone c p f). }
  assert (Hflow : mx_flows ended !! p = Some f) by (rewrite (wd_flows _ _ Hw p Hplain); exact Hp).
  split_and!; [exact Hgone|apply Hw|exact Hflow|].
  unfold MuxRevoke. destruct (RevokeUsers (mx_registry ended) ids) as [r cbs] eqn:E.
  rewrite run_callbacks_other; [exact Hflow|]. intros Hin.
  assert (Hin' : p ∈ (RevokeUsers (mx_registry ended) ids).2) by by rewrite E.
  apply RevokeUsers_callback in Hin' as (j & l & Hl & Hi).
  pose proof (Hown j l (wd_registry _ _ Hw _ _ Hl) Hi) as ->. congruence.
Qed.

(** an end frame ends the session of a retained flow, not the flow: it keeps its lease,
    which stays counted, and expires after a minute *)
Lemma end_frame_retains now c sid m k p s xp x :
  mx_carriers m !! c = Some k → ca_sessions k !! sid = Some p → mx_sessions m !! p = Some s → ms_closed s = false →
  ms_xudp s = Some xp → mx_xudp m !! xp = Some x → x_Status x = Active →
  let m' := handleStatusEnd now c sid m in
  mx_registry m' = mx_registry m ∧ mx_flows m' = mx_flows m ∧ mx_Map m' = mx_Map m ∧
  mx_xudp m' !! xp = Some (mkXUDP (x_GlobalID x) Expiring (now + 60) (x_Mux x)).
Proof.
  intros Hc Hsid Hs Hopen Hxs Hx Hst. unfold handleStatusEnd. rewrite Hc. cbn [mbind option_bind]. rewrite Hsid.
  unfold SessionClose. rewrite Hs, Hopen. cbv zeta. rewrite Hxs. cbn [set_session mx_xudp]. rewrite Hx, bool_decide_eq_true_2 by done.
  unfold Remove. cbn [set_xudp set_session mx_carriers].
  destruct (mx_carriers m !! ms_parent s) as [kp|]; [destruct (ca_closed kp)|];
    cbn [set_carrier set_xudp set_session mx_registry mx_flows mx_Map mx_xudp]; rewrite lookup_insert_eq; done.
Qed.

(** ** Reconnection *)

(** a live XUDP entry: the table leads to it, its current session [s] is not
    closed, and its flow has a lease and takes packets *)
Definition serving (m : MuxState) (gid xp p : Z) (s : MuxSession) (id : Z) : Prop :=
  mx_Map m !! gid = Some xp ∧
  (∃ x, mx_xudp m !! xp = Some x ∧ x_GlobalID x = gid ∧ x_Status x ≠ Initializing ∧ x_Mux x = Some p) ∧
  mx_sessions m !! p = Some s ∧ ms_xudp s = Some xp ∧
  (∃ f, mx_flows m !! ms_flow s = Some f ∧ fl_lease f = Some id ∧ fl_stopped f = false).

(** closing the session of an entry that is being moved only marks it closed and
    removes it from its manager *)
Lemma SessionClose_moving now p s xp x m :
  mx_sessions m !! p = Some s → ms_xudp s = Some xp → mx_xudp m !! xp = Some x → x_Status x = Initializing →
  let m' := SessionClose now p m in
  mx_registry m' = mx_registry m ∧ mx_flows m' = mx_flows m ∧ mx_xudp m' = mx_xudp m ∧ mx_Map m' = mx_Map m ∧
  mx_next m' = mx_next m ∧
  mx_sessions m' !! p = Some (mkMuxSession (ms_flow s) (ms_parent s) (ms_ID s) (ms_xudp s) (ms_packet s) true) ∧
  (∀ c k, mx_carriers m !! c = Some k → ∃ k', mx_carriers m' !! c = Some k' ∧ ca_closed k' = ca_closed k ∧ ca_inbound k' = ca_inbound k).
Proof.
  intros Hs Hxs Hx Hst. unfold SessionClose. rewrite Hs. destruct (ms_closed s) eqn:Hcl.
  { cbv zeta. split_and!; try done; [rewrite Hs; destruct s; simpl in *; by subst|]. intros c k Hk. by exists k. }
  cbv zeta. rewrite Hxs. cbn [set_session mx_xudp]. rewrite Hx, bool_decide_eq_false_2 by by rewrite Hst.
  unfold Remove. cbn [set_session mx_carriers]. destruct (mx_carriers m !! ms_parent s) as [kp|] eqn:Hkp.
  - destruct (ca_closed kp) eqn:Hc; cbn [set_carrier set_session mx_registry mx_flows mx_xudp mx_Map mx_next mx_sessions mx_carriers];
      rewrite lookup_insert_eq; split_and!; try done.
    + intros c k Hk. by exists k.
    + intros c k Hk. rewrite lookup_insert. case_decide as E; [|by exists k].
      subst c. rewrite Hkp in Hk. injection Hk as <-. by eexists.
  - cbn [set_session mx_registry mx_flows mx_xudp mx_Map mx_next mx_sessions mx_carriers].
    rewrite lookup_insert_eq. split_and!; try done. intros c k Hk. by exists k.
Qed.

(** C15: a UDP flow that comes back on another connection moves there or ends.
    When its client reconnects with the flow's GlobalID, the lease is rebound to
    the new source, and nothing else is asked of the registry: no second session
    is opened for the flow, whatever the target of the new frame. If the
    registry accepts the source, the flow goes on as the new connection's
    session and the old connection's session is closed; if it refuses, the flow
    is stopped, its lease closed, its entry dropped, and the new connection is
    told. *)
Theorem reconnection_moves_or_ends lookup now c k sid gid target m xp p s id r' res :
  mx_carriers m !! c = Some k → ca_closed k = false → gid ≠ 0 → dst_Network target = Network_UDP →
  serving m gid xp p s id → p ≠ mx_next m →
  session_rebind (mx_registry m) id (Some (ca_inbound k)) = (r', res) →
  let '(m', out) := handleStatusNew lookup now c sid gid target m in
  match res with
  | Ok _ =>
      out = Ok tt ∧ mx_registry m' = r' ∧ mx_flows m' = mx_flows m ∧ mx_Map m' = mx_Map m ∧
      (∃ x, mx_xudp m' !! xp = Some x ∧ x_Status x = Active ∧ x_Mux x = Some (mx_next m)) ∧
      mx_sessions m' !! mx_next m = Some (mkMuxSession (ms_flow s) c sid (Some xp) true false) ∧
      (∃ k', mx_carriers m' !! c = Some k' ∧ ca_sessions k' !! sid = Some (mx_next m)) ∧
      (∃ old, mx_sessions m' !! p = Some old ∧ ms_closed old = true)
  | Err e =>
      out = Err ("XUDP source rebind rejected > " +:+ e) ∧ mx_registry m' = CloseLease r' id ∧
      mx_Map m' = delete gid (mx_Map m) ∧
      ∃ f, mx_flows m' !! ms_flow s = Some f ∧ fl_stopped f = true
  | Panic => False
  end.
Proof.
  intros Hk Hck Hgid Hudp (Hmap & (x & Hx & Hg & Hst & Hxm) & Hs & Hxs & f & Hf & Hid & Hstop) Hnext Hre.
  assert (Hnp : res ≠ Panic).
  { unfold session_rebind in Hre. intros ->. destruct (Some (ca_inbound k) ≫= in_Source); [|done].
    unfold Rebind in Hre. repeat case_match; simplify_eq. }
  unfold handleStatusNew, handleNewFrame. rewrite Hk. cbv zeta.
  rewrite bool_decide_eq_true_2 by done. cbn [negb]. rewrite andb_false_r, (proj2 (Z.eqb_neq _ _) Hgid), Hmap, Hx.
  rewrite bool_decide_eq_false_2 by done. unfold reattach. rewrite Hxm. cbn [mbind option_bind].
  cbn [set_xudp mx_sessions mx_flows mx_registry]. rewrite Hs, Hf. cbn [mbind option_bind]. rewrite Hid, Hre.
  set (m1 := set_registry r' _).
  assert (Hx1 : mx_xudp m1 !! xp = Some (with_status Initializing x)) by apply lookup_insert_eq.
  destruct res as [[]|e|]; [| |done].
  - destruct (SessionClose_moving now p s xp _ m1 Hs Hxs Hx1 eq_refl) as (Er & Ef & Ex & Em & En & Es & Ec).
    set (m2 := SessionClose now p m1) in *. rewrite Ef. change (mx_flows m1) with (mx_flows m). rewrite Hf, Hstop. cbn [andb].
    rewrite Es. cbn [ms_flow]. unfold new_session, fresh. rewrite En. change (mx_next m1) with (mx_next m).
    destruct (Ec c k Hk) as (k2 & Hk2 & Hc2 & _).
    cbn [set_session set_xudp mx_sessions mx_xudp mx_carriers]. rewrite Ex, Hx1.
    unfold Add. cbn [set_session set_xudp mx_sessions mx_xudp mx_carriers]. rewrite Hk2, Hc2, Hck.
    cbn [obind set_carrier set_session set_xudp mx_registry mx_flows mx_sessions mx_xudp mx_Map mx_carriers].
    rewrite !lookup_insert_eq, Er, Em, Ef. split_and!; try done.
    + eexists. split; [done|]. done.
    + eexists. split; [done|]. apply lookup_insert_eq.
    + eexists. rewrite lookup_insert_ne by done. split; [exact Es|done].
  - cbn [set_Map mx_registry mx_flows mx_Map]. unfold XUDPInterrupt. rewrite Hx1. cbn [mbind option_bind with_status x_Mux].
    rewrite Hxm. change (mx_sessions m1) with (mx_sessions m). rewrite Hs. unfold stop_flow.
    change (mx_flows m1) with (mx_flows m). rewrite Hf. unfold flow_done. cbn [set_flow mx_flows mx_registry].
    rewrite lookup_insert_eq. cbn [mbind option_bind fl_lease]. rewrite Hid.
    rewrite Hg. split_and!; try done. eexists. split; [apply lookup_insert_eq|done].
Qed.

(** ** Witnesses: a client that changes its network *)
Definition demoCarrier (source : Z) : Carrier := mkCarrier (demoInbound source) ∅ false false true 0.
Definition udpTarget : Destination := mkDestination (ipv4Address 3325256705) 443 Network_UDP.
Definition mux0 : MuxState :=
  mkMux (New (mkSnapshot (demoNode 2) [freeUser] 0 EmptyString) demoConfig) ∅ ∅ ∅ ∅
    (<[1 := demoCarrier 3405803777]> (<[2 := demoCarrier 3405803778]> ∅)) 10.
(** the flow is opened on connection 1 and moves to connection 2 *)
Definition mux1 : MuxState := (handleStatusNew noDNS 0 1 5 99 udpTarget mux0).1.
Definition mux2 : MuxState := (handleStatusNew noDNS 30 2 6 99 udpTarget mux1).1.
Definition muxFlow : UdpFlow := mkUdpFlow (Some 1) 1 false.
Definition muxSession1 : MuxSession := mkMuxSession 11 1 5 (Some 10) true false.
Definition muxLease (source : string) : Lease := mkLease 1 42 source XUDP false false (Some 11) false None None.

Lemma mux1_serving : serving mux1 99 10 12 muxSession1 1.
Proof.
  split; [by vm_compute|]. split; [exists (mkXUDP 99 Active 0 (Some 12)); split_and!; try by vm_compute|].
  split; [by vm_compute|]. split; [done|]. exists muxFlow. split_and!; by vm_compute.
Qed.

Lemma reconnection_moves_or_ends_witness :
  ∃ m' r', handleStatusNew noDNS 30 2 6 99 udpTarget mux1 = (m', Ok tt) ∧
    session_rebind (mx_registry mux1) 1 (Some (demoInbound 3405803778)) = (r', Ok tt) ∧
    mx_registry m' = r' ∧ mx_flows m' = mx_flows mux1 ∧
    sessions r' !! 1 = Some (muxLease "203.0.113.2").
Proof.
  destruct (session_rebind (mx_registry mux1) 1 (Some (demoInbound 3405803778))) as [r' res] eqn:E.
  assert (Hres : res = Ok tt).
  { assert (res = (session_rebind (mx_registry mux1) 1 (Some (demoInbound 3405803778))).2) as -> by (by rewrite E). by vm_compute. }
  pose proof (reconnection_moves_or_ends noDNS 30 2 (demoCarrier 3405803778) 6 99 udpTarget mux1 10 12 muxSession1 1 r' res
    ltac:(by vm_compute) eq_refl ltac:(done) eq_refl mux1_serving ltac:(by vm_compute) E) as H.
  destruct (handleStatusNew noDNS 30 2 6 99 udpTarget mux1) as [m' out]. rewrite Hres in H.
  destruct H as (-> & H1 & H2 & _). exists m', r'. split; [done|]. split; [by rewrite Hres|].
  split; [exact H1|]. split; [exact H2|].
  assert (r' = (session_rebind (mx_registry mux1) 1 (Some (demoInbound 3405803778))).1) as -> by (by rewrite E).
  by vm_compute.
Defined.

Lemma mux2_sessions : sessions (mx_registry mux2) = <[1 := muxLease "203.0.113.2"]> ∅.
Proof. vm_compute. reflexivity. Qed.

Lemma mux2_xudp q s : mx_sessions mux2 !! q = Some s → ms_xudp s ≠ None.
Proof.
  assert (E : mx_sessions mux2 = <[12 := mkMuxSession 11 1 5 (Some 10) true true]>
    (<[13 := mkMuxSession 11 2 6 (Some 10) true false]> ∅)) by (vm_compute; reflexivity).
  rewrite E. rewrite !lookup_insert_Some, lookup_empty. intros [[_ <-]|[_ [[_ <-]|[_ ?]]]]; done.
Qed.

(** connection 1 is gone, the flow is active on connection 2, and its user is
    revoked: the flow is untouched *)
Lemma retained_flow_escapes_revocation_witness :
  mx_flows (MuxRevoke [42] (CarrierEnd 40 1 mux2)) !! 11 = Some muxFlow ∧
  sessions (mx_registry (CarrierEnd 40 1 mux2)) !! 1 = None ∧
  x_Status <$> mx_xudp (CarrierEnd 40 1 mux2) !! 10 = Some Active ∧
  RegistryMetrics (mx_registry (CarrierEnd 40 1 mux2)) = mkMetrics 0 0 0 ∅.
Proof.
  assert (Hu : unclosed (mx_registry mux2)).
  { intros id l. rewrite mux2_sessions, lookup_insert_Some, lookup_empty. intros [[_ <-]|[_ ?]]; done. }
  assert (Hown : ∀ j l, sessions (mx_registry mux2) !! j = Some l → l_interrupt l = Some 11 → j = 1).
  { intros j l. rewrite mux2_sessions, lookup_insert_Some, lookup_empty. intros [[<- _]|[_ ?]]; done. }
  assert (Hplain : ¬ plain_flow mux2 11) by (intros (q & s & Hq & _ & Hx); by apply mux2_xudp in Hq).
  assert (Hk : ∃ k, mx_carriers mux2 !! 1 = Some k) by (eexists; vm_compute; reflexivity).
  destruct Hk as [k Hk].
  destruct (retained_flow_escapes_revocation 40 1 mux2 k 11 muxFlow 1 [42] Hu Hk ltac:(by vm_compute) eq_refl eq_refl
    Hplain Hown) as (H1 & _ & _ & H2).
  split; [exact H2|]. split; [exact H1|]. split; by vm_compute.
Defined.
