(* ===== verification/MuxFrame.v ===== *)
(** The frames of a Mux connection ([common/mux/frame.go], [writer.go], [reader.go],
    [server.go] in the vendored Xray-core): how the metadata of a frame is written and
    read, how its data is framed, and the worker that reads frame after frame from a
    client and hands each to the handlers that Xudp models. Whatever bytes a client
    sends, the worker ends, and nothing in it panics. *)
From S2P Require Import Prelude GoString Float64 Digest Netip NetipText Model Config Policy.
From S2P Require Import Session SessionInv SessionProps SessionLease NetAddress WireAddress SessionControl Links Xudp.

Local Open Scope string_scope.
Local Open Scope Z_scope.

(** ** Frames *)
Definition SessionStatusNew : Z := 1.
Definition SessionStatusKeep : Z := 2.
Definition SessionStatusEnd : Z := 3.
Definition SessionStatusKeepAlive : Z := 4.
Definition OptionData : Z := 1.
Definition OptionError : Z := 2.
Definition TargetNetworkTCP : Z := 1.
Definition TargetNetworkUDP : Z := 2.

(** bitmask.Byte *)
Definition Has (b bb : Z) : bool := negb (Z.land b bb =? 0).

(** FrameMetadata. [None] is the destination without an address and with the unknown
    network; a GlobalID is the value of its eight bytes. The inbound of a frame is only
    set for the reverse proxy, which no configuration of the program has. *)
Record FrameMetadata : Type := mkFrame {
  fm_Target : option Destination;
  fm_SessionID : Z;
  fm_Option : Z;
  fm_SessionStatus : Z;
  fm_GlobalID : Z }.

(** WriteTo, for a buffer whose UDP destination is [udp]: the fixed part, what follows
    it, and the whole behind its length *)
Definition meta_head (f : FrameMetadata) : string :=
  string_of (be_bytes 2 (fm_SessionID f) ++ [fm_SessionStatus f; fm_Option f])%list.
Definition meta_body (udp : option Destination) (f : FrameMetadata) : outcome string string :=
  if fm_SessionStatus f =? SessionStatusNew then
    match fm_Target f with
    | None => Panic
    | Some t =>
        let network :=
          match dst_Network t with
          | Network_TCP => string_of [TargetNetworkTCP]
          | Network_UDP => string_of [TargetNetworkUDP]
          | _ => EmptyString
          end in
        let '(w, res) := WriteAddressPort (dst_Address t) (dst_Port t) in
        let? _ := res in
        Ok (network +:+ w +:+ match udp with Some _ => string_of (be_bytes 8 (fm_GlobalID f)) | None => EmptyString end)
    end
  else
    match udp with
    | Some d => Ok (string_of [TargetNetworkUDP] +:+ (WriteAddressPort (dst_Address d) (dst_Port d)).1)
    | None => Ok EmptyString
    end.
Definition WriteTo (udp : option Destination) (f : FrameMetadata) : outcome string string :=
  let? body := meta_body udp f in
  let meta := meta_head f +:+ body in
  Ok (string_of (be_bytes 2 (slen meta)) +:+ meta).

(** UnmarshalFromBuffer *)
Definition UnmarshalFromBuffer (b : string) : outcome string FrameMetadata :=
  match bytes_of b with
  | i1 :: i0 :: status :: option :: more =>
      let id := be_value [i1; i0] in
      let addressed :=
        (status =? SessionStatusNew) ||
        ((status =? SessionStatusKeep) && match more with network :: _ => network =? TargetNetworkUDP | [] => false end) in
      if addressed then
        match more with
        | network :: _ :: _ :: _ :: _ =>
            let? x := match ReadAddressPort (mkReading EmptyString (drop_chars 5 b)) with
                      | Some x => Ok x | None => Err "failed to parse address and port" end in
            let '(st, addr, port) := x in
            let? target :=
              if network =? TargetNetworkTCP then Ok (mkDestination addr port Network_TCP)
              else if network =? TargetNetworkUDP then Ok (mkDestination addr port Network_UDP)
              else Err "unknown network type" in
            let gid :=
              if (status =? SessionStatusNew) && Has option OptionData &&
                 bool_decide (dst_Network target = Network_UDP) && (8 <=? slen (rd_input st))
              then be_value (bytes_of (take_chars 8 (rd_input st))) else 0 in
            Ok (mkFrame (Some target) id option status gid)
        | _ => Err "insufficient buffer"
        end
      else Ok (mkFrame None id option status 0)
  | _ => Err "insufficient buffer"
  end.

(** ReadUint16 of the package serial: the value and what is left of the input *)
Definition ReadUint16 (input : string) : option (Z * string) :=
  match input with
  | String a (String b rest) => Some (be_value [code a; code b], rest)
  | _ => None
  end.

(** Unmarshal: the metadata, and what is left of the input *)
Definition Unmarshal (input : string) : outcome string (FrameMetadata * string) :=
  match ReadUint16 input with
  | None => Err "EOF"
  | Some (metaLen, input) =>
      guard_err (512 <? metaLen) "invalid metalen" ;?
      match ReadFullFrom metaLen (mkReading EmptyString input) with
      | None => Err "unexpected EOF"
      | Some st => let? f := UnmarshalFromBuffer (rd_buffer st) in Ok (f, rd_input st)
      end
  end.

(** writeMetaWithFrame: a frame with its data; the destination of the packet, if the
    data is one *)
Definition writeMetaWithFrame (udp : option Destination) (meta : FrameMetadata) (data : string) : outcome string string :=
  let? w := WriteTo udp meta in Ok (w +:+ string_of (be_bytes 2 (slen data)) +:+ data).

(** Copy from the stream reader of one chunk, or from the packet reader: the data that
    was read, and what is left of the input unless the connection has ended or the packet
    is too large *)
Definition read_data (packet : bool) (input : string) : string * option string :=
  match ReadUint16 input with
  | None => (EmptyString, None)
  | Some (size, input) =>
      if packet && (8192 <? size) then (EmptyString, None)
      else if slen input <? size then (if packet then EmptyString else input, None)
      else (take_chars (Z.to_nat size) input, Some (drop_chars (Z.to_nat size) input))
  end.

(** ** What a frame is read back as *)
Definition is_byte (b : Z) : Prop := 0 ≤ b < 256.
Definition writable_destination (d : Destination) : Prop := writable (dst_Address d) ∧ 0 ≤ dst_Port d < 65536.

(** the frames that a peer writes, with the packet's destination *)
Record proper (udp : option Destination) (f : FrameMetadata) : Prop := {
  pr_id : 0 ≤ fm_SessionID f < 65536;
  pr_option : is_byte (fm_Option f);
  pr_status : is_byte (fm_SessionStatus f);
  pr_gid : 0 ≤ fm_GlobalID f < 2 ^ 64;
  pr_udp : ∀ d, udp = Some d → writable_destination d;
  pr_target : fm_SessionStatus f = SessionStatusNew →
    ∃ t, fm_Target f = Some t ∧ writable_destination t ∧ (dst_Network t = Network_TCP ∨ dst_Network t = Network_UDP) }.

(** the metadata that is read back: the target of an addressed frame, and the GlobalID of
    a new packet session *)
Definition received (udp : option Destination) (f : FrameMetadata) : FrameMetadata :=
  if fm_SessionStatus f =? SessionStatusNew then
    mkFrame (fm_Target f) (fm_SessionID f) (fm_Option f) (fm_SessionStatus f)
      match udp, fm_Target f with
      | Some _, Some t => if Has (fm_Option f) OptionData && bool_decide (dst_Network t = Network_UDP) then fm_GlobalID f else 0
      | _, _ => 0
      end
  else
    mkFrame
      (if fm_SessionStatus f =? SessionStatusKeep
       then (λ d, mkDestination (dst_Address d) (dst_Port d) Network_UDP) <$> udp else None)
      (fm_SessionID f) (fm_Option f) (fm_SessionStatus f) 0.

Definition demo_new : FrameMetadata :=
  mkFrame (Some (mkDestination (domainAddress "a.io") 443 Network_UDP)) 7 OptionData SessionStatusNew 99.
Example frame_bytes : WriteTo (Some (mkDestination (ipv4Address 1) 53 Network_UDP)) demo_new =
  Ok (bytes [0; 21; 0; 7; 1; 1; 2; 1; 187; 2; 4]%nat +:+ "a.io" +:+ bytes [0; 0; 0; 0; 0; 0; 0; 99]%nat).
Proof. vm_compute. reflexivity. Qed.
Example frame_read : obind (WriteTo (Some (mkDestination (ipv4Address 1) 53 Network_UDP)) demo_new) (λ w, Unmarshal (w +:+ "rest")) =
  Ok (demo_new, "rest").
Proof. vm_compute. reflexivity. Qed.

Lemma bytes_of_app s t : bytes_of (s +:+ t) = (bytes_of s ++ bytes_of t)%list.
Proof. unfold bytes_of. induction s as [|c s IH]; [done|]. cbn. by rewrite <- IH. Qed.

Lemma ReadUint16_back v rest : 0 ≤ v < 65536 → ReadUint16 (string_of (be_bytes 2 v) +:+ rest) = Some (v, rest).
Proof.
  intros Hv. pose proof (be_bytes_range 2 v) as Hr. pose proof (be_value_bytes 2 v Hv) as E. cbn [be_bytes app] in *.
  apply Forall_cons in Hr as [H1 [H2 _]%Forall_cons].
  change (Some (be_value [code (char_of ((v / 256) mod 256)); code (char_of (v mod 256))], rest) = Some (v, rest)).
  rewrite !code_char_of by done. by rewrite E.
Qed.

(** the first four bytes of the metadata *)
Lemma head_bytes f body : 0 ≤ fm_SessionID f < 65536 → is_byte (fm_Option f) → is_byte (fm_SessionStatus f) →
  ∃ i1 i0, be_value [i1; i0] = fm_SessionID f ∧
    bytes_of (meta_head f +:+ body) =
      i1 :: i0 :: fm_SessionStatus f :: fm_Option f :: bytes_of body.
Proof.
  intros Hid Ho Hs. pose proof (be_value_bytes 2 (fm_SessionID f) Hid) as E. pose proof (be_bytes_range 2 (fm_SessionID f)) as Hr.
  cbn [be_bytes app] in *. eexists _, _. split; [exact E|]. unfold meta_head. rewrite bytes_of_app, bytes_of_string_of; [done|].
  apply Forall_cons in Hr as [H1 [H2 _]%Forall_cons].
  unfold is_byte in *. by apply Forall_cons; split; [|apply Forall_cons; split; [|apply Forall_cons; split; [|apply Forall_singleton]]].
Qed.

Lemma four_bytes w : 4 ≤ slen w → ∃ a b c d l, bytes_of w = a :: b :: c :: d :: l.
Proof.
  unfold slen. rewrite <- bytes_of_length. destruct (bytes_of w) as [|a [|b [|c [|d l]]]]; cbn [length]; intros H; try lia.
  by exists a, b, c, d, l.
Qed.

(** an addressed frame: its network, destination and what is behind them *)
Lemma UnmarshalFromBuffer_addressed f network addr port w extra :
  0 ≤ fm_SessionID f < 65536 → is_byte (fm_Option f) → is_byte (fm_SessionStatus f) →
  (fm_SessionStatus f =? SessionStatusNew) || ((fm_SessionStatus f =? SessionStatusKeep) && (network =? TargetNetworkUDP)) = true →
  network = TargetNetworkTCP ∨ network = TargetNetworkUDP → 5 ≤ slen w →
  ReadAddressPort (mkReading EmptyString (w +:+ extra)) = Some (mkReading w extra, addr, port) →
  let target := mkDestination addr port (if network =? TargetNetworkUDP then Network_UDP else Network_TCP) in
  UnmarshalFromBuffer (meta_head f +:+ string_of [network] +:+ w +:+ extra) =
    Ok (mkFrame (Some target) (fm_SessionID f) (fm_Option f) (fm_SessionStatus f)
      (if (fm_SessionStatus f =? SessionStatusNew) && Has (fm_Option f) OptionData && (network =? TargetNetworkUDP) && (8 <=? slen extra)
       then be_value (bytes_of (take_chars 8 extra)) else 0)).
Proof.
  intros Hid Ho Hs Haddr Hnet Hw Hread target.
  destruct (head_bytes f (string_of [network] +:+ w +:+ extra) Hid Ho Hs) as (i1 & i0 & Eid & E).
  unfold UnmarshalFromBuffer. rewrite E, bytes_of_app, bytes_of_string_of by (apply Forall_singleton; destruct Hnet; subst; by cbn).
  cbn [app]. rewrite Haddr. destruct (four_bytes (w +:+ extra)) as (b1 & b2 & b3 & b4 & l & ->).
  { unfold slen in *. rewrite string_length_app. lia. }
  assert (Hdrop : drop_chars 5 (meta_head f +:+ string_of [network] +:+ w +:+ extra)
    = w +:+ extra) by done.
  rewrite Hdrop, Hread, Eid. cbn [obind]. unfold target. clear -Hnet.
  destruct Hnet as [-> | ->]; unfold TargetNetworkTCP, TargetNetworkUDP; cbn [Z.eqb Pos.eqb obind dst_Network rd_input]; [rewrite bool_decide_eq_false_2 by done|rewrite bool_decide_eq_true_2 by done];
    done.
Qed.

Lemma UnmarshalFromBuffer_plain f :
  0 ≤ fm_SessionID f < 65536 → is_byte (fm_Option f) → is_byte (fm_SessionStatus f) → fm_SessionStatus f ≠ SessionStatusNew →
  ∀ body, fm_SessionStatus f ≠ SessionStatusKeep ∨ body = EmptyString →
  UnmarshalFromBuffer (meta_head f +:+ body) =
    Ok (mkFrame None (fm_SessionID f) (fm_Option f) (fm_SessionStatus f) 0).
Proof.
  intros Hid Ho Hs Hnew body Hbody. destruct (head_bytes f body Hid Ho Hs) as (i1 & i0 & Eid & E).
  unfold UnmarshalFromBuffer. rewrite E, Eid, (proj2 (Z.eqb_neq _ _) Hnew). cbn [orb].
  destruct Hbody as [Hk| ->]; [by rewrite (proj2 (Z.eqb_neq _ _) Hk)|]. change (bytes_of EmptyString) with (@nil Z). by rewrite andb_false_r.
Qed.

(** metadata of a length that fits is read back as its buffer is *)
Lemma Unmarshal_back meta rest : slen meta ≤ 512 →
  Unmarshal (string_of (be_bytes 2 (slen meta)) +:+ meta +:+ rest) = (let? f := UnmarshalFromBuffer meta in Ok (f, rest)).
Proof.
  intros Hlen. unfold Unmarshal. rewrite ReadUint16_back by (unfold slen in *; lia).
  destruct (Z.ltb_spec 512 (slen meta)); [lia|]. cbn [guard_err obind]. rewrite ReadFullFrom_app; [done|]. change (slen EmptyString) with 0. lia.
Qed.

Lemma meta_head_length f : slen (meta_head f) = 4.
Proof. unfold meta_head. rewrite string_of_slen, length_app, be_bytes_length. done. Qed.

(** the GlobalID behind a destination *)
Lemma take_gid gid : take_chars 8 (string_of (be_bytes 8 gid)) = string_of (be_bytes 8 gid).
Proof.
  pose proof (take_chars_app (string_of (be_bytes 8 gid)) EmptyString) as H.
  by rewrite string_of_length, be_bytes_length, string_app_nil_r in H.
Qed.

Lemma new_body_back udp f : proper udp f → fm_SessionStatus f = SessionStatusNew →
  ∃ body, meta_body udp f = Ok body ∧ slen body ≤ 400 ∧ UnmarshalFromBuffer (meta_head f +:+ body) = Ok (received udp f).
Proof.
  intros [Hid Ho Hs Hgid Hudp Htarget] Hnew. destruct (Htarget Hnew) as (t & Et & [Ha Hp] & Hnet).
  unfold meta_body, received. rewrite Hnew, Et. change (SessionStatusNew =? SessionStatusNew) with true. cbn iota.
  set (extra := match udp with Some _ => string_of (be_bytes 8 (fm_GlobalID f)) | None => EmptyString end).
  destruct (ReadAddressPort_back (dst_Address t) (dst_Port t) extra Ha Hp) as (w & Hw & Hr & Hlen). rewrite Hw. cbn [obind].
  set (network := if bool_decide (dst_Network t = Network_UDP) then TargetNetworkUDP else TargetNetworkTCP).
  replace (match dst_Network t with Network_TCP => string_of [TargetNetworkTCP] | Network_UDP => string_of [TargetNetworkUDP] | _ => EmptyString end)
    with (string_of [network]) by (unfold network; destruct Hnet as [-> | ->]; by case_bool_decide).
  assert (Hextra : slen extra ≤ 8) by (unfold extra; destruct udp; [by rewrite string_of_slen, be_bytes_length|by cbn]).
  eexists. split; [done|]. split; [rewrite !slen_app, string_of_slen; cbn [length]; lia|].
  rewrite (UnmarshalFromBuffer_addressed f network (dst_Address t) (dst_Port t));
    [|done|done|done|by rewrite Hnew|unfold network; case_bool_decide; [by right|by left]|lia|exact Hr].
  rewrite Hnew. change (SessionStatusNew =? SessionStatusNew) with true. do 2 f_equal.
  { destruct t as [a port net]. unfold network. cbn in *. by destruct Hnet as [-> | ->]. }
  unfold network, extra. destruct udp as [d|]; [|by rewrite andb_false_r]. rewrite string_of_slen, be_bytes_length.
  change (8 <=? Z.of_nat 8) with true.
  rewrite andb_true_r, andb_true_l, take_gid, bytes_of_string_of, be_value_bytes by (done || apply be_bytes_range). by case_bool_decide.
Qed.

Lemma old_body_back udp f : proper udp f → fm_SessionStatus f ≠ SessionStatusNew →
  ∃ body, meta_body udp f = Ok body ∧ slen body ≤ 400 ∧ UnmarshalFromBuffer (meta_head f +:+ body) = Ok (received udp f).
Proof.
  intros [Hid Ho Hs Hgid Hudp _] Hnew. unfold meta_body, received. rewrite (proj2 (Z.eqb_neq _ _) Hnew).
  destruct udp as [d|].
  - destruct (Hudp d eq_refl) as [Ha Hp].
    destruct (ReadAddressPort_back (dst_Address d) (dst_Port d) EmptyString Ha Hp) as (w & Hw & Hr & Hlen). rewrite Hw. cbn [fst].
    eexists. split; [done|]. split; [rewrite slen_app, string_of_slen; cbn [length]; lia|].
    destruct (Z.eqb_spec (fm_SessionStatus f) SessionStatusKeep) as [Hk|Hk].
    + rewrite <- (string_app_nil_r w). rewrite (UnmarshalFromBuffer_addressed f TargetNetworkUDP (dst_Address d) (dst_Port d));
        [|done|done|done|by rewrite Hk, orb_true_r|by right|lia|exact Hr].
      by rewrite (proj2 (Z.eqb_neq _ _) Hnew).
    + rewrite UnmarshalFromBuffer_plain; try done. by left.
  - eexists. split; [done|]. split; [by cbn|]. rewrite UnmarshalFromBuffer_plain; try done; [|by right].
    by destruct (_ =? SessionStatusKeep).
Qed.

Lemma frame_back udp f rest : proper udp f → ∃ w, WriteTo udp f = Ok w ∧ Unmarshal (w +:+ rest) = Ok (received udp f, rest) ∧ 6 ≤ slen w.
Proof.
  intros Hf. assert (Hbody : ∃ body, meta_body udp f = Ok body ∧ slen body ≤ 400 ∧ UnmarshalFromBuffer (meta_head f +:+ body) = Ok (received udp f)).
  { destruct (decide (fm_SessionStatus f = SessionStatusNew)); [by apply new_body_back|by apply old_body_back]. }
  destruct Hbody as (body & Hb & Hlen & Hu). unfold WriteTo. rewrite Hb. cbn [obind]. cbv zeta. eexists. split; [done|].
  pose proof (meta_head_length f) as Hh. split.
  - rewrite !string_app_assoc, <- (string_app_assoc (meta_head f)), Unmarshal_back; [by rewrite Hu|rewrite slen_app; lia].
  - rewrite !slen_app, string_of_slen, be_bytes_length. unfold slen in *. lia.
Qed.

(** ** The worker *)
Definition find_session (c sid : Z) (m : MuxState) : option MuxSession :=
  k ← mx_carriers m !! c; p ← ca_sessions k !! sid; mx_sessions m !! p.

(** Copy to the output of a session; without data nothing is written *)
Definition deliver (now c sid : Z) (data : string) (m : MuxState) : MuxState :=
  if String.eqb data EmptyString then m else handleStatusKeep now c sid m.

Definition left_over (rest : option string) : outcome string string :=
  match rest with Some rest => Ok rest | None => Err "failed to process data" end.

(** handleFrame: what is left of the input, or the error that ends the connection. Data
    that is discarded is read as a stream. *)
Definition handleFrame (lookup : string → option (list Addr)) (now c : Z) (input : string) (m : MuxState)
  : MuxState * outcome string string :=
  match Unmarshal input with
  | Err e => (m, Err ("failed to read metadata > " +:+ e))
  | Panic => (m, Panic)
  | Ok (f, input) =>
      let sid := fm_SessionID f in
      let data := Has (fm_Option f) OptionData in
      let discard := if data then left_over (read_data false input).2 else Ok input in
      if fm_SessionStatus f =? SessionStatusKeepAlive then (m, discard)
      else if fm_SessionStatus f =? SessionStatusEnd then (handleStatusEnd now c sid m, discard)
      else if fm_SessionStatus f =? SessionStatusNew then
        match fm_Target f with
        | None => (m, Panic)
        | Some target =>
            if fm_GlobalID f =? 0 then
              match handleNewFrame false lookup now c sid 0 target m with
              | (m, Ok _) =>
                  if data then
                    let '(d, rest) := read_data (bool_decide (dst_Network target = Network_UDP)) input in
                    (deliver now c sid d m, left_over rest)
                  else (m, Ok input)
              | (m, Err e) => (m, Err e)
              | (m, Panic) => (m, Panic)
              end
            else
              match read_data true input with
              | (d, Some rest) =>
                  let '(m, res) := handleNewFrame (String.eqb d EmptyString) lookup now c sid (fm_GlobalID f) target m in
                  (m, let? _ := res in Ok rest)
              | (_, None) => (m, left_over None)
              end
        end
      else if fm_SessionStatus f =? SessionStatusKeep then
        if data then
          match find_session c sid m with
          | Some s => let '(d, rest) := read_data (ms_packet s) input in (deliver now c sid d m, left_over rest)
          | None => (m, discard)
          end
        else (m, Ok input)
      else (m, Err "unknown status")
  end.

(** run: frame after frame until one fails; the monitor then closes the connection. The
    [i]th frame is handled at [clock i]. *)
Inductive served : Type :=
| Ended (m : MuxState)
| Panicked
| Starved.
Fixpoint serve (fuel i : nat) (lookup : string → option (list Addr)) (clock : nat → Z) (c : Z) (input : string) (m : MuxState) : served :=
  match fuel with
  | O => Starved
  | S fuel =>
      match handleFrame lookup (clock i) c input m with
      | (m, Ok rest) => serve fuel (S i) lookup clock c rest m
      | (m, Err _) => Ended (CarrierEnd (clock i) c m)
      | (m, Panic) => Panicked
      end
  end.
Definition run (lookup : string → option (list Addr)) (clock : nat → Z) (c : Z) (input : string) (m : MuxState) : served :=
  serve (S (String.length input)) 0 lookup clock c input m.

(** ** Every frame is read *)
Lemma ReadUint16_rest input v rest : ReadUint16 input = Some (v, rest) → slen input = slen rest + 2 ∧ 0 ≤ v < 65536.
Proof.
  destruct input as [|a [|b s]]; [done|done|]. cbn [ReadUint16]. intros [= <- <-]. split; [unfold slen; cbn; lia|].
  apply (be_value_range [code a; code b]). by repeat (apply Forall_cons; split; [apply code_range|]).
Qed.

Lemma Unmarshal_rest input f rest : Unmarshal input = Ok (f, rest) → slen rest + 6 ≤ slen input.
Proof.
  unfold Unmarshal. destruct (ReadUint16 input) as [[len s]|] eqn:E; [|done]. apply ReadUint16_rest in E as [-> Hlen].
  destruct (512 <? len); [done|]. cbn [guard_err obind]. unfold ReadFullFrom. cbn [rd_buffer rd_input].
  destruct (_ <? _); [done|]. destruct (Z.ltb_spec (slen s) len); [done|]. cbn [rd_buffer rd_input].
  change (EmptyString +:+ ?t) with t. destruct (UnmarshalFromBuffer _) as [g|e|] eqn:Hu; [|done..]. cbn [obind]. intros [= _ <-].
  assert (4 ≤ len); [|unfold slen in *; rewrite drop_chars_length; lia].
  unfold UnmarshalFromBuffer in Hu.
  assert (Hl : length (bytes_of (take_chars (Z.to_nat len) s)) = Z.to_nat len) by (rewrite bytes_of_length, take_chars_length_le; unfold slen in *; lia).
  destruct (bytes_of _) as [|b1 [|b2 [|b3 [|b4 l]]]]; [done..|]. cbn [length] in Hl. lia.
Qed.

Lemma Unmarshal_no_panic input : Unmarshal input ≠ Panic.
Proof.
  unfold Unmarshal, UnmarshalFromBuffer. destruct (ReadUint16 input) as [[len s]|]; [|done]. destruct (512 <? len); [done|].
  cbn [guard_err obind]. destruct (ReadFullFrom _ _) as [st|]; [|done]. destruct (bytes_of _) as [|b1 [|b2 [|b3 [|b4 l]]]]; [done..|].
  cbv zeta. destruct (_ || _); [|done]. destruct l as [|n [|? [|? [|? l]]]]; [done..|].
  destruct (ReadAddressPort _) as [[[st' a] port]|]; [|done]. cbn [obind].
  destruct (n =? TargetNetworkTCP); [done|]. by destruct (n =? TargetNetworkUDP).
Qed.

(** a New frame is for an address and over TCP or UDP *)
Lemma Unmarshal_new input f rest : Unmarshal input = Ok (f, rest) → fm_SessionStatus f = SessionStatusNew →
  ∃ t, fm_Target f = Some t ∧ wire_address (dst_Address t) ∧ dst_Network t ≠ Network_Unknown.
Proof.
  unfold Unmarshal, UnmarshalFromBuffer. destruct (ReadUint16 input) as [[len s]|]; [|done]. destruct (512 <? len); [done|].
  cbn [guard_err obind]. destruct (ReadFullFrom _ _) as [st|]; [|done]. destruct (bytes_of _) as [|b1 [|b2 [|b3 [|b4 l]]]]; [done..|].
  cbv zeta. destruct (_ || _) eqn:Ha.
  - destruct l as [|n [|? [|? [|? l]]]]; [done..|].
    destruct (ReadAddressPort _) as [[[st' a] port]|] eqn:Hr; [|done]. apply ReadAddressPort_wire in Hr as [Hw _]. cbn [obind].
    destruct (n =? TargetNetworkTCP); [|destruct (n =? TargetNetworkUDP)]; intros [= <- _]; intros _; by eexists.
  - cbn [obind]. intros [= <- _] E. cbn in E. by rewrite E in Ha.
Qed.

Lemma read_data_rest packet input d rest : read_data packet input = (d, Some rest) → slen rest ≤ slen input.
Proof.
  unfold read_data. destruct (ReadUint16 input) as [[v s]|] eqn:E; [|done]. apply ReadUint16_rest in E as [-> Hv].
  destruct (_ && _); [done|]. destruct (slen s <? v); [done|]. intros [= _ <-]. unfold slen. rewrite drop_chars_length. lia.
Qed.

Lemma handleFrame_progress lookup now c input m m' rest :
  handleFrame lookup now c input m = (m', Ok rest) → slen rest + 6 ≤ slen input.
Proof.
  unfold handleFrame. destruct (Unmarshal input) as [[f s]|e|] eqn:Hu; [|done..]. apply Unmarshal_rest in Hu.
  assert (Hd : ∀ p d r, left_over (read_data p s).2 = Ok rest ∨ (read_data p s = (d, r) ∧ left_over r = Ok rest) ∨ s = rest → slen rest + 6 ≤ slen input).
  { intros p d r [H|[[H1 H2]|<-]]; [| |done].
    - destruct (read_data p s) as [d' [r'|]] eqn:E; [|done]. injection H as <-. apply read_data_rest in E. lia.
    - destruct r as [r|]; [|done]. injection H2 as <-. apply read_data_rest in H1. lia. }
  cbv zeta. destruct (_ =? SessionStatusKeepAlive).
  { intros [= _ H]. destruct (Has _ _); [by apply (Hd false EmptyString None); left|].
    injection H as <-. by apply (Hd false EmptyString None); right; right. }
  destruct (_ =? SessionStatusEnd).
  { intros [= _ H]. destruct (Has _ _); [by apply (Hd false EmptyString None); left|].
    injection H as <-. by apply (Hd false EmptyString None); right; right. }
  destruct (_ =? SessionStatusNew).
  { destruct (fm_Target f) as [t|]; [|done]. destruct (_ =? 0).
    - destruct (handleNewFrame _ _ _ _ _ _ _ _) as [m1 [[]|e|]]; [|done..]. destruct (Has _ _).
      + destruct (read_data _ s) as [d r] eqn:E. intros [= _ H]. eapply (Hd _ d r). right. left. split; [exact E|exact H].
      + intros [= _ <-]. by apply (Hd false EmptyString None); right; right.
    - destruct (read_data true s) as [d [r|]] eqn:E; [|done]. destruct (handleNewFrame _ _ _ _ _ _ _ _) as [m1 [[]|e|]]; [|done..].
      intros [= _ <-]. eapply (Hd true d (Some r)). right. left. by split. }
  destruct (_ =? SessionStatusKeep); [|done]. destruct (Has _ _).
  - destruct (find_session c _ m) as [se|].
    + destruct (read_data _ s) as [d r] eqn:E. intros [= _ H]. eapply (Hd _ d r). right. left. split; [exact E|exact H].
    + intros [= _ H]. by apply (Hd false EmptyString None); left.
  - intros [= _ <-]. by apply (Hd false EmptyString None); right; right.
Qed.

(** enough fuel is what [run] has *)
Lemma serve_fed fuel i lookup clock c input m : (String.length input < fuel)%nat → serve fuel i lookup clock c input m ≠ Starved.
Proof.
  revert i input m. induction fuel as [|fuel IH]; intros i input m Hf; [lia|]. cbn [serve].
  destruct (handleFrame lookup (clock i) c input m) as [m' [rest|e|]] eqn:E; [|done..]. apply handleFrame_progress in E.
  apply IH. unfold slen in E. lia.
Qed.
