(* ===== verification/MuxMonitor.v ===== *)
(** The monitor of a Mux connection ([common/mux/server.go], [session.go] in the vendored
    core): once a minute it looks whether the connection has no session and had none
    opened since it last looked, and then ends the connection. *)
From S2P Require Import Prelude GoString Float64 Digest Netip NetipText Model Config Policy.
From S2P Require Import Session SessionInv SessionProps SessionLease NetAddress WireAddress SessionControl Links Xudp MuxFrame.

Local Open Scope string_scope.
Local Open Scope Z_scope.

(** SessionManager.Size and Count; a connection that is not there has neither *)
Definition ManagerSize (c : Z) (m : MuxState) : Z :=
  match mx_carriers m !! c with Some k => Z.of_nat (size (ca_sessions k)) | None => 0 end.
Definition ManagerCount (c : Z) (m : MuxState) : Z :=
  match mx_carriers m !! c with Some k => ca_count k | None => 0 end.

(** SessionManager.CloseIfNoSessionAndIdle *)
Definition CloseIfNoSessionAndIdle (checkSize checkCount c : Z) (m : MuxState) : MuxState * bool :=
  match mx_carriers m !! c with
  | Some k =>
      if ca_closed k then (m, true)
      else if negb (ManagerSize c m =? 0) || negb (checkSize =? 0) || negb (checkCount =? ca_count k) then (m, false)
      else (set_carrier c (mkCarrier (ca_inbound k) ∅ true (ca_cancelled k) (ca_udp_only k) (ca_count k)) m, true)
  | None => (m, true)
  end.

(** what the monitor saw when it last looked; or that it has returned *)
Inductive monitoring : Type :=
| Watching (checkSize checkCount : Z)
| Returned.
Definition watch (c : Z) (m : MuxState) : monitoring := Watching (ManagerSize c m) (ManagerCount c m).

(** a tick of its timer. Closing [done] ends DispatchLink of the server, and with it the
    context of the connection; the monitor comes round once more and interrupts the link. *)
Definition monitor_tick (now c : Z) (w : monitoring) (m : MuxState) : MuxState * monitoring :=
  match w with
  | Watching checkSize checkCount =>
      match CloseIfNoSessionAndIdle checkSize checkCount c m with
      | (m, true) => (CarrierEnd now c m, Returned)
      | (m, false) => (m, watch c m)
      end
  | Returned => (m, Returned)
  end.

(** ** The end of a connection *)

(** it marks the connection closed *)
Lemma cancel_context_carriers c m : mx_carriers (cancel_context c m) = mx_carriers m.
Proof.
  unfold cancel_context. generalize (map_to_list (mx_flows m)). intros l. revert m.
  induction l as [|[p f] l IH]; intros m; [done|]. cbn [fold_left fst snd]. rewrite IH. case_bool_decide; [|done].
  unfold flow_done. by destruct (_ ≫= _).
Qed.

Lemma CarrierEnd_closes now c m k : mx_carriers (CarrierEnd now c m) !! c = Some k → ca_closed k = true ∧ ca_cancelled k = true.
Proof.
  unfold CarrierEnd. destruct (mx_carriers m !! c) as [k0|] eqn:Hk; [|congruence]. cbv zeta. unfold ManagerClose.
  rewrite cancel_context_carriers. cbn [set_carrier mx_carriers]. rewrite lookup_insert_eq. cbn [ca_closed].
  destruct (ca_closed k0) eqn:Hc.
  - rewrite cancel_context_carriers. cbn [set_carrier mx_carriers]. rewrite lookup_insert_eq. intros [= <-]. by cbn.
  - cbv zeta. cbn [set_carrier mx_carriers]. rewrite lookup_insert_eq. intros [= <-]. done.
Qed.

(** ** What a tick does *)

(** a connection with a session, or with one that was opened since the last tick, stays *)
Lemma busy_connection_stays now c s n m k : mx_carriers m !! c = Some k → ca_closed k = false →
  ca_sessions k ≠ ∅ ∨ n ≠ ca_count k → monitor_tick now c (Watching s n) m = (m, watch c m).
Proof.
  intros Hk Hc Hbusy. cbn [monitor_tick]. unfold CloseIfNoSessionAndIdle, ManagerSize. rewrite Hk, Hc.
  assert (H : negb (Z.of_nat (size (ca_sessions k)) =? 0) || negb (s =? 0) || negb (n =? ca_count k) = true); [|by rewrite H].
  destruct Hbusy as [Hs|Hn]; [|by rewrite (proj2 (Z.eqb_neq _ _) Hn), orb_true_r].
  assert (size (ca_sessions k) ≠ 0%nat) by (intros H0; by apply map_size_empty_inv in H0).
  by rewrite (proj2 (Z.eqb_neq _ _)) by lia.
Qed.

(** one that is idle for a whole interval ends, with the leases of the flows that were
    opened under it *)
Lemma idle_connection_ends now c m k : mx_carriers m !! c = Some k → ca_sessions k = ∅ →
  ∃ m', monitor_tick now c (watch c m) m = (m', Returned) ∧
    (∀ k', mx_carriers m' !! c = Some k' → ca_closed k' = true ∧ ca_cancelled k' = true) ∧
    (unclosed (mx_registry m) → ∀ p f id, mx_flows m !! p = Some f → fl_context f = c → fl_lease f = Some id →
      sessions (mx_registry m') !! id = None).
Proof.
  intros Hk Hs. cbn [monitor_tick watch]. unfold CloseIfNoSessionAndIdle, ManagerSize, ManagerCount. rewrite Hk, Hs.
  change (size (∅ : gmap Z Z)) with 0%nat. rewrite (Z.eqb_refl (ca_count k)).
  change (Z.of_nat 0 =? 0) with true. cbn [orb negb].
  assert (Hend : ∀ m1, mx_registry m1 = mx_registry m → mx_flows m1 = mx_flows m → is_Some (mx_carriers m1 !! c) →
    ∃ m', (CarrierEnd now c m1, Returned) = (m', Returned) ∧
      (∀ k', mx_carriers m' !! c = Some k' → ca_closed k' = true ∧ ca_cancelled k' = true) ∧
      (unclosed (mx_registry m) → ∀ p f id, mx_flows m !! p = Some f → fl_context f = c → fl_lease f = Some id →
        sessions (mx_registry m') !! id = None)).
  { intros m1 Er Ef [k1 Hk1]. eexists. split; [done|]. split; [apply CarrierEnd_closes|].
    intros Hu p f id Hp Hc Hid. unfold CarrierEnd. rewrite Hk1. cbv zeta.
    eapply fewer_None; [apply (wd_registry _ _ (winds_ManagerClose now c _))|].
    apply (cancel_context_gone c p f); [by rewrite <- Er in Hu| |done|done]. by rewrite <- Ef in Hp. }
  destruct (ca_closed k); (apply Hend; [reflexivity|reflexivity|]); [by exists k|].
  eexists. cbn. apply lookup_insert_eq.
Qed.
