(* ===== verification/MuxSafe.v ===== *)
(** No input panics the Mux server. The handlers follow pointers, from a GlobalID to its
    entry, from an entry to its session and from a session to its flow; the invariant
    says that they lead somewhere, whatever clients send on however many connections. *)
From S2P Require Import Prelude GoString Float64 Digest Netip NetipText Model Config Policy.
From S2P Require Import Session SessionInv SessionProps SessionLease NetAddress WireAddress SessionControl Links Xudp MuxFrame MuxMonitor.

Local Open Scope string_scope.
Local Open Scope Z_scope.

(** ** Dispatching does not panic *)
Lemma As16_length a : length (As16 a) = 16%nat.
Proof. destruct a; cbn [As16]; [rewrite length_app|]; by rewrite be_bytes_length. Qed.

Lemma ParseAddress_total s : is_Some (ParseAddress s).
Proof.
  unfold ParseAddress. cbv zeta. set (t := match first_char s with Some _ => _ | None => s end).
  set (u := match first_char t with Some _ => _ | None => t end). destruct (ParseIP u) as [ip|] eqn:E; [|by eexists].
  assert (Hl : length ip = 16%nat).
  { unfold ParseIP in E. destruct (ParseAddr u) as [a|]; [|done]. destruct (has_zone a); [done|]. injection E as <-. apply As16_length. }
  unfold IPAddress. rewrite Hl. cbn [Nat.eqb]. destruct (_ && _); by eexists.
Qed.

Lemma Open_no_panic r lookup request : (Open r lookup request).2 ≠ Panic.
Proof.
  unfold Open. destruct (negb _); [done|].
  assert (H1 : (openLookup r request).2 ≠ Panic) by (unfold openLookup; by repeat case_match).
  destruct (openLookup r request) as [r1 [[[[uid ip] kind] user]|e|]]; [|done..].
  assert (H2 : (authorizeTarget r1 lookup user request).2 ≠ Panic) by (unfold authorizeTarget; by repeat case_match).
  destruct (authorizeTarget r1 lookup user request) as [r2 [[addresses resolved]|e|]]; [|done..].
  unfold openCommit. by destruct (commitRefusal _ _).
Qed.

Lemma Dispatch_no_panic c lookup inb d : dst_Network d ≠ Network_Unknown → (Dispatch c lookup inb d).2 ≠ Panic.
Proof.
  intros Hn. unfold Dispatch. rewrite bool_decide_eq_false_2 by done. unfold openControlledSession, ControlOpen.
  destruct c as [r|].
  - pose proof (Open_no_panic r lookup (sessionRequest inb d)). destruct (Open r lookup _) as [r' [dec|e|]]; [|done..].
    destruct (ParseAddress_total (ResolvedAddress dec)) as [a Ea]. destruct (String.eqb _ _); [|rewrite Ea];
      by destruct (DecisionLease dec).
  - done.
Qed.

Lemma session_rebind_no_panic r id inb : (session_rebind r id inb).2 ≠ Panic.
Proof. unfold session_rebind. destruct (inb ≫= in_Source); [|done]. unfold Rebind. by repeat case_match. Qed.

(** ** Pointers lead somewhere *)
Record mux_wf (m : MuxState) : Prop := {
  wf_Map : ∀ gid xp, mx_Map m !! gid = Some xp → is_Some (mx_xudp m !! xp);
  wf_entry : ∀ xp x, mx_xudp m !! xp = Some x → x_Status x ≠ Initializing →
    ∃ p, x_Mux x = Some p ∧ is_Some (mx_sessions m !! p);
  wf_session : ∀ p s, mx_sessions m !! p = Some s → is_Some (mx_flows m !! ms_flow s) }.

(** [m'] is [m] with entries forgotten, sessions and flows ended and connections changed *)
Record tame (m m' : MuxState) : Prop := {
  ta_Map : ∀ gid xp, mx_Map m' !! gid = Some xp → mx_Map m !! gid = Some xp;
  ta_entry : ∀ xp x', mx_xudp m' !! xp = Some x' →
    ∃ x, mx_xudp m !! xp = Some x ∧ x_Mux x' = x_Mux x ∧ (x_Status x = Initializing → x_Status x' = Initializing);
  ta_entries : ∀ xp, is_Some (mx_xudp m !! xp) → is_Some (mx_xudp m' !! xp);
  ta_session : ∀ p s', mx_sessions m' !! p = Some s' → ∃ s, mx_sessions m !! p = Some s ∧ ms_flow s' = ms_flow s;
  ta_sessions : ∀ p s, mx_sessions m !! p = Some s → ∃ s', mx_sessions m' !! p = Some s' ∧ ms_flow s' = ms_flow s;
  ta_flows : ∀ p, is_Some (mx_flows m !! p) → is_Some (mx_flows m' !! p) }.

Lemma tame_refl m : tame m m.
Proof. constructor; try done; intros p s H; by exists s. Qed.

Lemma tame_trans m1 m2 m3 : tame m1 m2 → tame m2 m3 → tame m1 m3.
Proof.
  intros [A1 B1 C1 D1 E1 F1] [A2 B2 C2 D2 E2 F2]. constructor; [by auto| |by auto| | |by auto].
  - intros xp x3 (x2 & H2 & M2 & S2)%B2. destruct (B1 _ _ H2) as (x1 & H1 & M1 & S1). exists x1.
    split; [done|]. split; [congruence|auto].
  - intros p s3 (s2 & H2 & E2')%D2. destruct (D1 _ _ H2) as (s1 & H1 & E1'). exists s1. split; [done|congruence].
  - intros p s1 (s2 & H2 & E2')%E1. destruct (E2 _ _ H2) as (s3 & H3 & E3). exists s3. split; [done|congruence].
Qed.

Lemma mux_wf_tame m m' : tame m m' → mux_wf m → mux_wf m'.
Proof.
  intros [A B C D E F] [W1 W2 W3]. constructor.
  - intros gid xp Hg. eapply C, W1, A, Hg.
  - intros xp x' (x & Hx & Hm & Hs)%B Hst. destruct (W2 xp x Hx) as (p & Hp & [s Hses]); [by auto|].
    exists p. split; [congruence|]. destruct (E p s Hses) as (s' & Hs' & _). by exists s'.
  - intros p s' (s & Hs & Hf)%D. rewrite Hf. by eapply F, W3.
Qed.

Lemma tame_fold {A} (f : MuxState → A → MuxState) l m : (∀ m a, tame m (f m a)) → tame m (fold_left f l m).
Proof.
  intros H. revert m. induction l as [|a l IH]; intros m; [apply tame_refl|]. cbn [fold_left]. by eapply tame_trans.
Qed.

(** states that differ in their registry and connections only *)
Lemma tame_same m m' : mx_flows m' = mx_flows m → mx_sessions m' = mx_sessions m → mx_xudp m' = mx_xudp m →
  mx_Map m' = mx_Map m → tame m m'.
Proof.
  intros E1 E2 E3 E4. constructor; rewrite ?E1, ?E2, ?E3, ?E4; try done; intros p s H; by exists s.
Qed.

Lemma tame_registry r m : tame m (set_registry r m).
Proof. by apply tame_same. Qed.
Lemma tame_carrier c k m : tame m (set_carrier c k m).
Proof. by apply tame_same. Qed.
Lemma tame_Map f m : (∀ t gid xp, f t !! gid = Some xp → t !! gid = Some xp) → tame m (set_Map f m).
Proof. intros Hf. constructor; cbn; try done; try (intros p s H; by exists s). apply Hf. Qed.
Lemma tame_forget gid m : tame m (set_Map (delete gid) m).
Proof. apply tame_Map. intros t g xp. rewrite lookup_delete_Some. by intros [_ ?]. Qed.

Lemma tame_flow_done p m : tame m (flow_done p m).
Proof. unfold flow_done. destruct (_ ≫= _); [apply tame_registry|apply tame_refl]. Qed.

Lemma is_Some_insert {A} (t : gmap Z A) p q a : is_Some (t !! q) → is_Some (<[p := a]> t !! q).
Proof. intros H. rewrite lookup_insert. by case_decide. Qed.

Lemma tame_stop_flow p m : tame m (stop_flow p m).
Proof.
  unfold stop_flow. destruct (mx_flows m !! p) as [f|]; [|apply tame_refl].
  constructor; cbn; try done; try (intros q s H; by exists s). intros q. apply is_Some_insert.
Qed.

Lemma tame_close_session p s m : mx_sessions m !! p = Some s →
  tame m (set_session p (mkMuxSession (ms_flow s) (ms_parent s) (ms_ID s) (ms_xudp s) (ms_packet s) true) m).
Proof.
  intros Hs. constructor; cbn; try done; try (intros q x H; by exists x).
  - intros q s'. rewrite lookup_insert_Some. intros [[<- <-]|[_ Hq]]; [by exists s|by exists s'].
  - intros q t Hq. rewrite lookup_insert. case_decide as E; [|by exists t]. subst q. rewrite Hs in Hq. injection Hq as <-. by eexists.
Qed.

Lemma tame_entry xp x x' m : mx_xudp m !! xp = Some x → x_Mux x' = x_Mux x →
  (x_Status x = Initializing → x_Status x' = Initializing) → tame m (set_xudp xp x' m).
Proof.
  intros Hx Hm Hs. constructor; cbn; try done; try (intros q s H; by exists s); [|intros q; apply is_Some_insert].
  intros q y. rewrite lookup_insert_Some. intros [[<- <-]|[_ Hq]]; [by exists x|by exists y].
Qed.

Lemma tame_Remove c sid m : tame m (Remove c sid m).
Proof. unfold Remove. destruct (mx_carriers m !! c) as [k|]; [|apply tame_refl]. destruct (ca_closed k); [apply tame_refl|apply tame_carrier]. Qed.

Lemma tame_SessionClose now p m : tame m (SessionClose now p m).
Proof.
  unfold SessionClose. destruct (mx_sessions m !! p) as [s|] eqn:Hs; [|apply tame_refl].
  destruct (ms_closed s); [apply tame_refl|]. cbv zeta. eapply tame_trans; [by apply (tame_close_session p s)|].
  set (m1 := set_session _ _ m). eapply tame_trans; [|apply tame_Remove].
  destruct (ms_xudp s) as [xp|]; [|eapply tame_trans; [apply tame_stop_flow|apply tame_flow_done]].
  destruct (mx_xudp m1 !! xp) as [x|] eqn:Hx; [|apply tame_refl]. case_bool_decide as E; [|apply tame_refl].
  eapply tame_entry; [exact Hx|done|]. cbn. congruence.
Qed.

Lemma tame_XUDPInterrupt xp m : tame m (XUDPInterrupt xp m).
Proof.
  unfold XUDPInterrupt. destruct (_ ≫= _) as [p|]; [|apply tame_refl]. destruct (mx_sessions m !! p); [|apply tame_refl].
  eapply tame_trans; [apply tame_stop_flow|apply tame_flow_done].
Qed.

Lemma tame_ManagerClose now c m : tame m (ManagerClose now c m).
Proof.
  unfold ManagerClose. destruct (mx_carriers m !! c) as [k|]; [|apply tame_refl]. destruct (ca_closed k); [apply tame_refl|].
  cbv zeta. eapply tame_trans; [apply tame_carrier|]. eapply tame_trans; [|apply tame_carrier].
  apply tame_fold. intros. apply tame_SessionClose.
Qed.

Lemma tame_CarrierEnd now c m : tame m (CarrierEnd now c m).
Proof.
  unfold CarrierEnd. destruct (mx_carriers m !! c) as [k|]; [|apply tame_refl]. cbv zeta.
  eapply tame_trans; [apply tame_carrier|]. eapply tame_trans; [|apply tame_ManagerClose].
  unfold cancel_context. apply tame_fold. intros m' [p f]. cbn. case_bool_decide; [apply tame_flow_done|apply tame_refl].
Qed.

Lemma tame_monitor_tick now c w m : tame m (monitor_tick now c w m).1.
Proof.
  destruct w as [s n|]; [|apply tame_refl]. cbn [monitor_tick]. unfold CloseIfNoSessionAndIdle.
  destruct (mx_carriers m !! c) as [k|]; [|apply tame_CarrierEnd].
  destruct (ca_closed k); [apply tame_CarrierEnd|]. destruct (_ || _); [apply tame_refl|].
  eapply tame_trans; [apply tame_carrier|apply tame_CarrierEnd].
Qed.

Lemma tame_Sweep now m : tame m (Sweep now m).
Proof.
  unfold Sweep. apply tame_fold. intros m' [gid xp]. cbn [fst snd]. destruct (mx_xudp m' !! xp) as [x|]; [|apply tame_refl].
  destruct (_ && _); [|apply tame_refl]. eapply tame_trans; [apply tame_XUDPInterrupt|apply tame_forget].
Qed.

Lemma tame_Keep now c sid m : tame m (handleStatusKeep now c sid m).
Proof.
  unfold handleStatusKeep. destruct (_ ≫= _) as [p|]; [|apply tame_refl]. destruct (_ ≫= _) as [f|]; [|apply tame_refl].
  destruct (fl_stopped f); [apply tame_SessionClose|apply tame_refl].
Qed.
Lemma tame_End now c sid m : tame m (handleStatusEnd now c sid m).
Proof. unfold handleStatusEnd. destruct (_ ≫= _) as [p|]; [apply tame_SessionClose|apply tame_refl]. Qed.

Lemma tame_callbacks cbs m : tame m (run_callbacks cbs m).
Proof. unfold run_callbacks. apply tame_fold. intros. apply tame_stop_flow. Qed.
Lemma tame_deliver now c sid d m : tame m (deliver now c sid d m).
Proof. unfold deliver. destruct (String.eqb d EmptyString); [apply tame_refl|apply tame_Keep]. Qed.

(** ** Opening *)
Lemma tame_new_flow p f m : tame m (set_flow p f m).
Proof. constructor; cbn; try done; try (intros q s H; by exists s). intros q. apply is_Some_insert. Qed.

Lemma MuxDispatch_safe lookup c k target m : dst_Network target ≠ Network_Unknown →
  let '(m', res) := MuxDispatch lookup c k target m in
  tame m m' ∧ res ≠ Panic ∧ ∀ p, res = Ok p → is_Some (mx_flows m' !! p).
Proof.
  intros Hn. unfold MuxDispatch. pose proof (Dispatch_no_panic (Some (mx_registry m)) lookup (Some (ca_inbound k)) target Hn) as Hd.
  destruct (Dispatch _ _ _ _) as [[r inb] [[d lease]|e|]]; [| |done].
  2:{ split; [apply tame_registry|]. by split. }
  unfold fresh. cbv zeta. cbn [set_registry mx_next].
  set (m1 := set_flow _ _ _). assert (H1 : tame m m1).
  { eapply tame_trans; [|apply tame_new_flow]. by apply tame_same. }
  assert (Hf : is_Some (mx_flows m1 !! mx_next m)) by (unfold m1; cbn; rewrite lookup_insert_eq; by eexists).
  destruct lease as [id|].
  - destruct (BindInterrupt _ id _) as [r' owed]. pose proof (tame_registry r' m1) as H2.
    destruct owed as [cb|].
    + split; [by eapply tame_trans; [|eapply tame_trans; [exact H2|apply tame_stop_flow]]|]. split; [done|].
      intros p [= <-]. by eapply ta_flows; [eapply tame_trans; [exact H2|apply tame_stop_flow]|].
    + split; [by eapply tame_trans|]. split; [done|]. by intros p [= <-].
  - split; [done|]. split; [done|]. by intros p [= <-].
Qed.

Lemma wf_new_session p s m : mux_wf m → is_Some (mx_flows m !! ms_flow s) → mux_wf (set_session p s m).
Proof.
  intros [W1 W2 W3] Hf. constructor; cbn; [done| |].
  - intros xp x Hx Hst. destruct (W2 xp x Hx Hst) as (q & Hq & Hs). exists q. split; [done|]. by apply is_Some_insert.
  - intros q t. rewrite lookup_insert_Some. intros [[_ <-]|[_ Ht]]; [done|by eapply W3].
Qed.

Lemma wf_activate xp x p m : mux_wf m → is_Some (mx_sessions m !! p) → x_Mux x = Some p → mux_wf (set_xudp xp x m).
Proof.
  intros [W1 W2 W3] Hp Hx. constructor; cbn; [|  |done].
  - intros gid q Hq. by eapply is_Some_insert, W1.
  - intros q y. rewrite lookup_insert_Some. intros [[_ <-]|[_ Hy]] Hst; [by exists p|by eapply W2].
Qed.

Lemma new_session_safe now c sid xp packet flow m : mux_wf m → is_Some (mx_flows m !! flow) →
  let '(m', res) := new_session now c sid xp packet flow m in mux_wf m' ∧ res ≠ Panic.
Proof.
  intros Hwf Hf. unfold new_session, fresh. cbv zeta.
  set (m0 := mkMux _ _ _ _ _ _ _). assert (H0 : mux_wf m0) by (eapply mux_wf_tame; [|exact Hwf]; by apply tame_same).
  set (s := mkMuxSession flow c sid xp packet false).
  pose proof (wf_new_session (mx_next m) s m0 H0 Hf) as H1. set (m1 := set_session _ s m0) in *.
  assert (H2 : mux_wf match xp with Some xp => match mx_xudp m1 !! xp with Some x => set_xudp xp (with_status Active (with_mux (mx_next m) x)) m1 | None => m1 end | None => m1 end).
  { destruct xp as [xp|]; [|done]. destruct (mx_xudp m1 !! xp) as [x|]; [|done].
    apply (wf_activate xp _ (mx_next m)); [done| |done]. unfold m1. cbn. rewrite lookup_insert_eq. by eexists. }
  set (m2 := match xp with Some xp => _ | None => m1 end) in *.
  assert (Ha : tame m2 (Add c sid (mx_next m) m2).1).
  { unfold Add. destruct (mx_carriers m2 !! c) as [k|]; [|apply tame_refl]. destruct (ca_closed k); [apply tame_refl|apply tame_carrier]. }
  destruct (Add c sid (mx_next m) m2) as [m3 []]; (split; [|done]); [by eapply mux_wf_tame|].
  eapply mux_wf_tame; [apply tame_SessionClose|by eapply mux_wf_tame].
Qed.

Lemma reattach_safe empty now k xp x m : mux_wf m → mx_xudp m !! xp = Some x → x_Status x ≠ Initializing →
  let '(m', res) := reattach empty now k xp x m in tame m m' ∧ res ≠ Panic ∧ ∀ q, res = Ok (Some q) → q = xp.
Proof.
  intros Hwf Hx Hst. destruct (wf_entry m Hwf xp x Hx Hst) as (p & Hp & [s Hs]).
  destruct (wf_session m Hwf p s Hs) as [f Hf]. unfold reattach. rewrite Hp. cbn [mbind option_bind].
  pose proof (tame_entry xp x (with_status Initializing x) m Hx eq_refl (λ _, eq_refl)) as H1.
  set (m1 := set_xudp xp (with_status Initializing x) m) in *. change (mx_sessions m1) with (mx_sessions m). rewrite Hs.
  change (mx_flows m1) with (mx_flows m). rewrite Hf. cbn [mbind option_bind].
  set (rebound := match fl_lease f with Some id => _ | None => (m1, Ok tt) end).
  assert (Hr : tame m rebound.1 ∧ rebound.2 ≠ Panic).
  { unfold rebound. destruct (fl_lease f) as [id|]; [|done].
    pose proof (session_rebind_no_panic (mx_registry m1) id (Some (ca_inbound k))). destruct (session_rebind _ _ _) as [r res].
    split; [eapply tame_trans; [exact H1|apply tame_registry]|done]. }
  destruct rebound as [m2 [[]|e|]]; cbn [fst snd] in Hr; destruct Hr as [H2 Hnp]; [| |done].
  - pose proof (tame_trans _ _ _ H2 (tame_SessionClose now p m2)) as H3.
    destruct (ta_flows _ _ H3 (ms_flow s)) as [g Hg]; [by exists f|]. rewrite Hg. destruct (_ && _).
    + split; [by eapply tame_trans; [|apply tame_XUDPInterrupt]|]. split; [done|]. by intros q [= <-].
    + by split.
  - split; [|by split]. eapply tame_trans; [exact H2|]. eapply tame_trans; [apply tame_XUDPInterrupt|apply tame_forget].
Qed.

Lemma handleNewFrame_safe empty lookup now c sid gid target m : mux_wf m → dst_Network target ≠ Network_Unknown →
  let '(m', res) := handleNewFrame empty lookup now c sid gid target m in mux_wf m' ∧ res ≠ Panic.
Proof.
  intros Hwf Hn. unfold handleNewFrame. destruct (mx_carriers m !! c) as [k|]; [|done]. cbv zeta.
  destruct (ca_udp_only k && _); [done|].
  assert (Hfin : ∀ xp packet m1 res, mux_wf m1 → res ≠ Panic → (∀ p, res = Ok p → is_Some (mx_flows m1 !! p)) →
    let '(m', out) := match res with
      | Ok flow => let '(m, res) := new_session now c sid xp packet flow m1 in (m, let? _ := res in Ok tt)
      | Err e => (m1, Err e) | Panic => (m1, Panic) end in mux_wf m' ∧ out ≠ Panic).
  { intros xp packet m1 [p|e|] H1 Hp Hf; [|done..]. pose proof (new_session_safe now c sid xp packet p m1 H1 (Hf p eq_refl)) as H.
    destruct (new_session now c sid xp packet p m1) as [m2 [q|e|]]; [..|by destruct H]; by destruct H. }
  assert (Hopen : ∀ xp m1, mux_wf m1 →
    let '(m', out) := match (match MuxDispatch lookup c k target m1 with (m, Err e) => (set_Map (delete gid) m, Err e) | r => r end) with
      | (m, Ok flow) => let '(m, res) := new_session now c sid (Some xp) true flow m in (m, let? _ := res in Ok tt)
      | (m, Err e) => (m, Err e) | (m, Panic) => (m, Panic) end in mux_wf m' ∧ out ≠ Panic).
  { intros xp m1 H1. pose proof (MuxDispatch_safe lookup c k target m1 Hn) as Hd.
    destruct (MuxDispatch lookup c k target m1) as [m2 [p|e|]]; destruct Hd as (H2 & Hp & Hf); [| |done].
    - apply (Hfin (Some xp) true m2 (Ok p)); [by eapply mux_wf_tame|done|done].
    - split; [|done]. eapply mux_wf_tame; [apply tame_forget|by eapply mux_wf_tame]. }
  destruct (gid =? 0).
  { pose proof (MuxDispatch_safe lookup c k target m Hn) as Hd.
    destruct (MuxDispatch lookup c k target m) as [m2 [p|e|]]; destruct Hd as (H2 & Hp & Hf); [| |done].
    - apply (Hfin None _ m2 (Ok p)); [by eapply mux_wf_tame|done|done].
    - split; [|done]. by eapply mux_wf_tame. }
  destruct (mx_Map m !! gid) as [xp|] eqn:Hmap.
  - destruct (wf_Map m Hwf gid xp Hmap) as [x Hx]. rewrite Hx. case_bool_decide as Hst; [done|].
    pose proof (reattach_safe empty now k xp x m Hwf Hx Hst) as Hr.
    destruct (reattach empty now k xp x m) as [m1 [[q|]|e|]]; destruct Hr as (H1 & Hp & Hq); [| | |done].
    + pose proof (Hq q eq_refl) as ->. apply Hopen. by eapply mux_wf_tame.
    + destruct (wf_entry m Hwf xp x Hx Hst) as (p & Hxp & [s Hs]). rewrite Hxp. cbn [mbind option_bind].
      destruct (ta_sessions _ _ H1 p s Hs) as (s' & Hs' & _). rewrite Hs'.
      pose proof (mux_wf_tame _ _ H1 Hwf) as Hwf1.
      apply (Hfin (Some xp) true m1 (Ok (ms_flow s'))); [done|done|]. intros q [= <-]. by eapply wf_session.
    + split; [by eapply mux_wf_tame|done].
  - unfold fresh. apply Hopen.
    destruct Hwf as [W1 W2 W3]. constructor; cbn.
    + intros g q. rewrite lookup_insert_Some. intros [[_ <-]|[_ Hq]]; [rewrite lookup_insert_eq; by eexists|by eapply is_Some_insert, W1].
    + intros q y. rewrite lookup_insert_Some. intros [[_ <-]|[_ Hy]] Hst; [by destruct Hst|by eapply W2].
    + done.
Qed.

Lemma handleFrame_safe lookup now c input m : mux_wf m →
  let '(m', res) := handleFrame lookup now c input m in mux_wf m' ∧ res ≠ Panic.
Proof.
  intros Hwf. unfold handleFrame. pose proof (Unmarshal_no_panic input) as Hu.
  destruct (Unmarshal input) as [[f rest]|e|] eqn:E; [|done..].
  assert (Hleft : ∀ r, left_over r ≠ Panic) by (by intros []).
  assert (Hdis : (if Has (fm_Option f) OptionData then left_over (read_data false rest).2 else Ok rest) ≠ Panic) by (by destruct (Has _ _)).
  cbv zeta. destruct (_ =? SessionStatusKeepAlive); [done|].
  destruct (_ =? SessionStatusEnd); [split; [by eapply mux_wf_tame; [apply tame_End|]|done]|].
  destruct (Z.eqb_spec (fm_SessionStatus f) SessionStatusNew) as [Hnew|_].
  { destruct (Unmarshal_new _ _ _ E Hnew) as (t & -> & _ & Hn). destruct (_ =? 0).
    - pose proof (handleNewFrame_safe false lookup now c (fm_SessionID f) 0 t m Hwf Hn) as H.
      destruct (handleNewFrame _ _ _ _ _ _ _ _) as [m1 [[]|e|]]; destruct H as [H1 Hp]; [|done..].
      destruct (Has _ _); [|done]. destruct (read_data (bool_decide (dst_Network t = Network_UDP)) rest) as [d r].
      cbv beta iota. split; [by eapply mux_wf_tame; [apply tame_deliver|]|done].
    - destruct (read_data true rest) as [d [r|]]; [|done].
      pose proof (handleNewFrame_safe (String.eqb d EmptyString) lookup now c (fm_SessionID f) (fm_GlobalID f) t m Hwf Hn) as H.
      destruct (handleNewFrame _ _ _ _ _ _ _ _) as [m1 [[]|e|]]; by destruct H. }
  destruct (_ =? SessionStatusKeep); [|done]. destruct (Has _ _) eqn:Hd; [|done].
  destruct (find_session c _ m) as [s|]; [|done]. destruct (read_data (ms_packet s) rest) as [d r].
  cbv beta iota. split; [by eapply mux_wf_tame; [apply tame_deliver|]|done].
Qed.

(** ** Connections of all clients *)

(** what can happen to the Mux server: a frame on a connection (after its last one, the
    connection ends), the end of a connection or of the answers of a session, the sweep, a tick of a monitor,
    a new connection, and anything in the registry, with the callbacks it runs *)
Inductive mux_step (m : MuxState) : MuxState → Prop :=
| mu_frame lookup now c input : mux_step m (handleFrame lookup now c input m).1
| mu_end now c : mux_step m (CarrierEnd now c m)
| mu_answered now p : mux_step m (SessionClose now p m)
| mu_sweep now : mux_step m (Sweep now m)
| mu_tick now c w : mux_step m (monitor_tick now c w m).1
| mu_connect c k : mux_step m (set_carrier c k m)
| mu_registry r cbs : mux_step m (run_callbacks cbs (set_registry r m)).
Inductive mux_reach (r : Registry) : MuxState → Prop :=
| mr_start next : mux_reach r (mkMux r ∅ ∅ ∅ ∅ ∅ next)
| mr_step m m' : mux_reach r m → mux_step m m' → mux_reach r m'.

Lemma mux_reach_wf r m : mux_reach r m → mux_wf m.
Proof.
  induction 1 as [next|m m' _ IH Hstep].
  - constructor; cbn; intros ? ?; by rewrite lookup_empty.
  - destruct Hstep as [lookup now c input|now c|now p|now|now c w|c k|r' cbs].
    + pose proof (handleFrame_safe lookup now c input m IH) as H. destruct (handleFrame lookup now c input m). by destruct H.
    + by eapply mux_wf_tame; [apply tame_CarrierEnd|].
    + by eapply mux_wf_tame; [apply tame_SessionClose|].
    + by eapply mux_wf_tame; [apply tame_Sweep|].
    + by eapply mux_wf_tame; [apply tame_monitor_tick|].
    + by eapply mux_wf_tame; [apply tame_carrier|].
    + eapply mux_wf_tame; [|exact IH]. eapply tame_trans; [apply tame_registry|apply tame_callbacks].
Qed.

Lemma serve_safe fuel i lookup clock c input m : mux_wf m →
  match serve fuel i lookup clock c input m with
  | Ended m' => mux_wf m' ∧ (∀ k, mx_carriers m' !! c = Some k → ca_closed k = true ∧ ca_cancelled k = true)
  | Panicked => False
  | Starved => True
  end.
Proof.
  revert i input m. induction fuel as [|fuel IH]; intros i input m Hwf; [done|]. cbn [serve].
  pose proof (handleFrame_safe lookup (clock i) c input m Hwf) as H.
  destruct (handleFrame lookup (clock i) c input m) as [m1 [rest|e|]]; destruct H as [H1 Hp]; [by apply IH| |done].
  split; [by eapply mux_wf_tame; [apply tame_CarrierEnd|]|]. apply CarrierEnd_closes.
Qed.

(** C10: No client can bring the Mux server down. In every state that connections,
    disconnections, ticks of monitors, sweeps, revocations and frames lead to, the worker of a connection
    reads any bytes whatever to their end without a panic: it follows no pointer that
    leads nowhere, parses no frame without progress, and closes the connection with the
    first frame that it cannot handle. *)
Theorem mux_survives_any_input r m lookup clock c input : mux_reach r m →
  ∃ m', run lookup clock c input m = Ended m' ∧ mux_wf m' ∧ (∀ k, mx_carriers m' !! c = Some k → ca_closed k = true ∧ ca_cancelled k = true).
Proof.
  intros Hwf%mux_reach_wf. pose proof (serve_safe (S (String.length input)) 0 lookup clock c input m Hwf) as H.
  pose proof (serve_fed (S (String.length input)) 0 lookup clock c input m ltac:(lia)) as Hf. unfold run.
  destruct (serve _ _ _ _ _ _ _) as [m'| |]; [|done..]. by exists m'.
Qed.

(** ** Witness: a flow moves to another connection, which then sends garbage *)
Definition w_frame : string :=
  match WriteTo (Some udpTarget) (mkFrame (Some udpTarget) 5 OptionData SessionStatusNew 99) with
  | Ok w => w +:+ bytes [0; 1]%nat +:+ "x"
  | _ => EmptyString
  end.
Definition w_registry : Registry := New (mkSnapshot (demoNode 2) [freeUser] 0 EmptyString) demoConfig.
Definition w_connected : MuxState := set_carrier 2 (demoCarrier 3405803778) (set_carrier 1 (demoCarrier 3405803777) (mkMux w_registry ∅ ∅ ∅ ∅ ∅ 10)).
Definition w_flowing : MuxState := (handleFrame noDNS 0 1 w_frame w_connected).1.

Lemma mux_survives_any_input_witness :
  x_Status <$> mx_xudp w_flowing !! 10 = Some Active ∧
  ∃ m', run noDNS (λ _, 30) 2 (w_frame +:+ "garbage") w_flowing = Ended m' ∧ mux_wf m' ∧
    x_Status <$> mx_xudp m' !! 10 = Some Expiring.
Proof.
  split; [vm_compute; reflexivity|].
  assert (H : mux_reach w_registry w_flowing).
  { apply (mr_step _ w_connected); [|apply mu_frame].
    apply (mr_step _ (set_carrier 1 (demoCarrier 3405803777) (mkMux w_registry ∅ ∅ ∅ ∅ ∅ 10))); [|apply mu_connect].
    apply (mr_step _ (mkMux w_registry ∅ ∅ ∅ ∅ ∅ 10)); [apply mr_start|apply mu_connect]. }
  destruct (mux_survives_any_input w_registry w_flowing noDNS (λ _, 30) 2 (w_frame +:+ "garbage") H) as (m' & Hr & Hwf & _).
  exists m'. split; [exact Hr|]. split; [exact Hwf|].
  assert (E : match run noDNS (λ _, 30) 2 (w_frame +:+ "garbage") w_flowing with
              | Ended m => bool_decide (x_Status <$> mx_xudp m !! 10 = Some Expiring) | _ => false end = true) by (vm_compute; reflexivity).
  rewrite Hr in E. exact (bool_decide_eq_true_1 _ E).
Defined.
