(* ===== verification/MuxWriter.v ===== *)
(** What a Mux session writes ([common/mux/writer.go] in the vendored Xray-core): a
    payload is cut into frames, a stream into chunks and packets one by one, each with
    the metadata of the session; and what the other side reads from them. *)
From S2P Require Import Prelude GoString Float64 Digest Netip NetipText Model Config Policy.
From S2P Require Import Session SessionInv SessionProps SessionLease NetAddress WireAddress SessionControl Links Xudp MuxFrame.

Local Open Scope string_scope.
Local Open Scope Z_scope.

(** ** Buffers *)
Record Buffer : Type := mkBuffer { b_data : string; b_UDP : option Destination }.

Definition concat_text (l : list string) : string := fold_right String.append EmptyString l.
Definition mb_text (mb : list Buffer) : string := concat_text (map b_data mb).
(** Len and IsEmpty of a MultiBuffer *)
Definition mb_len (mb : list Buffer) : Z := fold_right (λ b n, slen (b_data b) + n) 0 mb.
Definition mb_empty (mb : list Buffer) : bool := forallb (λ b, String.eqb (b_data b) EmptyString) mb.

(** SplitSize: what is left, and the first buffers up to [size] bytes *)
Fixpoint take_fit (total size : Z) (mb : list Buffer) : list Buffer * list Buffer :=
  match mb with
  | [] => ([], [])
  | b :: rest =>
      if size <? total + slen (b_data b) then (mb, [])
      else let '(more, r) := take_fit (total + slen (b_data b)) size rest in (more, b :: r)
  end.
Definition SplitSize (mb : list Buffer) (size : Z) : list Buffer * list Buffer :=
  match mb with
  | [] => ([], [])
  | b :: rest =>
      if size <? slen (b_data b)
      then (mkBuffer (drop_chars (Z.to_nat size) (b_data b)) (b_UDP b) :: rest,
            [mkBuffer (take_chars (Z.to_nat size) (b_data b)) None])
      else take_fit 0 size mb
  end.
Definition SplitFirst (mb : list Buffer) : list Buffer * list Buffer :=
  match mb with [] => ([], []) | b :: rest => (rest, [b]) end.

(** ** The writer of a session *)
Record Writer : Type := mkWriter {
  w_dest : option Destination;
  w_id : Z;
  w_followup : bool;
  w_hasError : bool;
  w_packet : bool;
  w_globalID : Z }.
Definition NewWriter (id : Z) (dest : Destination) (packet : bool) (globalID : Z) : Writer :=
  mkWriter (Some dest) id false false packet globalID.
Definition NewResponseWriter (id : Z) (packet : bool) : Writer := mkWriter None id true false packet 0.

Definition getNextFrameMeta (w : Writer) : Writer * FrameMetadata :=
  (mkWriter (w_dest w) (w_id w) true (w_hasError w) (w_packet w) (w_globalID w),
   mkFrame (w_dest w) (w_id w) 0 (if w_followup w then SessionStatusKeep else SessionStatusNew) (w_globalID w)).

Definition set_option (o : Z) (f : FrameMetadata) : FrameMetadata :=
  mkFrame (fm_Target f) (fm_SessionID f) (Z.lor (fm_Option f) o) (fm_SessionStatus f) (fm_GlobalID f).

Definition writeMetaOnly (w : Writer) : Writer * outcome string string :=
  let '(w, meta) := getNextFrameMeta w in (w, WriteTo None meta).
Definition writeData (w : Writer) (chunk : list Buffer) : Writer * outcome string string :=
  let '(w, meta) := getNextFrameMeta w in
  let udp := match chunk with [b] => b_UDP b | _ => None end in
  (w, writeMetaWithFrame udp (set_option OptionData meta) (mb_text chunk)).

(** the loop of WriteMultiBuffer: what is written *)
Fixpoint write_loop (fuel : nat) (w : Writer) (mb : list Buffer) : Writer * outcome string string :=
  if mb_empty mb then (w, Ok EmptyString)
  else
    match fuel with
    | O => (w, Err "out of fuel")
    | S fuel =>
        let '(rest, chunk) := if w_packet w then SplitFirst mb else SplitSize mb 8192 in
        match writeData w chunk with
        | (w, Ok text) => let '(w, res) := write_loop fuel w rest in (w, let? more := res in Ok (text +:+ more))
        | (w, Err e) => (w, Err e)
        | (w, Panic) => (w, Panic)
        end
    end.
(** a round of the loop takes a byte or a buffer *)
Definition write_fuel (mb : list Buffer) : nat := (Z.to_nat (mb_len mb) + length mb)%nat.
Definition WriteMultiBuffer (w : Writer) (mb : list Buffer) : Writer * outcome string string :=
  if mb_empty mb then writeMetaOnly w else write_loop (write_fuel mb) w mb.

(** Close *)
Definition WriterClose (w : Writer) : outcome string string :=
  WriteTo None (mkFrame None (w_id w) (if w_hasError w then OptionError else 0) SessionStatusEnd 0).

(** ** The reader: the frames of a text, with their data *)
Fixpoint receive (fuel : nat) (packet : bool) (input : string) : option (list (FrameMetadata * string)) :=
  if String.eqb input EmptyString then Some []
  else
    match fuel with
    | O => None
    | S fuel =>
        match Unmarshal input with
        | Ok (f, input) =>
            if Has (fm_Option f) OptionData then
              match read_data packet input with
              | (d, Some rest) => l ← receive fuel packet rest; Some ((f, d) :: l)
              | (_, None) => None
              end
            else l ← receive fuel packet input; Some ((f, EmptyString) :: l)
        | _ => None
        end
    end.
Definition received_frames (packet : bool) (input : string) : option (list (FrameMetadata * string)) :=
  receive (String.length input) packet input.

(** ** A frame with its data *)
Lemma read_data_back packet data rest : slen data < 65536 → (packet = true → slen data ≤ 8192) →
  read_data packet (string_of (be_bytes 2 (slen data)) +:+ data +:+ rest) = (data, Some rest).
Proof.
  intros Hlen Hp. unfold read_data. rewrite ReadUint16_back by (unfold slen in *; lia).
  destruct (packet && (8192 <? slen data)) eqn:E.
  { apply andb_prop in E as [-> E%Z.ltb_lt]. specialize (Hp eq_refl). lia. }
  destruct (Z.ltb_spec (slen (data +:+ rest)) (slen data)) as [H|_]; [rewrite slen_app in H; unfold slen in *; lia|].
  unfold slen. rewrite Nat2Z.id. by rewrite take_chars_app, drop_chars_app.
Qed.

Lemma data_frame_back udp f packet data rest : proper udp f → slen data < 65536 → (packet = true → slen data ≤ 8192) →
  ∃ w, writeMetaWithFrame udp f data = Ok w ∧ 6 ≤ slen w ∧
    ∃ body, Unmarshal (w +:+ rest) = Ok (received udp f, body) ∧ read_data packet body = (data, Some rest).
Proof.
  intros Hf Hlen Hp. destruct (frame_back udp f (string_of (be_bytes 2 (slen data)) +:+ data +:+ rest) Hf) as (w & Hw & Hu & Hl).
  unfold writeMetaWithFrame. rewrite Hw. cbn [obind]. eexists. split; [done|].
  split; [rewrite slen_app; unfold slen in *; lia|]. eexists. split; [|by apply read_data_back].
  by rewrite !string_app_assoc.
Qed.

(** ** Splitting loses nothing *)
Lemma mb_text_cons b mb : mb_text (b :: mb) = b_data b +:+ mb_text mb.
Proof. done. Qed.
Lemma mb_text_app a b : mb_text (a ++ b) = mb_text a +:+ mb_text b.
Proof. induction a as [|x a IH]; [done|]. cbn [app]. by rewrite !mb_text_cons, IH, string_app_assoc. Qed.
Lemma mb_len_text mb : mb_len mb = slen (mb_text mb).
Proof. induction mb as [|b mb IH]; [done|]. rewrite mb_text_cons, slen_app, <- IH. done. Qed.
Lemma mb_empty_text mb : mb_empty mb = true → mb_text mb = EmptyString.
Proof.
  induction mb as [|b mb IH]; [done|]. cbn [mb_empty forallb]. intros [Hb%String.eqb_eq Hmb]%andb_prop.
  rewrite mb_text_cons, Hb. by apply IH.
Qed.

Lemma take_fit_spec total size mb : total ≤ size →
  let '(rest, chunk) := take_fit total size mb in
  mb = (chunk ++ rest)%list ∧ total + mb_len chunk ≤ size.
Proof.
  revert total. induction mb as [|b mb IH]; intros total Ht; cbn [take_fit]; [cbn; split; [done|lia]|].
  destruct (Z.ltb_spec size (total + slen (b_data b))); [cbn; split; [done|lia]|].
  specialize (IH (total + slen (b_data b)) ltac:(lia)). destruct (take_fit _ _ mb) as [rest chunk].
  destruct IH as [-> IH]. split; [done|]. cbn [mb_len fold_right]. unfold mb_len in IH. lia.
Qed.

Lemma SplitSize_spec mb : mb ≠ [] → 
  let '(rest, chunk) := SplitSize mb 8192 in
  mb_text mb = mb_text chunk +:+ mb_text rest ∧ slen (mb_text chunk) ≤ 8192 ∧ (write_fuel rest < write_fuel mb)%nat.
Proof.
  destruct mb as [|b mb]; [done|]. intros _. unfold SplitSize.
  destruct (Z.ltb_spec 8192 (slen (b_data b))) as [Hb|Hb].
  - split; [|split].
    + rewrite !mb_text_cons. cbn [b_data]. change (mb_text []) with EmptyString. rewrite string_app_nil_r, <- string_app_assoc, take_drop_chars. done.
    + change (slen (take_chars (Z.to_nat 8192) (b_data b) +:+ EmptyString) ≤ 8192). rewrite string_app_nil_r. unfold slen in *.
      rewrite take_chars_length_le by lia. lia.
    + unfold write_fuel. cbn [mb_len fold_right b_data length]. fold (mb_len mb). rewrite mb_len_text. unfold slen in *. rewrite drop_chars_length. lia.
  - pose proof (take_fit_spec 0 8192 (b :: mb) ltac:(lia)) as H.
    assert (Hne : (take_fit 0 8192 (b :: mb)).2 ≠ []).
    { cbn [take_fit]. destruct (Z.ltb_spec 8192 (0 + slen (b_data b))); [lia|]. by destruct (take_fit _ _ mb). }
    destruct (take_fit 0 8192 (b :: mb)) as [rest chunk]. destruct H as [-> H]. split; [apply mb_text_app|].
    rewrite <- mb_len_text. split; [lia|]. unfold write_fuel. rewrite !mb_len_text, mb_text_app, slen_app, length_app.
    destruct chunk as [|x chunk]; [done|]. cbn [length]. unfold slen. lia.
Qed.

(** ** What is written is received *)
Record writer_ok (w : Writer) : Prop := {
  wo_id : 0 ≤ w_id w < 65536;
  wo_gid : 0 ≤ w_globalID w < 2 ^ 64;
  wo_dest : w_followup w = false →
    ∃ t, w_dest w = Some t ∧ writable_destination t ∧ (dst_Network t = Network_TCP ∨ dst_Network t = Network_UDP) }.
Definition buffer_ok (b : Buffer) : Prop := slen (b_data b) ≤ 8192 ∧ ∀ d, b_UDP b = Some d → writable_destination d.

(** a buffer as a packet that the other side receives *)
Definition as_packet (b : Buffer) : option Destination * string :=
  ((λ d, mkDestination (dst_Address d) (dst_Port d) Network_UDP) <$> b_UDP b, b_data b).

Lemma next_meta_proper w o udp : writer_ok w → is_byte o → (∀ d, udp = Some d → writable_destination d) →
  proper udp (set_option o (getNextFrameMeta w).2).
Proof.
  intros [H1 H2 H3] Ho Hu. constructor; cbn; try done.
  - by destruct (w_followup w).
  - intros E. apply H3. by destruct (w_followup w).
Qed.

Lemma next_writer_ok w : writer_ok w → writer_ok (getNextFrameMeta w).1.
Proof. intros [H1 H2 H3]. by constructor. Qed.

Lemma received_fields udp f : fm_SessionID (received udp f) = fm_SessionID f ∧ fm_Option (received udp f) = fm_Option f.
Proof. unfold received. by destruct (_ =? SessionStatusNew). Qed.

Lemma split_rest w mb rest chunk : mb ≠ [] → (if w_packet w then SplitFirst mb else SplitSize mb 8192) = (rest, chunk) →
  Forall buffer_ok mb →
  mb_text mb = mb_text chunk +:+ mb_text rest ∧ slen (mb_text chunk) ≤ 8192 ∧ (write_fuel rest < write_fuel mb)%nat ∧
  Forall buffer_ok rest ∧ Forall buffer_ok chunk ∧ (w_packet w = true → ∃ b, chunk = [b] ∧ mb = b :: rest).
Proof.
  intros Hne E Hok. destruct (w_packet w).
  - destruct mb as [|b mb]; [done|]. injection E as <- <-. pose proof Hok as [[Hb Hu] Hmb]%Forall_cons.
    split; [rewrite mb_text_cons; change (mb_text [b]) with (b_data b +:+ EmptyString); by rewrite string_app_nil_r|].
    split; [change (mb_text [b]) with (b_data b +:+ EmptyString); by rewrite string_app_nil_r|].
    split; [unfold write_fuel; cbn [mb_len fold_right length]; fold (mb_len mb); unfold slen; rewrite mb_len_text; unfold slen; lia|].
    split; [done|]. split; [by apply Forall_singleton|]. intros _. by exists b.
  - pose proof (SplitSize_spec mb Hne) as H. rewrite E in H. destruct H as (H1 & H2 & H3).
    assert (Hs : Forall buffer_ok chunk ∧ Forall buffer_ok rest).
    { unfold SplitSize in E. destruct mb as [|b mb]; [done|]. pose proof Hok as [[Hb _] _]%Forall_cons.
      destruct (Z.ltb_spec 8192 (slen (b_data b))); [lia|].
      pose proof (take_fit_spec 0 8192 (b :: mb) ltac:(lia)) as Ht. rewrite E in Ht. destruct Ht as [Ht _].
      rewrite Ht in Hok. by apply Forall_app in Hok. }
    destruct Hs. by split_and!.
Qed.

(** one frame of the loop *)
Lemma writeData_back w chunk rest : writer_ok w → Forall buffer_ok chunk → slen (mb_text chunk) ≤ 8192 →
  let udp := match chunk with [b] => b_UDP b | _ => None end in
  ∃ text, writeData w chunk = ((getNextFrameMeta w).1, Ok text) ∧ 6 ≤ slen text ∧
    ∃ body, Unmarshal (text +:+ rest) = Ok (received udp (set_option OptionData (getNextFrameMeta w).2), body) ∧
      read_data (w_packet w) body = (mb_text chunk, Some rest).
Proof.
  intros Hw Hok Hlen udp.
  assert (Hu : ∀ d, udp = Some d → writable_destination d).
  { unfold udp. destruct chunk as [|b [|]]; [done| |done]. apply Forall_singleton in Hok as [_ Hu]. exact Hu. }
  destruct (data_frame_back udp (set_option OptionData (getNextFrameMeta w).2) (w_packet w) (mb_text chunk) rest) as (t & Ht & Hl & body & Hb & Hr).
  - by apply next_meta_proper.
  - lia.
  - done.
  - exists t. split; [|split; [done|by exists body]]. unfold writeData, udp in *. cbn in *. by rewrite Ht.
Qed.

Lemma receive_frame fuel packet text rest f body d frames : Unmarshal (text +:+ rest) = Ok (f, body) → Has (fm_Option f) OptionData = true →
  read_data packet body = (d, Some rest) → 6 ≤ slen text →
  (∀ fuel, (String.length rest ≤ fuel)%nat → receive fuel packet rest = Some frames) →
  (String.length (text +:+ rest) ≤ fuel)%nat → receive fuel packet (text +:+ rest) = Some ((f, d) :: frames).
Proof.
  intros Hu Ho Hd Hl Hr Hf. rewrite string_length_app in Hf. unfold slen in Hl. destruct fuel as [|fuel]; [lia|]. cbn [receive].
  destruct (String.eqb_spec (text +:+ rest) EmptyString) as [E|_].
  { apply (f_equal String.length) in E. rewrite string_length_app in E. cbn in E. lia. }
  rewrite Hu, Ho, Hd, Hr by lia. done.
Qed.

Lemma write_loop_back fuel w mb : writer_ok w → Forall buffer_ok mb → (write_fuel mb ≤ fuel)%nat →
  ∃ w' text frames, write_loop fuel w mb = (w', Ok text) ∧
    (∀ fuel', (String.length text ≤ fuel')%nat → receive fuel' (w_packet w) text = Some frames) ∧
    concat_text (map snd frames) = mb_text mb ∧
    Forall (λ fr, fm_SessionID fr.1 = w_id w ∧ slen fr.2 ≤ 8192) frames ∧
    (w_followup w = true → w_packet w = true →
      ∃ k, map (λ fr, (fm_Target fr.1, fr.2)) frames = map as_packet (take k mb)).
Proof.
  revert w mb. induction fuel as [|fuel IH]; intros w mb Hw Hok Hf.
  { assert (mb = []) as -> by (destruct mb; [done|]; unfold write_fuel in Hf; cbn [length] in Hf; lia).
    exists w, EmptyString, []. split; [done|]. split; [by intros []|]. split; [done|]. split; [constructor|]. intros _ _. by exists 0%nat. }
  cbn [write_loop]. destruct (mb_empty mb) eqn:Hem.
  { exists w, EmptyString, []. split; [done|]. split; [by intros []|]. split; [by rewrite mb_empty_text|].
    split; [constructor|]. intros _ _. by exists 0%nat. }
  assert (Hne : mb ≠ []) by (by intros ->).
  destruct (if w_packet w then SplitFirst mb else SplitSize mb 8192) as [rest chunk] eqn:Es.
  destruct (split_rest w mb rest chunk Hne Es Hok) as (Et & Hlen & Hless & Hrest & Hchunk & Hpkt).
  destruct (IH (getNextFrameMeta w).1 rest (next_writer_ok w Hw) Hrest ltac:(lia)) as (w' & more & frames & Hloop & Hrec & Hcat & Hall & Hpk).
  destruct (writeData_back w chunk more Hw Hchunk Hlen) as (text & Hwd & Hl & body & Hu & Hd).
  rewrite Hwd, Hloop. cbn [obind]. set (udp := match chunk with [b] => b_UDP b | _ => None end) in *.
  set (f := received udp (set_option OptionData (getNextFrameMeta w).2)) in *.
  destruct (received_fields udp (set_option OptionData (getNextFrameMeta w).2)) as [Eid Eopt]. fold f in Eid, Eopt.
  exists w', (text +:+ more), ((f, mb_text chunk) :: frames). split; [done|]. split.
  { intros fuel' Hfuel. eapply receive_frame; [exact Hu| |exact Hd|exact Hl|exact Hrec|exact Hfuel]. rewrite Eopt. done. }
  split; [cbn [map snd]; change (concat_text (?x :: ?l)) with (x +:+ concat_text l); by rewrite Hcat, Et|].
  split; [constructor; [cbn [fst snd]; by rewrite Eid|exact Hall]|].
  intros Hfo Hp. destruct (Hpkt Hp) as (b & -> & ->). destruct (Hpk eq_refl Hp) as [k Hk]. exists (S k). cbn [map take]. rewrite Hk. f_equal.
  unfold as_packet, f, received, set_option. cbn [getNextFrameMeta snd fm_SessionStatus fm_Target]. rewrite Hfo.
  change (SessionStatusKeep =? SessionStatusNew) with false. change (SessionStatusKeep =? SessionStatusKeep) with true.
  cbn [fm_Target fst snd]. change (mb_text [b]) with (b_data b +:+ EmptyString). by rewrite string_app_nil_r.
Qed.

(** C17: What a session writes is what its peer reads. A payload, however it is spread over
    buffers, is written completely, as frames of the session with at most 8192 bytes each;
    the reader of frames parses them all, and their data put together is the payload. The
    packets of an answer arrive one by one, each from its source. *)
Theorem payload_is_received w mb : writer_ok w → Forall buffer_ok mb → mb_empty mb = false →
  ∃ w' text frames, WriteMultiBuffer w mb = (w', Ok text) ∧ received_frames (w_packet w) text = Some frames ∧
    concat_text (map snd frames) = mb_text mb ∧
    Forall (λ fr, fm_SessionID fr.1 = w_id w ∧ slen fr.2 ≤ 8192) frames ∧
    (w_followup w = true → w_packet w = true →
      ∃ k, map (λ fr, (fm_Target fr.1, fr.2)) frames = map as_packet (take k mb)).
Proof.
  intros Hw Hok Hne. destruct (write_loop_back (write_fuel mb) w mb Hw Hok ltac:(lia)) as (w' & text & frames & H1 & H2 & H3 & H4 & H5).
  exists w', text, frames. unfold WriteMultiBuffer. rewrite Hne. split; [done|]. split; [by apply H2|done].
Qed.

(** ** Witness: two packets of an answer *)
Definition w_answer : list Buffer :=
  [mkBuffer "abc" (Some (mkDestination (ipv4Address 3221225985) 53 Network_UDP)); mkBuffer "de" None].
Lemma w_answer_ok : writer_ok (NewResponseWriter 7 true) ∧ Forall buffer_ok w_answer.
Proof.
  split; [by constructor|]. apply Forall_cons; split; [|apply Forall_singleton].
  - split; [by vm_compute|]. intros d [= <-]. by vm_compute.
  - split; [by vm_compute|done].
Qed.

Lemma payload_is_received_witness : ∃ text frames,
  (WriteMultiBuffer (NewResponseWriter 7 true) w_answer).2 = Ok text ∧ received_frames true text = Some frames ∧
  concat_text (map snd frames) = "abcde" ∧ slen text = 29.
Proof.
  destruct (payload_is_received (NewResponseWriter 7 true) w_answer (proj1 w_answer_ok) (proj2 w_answer_ok) eq_refl)
    as (w' & text & frames & H1 & H2 & H3 & _).
  exists text, frames. rewrite H1. split; [reflexivity|]. split; [exact H2|]. split; [rewrite H3; reflexivity|].
  assert (E : match (WriteMultiBuffer (NewResponseWriter 7 true) w_answer).2 with Ok t => slen t | _ => 0 end = 29) by (vm_compute; reflexivity).
  rewrite H1 in E. exact E.
Defined.
