(* ===== verification/UdpPackets.v ===== *)
(** Where a datagram of a Mux session goes: the packet reader of [common/mux]
    tags each packet with the target of its frame, and the packet writer of the
    freedom outbound ([proxy/freedom] in the vendored Xray-core) sends a tagged
    packet to its tag, not to the destination that the dispatcher pinned. *)
From S2P Require Import Prelude GoString Float64 Netip NetipText Model Config Policy.
From S2P Require Import Session SessionInv SessionProps SessionLease NetAddress SessionControl Links Xudp.

Local Open Scope string_scope.
Local Open Scope Z_scope.

(** ** Packets *)

(** PacketReader: [b.UDP] of a packet read from a frame with this target; a Keep
    frame without an address has the unknown network *)
Definition packet_udp (target : Destination) : option Destination :=
  if bool_decide (dst_Network target = Network_UDP) then Some target else None.

(** the cache of NewPacketWriter, for a connection dialled to [dial] whose remote
    address is [remote] *)
Definition new_resolved (dial : Destination) (remote : Address) : gmap string Address :=
  match dst_Address dial with domainAddress d => {[ d := remote ]} | _ => ∅ end.

(** the loop body of PacketWriter.WriteMultiBuffer for one packet: the cache and
    the destination the packet is sent to, if it is not dropped. The generated
    configuration overrides no destination and has no domain strategy.
    [resolve] is net.ResolveUDPAddr. *)
Definition WritePacket (resolve : string → option Address) (cache : gmap string Address) (dialled : Destination)
    (udp : option Destination) : gmap string Address * option Destination :=
  match udp with
  | None => (cache, Some dialled)
  | Some d =>
      let send cache a := (cache, Some (mkDestination a (dst_Port d) (dst_Network d))) in
      match dst_Address d with
      | domainAddress name =>
          match cache !! name with
          | Some a => if IsDomain a then (cache, None) else send cache a
          | None =>
              match resolve name with
              | None => (cache, None)
              | Some a => if IsDomain a then (cache, None) else send (<[name := a]> cache) a
              end
          end
      | a => send cache a
      end
  end.

(** the packets of a flow, by the targets of their frames *)
Fixpoint WritePackets (resolve : string → option Address) (cache : gmap string Address) (dialled : Destination)
    (targets : list Destination) : list (option Destination) :=
  match targets with
  | [] => []
  | t :: targets =>
      let '(cache, sent) := WritePacket resolve cache dialled (packet_udp t) in
      sent :: WritePackets resolve cache dialled targets
  end.

Lemma packet_to_ip resolve cache dialled t :
  is_ip (dst_Address t) → dst_Network t = Network_UDP → WritePacket resolve cache dialled (packet_udp t) = (cache, Some t).
Proof.
  intros Hip Hnet. unfold packet_udp. rewrite bool_decide_eq_true_2 by done. cbn [WritePacket].
  destruct t as [[v|v|d] port net]; simpl in *; by subst.
Qed.

Lemma packets_to_ips resolve cache dialled targets :
  Forall (λ t, is_ip (dst_Address t) ∧ dst_Network t = Network_UDP) targets →
  WritePackets resolve cache dialled targets = map Some targets.
Proof.
  intros HF. revert cache. induction HF as [|t targets [Hip Hnet] HF IH]; intros cache; [done|].
  cbn [WritePackets map]. by rewrite packet_to_ip, IH.
Qed.

(** C22: the policy checks the first target of a UDP flow and nothing after it.
    After the registry approved a flow and the dispatcher pinned its target to
    an address the user may reach, the datagrams go where their frames say: a
    frame with an address sends its datagram there, whatever addresses and ports
    the user's policy forbids, and the very first datagram of a flow to a name
    goes to what the outbound's own lookup of that name answers, not to the
    pinned address. *)
Theorem datagrams_escape_the_policy r lookup inb st st' addr port c' inb' target id resolve remote :
  resolver_ok lookup → in_Tag inb = inboundTag →
  ReadAddressPort st = Some (st', addr, port) →
  let first := mkDestination addr port Network_UDP in
  Dispatch (Some r) lookup (Some inb) first = (c', inb', Ok (target, Some id)) →
  (∀ targets, Forall (λ t, is_ip (dst_Address t) ∧ dst_Network t = Network_UDP) targets →
     WritePackets resolve (new_resolved target remote) target targets = map Some targets) ∧
  (∀ name a, addr = domainAddress name → resolve name = Some a → IsDomain a = false →
     WritePackets resolve (new_resolved target remote) target [first] =
       [Some (mkDestination a port Network_UDP)]).
Proof.
  intros Hlookup Htag [Hwire _]%ReadAddressPort_wire first. unfold Dispatch. destruct (bool_decide _); [done|].
  intros (r' & p & t & id' & (_ & _ & _ & _ & _ & Hres) & _ & _ & _ & Ha & -> & _ & _)%openControlledSession_inv; [|done].
  destruct (resolves_pins lookup (sessionRequest (Some inb) first) addr _ _ Hlookup Hwire eq_refl Hres)
    as (t' & n & Ht & Hip & _). cbn [dst_Address first] in Ha. rewrite Ht in Ha. injection Ha as <-.
  split; [intros targets; by apply packets_to_ips|].
  intros name a -> Hname Hd.
  assert (new_resolved (mkDestination t' (dst_Port first) (dst_Network first)) remote = ∅) as -> by by destruct t'.
  unfold first. cbn [WritePackets]. change (packet_udp _) with (Some (mkDestination (domainAddress name) port Network_UDP)).
  cbn [WritePacket dst_Address]. by rewrite lookup_empty, Hname, Hd.
Qed.

(** ** Witness: a datagram to a forbidden address and port *)
Definition forbidden_target : Destination := mkDestination (ipv4Address 3221225991) 25 Network_UDP.

Definition demo_udp : option Registry * option Inbound * outcome string (Destination * option Z) :=
  Dispatch (Some demo0) demoDNS (Some (demoInbound 3405803777))
    (mkDestination (domainAddress "example.org") 443 Network_UDP).
Definition demo_udp_registry : Registry := default demo0 demo_udp.1.1.

Lemma forbidden_target_ok : is_ip (dst_Address forbidden_target) ∧ dst_Network forbidden_target = Network_UDP.
Proof. split; [|reflexivity]. cbn. lia. Qed.

Lemma datagrams_escape_the_policy_witness :
  ∃ inb' target l user, demo_udp = (Some demo_udp_registry, inb', Ok (target, Some 1)) ∧
    dst_Address target = ipv4Address 3325256705 ∧
    sessions demo_udp_registry !! 1 = Some l ∧ users demo_udp_registry !! l_userID l = Some user ∧
    IPBlocked (user_ForbiddenIPs user) "192.0.2.7" = true ∧ PortBlocked (user_ForbiddenPorts user) 25 = true ∧
    WritePackets (λ _, None) (new_resolved target (ipv4Address 0)) target [forbidden_target] = [Some forbidden_target].
Proof.
  destruct (ReadAddressPort demoWire) as [[[st' addr] port]|] eqn:Hw; [|exfalso; by vm_compute in Hw].
  assert (Hw' : addr = domainAddress "example.org" ∧ port = 443) by (vm_compute in Hw; by simplify_eq).
  destruct Hw' as [-> ->].
  assert (E : ∃ inb', demo_udp = (Some demo_udp_registry, inb',
    Ok (mkDestination (ipv4Address 3325256705) 443 Network_UDP, Some 1))) by (eexists; vm_compute; reflexivity).
  destruct E as [inb' E]. exists inb', (mkDestination (ipv4Address 3325256705) 443 Network_UDP).
  exists (newLease demo0 (mkPrepared 42 "203.0.113.1" XUDP 443 [] EmptyString)), (demoUser 2 []).
  split; [exact E|]. do 5 (split; [by vm_compute|]).
  assert (HF : Forall (λ t, is_ip (dst_Address t) ∧ dst_Network t = Network_UDP) [forbidden_target])
    by (constructor; [exact forbidden_target_ok|constructor]).
  exact (proj1 (datagrams_escape_the_policy demo0 demoDNS (demoInbound 3405803777) demoWire st' _ 443 _ inb' _ 1
    (λ _, None) (ipv4Address 0) demoDNS_ok eq_refl Hw E) [forbidden_target] HF).
Defined.
