(* ===== verification/Outbox.v ===== *)
(** Package [internal/accounting]: traffic batches and the outbox that keeps
    them on disk until the panel has them.

    The directory is modelled with its names and file contents, with what may
    survive a crash: a file's data is durable after the file was synced, and a
    change of the directory after the directory was. Every system call of
    [Save] can fail; a [Faults] record says which do. *)
From S2P Require Import Prelude GoString GoPath Float64 Digest.

Local Open Scope string_scope.
Local Open Scope Z_scope.

Definition SchemaVersion : Z := 1.

Record Entry : Type := mkEntry {
  e_UserID : Z;
  e_Uplink : Z;
  e_Downlink : Z }.
#[global] Instance Entry_eq_dec : EqDecision Entry.
Proof. solve_decision. Defined.

Record Batch : Type := mkBatch {
  b_Version : Z;
  b_ID : string;
  b_NodeID : Z;
  b_ConfigurationVersion : Z;
  b_CreatedAt : Z;
  b_TrafficRate : float64;
  b_slice : option (list Entry);
  b_PayloadSHA256 : string }.
(** Entries, of which a nil slice has none *)
Definition b_Entries (b : Batch) : list Entry := default [] (b_slice b).

Definition with_hash (hash : string) (b : Batch) : Batch :=
  mkBatch (b_Version b) (b_ID b) (b_NodeID b) (b_ConfigurationVersion b) (b_CreatedAt b)
    (b_TrafficRate b) (b_slice b) hash.

(** The text form of batches: [encoding/json] and the SHA-256 digest in
    hexadecimal. [marshal] fails on a rate that has no text;
    [unmarshal] reads one batch and refuses unknown fields and trailing text. *)
Class BatchCodec : Type := {
  rate_text : float64 → option string;
  marshal : Batch → option string;
  unmarshal : string → option Batch;
  digest : string → string }.

(** ** Identifiers *)
(** newUUID of 16 random bytes *)
Definition newUUID (value : list Z) : string := format_uuid 64 value.

Fixpoint remove_char (c : ascii) (s : string) : string :=
  match s with
  | EmptyString => EmptyString
  | String d s => if Ascii.eqb d c then remove_char c s else String d (remove_char c s)
  end.

Definition char_at (i : nat) (s : string) : option ascii := String.get i s.
Definition validUUID (value : string) : bool :=
  if negb (slen value =? 36)
     || negb (bool_decide (char_at 8 value = Some "-"%char)) || negb (bool_decide (char_at 13 value = Some "-"%char))
     || negb (bool_decide (char_at 18 value = Some "-"%char)) || negb (bool_decide (char_at 23 value = Some "-"%char))
  then false
  else hex_decodes (remove_char "-" value).

(** ** Batches *)
Definition entry_invalid (lastID : Z) (e : Entry) : bool :=
  (e_UserID e <=? lastID) || (e_Uplink e <? 0) || (e_Downlink e <? 0)
  || (max_int64 - e_Downlink e <? e_Uplink e).

Fixpoint validate_entries (lastID : Z) (l : list Entry) : outcome string unit :=
  match l with
  | [] => Ok tt
  | e :: l =>
      guard_err (entry_invalid lastID e) "invalid or unsorted traffic entries" ;?
      guard_err ((e_Uplink e =? 0) && (e_Downlink e =? 0)) "zero traffic entry" ;?
      validate_entries (e_UserID e) l
  end.

Definition rate_invalid (rate : float64) : bool :=
  is_nan rate || is_inf rate || f64_leb rate (f64_of_int 0) || f64_ltb (f64_of_int 10000) rate.

(** the total of a batch, refusing to overflow *)
Fixpoint raw_total (total : Z) (l : list Entry) : outcome string Z :=
  match l with
  | [] => Ok total
  | e :: l =>
      guard_err ((wrap64 (max_int64 - e_Downlink e) <? e_Uplink e)
                 || (wrap64 (wrap64 (max_int64 - e_Uplink e) - e_Downlink e) <? total))
        "traffic total overflows int64" ;?
      raw_total (wrap64 (total + wrap64 (e_Uplink e + e_Downlink e))) l
  end.
Definition RawTotal (b : Batch) : outcome string Z := raw_total 0 (b_Entries b).

Definition BatchEmpty (b : Batch) : bool := match b_Entries b with [] => true | _ => false end.

Definition entry_le (a b : Entry) : Prop := e_UserID a ≤ e_UserID b.
#[global] Instance entry_le_dec : RelDecision entry_le.
Proof. intros a b. unfold entry_le. apply _. Defined.

(** ** The directory *)
Inductive FileKind : Type := Regular | Directory | Symlink | OtherKind.
#[global] Instance FileKind_eq_dec : EqDecision FileKind.
Proof. solve_decision. Defined.

Record File : Type := mkFile {
  f_kind : FileKind;
  f_data : string;
  f_synced : bool }.
#[global] Instance File_eq_dec : EqDecision File.
Proof. solve_decision. Defined.

(** the directory now, and the states it went through since it was synced *)
Record Disk : Type := mkDisk {
  d_now : gmap string File;
  d_past : list (gmap string File) }.
Definition change (m : gmap string File) (d : Disk) : Disk := mkDisk m (d_now d :: d_past d).
Definition syncDir (d : Disk) : Disk := mkDisk (d_now d) [].

Record Store : Type := mkStore {
  st_dir : string;
  st_nodeID : Z;
  st_maxBytes : Z }.

(** What the system calls of one [Save] do. [ft_write] is the number of bytes
    written by a write that fails or falls short. *)
Record Faults : Type := mkFaults {
  ft_size : bool;
  ft_create : bool;
  ft_write : option nat;
  ft_sync : bool;
  ft_close : bool;
  ft_rename : bool;
  ft_syncDir : bool }.
Definition no_faults : Faults := mkFaults false false None false false false false.

(** saveError and the plain errors of Save: [published] is what WasPublished says *)
Record SaveError : Type := mkSaveError { published : bool; message : string }.
Definition WasPublished (e : SaveError) : bool := published e.
Definition plain (message : string) : SaveError := mkSaveError false message.

(** Size adds the sizes of all entries, refusing to overflow *)
Definition add_size (acc : option Z) (f : File) : option Z :=
  total ← acc;
  if max_int64 - total <? slen (f_data f) then None else Some (total + slen (f_data f)).
Definition Size (m : gmap string File) : option Z :=
  fold_left add_size (map snd (map_to_list m)) (Some 0).

(** the verb %020d *)
Definition pad20 (z : Z) : string :=
  if z <? 0 then
    let s := format_int (- z) in String "-" (zeros (19 - String.length s) +:+ s)
  else let s := format_int z in zeros (20 - String.length s) +:+ s.

Definition batch_name (nanos : Z) (b : Batch) : string := pad20 nanos +:+ "-" +:+ b_ID b +:+ ".json".

Section Codec.
Context `{BatchCodec}.

Definition hash (b : Batch) : option string := digest <$> marshal (with_hash EmptyString b).

Definition validate (checkHash : bool) (b : Batch) : outcome string unit :=
  guard_err (negb (b_Version b =? SchemaVersion) || (b_NodeID b <=? 0)
             || (b_ConfigurationVersion b =? 0) || (b_CreatedAt b <=? 0)) "invalid outbox metadata" ;?
  guard_err (negb (validUUID (b_ID b))) "invalid batch UUID" ;?
  guard_err (rate_invalid (b_TrafficRate b)) "invalid traffic rate" ;?
  let? _ := validate_entries 0 (b_Entries b) in
  if checkHash then
    match hash b with
    | None => Err "unsupported value"
    | Some expected => guard_err (negb (String.eqb expected (b_PayloadSHA256 b))) "outbox payload hash mismatch"
    end
  else Ok tt.

(** append([]T(nil), l...): nil when there is nothing to append *)
Definition copy_slice (l : list Entry) : option (list Entry) := match l with [] => None | _ => Some l end.

(** NewBatch, with the random bytes of its identifier and the time in seconds *)
Definition NewBatch (nodeID configurationVersion : Z) (rate : float64) (entries : list Entry)
    (random : list Z) (now : Z) : outcome string Batch :=
  let batch := mkBatch SchemaVersion (newUUID random) nodeID configurationVersion now rate
                 (copy_slice (merge_sort entry_le entries)) EmptyString in
  let? _ := validate false batch in
  match hash batch with
  | None => Err "unsupported value"
  | Some h => Ok (with_hash h batch)
  end.

Definition Save (st : Store) (ft : Faults) (nanos : Z) (b : Batch) (d : Disk) : Disk * outcome SaveError unit :=
  if negb (b_NodeID b =? st_nodeID st) then (d, Err (plain "outbox batch has wrong node_id"))
  else
    match validate true b with
    | Err e => (d, Err (plain e))
    | Panic => (d, Panic)
    | Ok _ =>
        match marshal b with
        | None => (d, Err (plain "unsupported value"))
        | Some text =>
            let data := text +:+ String (byte 10) EmptyString in
            match (if ft_size ft then None else Size (d_now d)) with
            | None => (d, Err (plain "read outbox"))
            | Some used =>
                if wrap64 (st_maxBytes st - used) <? slen data then (d, Err (plain "outbox capacity exceeded"))
                else
                  let base := batch_name nanos b in
                  let temp := base +:+ ".tmp" in
                  if ft_create ft || bool_decide (is_Some (d_now d !! temp))
                  then (d, Err (plain "create outbox batch"))
                  else
                    let d := change (<[temp := mkFile Regular EmptyString false]> (d_now d)) d in
                    let put text synced d := change (<[temp := mkFile Regular text synced]> (d_now d)) d in
                    match ft_write ft with
                    | Some n => (put (take_chars n data) false d, Err (plain "write outbox batch"))
                    | None =>
                        let d := put data false d in
                        if ft_sync ft then (d, Err (plain "sync outbox batch"))
                        else
                          let d := put data true d in
                          if ft_close ft then (d, Err (plain "close outbox batch"))
                          else if ft_rename ft then (d, Err (plain "publish outbox batch"))
                          else
                            let d := change (<[base := mkFile Regular data true]> (delete temp (d_now d))) d in
                            if ft_syncDir ft then (d, Err (mkSaveError true "sync outbox directory"))
                            else (syncDir d, Ok tt)
                    end
            end
        end
    end.

(** readBatch of a file's contents *)
Definition readBatch (data : string) : option Batch :=
  b ← unmarshal data;
  match validate true b with Ok _ => Some b | _ => None end.

(** the names of a directory, as os.ReadDir orders them *)
Definition sorted_names (m : gmap string File) : list string :=
  merge_sort String.le (map fst (map_to_list m)).

(** one iteration of List; [unreadable] are the files whose inspection or
    reading fails *)
Definition list_entry (st : Store) (unreadable : string → bool) (m : gmap string File) (name : string)
  : outcome string Batch :=
  match m !! name with
  | None => Err "unsafe outbox entry"
  | Some f =>
      guard_err (has_suffix name ".tmp") "incomplete outbox file requires operator review" ;?
      guard_err (bool_decide (f_kind f = Directory) || negb (has_suffix name ".json")) "unexpected outbox entry" ;?
      guard_err (unreadable name || negb (bool_decide (f_kind f = Regular))) "unsafe outbox entry" ;?
      match readBatch (f_data f) with
      | None => Err "read outbox"
      | Some b =>
          guard_err (negb (b_NodeID b =? st_nodeID st)) "outbox belongs to another node" ;?
          Ok b
      end
  end.

Fixpoint list_entries (st : Store) (unreadable : string → bool) (m : gmap string File) (names : list string)
  : outcome string (list (string * Batch)) :=
  match names with
  | [] => Ok []
  | name :: names =>
      let? b := list_entry st unreadable m name in
      let? rest := list_entries st unreadable m names in
      Ok ((name, b) :: rest)
  end.

(** List: the batches with their paths, by file name *)
Definition ListBatches (st : Store) (readdir_fails : bool) (unreadable : string → bool)
    (m : gmap string File) : outcome string (list (string * Batch)) :=
  guard_err readdir_fails "read outbox" ;?
  let? l := list_entries st unreadable m (sorted_names m) in
  Ok (map (λ p, (Join (st_dir st) p.1, p.2)) l).

(** Open, on the directory as it is after MkdirAll *)
Definition OpenStore (mkdir_fails chmod_fails readdir_fails : bool) (unreadable : string → bool)
    (stateDir : string) (nodeID maxBytes : Z) (m : gmap string File) : outcome string Store :=
  let dir := Join stateDir "outbox" in
  guard_err mkdir_fails "create outbox" ;?
  guard_err chmod_fails "secure outbox" ;?
  let store := mkStore dir nodeID maxBytes in
  let? _ := ListBatches store readdir_fails unreadable m in
  Ok store.
End Codec.

(** Remove: [remove_fails] and [sync_fails] say whether the system calls do *)
Definition Remove (st : Store) (remove_fails sync_fails : bool) (path : string) (d : Disk)
  : Disk * outcome string unit :=
  let clean := Clean path in
  if negb (String.eqb (Dir clean) (st_dir st)) || negb (has_suffix clean ".json")
  then (d, Err "refusing to remove path outside outbox")
  else if remove_fails || bool_decide (d_now d !! Base clean = None) then (d, Err "remove outbox batch")
  else
    let d := change (delete (Base clean) (d_now d)) d in
    if sync_fails then (d, Err "sync outbox directory") else (syncDir d, Ok tt).
