(* ===== verification/OutboxProps.v ===== *)
(** What is proved of the outbox: batches are valid and canonical, totals do
    not overflow silently, the capacity holds, only batches of the store are
    ever removed, and no fault or crash tears, duplicates or silently loses a
    batch. *)
From S2P Require Import Prelude GoString GoPath Float64 Digest Outbox.

Local Open Scope string_scope.
Local Open Scope Z_scope.

(** ** Totals *)
Definition entry_total (e : Entry) : Z := e_Uplink e + e_Downlink e.
Definition entries_total (l : list Entry) : Z := fold_right (λ e acc, entry_total e + acc) 0 l.

(** the conditions on the entries of a valid batch *)
Fixpoint entries_ok (lastID : Z) (l : list Entry) : Prop :=
  match l with
  | [] => True
  | e :: l =>
      lastID < e_UserID e ∧ 0 ≤ e_Uplink e ∧ 0 ≤ e_Downlink e ∧
      0 < entry_total e ≤ max_int64 ∧ entries_ok (e_UserID e) l
  end.

Lemma validate_entries_Ok lastID l : validate_entries lastID l = Ok tt ↔ entries_ok lastID l.
Proof.
  revert lastID. induction l as [|e l IH]; intros lastID; simpl; [done|].
  rewrite !guard_bind_Ok_inv, IH. unfold entry_invalid, entry_total.
  rewrite !orb_false_iff, andb_false_iff, !Z.leb_gt, !Z.ltb_ge, !Z.eqb_neq. intuition lia.
Qed.

Lemma validate_entries_no_panic lastID l : validate_entries lastID l ≠ Panic.
Proof.
  revert lastID. induction l as [|e l IH]; intros lastID; simpl; [done|].
  unfold guard_err. repeat case_match; simpl; done || apply IH.
Qed.

Lemma entries_ok_weaken a b l : a ≤ b → entries_ok b l → entries_ok a l.
Proof. destruct l as [|e l]; simpl; [done|]. intros ? (? & ?). split; [lia|done]. Qed.

Lemma entries_total_nonneg lastID l : entries_ok lastID l → 0 ≤ entries_total l.
Proof.
  revert lastID. induction l as [|e l IH]; intros lastID; simpl; [lia|].
  intros (_ & _ & _ & ? & H%IH). lia.
Qed.

Lemma raw_total_spec lastID total l :
  entries_ok lastID l → 0 ≤ total ≤ max_int64 →
  raw_total total l = if total + entries_total l <=? max_int64 then Ok (total + entries_total l)
                      else Err "traffic total overflows int64".
Proof.
  revert lastID total. induction l as [|e l IH]; intros lastID total Hok Ht; simpl.
  { rewrite Z.add_0_r, (proj2 (Z.leb_le total max_int64)) by lia. done. }
  destruct Hok as (_ & Hu & Hd & Hsum & Hl). pose proof (entries_total_nonneg _ _ Hl) as Hn.
  assert (Hw : ∀ z, min_int64 ≤ z ≤ max_int64 → wrap64 z = z).
  { intros z Hz. apply wrap64_id. unfold is_int64. lia. }
  unfold entry_total in *.
  assert (min_int64 = - max_int64 - 1) by done. assert (0 < max_int64) by done.
  rewrite (Hw (max_int64 - e_Uplink e)), (Hw (max_int64 - e_Downlink e)), (Hw (e_Uplink e + e_Downlink e)) by lia.
  rewrite (Hw (max_int64 - e_Uplink e - e_Downlink e)) by lia.
  rewrite (proj2 (Z.ltb_ge (max_int64 - e_Downlink e) (e_Uplink e))) by lia. cbn [orb].
  destruct (Z.ltb_spec (max_int64 - e_Uplink e - e_Downlink e) total) as [Hover|Hfit]; cbn [guard_err obind].
  - by rewrite (proj2 (Z.leb_gt _ max_int64)) by lia.
  - rewrite Hw by lia. rewrite (IH _ _ Hl) by lia. by rewrite <- (Z.add_assoc total).
Qed.

(** ** Sizes *)
Definition sum_sizes (l : list File) : Z := fold_right (λ f acc, slen (f_data f) + acc) 0 l.

Lemma slen_nonneg s : 0 ≤ slen s.
Proof. unfold slen. lia. Qed.

Lemma sum_sizes_nonneg l : 0 ≤ sum_sizes l.
Proof. induction l as [|f l IH]; simpl; [lia|]. pose proof (slen_nonneg (f_data f)). lia. Qed.

Lemma add_size_None l : fold_left add_size l None = None.
Proof. by induction l. Qed.

Lemma add_size_spec l acc : 0 ≤ acc ≤ max_int64 →
  fold_left add_size l (Some acc) = if acc + sum_sizes l <=? max_int64 then Some (acc + sum_sizes l) else None.
Proof.
  revert acc. induction l as [|f l IH]; intros acc Hacc; simpl.
  - rewrite Z.add_0_r, (proj2 (Z.leb_le acc max_int64)) by lia. done.
  - pose proof (slen_nonneg (f_data f)). pose proof (sum_sizes_nonneg l).
    destruct (Z.ltb_spec (max_int64 - acc) (slen (f_data f))).
    + rewrite add_size_None, (proj2 (Z.leb_gt _ max_int64)) by lia. done.
    + rewrite IH by lia. by rewrite Z.add_assoc.
Qed.

Definition total_size (m : gmap string File) : Z := sum_sizes (map snd (map_to_list m)).

Lemma Size_spec m : Size m = if total_size m <=? max_int64 then Some (total_size m) else None.
Proof. unfold Size. rewrite add_size_spec by done. done. Qed.

#[export] Instance sum_sizes_proper : Proper ((≡ₚ) ==> (=)) sum_sizes.
Proof.
  intros l l' H. induction H as [|f l l' _ IH|f g l|l1 l2 l3 _ IH1 _ IH2]; simpl; [done|lia|lia|congruence].
Qed.

Lemma total_size_insert m name f : m !! name = None →
  total_size (<[name := f]> m) = slen (f_data f) + total_size m.
Proof.
  intros Hn. unfold total_size. rewrite (map_to_list_insert m name f Hn). done.
Qed.

Lemma total_size_delete m name f : m !! name = Some f →
  total_size m = slen (f_data f) + total_size (delete name m).
Proof.
  intros Hn. rewrite <- (total_size_insert (delete name m) name f) by apply lookup_delete_eq.
  by rewrite insert_delete_eq, insert_id.
Qed.

Lemma total_size_overwrite m name f : m !! name = None → ∀ g,
  total_size (<[name := f]> (<[name := g]> m)) = slen (f_data f) + total_size m.
Proof. intros Hn g. rewrite insert_insert_eq. by apply total_size_insert. Qed.

(** ** The outcomes of Save *)
Section Save.
Context `{BatchCodec}.

Definition batch_text (text : string) : string := text +:+ String (byte 10) EmptyString.
Definition temp_name (nanos : Z) (b : Batch) : string := batch_name nanos b +:+ ".tmp".

(** the states a directory goes through before a batch is published: those it
    was in before, and those with a temporary file besides *)
Definition unpublished_states (temp : string) (d : Disk) (past : list (gmap string File)) : Prop :=
  ∀ s, s ∈ past → s ∈ d_now d :: d_past d ∨ ∃ g, s = <[temp := g]> (d_now d).

(** what Save got to know before it touched the directory *)
Record save_started (st : Store) (nanos : Z) (b : Batch) (d : Disk) (text : string) : Prop := mkStarted {
  ss_node : b_NodeID b = st_nodeID st;
  ss_valid : validate true b = Ok tt;
  ss_text : marshal b = Some text;
  ss_size : ∃ used, Size (d_now d) = Some used ∧ slen (batch_text text) ≤ wrap64 (st_maxBytes st - used);
  ss_temp : d_now d !! temp_name nanos b = None }.

Inductive save_outcome (st : Store) (nanos : Z) (b : Batch) (d : Disk) : Disk * outcome SaveError unit → Prop :=
| save_refused msg : save_outcome st nanos b d (d, Err (plain msg))
| save_incomplete text f past msg :
    save_started st nanos b d text → slen (f_data f) ≤ slen (batch_text text) →
    unpublished_states (temp_name nanos b) d past →
    save_outcome st nanos b d (mkDisk (<[temp_name nanos b := f]> (d_now d)) past, Err (plain msg))
| save_unsynced text past :
    save_started st nanos b d text → unpublished_states (temp_name nanos b) d past →
    save_outcome st nanos b d
      (mkDisk (<[batch_name nanos b := mkFile Regular (batch_text text) true]> (d_now d)) past,
       Err (mkSaveError true "sync outbox directory"))
| save_done text :
    save_started st nanos b d text →
    save_outcome st nanos b d
      (mkDisk (<[batch_name nanos b := mkFile Regular (batch_text text) true]> (d_now d)) [], Ok tt).

Lemma validate_no_panic check b : validate check b ≠ Panic.
Proof.
  unfold validate, guard_err.
  destruct (validate_entries 0 (b_Entries b)) eqn:E; [| |by apply validate_entries_no_panic in E];
    repeat case_match; simpl; done.
Qed.

Lemma take_chars_length n s : slen (take_chars n s) ≤ slen s.
Proof.
  unfold slen. revert n. induction s as [|c s IH]; intros [|n]; simpl; try lia. specialize (IH n). lia.
Qed.

Lemma unpublished_nil temp d : unpublished_states temp d [].
Proof. by intros s ?%not_elem_of_nil. Qed.

Lemma unpublished_cons temp d s past :
  (s ∈ d_now d :: d_past d ∨ ∃ g, s = <[temp := g]> (d_now d)) →
  unpublished_states temp d past → unpublished_states temp d (s :: past).
Proof. intros Hs Hp x [->|Hx]%elem_of_cons; [done|by apply Hp]. Qed.

Lemma unpublished_start temp d : unpublished_states temp d (d_now d :: d_past d).
Proof. intros s Hs. by left. Qed.

Lemma Save_outcome st ft nanos b d : save_outcome st nanos b d (Save st ft nanos b d).
Proof.
  unfold Save. destruct (Z.eqb_spec (b_NodeID b) (st_nodeID st)) as [Hnode|]; cbn [negb]; [|constructor].
  destruct (validate true b) as [[]|e|] eqn:Hvalid; [|constructor|by apply validate_no_panic in Hvalid].
  destruct (marshal b) as [text|] eqn:Htext; [|constructor].
  destruct (ft_size ft); [constructor|]. destruct (Size (d_now d)) as [used|] eqn:Hsize; [|constructor].
  change (text +:+ String (byte 10) EmptyString) with (batch_text text).
  destruct (Z.ltb_spec (wrap64 (st_maxBytes st - used)) (slen (batch_text text))) as [|Hfit]; [constructor|].
  change (batch_name nanos b +:+ ".tmp") with (temp_name nanos b). cbv zeta.
  destruct (ft_create ft); cbn [orb]; [constructor|]. case_bool_decide as Htemp; [constructor|].
  rewrite <- eq_None_not_Some in Htemp.
  assert (Hs : save_started st nanos b d text) by (constructor; eauto).
  set (temp := temp_name nanos b) in *. unfold change, syncDir. cbn [d_now d_past].
  assert (Hstep : ∀ g past, unpublished_states temp d past →
    unpublished_states temp d (<[temp := g]> (d_now d) :: past)).
  { intros g past Hp. apply unpublished_cons; [right; by eexists|done]. }
  pose proof (unpublished_start temp d) as Hstart.
  destruct (ft_write ft) as [n|].
  { rewrite insert_insert_eq. apply (save_incomplete _ _ _ _ text); auto. apply take_chars_length. }
  rewrite !insert_insert_eq.
  destruct (ft_sync ft); [apply (save_incomplete _ _ _ _ text); auto; simpl; lia|].
  destruct (ft_close ft); [apply (save_incomplete _ _ _ _ text); auto; simpl; lia|].
  destruct (ft_rename ft); [apply (save_incomplete _ _ _ _ text); auto; simpl; lia|].
  rewrite delete_insert_eq, delete_id by done.
  destruct (ft_syncDir ft); [apply save_unsynced; auto|by apply save_done].
Qed.
End Save.

(** ** Listing *)
Lemma has_prefix_nil s : has_prefix s EmptyString = true.
Proof. by destruct s. Qed.

Lemma tmp_suffix s : has_suffix (s +:+ ".tmp") ".tmp" = true.
Proof. unfold has_suffix, String.rev. rewrite rev_app_app. simpl. apply has_prefix_nil. Qed.

Lemma json_suffix s : has_suffix (s +:+ ".json") ".json" = true ∧ has_suffix (s +:+ ".json") ".tmp" = false.
Proof. unfold has_suffix, String.rev. rewrite rev_app_app. simpl. by rewrite has_prefix_nil. Qed.

Lemma batch_name_suffix nanos b :
  has_suffix (batch_name nanos b) ".json" = true ∧ has_suffix (batch_name nanos b) ".tmp" = false.
Proof. unfold batch_name. rewrite <- !string_app_assoc. apply json_suffix. Qed.

Lemma temp_ne_base nanos b : temp_name nanos b ≠ batch_name nanos b.
Proof.
  intros E. destruct (batch_name_suffix nanos b) as [_ H]. rewrite <- E in H.
  unfold temp_name in H. by rewrite tmp_suffix in H.
Qed.

Lemma sorted_names_perm m : sorted_names m ≡ₚ map fst (map_to_list m).
Proof. apply merge_sort_Permutation. Qed.

Lemma elem_of_sorted_names m name : (name ∈ sorted_names m) ↔ is_Some (m !! name).
Proof.
  rewrite sorted_names_perm, list_elem_of_fmap. split.
  - intros ([k v] & -> & Hv%elem_of_map_to_list). by eexists.
  - intros [v Hv]. exists (name, v). split; [done|by apply elem_of_map_to_list].
Qed.

Lemma sorted_names_NoDup m : NoDup (sorted_names m).
Proof. rewrite sorted_names_perm. apply NoDup_fst_map_to_list. Qed.

Lemma sorted_names_insert m name f : m !! name = None →
  sorted_names (<[name := f]> m) ≡ₚ name :: sorted_names m.
Proof. intros Hn. rewrite !sorted_names_perm. by rewrite (map_to_list_insert m name f Hn). Qed.

Section Listing.
Context `{BatchCodec}.

Lemma list_entries_Ok st un m names l :
  list_entries st un m names = Ok l ↔
  Forall2 (λ name p, p.1 = name ∧ list_entry st un m name = Ok p.2) names l.
Proof.
  revert l. induction names as [|name names IH]; intros l; cbn [list_entries].
  - split; [by intros [= <-]|]. by intros ->%Forall2_nil_inv_l.
  - split.
    + intros (b & Hb & (rest & Hrest & [= <-])%obind_Ok_inv)%obind_Ok_inv.
      constructor; [done|by apply IH].
    + intros ([k b] & rest & [Hk Hb] & HF & ->)%Forall2_cons_inv_l. simpl in *. subst k.
      apply IH in HF. by rewrite Hb, HF.
Qed.

Lemma list_entry_Ok st un m name b :
  list_entry st un m name = Ok b ↔
  ∃ f, m !! name = Some f ∧ has_suffix name ".tmp" = false ∧ has_suffix name ".json" = true ∧
    f_kind f = Regular ∧ un name = false ∧ readBatch (f_data f) = Some b ∧ b_NodeID b = st_nodeID st.
Proof.
  unfold list_entry. destruct (m !! name) as [f|]; [|split; [done|by intros (? & ? & _)]].
  rewrite !guard_bind_Ok_inv, !orb_false_iff, !negb_false_iff, bool_decide_eq_true, bool_decide_eq_false.
  split.
  - intros (H1 & [H2 H3] & [H4 H5] & H6). exists f. destruct (readBatch (f_data f)) as [b'|]; [|done].
    apply guard_bind_Ok_inv in H6 as [H6 [= ->]]. apply negb_false_iff, Z.eqb_eq in H6. done.
  - intros (g & [= <-] & H1 & H2 & H3 & H4 & H5 & H6). rewrite H5.
    split_and!; try done; [by rewrite H3|]. apply guard_bind_Ok_inv.
    by rewrite negb_false_iff, Z.eqb_eq.
Qed.

Lemma list_entries_Err st un m names name :
  name ∈ names → is_ok (list_entry st un m name) = false → ∀ l, list_entries st un m names ≠ Ok l.
Proof.
  intros Hin Hno l Hl. apply list_entries_Ok in Hl. apply list_elem_of_lookup in Hin as [i Hi].
  destruct (Forall2_lookup_l _ _ _ _ _ Hl Hi) as (p & _ & _ & Hp). by rewrite Hp in Hno.
Qed.

(** a temporary file blocks every listing *)
Lemma temp_blocks st rd un m name f l :
  m !! name = Some f → has_suffix name ".tmp" = true → ListBatches st rd un m ≠ Ok l.
Proof.
  intros Hf Hs Hl. unfold ListBatches in Hl. apply guard_bind_Ok_inv in Hl as [_ Hl].
  apply obind_Ok_inv in Hl as (l' & Hl' & _). revert Hl'. apply list_entries_Err with name.
  - apply elem_of_sorted_names. by eexists.
  - unfold list_entry. by rewrite Hf, Hs.
Qed.

(** ** Crashes *)

(** What a crash may leave of a directory: one of the states since it was last
    synced, with the data of unsynced files arbitrary. *)
Definition crash_of (d : Disk) (m : gmap string File) : Prop :=
  ∃ s, s ∈ d_now d :: d_past d ∧
    ∀ name, match s !! name, m !! name with
            | Some f, Some g => f_kind g = f_kind f ∧ (f_synced f = true → f_data g = f_data f)
            | None, None => True
            | _, _ => False
            end.

(** the file of a batch is there, whole *)
Definition holds_batch (m : gmap string File) (name text : string) : Prop :=
  ∃ f, m !! name = Some f ∧ f_kind f = Regular ∧ f_data f = batch_text text.

Lemma crash_lookup (s m : gmap string File) name :
  (∀ name, match s !! name, m !! name with
            | Some f, Some g => f_kind g = f_kind f ∧ (f_synced f = true → f_data g = f_data f)
            | None, None => True | _, _ => False end) →
  (s !! name = None → m !! name = None) ∧
  (∀ data, s !! name = Some (mkFile Regular data true) → ∃ f, m !! name = Some f ∧ f_kind f = Regular ∧ f_data f = data).
Proof.
  intros Hm. specialize (Hm name). split.
  - intros Hs. rewrite Hs in Hm. by destruct (m !! name).
  - intros data Hs. rewrite Hs in Hm. destruct (m !! name) as [g|]; [|done]. destruct Hm as [Hk Hd].
    exists g. split; [done|]. split; [done|]. by apply Hd.
Qed.

Lemma unpublished_base nanos b d past s :
  unpublished_states (temp_name nanos b) d past →
  (∀ s, s ∈ d_now d :: d_past d → s !! batch_name nanos b = None) →
  s ∈ past → s !! batch_name nanos b = None.
Proof.
  intros Hp Hd Hs. destruct (Hp s Hs) as [?|[g ->]]; [by apply Hd|].
  rewrite lookup_insert_ne by apply temp_ne_base. apply Hd. by left.
Qed.

(** an entry of the directory that List accepts *)
Definition readable_entry (st : Store) (un : string → bool) (name : string) (f : File) (b : Batch) : Prop :=
  has_suffix name ".tmp" = false ∧ has_suffix name ".json" = true ∧ f_kind f = Regular ∧
  un name = false ∧ unmarshal (f_data f) = Some b ∧ validate true b = Ok tt ∧ b_NodeID b = st_nodeID st.

Lemma readBatch_Some data b : readBatch data = Some b ↔ unmarshal data = Some b ∧ validate true b = Ok tt.
Proof.
  unfold readBatch. destruct (unmarshal data) as [b'|]; cbn [mbind option_bind]; [|split; [done|by intros [? _]]].
  destruct (validate true b') as [[]|e|] eqn:E; split.
  - by intros [= <-].
  - by intros [[= ->] _].
  - done.
  - intros [[= ->] ?]. congruence.
  - done.
  - intros [[= ->] ?]. congruence.
Qed.

Lemma list_entry_readable st un m name b :
  list_entry st un m name = Ok b ↔ ∃ f, m !! name = Some f ∧ readable_entry st un name f b.
Proof.
  rewrite list_entry_Ok. unfold readable_entry. setoid_rewrite readBatch_Some.
  split; intros (f & ?); exists f; tauto.
Qed.

Lemma list_entries_total st un m names :
  (∀ name, name ∈ names → is_ok (list_entry st un m name) = true) →
  ∃ l, list_entries st un m names = Ok l.
Proof.
  induction names as [|name names IH]; intros Hall; cbn [list_entries]; [by eexists|].
  destruct IH as [l Hl]; [intros; apply Hall; by right|].
  specialize (Hall name ltac:(by left)). destruct (list_entry st un m name) as [b| |]; [|done..].
  rewrite Hl. by eexists.
Qed.

(** the fields of a batch are values of their types *)
Definition batch_typed (b : Batch) : Prop :=
  is_int64 (b_NodeID b) = true ∧ is_int64 (b_CreatedAt b) = true ∧
  0 ≤ b_ConfigurationVersion b < 2 ^ 64 ∧ ∀ e, e ∈ b_Entries b → is_int64 (e_UserID e) = true.

(** What the encoding promises: a batch has a text when its rate has one, and a
    valid batch is read back from its text. *)
Class LawfulCodec : Prop := {
  marshal_Some : ∀ b, is_Some (marshal b) ↔ is_Some (rate_text (b_TrafficRate b));
  unmarshal_marshal : ∀ b text, batch_typed b →
    validate true b = Ok tt → marshal b = Some text → unmarshal (batch_text text) = Some b }.

Lemma list_entries_perm st un m names names' l :
  names ≡ₚ names' → list_entries st un m names = Ok l →
  ∃ l', list_entries st un m names' = Ok l' ∧ l' ≡ₚ l.
Proof.
  intros Hp Hl%list_entries_Ok. destruct (Permutation_Forall2 Hp Hl) as (l' & Hl' & HF).
  exists l'. split; [by apply list_entries_Ok|done].
Qed.

Lemma list_entries_ext st un m m' names :
  (∀ name, name ∈ names → m !! name = m' !! name) → list_entries st un m names = list_entries st un m' names.
Proof.
  intros Hm. induction names as [|name names IH]; [done|]. cbn [list_entries]. unfold list_entry at 1 2.
  rewrite (Hm name) by by left. by rewrite IH by (intros; apply Hm; by right).
Qed.

(** ** New batches *)

(** entries that a batch can carry, in any order *)
Definition acceptable (entries : list Entry) : Prop :=
  NoDup (map e_UserID entries) ∧
  ∀ e, e ∈ entries → 0 < e_UserID e ∧ 0 ≤ e_Uplink e ∧ 0 ≤ e_Downlink e ∧ 0 < entry_total e ≤ max_int64.

#[export] Instance entry_le_trans : Transitive entry_le.
Proof. intros a b c. unfold entry_le. lia. Qed.
#[export] Instance entry_le_total : Total entry_le.
Proof. intros a b. unfold entry_le. lia. Qed.

Lemma entries_ok_sorted lastID l :
  entries_ok lastID l ↔
  StronglySorted entry_le l ∧ NoDup (map e_UserID l) ∧
  ∀ e, e ∈ l → lastID < e_UserID e ∧ 0 ≤ e_Uplink e ∧ 0 ≤ e_Downlink e ∧ 0 < entry_total e ≤ max_int64.
Proof.
  revert lastID. induction l as [|e l IH]; intros lastID.
  { split; [|done]. intros _. split; [constructor|]. split; [constructor|]. by intros e ?%not_elem_of_nil. }
  cbn [entries_ok map]. rewrite IH. split.
  - intros (H1 & H2 & H3 & H4 & Hs & Hnd & Hall). split; [|split].
    + constructor; [done|]. apply Forall_forall. intros x Hx. specialize (Hall x Hx). unfold entry_le. lia.
    + constructor; [|done]. intros (x & Ex & Hx)%list_elem_of_fmap. specialize (Hall x Hx). lia.
    + intros x [->|Hx]%elem_of_cons; [done|]. specialize (Hall x Hx). lia.
  - intros (Hs & Hnd & Hall). apply StronglySorted_inv in Hs as [Hs Hle]. apply NoDup_cons in Hnd as [Hnot Hnd].
    pose proof (Hall e ltac:(by left)) as He. rewrite Forall_forall in Hle.
    split_and!; try done; try apply He. intros x Hx. specialize (Hle x Hx).
    pose proof (Hall x ltac:(by right)) as Hx'. unfold entry_le in Hle.
    assert (e_UserID x ≠ e_UserID e). { intros E. apply Hnot. rewrite <- E. by apply list_elem_of_fmap_2. }
    split; [lia|apply Hx'].
Qed.

Lemma acceptable_sorted entries : entries_ok 0 (merge_sort entry_le entries) ↔ acceptable entries.
Proof.
  rewrite entries_ok_sorted. unfold acceptable. pose proof (merge_sort_Permutation entry_le entries) as Hp.
  assert (Hn : NoDup (map e_UserID (merge_sort entry_le entries)) ↔ NoDup (map e_UserID entries)).
  { change (NoDup (e_UserID <$> merge_sort entry_le entries) ↔ NoDup (e_UserID <$> entries)). by rewrite Hp. }
  rewrite Hn. split.
  - intros (_ & ? & Hall). split; [done|]. intros e He. apply Hall. by rewrite Hp.
  - intros [? Hall]. split; [apply (StronglySorted_merge_sort entry_le)|]. split; [done|].
    intros e He. apply Hall. by rewrite Hp in He.
Qed.

Lemma remove_char_app c s t : remove_char c (s +:+ t) = remove_char c s +:+ remove_char c t.
Proof.
  induction s as [|d s IH]; [done|]. change (String d s +:+ t) with (String d (s +:+ t)). cbn [remove_char].
  destruct (Ascii.eqb d c); [done|]. by rewrite IH.
Qed.

Lemma land_lor_byte b mask bits : is_byte b → 0 ≤ mask → is_byte bits → is_byte (Z.lor (Z.land b mask) bits).
Proof.
  unfold is_byte. intros Hb Hm Hbits. split; [apply Z.lor_nonneg; split; [apply Z.land_nonneg|]; lia|].
  apply Z.log2_lt_cancel. change (Z.log2 256) with 8.
  destruct (decide (Z.lor (Z.land b mask) bits = 0)) as [->|]; [done|].
  rewrite Z.log2_lor by (try apply Z.land_nonneg; lia). apply Z.max_lub_lt.
  - eapply Z.le_lt_trans; [apply Z.log2_land; lia|].
    assert (Z.log2 b < 8); [|lia]. destruct (decide (b = 0)) as [->|]; [done|]. apply Z.log2_lt_pow2; lia.
  - destruct (decide (bits = 0)) as [->|]; [done|]. apply Z.log2_lt_pow2; lia.
Qed.

Lemma all_hex_app s t : all_hex (s +:+ t) = all_hex s && all_hex t.
Proof. apply string_all_app. Qed.

Lemma hex_encode_spec l : Forall is_byte l →
  remove_char "-" (hex_encode l) = hex_encode l ∧ all_hex (hex_encode l) = true ∧
  String.length (hex_encode l) = (2 * length l)%nat.
Proof.
  intros HF. split; [|split; [by apply hex_encode_hex|]].
  - induction HF as [|b l Hb _ IH]; [done|]. destruct (hex_pair b Hb) as (_ & H2 & _ & H4).
    cbn [hex_encode remove_char]. by rewrite (proj2 (Ascii.eqb_neq _ _) H2), (proj2 (Ascii.eqb_neq _ _) H4), IH.
  - clear HF. induction l as [|b l IH]; [done|]. cbn [hex_encode String.length length]. rewrite IH. lia.
Qed.

(** five groups of hexadecimal digits with dashes between them *)
Lemma grouped_hex_valid a b c d e :
  Forall is_byte (a ++ b ++ c ++ d ++ e) →
  length a = 4%nat → length b = 2%nat → length c = 2%nat → length d = 2%nat → length e = 6%nat →
  validUUID (hex_encode a +:+ "-" +:+ hex_encode b +:+ "-" +:+ hex_encode c +:+ "-" +:+ hex_encode d
             +:+ "-" +:+ hex_encode e) = true.
Proof.
  rewrite !Forall_app. intros (Ha & Hb & Hc & Hd & He) La Lb Lc Ld Le.
  destruct (hex_encode_spec a Ha) as (A1 & A2 & A3), (hex_encode_spec b Hb) as (B1 & B2 & B3),
    (hex_encode_spec c Hc) as (C1 & C2 & C3), (hex_encode_spec d Hd) as (D1 & D2 & D3),
    (hex_encode_spec e He) as (E1 & E2 & E3).
  unfold validUUID, hex_decodes. rewrite !remove_char_app, A1, B1, C1, D1, E1.
  change (remove_char "-" "-") with EmptyString. change (EmptyString +:+ ?s) with s.
  rewrite !all_hex_app, A2, B2, C2, D2, E2. unfold slen. rewrite !string_length_app, A3, B3, C3, D3, E3, La, Lb, Lc, Ld, Le.
  assert (Hget : ∀ i, i ∈ [8; 13; 18; 23]%nat → char_at i (hex_encode a +:+ "-" +:+ hex_encode b +:+ "-" +:+
      hex_encode c +:+ "-" +:+ hex_encode d +:+ "-" +:+ hex_encode e) = Some "-"%char).
  { clear -La Lb Lc Ld. intros i Hi.
    destruct a as [|? [|? [|? [|? [|]]]]]; try discriminate La. destruct b as [|? [|? [|]]]; try discriminate Lb.
    destruct c as [|? [|? [|]]]; try discriminate Lc. destruct d as [|? [|? [|]]]; try discriminate Ld.
    repeat (apply elem_of_cons in Hi as [->|Hi]; [reflexivity|]). by apply not_elem_of_nil in Hi. }
  rewrite !Hget by (repeat first [by left|right]). rewrite !bool_decide_eq_true_2 by done. done.
Qed.

Lemma format_uuid_valid version value :
  is_byte version → length value = 16%nat → Forall is_byte value → validUUID (format_uuid version value) = true.
Proof.
  intros Hver Hlen HF. unfold format_uuid. cbv zeta. set (v := (take 6 value ++ _ ++ drop 9 value)%list).
  assert (Hv : Forall is_byte v ∧ length v = 16%nat).
  { unfold v. split; [|by rewrite !length_app, length_take, length_drop, Hlen].
    assert (Hn : ∀ i, is_byte (nth i value 0)).
    { intros i. destruct (nth_in_or_default i value 0) as [Hin| ->]; [|done].
      rewrite Forall_forall in HF. apply HF. by apply list_elem_of_In. }
    apply Forall_app. split; [by apply Forall_take|]. apply Forall_app. split; [|by apply Forall_drop].
    repeat constructor; try apply Hn; try (apply land_lor_byte; done). }
  clearbody v. destruct Hv as [Hv Hl]. apply grouped_hex_valid; rewrite ?length_take, ?length_drop; try lia.
  assert (E : (take 4 v ++ take 2 (drop 4 v) ++ take 2 (drop 6 v) ++ take 2 (drop 8 v) ++ take 6 (drop 10 v))%list = v).
  { clear -Hl. do 16 (destruct v as [|? v]; [discriminate Hl|]). destruct v; [reflexivity|discriminate Hl]. }
  by rewrite E.
Qed.

Lemma newUUID_valid value : length value = 16%nat → Forall is_byte value → validUUID (newUUID value) = true.
Proof. by apply format_uuid_valid. Qed.

Lemma copy_slice_entries l : default [] (copy_slice l) = l.
Proof. by destruct l. Qed.

(** ** Removing *)
Lemma rev_app_spec s u : String.rev_app s u = String.rev s +:+ u.
Proof.
  unfold String.rev. revert u. induction s as [|c s IH]; intros u; [done|]. simpl.
  rewrite (IH (String c u)), (IH (String c EmptyString)). by rewrite string_app_assoc.
Qed.

Lemma has_prefix_longer s t p : has_prefix s p = true → has_prefix (s +:+ t) p = true.
Proof. intros E%has_prefix_inv. rewrite E, string_app_assoc. apply has_prefix_app. Qed.

Lemma has_suffix_longer s t p : has_suffix t p = true → has_suffix (s +:+ t) p = true.
Proof.
  unfold has_suffix. intros E. unfold String.rev at 1. rewrite rev_app_app, rev_app_spec.
  by apply has_prefix_longer.
Qed.

Lemma entry_name_plain name : no_slash name = true → has_suffix name ".json" = true → plain_comp name.
Proof. intros Hs Hj. split_and!; try done; by intros ->. Qed.

Lemma sorted_names_delete m name f : m !! name = Some f → sorted_names m ≡ₚ name :: sorted_names (delete name m).
Proof.
  intros Hf. rewrite <- (sorted_names_insert (delete name m) name f) by apply lookup_delete_eq.
  by rewrite insert_delete_eq, insert_id.
Qed.

End Listing.
