(* ===== verification/BatchText.v ===== *)
(** Package [internal/accounting]: the JSON text of a batch and its digest. This
    is the encoding that the outbox is instantiated with: it keeps the promises
    of [LawfulCodec]. *)
From S2P Require Import Prelude GoString Float64 Digest Json Decimal Outbox OutboxProps.

Local Open Scope string_scope.
Local Open Scope Z_scope.

(** ** Encoding *)
Definition entry_json (e : Entry) : json :=
  JObject [("user_id", int_json (e_UserID e)); ("uplink", int_json (e_Uplink e));
           ("downlink", int_json (e_Downlink e))].
Definition entries_json (l : option (list Entry)) : json :=
  match l with None => JNull | Some l => JArray (map entry_json l) end.
Definition batch_json (b : Batch) : option json :=
  rate ← format_float (b_TrafficRate b);
  Some (JObject
    [("version", int_json (b_Version b)); ("id", JString (b_ID b)); ("node_id", int_json (b_NodeID b));
     ("configuration_version", int_json (b_ConfigurationVersion b)); ("created_at", int_json (b_CreatedAt b));
     ("traffic_rate", JNumber rate); ("entries", entries_json (b_slice b));
     ("payload_sha256", JString (b_PayloadSHA256 b))]).

(** ** Decoding

    A JSON null leaves a value as it was, and sets a slice to nil. Decoding into
    a slice that has elements, as a repeated key does, decodes into those
    elements, so the decoder keeps the elements behind the end of the slice. *)
Definition decode_int (old : Z) (j : json) : option Z :=
  match j with JNull => Some old | JNumber lit => parse_int lit | _ => None end.
Definition decode_uint (old : Z) (j : json) : option Z :=
  match j with
  | JNull => Some old
  | JNumber lit => z ← parse_unsigned lit; if z <? 2 ^ 64 then Some z else None
  | _ => None
  end.
Definition decode_float (old : float64) (j : json) : option float64 :=
  match j with JNull => Some old | JNumber lit => parse_float lit | _ => None end.
Definition decode_string (old : string) (j : json) : option string :=
  match j with JNull => Some old | JString s => Some s | _ => None end.

(** encoding/json folds the names of fields: letters in ASCII, and the two other
    characters whose case folding is an ASCII letter *)
Fixpoint fold_name (fuel : nat) (s : string) : string :=
  match fuel, s with
  | S fuel, String c rest =>
      if has_prefix s (bytes [197; 191]%nat) then String "S" (fold_name fuel (drop_chars 2 s))
      else if has_prefix s (bytes [226; 132; 170]%nat) then String "K" (fold_name fuel (drop_chars 3 s))
      else String (if (97 <=? code c) && (code c <=? 122) then ascii_of_N (Z.to_N (code c - 32)) else c)
             (fold_name fuel rest)
  | _, _ => EmptyString
  end.
Definition same_field (key name : string) : bool :=
  String.eqb (fold_name (String.length key) key) (fold_name (String.length name) name).

(** the members of an object, decoded one after the other; [set] fails on an
    unknown field *)
Fixpoint decode_members {A} (set : string → json → A → option A) (l : list (string * json)) (a : A) : option A :=
  match l with
  | [] => Some a
  | (key, j) :: l => a ← set key j a; decode_members set l a
  end.
Definition decode_object {A} (set : string → json → A → option A) (j : json) (a : A) : option A :=
  match j with JNull => Some a | JObject l => decode_members set l a | _ => None end.

Definition set_entry (key : string) (j : json) (e : Entry) : option Entry :=
  if same_field key "user_id" then z ← decode_int (e_UserID e) j; Some (mkEntry z (e_Uplink e) (e_Downlink e))
  else if same_field key "uplink" then z ← decode_int (e_Uplink e) j; Some (mkEntry (e_UserID e) z (e_Downlink e))
  else if same_field key "downlink" then z ← decode_int (e_Downlink e) j; Some (mkEntry (e_UserID e) (e_Uplink e) z)
  else None.
Definition zero_entry : Entry := mkEntry 0 0 0.

Fixpoint decode_elements (l : list json) (backing : list Entry) : option (list Entry) :=
  match l with
  | [] => Some []
  | j :: l =>
      e ← decode_object set_entry j (hd zero_entry backing);
      rest ← decode_elements l (tl backing);
      Some (e :: rest)
  end.

(** a batch being decoded, with the elements behind the end of its slice *)
Record Decoder : Type := mkDecoder {
  dc_batch : Batch;
  dc_behind : list Entry }.

Definition decode_entries (j : json) (d : Decoder) : option Decoder :=
  let b := dc_batch d in
  let put slice behind := mkDecoder (mkBatch (b_Version b) (b_ID b) (b_NodeID b) (b_ConfigurationVersion b)
    (b_CreatedAt b) (b_TrafficRate b) slice (b_PayloadSHA256 b)) behind in
  match j with
  | JNull => Some (put None [])
  | JArray [] => Some (put (Some []) [])
  | JArray l =>
      let backing := (b_Entries b ++ dc_behind d)%list in
      elements ← decode_elements l backing;
      Some (put (Some elements) (drop (length l) backing))
  | _ => None
  end.

Definition set_batch (key : string) (j : json) (d : Decoder) : option Decoder :=
  let b := dc_batch d in
  let put version id node configuration created rate hash :=
    mkDecoder (mkBatch version id node configuration created rate (b_slice b) hash) (dc_behind d) in
  let version := b_Version b in let id := b_ID b in let node := b_NodeID b in
  let configuration := b_ConfigurationVersion b in let created := b_CreatedAt b in
  let rate := b_TrafficRate b in let hash := b_PayloadSHA256 b in
  if same_field key "version" then z ← decode_int version j; Some (put z id node configuration created rate hash)
  else if same_field key "id" then s ← decode_string id j; Some (put version s node configuration created rate hash)
  else if same_field key "node_id" then z ← decode_int node j; Some (put version id z configuration created rate hash)
  else if same_field key "configuration_version" then
    z ← decode_uint configuration j; Some (put version id node z created rate hash)
  else if same_field key "created_at" then
    z ← decode_int created j; Some (put version id node configuration z rate hash)
  else if same_field key "traffic_rate" then
    x ← decode_float rate j; Some (put version id node configuration created x hash)
  else if same_field key "entries" then decode_entries j d
  else if same_field key "payload_sha256" then
    s ← decode_string hash j; Some (put version id node configuration created rate s)
  else None.

Definition zero_batch : Batch := mkBatch 0 EmptyString 0 0 0 (f64_of_int 0) None EmptyString.

Definition decode_batch (text : string) : option Batch :=
  j ← read text;
  d ← decode_object set_batch j (mkDecoder zero_batch []);
  Some (dc_batch d).

(** the encoding of the program *)
Definition sha256_hex (text : string) : string := hex_encode (sha256 text).
#[global] Instance json_codec : BatchCodec := {
  rate_text := format_float;
  marshal b := write <$> batch_json b;
  unmarshal := decode_batch;
  digest := sha256_hex }.

(** ** The encoding is lawful *)
Lemma marshal_json b : is_Some (marshal b) ↔ is_Some (rate_text (b_TrafficRate b)).
Proof.
  cbn [marshal rate_text json_codec]. unfold batch_json. rewrite fmap_is_Some.
  destruct (format_float (b_TrafficRate b)); cbn [mbind option_bind]; split; intros []; done || by eexists.
Qed.

Lemma entries_json_wf l : well_formed (entries_json l).
Proof.
  destruct l as [l|]; [|constructor]. constructor. apply Forall_forall. intros j (e & -> & _)%list_elem_of_fmap.
  constructor. repeat (apply Forall_cons; split; [split; [done|apply int_json_wf]|]). constructor.
Qed.

Lemma entries_json_height l : (height (entries_json l) ≤ 2)%nat.
Proof.
  destruct l as [l|]; [|simpl; lia]. cbn [entries_json]. rewrite height_array.
  apply le_n_S. induction l as [|e l IH]; simpl in *; lia.
Qed.

Lemma decode_int_json old z : is_int64 z = true → decode_int old (int_json z) = Some z.
Proof. apply parse_format_int. Qed.

Lemma decode_uint_json old z : 0 ≤ z < 2 ^ 64 → decode_uint old (int_json z) = Some z.
Proof.
  intros Hz. cbn [decode_uint int_json]. rewrite parse_unsigned_format_int by lia. cbn [mbind option_bind].
  by rewrite (proj2 (Z.ltb_lt z (2 ^ 64)) (proj2 Hz)).
Qed.

Definition entry_typed (e : Entry) : Prop :=
  is_int64 (e_UserID e) = true ∧ is_int64 (e_Uplink e) = true ∧ is_int64 (e_Downlink e) = true.

Lemma decode_entry_json e old : entry_typed e → decode_object set_entry (entry_json e) old = Some e.
Proof.
  intros (H1 & H2 & H3). cbn [entry_json decode_object decode_members].
  change (set_entry "user_id" ?j ?a) with (z ← decode_int (e_UserID a) j; Some (mkEntry z (e_Uplink a) (e_Downlink a))).
  rewrite decode_int_json by done. cbn [mbind option_bind].
  change (set_entry "uplink" ?j ?a) with (z ← decode_int (e_Uplink a) j; Some (mkEntry (e_UserID a) z (e_Downlink a))).
  rewrite decode_int_json by done. cbn [mbind option_bind].
  change (set_entry "downlink" ?j ?a) with (z ← decode_int (e_Downlink a) j; Some (mkEntry (e_UserID a) (e_Uplink a) z)).
  rewrite decode_int_json by done. by destruct e.
Qed.

Lemma decode_elements_json l : Forall entry_typed l → decode_elements (map entry_json l) [] = Some l.
Proof.
  induction 1 as [|e l He _ IH]; [done|]. cbn [map decode_elements hd tl].
  rewrite decode_entry_json by done. cbn [mbind option_bind]. by rewrite IH.
Qed.

Lemma decode_entries_json d l : b_slice (dc_batch d) = None → dc_behind d = [] →
  (∀ l', l = Some l' → Forall entry_typed l') →
  decode_entries (entries_json l) d =
    Some (mkDecoder (mkBatch (b_Version (dc_batch d)) (b_ID (dc_batch d)) (b_NodeID (dc_batch d))
      (b_ConfigurationVersion (dc_batch d)) (b_CreatedAt (dc_batch d)) (b_TrafficRate (dc_batch d)) l
      (b_PayloadSHA256 (dc_batch d))) []).
Proof.
  intros Hs Hb Hl. destruct l as [l|]; [|done]. cbn [entries_json]. specialize (Hl l eq_refl).
  destruct l as [|e l]; [done|]. cbn [map]. unfold decode_entries, b_Entries. cbv zeta. rewrite Hs, Hb.
  change (entry_json e :: map entry_json l) with (map entry_json (e :: l)).
  change ((default [] None ++ [])%list) with (@nil Entry). by rewrite decode_elements_json, drop_nil.
Qed.

(** the field that a key names *)
Ltac select_field :=
  repeat (match goal with
          | |- context [same_field ?key ?name] =>
              let v := eval vm_compute in (same_field key name) in change (same_field key name) with v
          end; cbn iota).

Ltac set_field :=
  unfold set_batch; cbv zeta;
  cbn [dc_batch dc_behind b_Version b_ID b_NodeID b_ConfigurationVersion b_CreatedAt b_TrafficRate b_slice b_PayloadSHA256];
  select_field.

Lemma decode_members_step {A} (set : string → json → A → option A) key j l a a' r :
  set key j a = Some a' → decode_members set l a' = r → decode_members set ((key, j) :: l) a = r.
Proof. intros H1 H2. cbn [decode_members]. rewrite H1. exact H2. Qed.

(** A well-typed batch with texts that need no escapes is read back. *)
Lemma decode_batch_json b j : batch_json b = Some j →
  is_int64 (b_Version b) = true → batch_typed b → (∀ e, e ∈ b_Entries b → entry_typed e) →
  decode_object set_batch j (mkDecoder zero_batch []) = Some (mkDecoder b []).
Proof.
  unfold batch_json. destruct (format_float (b_TrafficRate b)) as [rate|] eqn:Hrate; [|done]. cbn [mbind option_bind].
  intros [= <-] Hv (Hnode & Hcreated & Hconf & _) Hentries. destruct (format_float_reads_back _ _ Hrate) as [_ Hparse].
  destruct b as [version id node conf created x slice hash].
  cbn [b_Version b_ID b_NodeID b_ConfigurationVersion b_CreatedAt b_TrafficRate b_slice b_PayloadSHA256] in *.
  cbn [decode_object].
  eapply decode_members_step; [set_field; by rewrite decode_int_json|].
  eapply decode_members_step; [set_field; done|].
  eapply decode_members_step; [set_field; by rewrite decode_int_json|].
  eapply decode_members_step; [set_field; by rewrite decode_uint_json|].
  eapply decode_members_step; [set_field; by rewrite decode_int_json|].
  eapply decode_members_step; [set_field; cbn [decode_float]; by rewrite Hparse|].
  eapply decode_members_step.
  { set_field. apply decode_entries_json; [reflexivity|reflexivity|].
    intros l ->. apply Forall_forall. exact Hentries. }
  eapply decode_members_step; [set_field; done|]. done.
Qed.

Definition hex_or_dash (c : ascii) : bool := is_hex c || Ascii.eqb c "-".

Lemma hex_or_dash_safe s : string_all hex_or_dash s = true → safe_text s = true.
Proof.
  apply string_all_weaken. intros c. assert (H : implb (hex_or_dash c) (json_safe c) = true).
  { destruct c as [[] [] [] [] [] [] [] []]; reflexivity. }
  intros Hc. by rewrite Hc in H.
Qed.

Lemma remove_dashes_hex s : all_hex (remove_char "-" s) = true → string_all hex_or_dash s = true.
Proof.
  unfold all_hex. induction s as [|c s IH]; [done|]. cbn [remove_char string_all]. unfold hex_or_dash at 1.
  destruct (Ascii.eqb c "-") eqn:E; [rewrite orb_true_r; done|]. cbn [string_all].
  intros [-> Hs%IH]%andb_true_iff. done.
Qed.

Lemma validUUID_safe id : validUUID id = true → safe_text id = true.
Proof.
  unfold validUUID. case_match; [done|]. unfold hex_decodes. intros [_ Hhex]%andb_true_iff.
  by apply hex_or_dash_safe, remove_dashes_hex.
Qed.

Lemma sha256_hex_safe text : safe_text (sha256_hex text) = true.
Proof.
  apply hex_or_dash_safe. pose proof (hex_encode_hex _ (sha256_bytes text)) as H.
  eapply string_all_weaken; [|exact H]. intros c Hc. unfold hex_or_dash. by rewrite Hc.
Qed.

Lemma batch_json_wf b j : batch_json b = Some j →
  valid_text (b_ID b) = true → valid_text (b_PayloadSHA256 b) = true →
  well_formed j ∧ Z.of_nat (height j) ≤ maxNestingDepth.
Proof.
  unfold batch_json. destruct (format_float (b_TrafficRate b)) as [rate|] eqn:Hrate; [|done]. cbn [mbind option_bind].
  intros [= <-] Hid Hhash. destruct (format_float_reads_back _ _ Hrate) as [Hlit _]. split.
  - constructor. repeat (apply Forall_cons; split; [split; [done|]|]); cbn [snd]; try apply int_json_wf;
      [by constructor..|apply entries_json_wf|by constructor|constructor].
  - pose proof (entries_json_height (b_slice b)) as Hh.
    assert (Hb : (height (JObject
      [("version", int_json (b_Version b)); ("id", JString (b_ID b)); ("node_id", int_json (b_NodeID b));
       ("configuration_version", int_json (b_ConfigurationVersion b)); ("created_at", int_json (b_CreatedAt b));
       ("traffic_rate", JNumber rate); ("entries", entries_json (b_slice b));
       ("payload_sha256", JString (b_PayloadSHA256 b))]) ≤ 3)%nat).
    { cbn [height fold_right snd int_json]. lia. }
    unfold maxNestingDepth. lia.
Qed.

Lemma validate_facts b : validate true b = Ok tt →
  b_Version b = 1 ∧ valid_text (b_ID b) = true ∧ valid_text (b_PayloadSHA256 b) = true ∧ entries_ok 0 (b_Entries b).
Proof.
  unfold validate. rewrite !guard_bind_Ok_inv, !orb_false_iff, !negb_false_iff.
  intros ([[[Hv _] _] _] & Hid & _ & He). apply obind_Ok_inv in He as ([] & He & Hhash).
  apply validate_entries_Ok in He. split; [by apply Z.eqb_eq|]. split; [by apply safe_text_valid, validUUID_safe|]. split; [|done].
  unfold hash in Hhash. destruct (marshal _) as [t|]; [|done]. cbn [fmap option_fmap option_map] in Hhash.
  apply guard_err_Ok_inv, negb_false_iff, String.eqb_eq in Hhash. rewrite <- Hhash.
  apply safe_text_valid, sha256_hex_safe.
Qed.

Lemma entries_typed lastID l : entries_ok lastID l → 0 ≤ lastID → (∀ e, e ∈ l → is_int64 (e_UserID e) = true) →
  ∀ e, e ∈ l → entry_typed e.
Proof.
  revert lastID. induction l as [|x l IH]; intros lastID; cbn [entries_ok]; [by intros _ _ _ e ?%not_elem_of_nil|].
  intros (H1 & H2 & H3 & H4 & Hl) H0 Hid e [->|He]%elem_of_cons.
  - unfold entry_total in H4. assert (min_int64 = - max_int64 - 1) by done.
    split; [apply Hid; by left|]. unfold is_int64. lia.
  - apply (IH (e_UserID x)); [done|lia|intros; apply Hid; by right|done].
Qed.

#[global] Instance json_codec_lawful : LawfulCodec.
Proof.
  split; [exact marshal_json|]. intros b text Htyped Hvalid Htext.
  destruct (validate_facts b Hvalid) as (Hver & Hid & Hhash & Hentries). cbn [marshal json_codec] in Htext.
  destruct (batch_json b) as [j|] eqn:Hj; [|done]. injection Htext as <-.
  destruct (batch_json_wf b j Hj Hid Hhash) as [Hwf Hh]. cbn [unmarshal json_codec]. unfold decode_batch, batch_text.
  rewrite read_write by done. cbn [mbind option_bind].
  rewrite (decode_batch_json b j Hj); [done|by rewrite Hver|done|].
  destruct Htyped as (_ & _ & _ & Hids). eapply entries_typed; [done|lia|done].
Qed.
