(* ===== verification/OutboxSafe.v ===== *)
(** The promises of the outbox, for every encoding that keeps [LawfulCodec], and
    their witnesses on the JSON encoding. *)
From S2P Require Import Prelude GoString GoPath Float64 Digest Outbox OutboxProps BatchText.

Local Open Scope string_scope.
Local Open Scope Z_scope.

Section Outbox.
Context `{BatchCodec}.

(** C11: Whatever system calls of Save fail and whatever a crash leaves of the directory,
    a batch that Save reported saved is there whole, a batch that it reported published is
    visible whole and a crash leaves it whole or not at all, and after any other error no
    batch of that name exists, so that restoring its counters cannot count traffic twice.
    *)
Theorem save_survives_faults_and_crashes st ft nanos b d d' res m :
  Save st ft nanos b d = (d', res) →
  (∀ s, s ∈ d_now d :: d_past d → s !! batch_name nanos b = None) →
  m = d_now d' ∨ crash_of d' m →
  let name := batch_name nanos b in
  match res with
  | Ok _ => ∃ text, marshal b = Some text ∧ holds_batch m name text
  | Err e =>
      if WasPublished e
      then ∃ text, marshal b = Some text ∧ holds_batch (d_now d') name text ∧
           (m !! name = None ∨ holds_batch m name text)
      else m !! name = None
  | Panic => False
  end.
Proof.
  intros Hsave Hfresh Hm. cbv zeta. pose proof (Save_outcome st ft nanos b d) as Hout. rewrite Hsave in Hout.
  assert (Hnow : d_now d !! batch_name nanos b = None) by (apply Hfresh; by left).
  assert (Habs : ∀ dd, (∀ s, s ∈ d_now dd :: d_past dd → s !! batch_name nanos b = None) →
    m = d_now dd ∨ crash_of dd m → m !! batch_name nanos b = None).
  { intros dd Hdd [->|(s & Hs & Hc)]; [apply Hdd; by left|].
    destruct (crash_lookup s m (batch_name nanos b) Hc) as [Hn _]. auto. }
  inversion Hout as [msg|text f past msg Hs Hle Hp|text past Hs Hp|text Hs]; subst; cbn [WasPublished published plain].
  - by apply (Habs d').
  - refine (Habs _ _ Hm). cbn [d_now d_past]. intros s [->|Hin]%elem_of_cons.
    + rewrite lookup_insert_ne by apply temp_ne_base. done.
    + by eapply unpublished_base.
  - exists text. split; [apply Hs|]. split; [eexists; split; [apply lookup_insert_eq|done]|].
    destruct Hm as [->|(s & Hin & Hc)]; [right; eexists; split; [apply lookup_insert_eq|done]|].
    destruct (crash_lookup s m (batch_name nanos b) Hc) as [Hn Hy].
    cbn [d_now d_past] in Hin. apply elem_of_cons in Hin as [->|Hin].
    + right. apply Hy, lookup_insert_eq.
    + left. apply Hn. by eapply unpublished_base.
  - exists text. split; [apply Hs|]. destruct Hm as [->|(s & Hin & Hc)]; [eexists; split; [apply lookup_insert_eq|done]|].
    destruct (crash_lookup s m (batch_name nanos b) Hc) as [Hn Hy].
    cbn [d_now d_past] in Hin. apply list_elem_of_singleton in Hin as ->. apply Hy, lookup_insert_eq.
Qed.

(** List succeeds exactly when every entry of the directory is a readable, valid
    batch of this node, and then returns each of them, ordered by file name: no entry is
    skipped or invented. *)
Theorem list_is_all_or_nothing st un m :
  ((∃ l, ListBatches st false un m = Ok l) ↔
     ∀ name f, m !! name = Some f → ∃ b, readable_entry st un name f b) ∧
  (∀ rd l, ListBatches st rd un m = Ok l → ∃ found,
     l = map (λ p, (Join (st_dir st) p.1, p.2)) found ∧ map fst found = sorted_names m ∧
     ∀ name b, (name, b) ∈ found → ∃ f, m !! name = Some f ∧ readable_entry st un name f b).
Proof.
  assert (Hfound : ∀ found, list_entries st un m (sorted_names m) = Ok found →
    map fst found = sorted_names m ∧
    ∀ name b, (name, b) ∈ found → ∃ f, m !! name = Some f ∧ readable_entry st un name f b).
  { intros found HF%list_entries_Ok. split.
    - clear -HF. induction HF as [|name p names l [<- _] _ IH]; [done|]. simpl. by rewrite IH.
    - intros name b [i Hi]%list_elem_of_lookup.
      destruct (Forall2_lookup_r _ _ _ _ _ HF Hi) as (n & _ & Hn & Hb). simpl in *. subst n.
      by apply list_entry_readable. }
  split.
  - unfold ListBatches. cbn [guard_err obind]. split.
    + intros [l (found & Hl & _)%obind_Ok_inv] name f Hf. apply list_entries_Ok in Hl.
      assert (Hin : name ∈ sorted_names m) by (apply elem_of_sorted_names; by eexists).
      apply list_elem_of_lookup in Hin as [i Hi].
      destruct (Forall2_lookup_l _ _ _ _ _ Hl Hi) as (p & _ & _ & Hp).
      apply list_entry_readable in Hp as (g & Hg & Hr). exists p.2. congruence.
    + intros Hall. destruct (list_entries_total st un m (sorted_names m)) as [l Hl].
      * intros name [f Hf]%elem_of_sorted_names. destruct (Hall name f Hf) as [b Hb].
        assert (Hok : list_entry st un m name = Ok b) by (apply list_entry_readable; eauto). by rewrite Hok.
      * rewrite Hl. by eexists.
  - unfold ListBatches. intros rd l (_ & Hl)%guard_bind_Ok_inv.
    apply obind_Ok_inv in Hl as (found & Hl & [= <-]). exists found. split; [done|by apply Hfound].
Qed.

(** A Save that touches the directory leaves it within the configured capacity. *)
Theorem capacity_holds st ft nanos b d d' res :
  Save st ft nanos b d = (d', res) → d' ≠ d → d_now d !! batch_name nanos b = None →
  0 ≤ st_maxBytes st ≤ max_int64 → total_size (d_now d') ≤ st_maxBytes st.
Proof.
  intros Hsave Hne Hbase Hmax. pose proof (Save_outcome st ft nanos b d) as Hout. rewrite Hsave in Hout.
  assert (Hfit : ∀ text f name, save_started st nanos b d text → slen (f_data f) ≤ slen (batch_text text) →
    d_now d !! name = None → total_size (<[name := f]> (d_now d)) ≤ st_maxBytes st).
  { intros text f name Hs Hle Hn. rewrite total_size_insert by done.
    destruct (ss_size _ _ _ _ _ Hs) as (used & Hused & Hfit). rewrite Size_spec in Hused.
    destruct (Z.leb_spec (total_size (d_now d)) max_int64); [|done]. injection Hused as <-.
    pose proof (slen_nonneg (f_data f)).
    assert (0 ≤ total_size (d_now d)) by apply sum_sizes_nonneg.
    assert (min_int64 = - max_int64 - 1) by done.
    rewrite wrap64_id in Hfit by (unfold is_int64; lia). lia. }
  inversion Hout as [msg|text f past msg Hs Hle Hp|text past Hs Hp|text Hs]; subst; cbn [d_now].
  - done.
  - eapply Hfit; [done|done|apply Hs].
  - eapply Hfit; [done|simpl; lia|done].
  - eapply Hfit; [done|simpl; lia|done].
Qed.

(** A Save that failed after it created its temporary file leaves evidence: no
    listing of the outbox succeeds any more, so that a restart refuses to run instead of
    losing the traffic silently. *)
Theorem incomplete_save_blocks_listing st ft nanos b d d' e rd un l :
  Save st ft nanos b d = (d', Err e) → WasPublished e = false → d' ≠ d →
  ListBatches st rd un (d_now d') ≠ Ok l.
Proof.
  intros Hsave Hpub Hne. pose proof (Save_outcome st ft nanos b d) as Hout. rewrite Hsave in Hout.
  inversion Hout as [msg|text f past msg Hs Hle Hp|text past Hs Hp|text Hs]; subst; cbn [d_now]; try done.
  eapply temp_blocks; [apply lookup_insert_eq|apply tmp_suffix].
Qed.

(** A batch that was saved is listed afterwards, beside the batches that were listed
    before, with the contents it was saved with, and the directory is durable. *)
Theorem saved_batch_is_listed `{!LawfulCodec} st ft nanos b d d' rd un l :
  Save st ft nanos b d = (d', Ok tt) → d_now d !! batch_name nanos b = None →
  batch_typed b → un (batch_name nanos b) = false → ListBatches st rd un (d_now d) = Ok l →
  ∃ l', ListBatches st rd un (d_now d') = Ok l' ∧
    l' ≡ₚ (Join (st_dir st) (batch_name nanos b), b) :: l ∧ d_past d' = [].
Proof.
  intros Hsave Hbase Htyped Hun Hl. pose proof (Save_outcome st ft nanos b d) as Hout. rewrite Hsave in Hout.
  inversion Hout as [| | |text Hs]; subst. cbn [d_now d_past]. set (base := batch_name nanos b) in *.
  set (m' := <[base := _]> (d_now d)). destruct Hs as [Hnode Hvalid Htext _ _].
  unfold ListBatches in *. apply guard_bind_Ok_inv in Hl as [-> Hl]. cbn [guard_err obind].
  apply obind_Ok_inv in Hl as (found & Hfound & [= <-]).
  assert (Hnew : list_entry st un m' base = Ok b).
  { apply list_entry_readable. eexists. split; [apply lookup_insert_eq|].
    destruct (batch_name_suffix nanos b) as [H1 H2]. split_and!; try done. by apply unmarshal_marshal. }
  assert (Hcons : list_entries st un m' (base :: sorted_names (d_now d)) = Ok ((base, b) :: found)).
  { cbn [list_entries]. rewrite Hnew. cbn [obind].
    rewrite (list_entries_ext st un m' (d_now d)), Hfound; [done|].
    intros name [f Hf]%elem_of_sorted_names. apply lookup_insert_ne. intros <-. congruence. }
  destruct (list_entries_perm _ _ _ _ (sorted_names m') _ ltac:(symmetry; by apply sorted_names_insert) Hcons)
    as (l' & Hl' & Hperm).
  rewrite Hl'. eexists. split; [done|]. split; [|done]. by rewrite Hperm.
Qed.

(** NewBatch accepts exactly the metadata and the entries that can be billed
    (distinct positive users, counters that are not negative, not both zero and do not
    overflow), and returns them sorted in a batch that validates with its hash. *)
Theorem new_batch_is_valid `{!LawfulCodec} nodeID configurationVersion rate entries random now :
  length random = 16%nat → Forall is_byte random → is_Some (rate_text rate) →
  (∃ b, NewBatch nodeID configurationVersion rate entries random now = Ok b ∧
     validate true b = Ok tt ∧ b_NodeID b = nodeID ∧ b_TrafficRate b = rate ∧
     b_ConfigurationVersion b = configurationVersion ∧ b_Entries b ≡ₚ entries ∧ entries_ok 0 (b_Entries b)) ↔
  0 < nodeID ∧ configurationVersion ≠ 0 ∧ 0 < now ∧ rate_invalid rate = false ∧ acceptable entries.
Proof.
  intros Hlen Hbytes Hrt. rewrite <- acceptable_sorted. unfold NewBatch. cbv zeta.
  set (b := mkBatch _ _ _ _ _ _ _ _).
  assert (Hentries : b_Entries b = merge_sort entry_le entries) by apply copy_slice_entries.
  assert (Hv : validate false b = Ok tt ↔ 0 < nodeID ∧ configurationVersion ≠ 0 ∧ 0 < now ∧
    rate_invalid rate = false ∧ entries_ok 0 (merge_sort entry_le entries)).
  { unfold validate. rewrite !guard_bind_Ok_inv, Hentries. cbn [b b_Version b_NodeID b_ConfigurationVersion b_CreatedAt b_ID b_TrafficRate].
    rewrite newUUID_valid by done. rewrite !orb_false_iff, !Z.leb_gt, Z.eqb_neq. rewrite <- validate_entries_Ok.
    split.
    - intros ([[[_ ?] ?] ?] & _ & ? & He). apply obind_Ok_inv in He as ([] & He & _). done.
    - intros (? & ? & ? & ? & ->). done. }
  split.
  - intros (b' & E & _). destruct (validate false b) as [[]|e|] eqn:Ev; [by apply Hv|done..].
  - intros Hok. apply Hv in Hok as Hvalid. rewrite Hvalid. cbn [obind].
    destruct Hok as (_ & _ & _ & Hrate & He).
    destruct (proj2 (marshal_Some (with_hash EmptyString b)) Hrt) as [text Htext].
    unfold hash. rewrite Htext. cbn [fmap option_fmap option_map].
    eexists. split; [done|]. split_and!; try done.
    + revert Hvalid. unfold validate. rewrite !guard_bind_Ok_inv. intros (? & ? & ? & He').
      apply obind_Ok_inv in He' as ([] & He' & _). split_and!; try done.
      change (b_Entries (with_hash ?h b)) with (b_Entries b). rewrite He'. cbn [obind]. unfold hash.
      change (with_hash EmptyString (with_hash (digest text) b)) with (with_hash EmptyString b).
      rewrite Htext. cbn. by rewrite String.eqb_refl.
    + change (b_Entries (with_hash ?h b)) with (b_Entries b). rewrite Hentries. apply merge_sort_Permutation.
    + change (b_Entries (with_hash ?h b)) with (b_Entries b). by rewrite Hentries.
Qed.

(** RawTotal of a validated batch is the exact sum of its counters, or an error when
    that does not fit an int64: the wrapping comparisons of the code never let an overflow
    pass. *)
Theorem raw_total_is_exact check b :
  validate check b = Ok tt →
  RawTotal b = (if entries_total (b_Entries b) <=? max_int64 then Ok (entries_total (b_Entries b))
                else Err "traffic total overflows int64").
Proof.
  unfold validate. rewrite !guard_bind_Ok_inv. intros (_ & _ & _ & He).
  apply obind_Ok_inv in He as ([] & He & _). unfold RawTotal.
  rewrite (raw_total_spec 0); [done|by apply validate_entries_Ok|done].
Qed.

(** Every listed path can be removed: Remove accepts it, deletes exactly that file
    durably, and the other batches are listed as before. *)
Theorem listed_batch_is_removable st stateDir rd un d l path b :
  has_prefix stateDir "/" = true → st_dir st = Join stateDir "outbox" →
  (∀ name, is_Some (d_now d !! name) → no_slash name = true) →
  ListBatches st rd un (d_now d) = Ok l → (path, b) ∈ l →
  ∃ name l', path = Join (st_dir st) name ∧ is_Some (d_now d !! name) ∧
    Remove st false false path d = (mkDisk (delete name (d_now d)) [], Ok tt) ∧
    ListBatches st rd un (delete name (d_now d)) = Ok l' ∧ l ≡ₚ (path, b) :: l'.
Proof.
  intros Hroot Hdir Hnames Hl Hin. unfold ListBatches in *. apply guard_bind_Ok_inv in Hl as [-> Hl].
  apply obind_Ok_inv in Hl as (found & Hfound & [= <-]). cbn [guard_err obind].
  apply list_elem_of_fmap in Hin as ([name b'] & [= -> ->] & Hin). cbn [fst snd].
  pose proof Hfound as HF. apply list_entries_Ok in HF.
  assert (Hentry : list_entry st un (d_now d) name = Ok b').
  { apply list_elem_of_lookup in Hin as [i Hi]. destruct (Forall2_lookup_r _ _ _ _ _ HF Hi) as (n & _ & Hn & Hb).
    simpl in *. by subst n. }
  pose proof Hentry as (f & Hf & Hread)%list_entry_readable.
  destruct Hread as (_ & Hjson & _). pose proof (Hnames name ltac:(by eexists)) as Hslash.
  pose proof (entry_name_plain name Hslash Hjson) as Hplain.
  destruct (Join_abs stateDir "outbox" Hroot ltac:(by split_and!)) as (comps & Hcomps & Hjoin).
  rewrite Hjoin in Hdir.
  assert (Hdirs : (comps ++ ["outbox"])%list ≠ [] ∧ Forall plain_comp (comps ++ ["outbox"])%list).
  { split; [by destruct comps|]. apply Forall_app. split; [done|]. constructor; [by split_and!|constructor]. }
  destruct Hdirs as [Hne Hall]. destruct (Join_entry _ name Hne Hall Hplain) as (E1 & E2 & E3).
  assert (Hclean : Clean (Join (st_dir st) name) = Join (st_dir st) name).
  { rewrite Hdir, E1. apply Clean_abs. apply Forall_app. split; [done|by constructor]. }
  (* listing the rest *)
  pose proof (sorted_names_delete _ _ _ Hf) as Hperm.
  destruct (list_entries_perm _ _ _ _ _ _ Hperm Hfound) as (l1 & Hl1 & Hp1).
  cbn [list_entries] in Hl1. rewrite Hentry in Hl1. cbn [obind] in Hl1.
  apply obind_Ok_inv in Hl1 as (rest & Hrest & [= <-]).
  rewrite (list_entries_ext st un (d_now d) (delete name (d_now d))) in Hrest.
  2:{ intros n [g Hg]%elem_of_sorted_names. symmetry. apply lookup_delete_ne. intros <-.
      by rewrite lookup_delete_eq in Hg. }
  exists name. rewrite Hrest. cbn [obind]. eexists. split; [done|]. split; [by eexists|]. split; [|split; [done|]].
  - unfold Remove. cbv zeta. rewrite Hclean, Hdir, E1, E2, E3, String.eqb_refl.
    rewrite abs_snoc, decide_False by done. change (String "/" name) with ("/" +:+ name).
    rewrite (has_suffix_longer _ ("/" +:+ name)) by by apply has_suffix_longer. cbn [negb orb].
    rewrite bool_decide_eq_false_2 by by rewrite Hf. done.
  - rewrite <- Hp1. done.
Qed.
End Outbox.

(** C34: Reading the text that Save writes for a batch gives that batch back, its hash
    included. *)
Lemma json_text_read_back b text :
  batch_typed b → validate true b = Ok tt → marshal b = Some text → readBatch (batch_text text) = Some b.
Proof. intros Ht Hv Hm. apply readBatch_Some. split; [by apply unmarshal_marshal|done]. Qed.

(** ** Witnesses *)
Definition w_random : list Z := [1; 2; 3; 4; 5; 6; 7; 8; 9; 10; 11; 12; 13; 14; 15; 255].
Definition w_entries : list Entry := [mkEntry 5 100 200; mkEntry 2 1 0].
Definition w_rate : float64 := Eval vm_compute in f64_div (f64_of_int 3) (f64_of_int 2).
Definition w_batch : Batch := Eval vm_compute in
  match NewBatch 7 3 w_rate w_entries w_random 1700000000 with Ok b => b | _ => zero_batch end.
Definition w_store : Store := mkStore "/state/outbox" 7 4096.
Definition w_disk : Disk := mkDisk ∅ [].
Definition w_saved : Disk := Eval vm_compute in fst (Save w_store no_faults 42 w_batch w_disk).
Definition w_sync_fails : Faults := mkFaults false false None true false false false.
Definition w_torn : Disk := Eval vm_compute in fst (Save w_store w_sync_fails 42 w_batch w_disk).
Definition w_readable (_ : string) : bool := false.

Lemma w_save : Save w_store no_faults 42 w_batch w_disk = (w_saved, Ok tt).
Proof. vm_compute. reflexivity. Qed.
Lemma w_save_fails : Save w_store w_sync_fails 42 w_batch w_disk = (w_torn, Err (plain "sync outbox batch")).
Proof. vm_compute. reflexivity. Qed.

Lemma w_fresh s : s ∈ d_now w_disk :: d_past w_disk → s !! batch_name 42 w_batch = None.
Proof. intros ->%list_elem_of_singleton. done. Qed.

Lemma w_typed : batch_typed w_batch.
Proof.
  split_and!; try done. intros e He. repeat (apply elem_of_cons in He as [->|He]; [done|]).
  by apply not_elem_of_nil in He.
Qed.

Lemma save_survives_witness :
  (∃ text, marshal w_batch = Some text ∧ holds_batch (d_now w_saved) (batch_name 42 w_batch) text) ∧
  d_now w_torn !! batch_name 42 w_batch = None.
Proof.
  split.
  - exact (@save_survives_faults_and_crashes json_codec w_store no_faults 42 w_batch w_disk w_saved (Ok tt) (d_now w_saved)
      w_save w_fresh (or_introl eq_refl)).
  - exact (@save_survives_faults_and_crashes json_codec w_store w_sync_fails 42 w_batch w_disk w_torn
      (Err (plain "sync outbox batch")) (d_now w_torn) w_save_fails w_fresh (or_introl eq_refl)).
Defined.

Lemma capacity_holds_witness : total_size (d_now w_saved) ≤ 4096.
Proof.
  apply (@capacity_holds json_codec w_store no_faults 42 w_batch w_disk w_saved (Ok tt)).
  - exact w_save.
  - intros E. apply (f_equal (λ d, bool_decide (d_now d = ∅))) in E. vm_compute in E. discriminate E.
  - reflexivity.
  - vm_compute. split; discriminate.
Defined.

Lemma saved_batch_witness : ∃ l', ListBatches w_store false w_readable (d_now w_saved) = Ok l' ∧
  l' ≡ₚ [(Join "/state/outbox" (batch_name 42 w_batch), w_batch)] ∧ d_past w_saved = [].
Proof.
  apply (@saved_batch_is_listed json_codec json_codec_lawful w_store no_faults 42 w_batch w_disk w_saved false w_readable []).
  - exact w_save.
  - reflexivity.
  - exact w_typed.
  - reflexivity.
  - reflexivity.
Defined.

Lemma new_batch_witness : 0 < 7 ∧ 3 ≠ 0 ∧ 0 < 1700000000 ∧ rate_invalid w_rate = false ∧ acceptable w_entries.
Proof.
  apply (@new_batch_is_valid json_codec json_codec_lawful 7 3 w_rate w_entries w_random 1700000000).
  - reflexivity.
  - repeat constructor; discriminate.
  - vm_compute. eauto.
  - exists w_batch. split; [vm_compute; reflexivity|]. split; [vm_compute; reflexivity|].
    split; [reflexivity|]. split; [reflexivity|]. split; [reflexivity|]. split.
    + apply Permutation_swap.
    + vm_compute. repeat split; discriminate.
Defined.

Lemma json_text_witness :
  readBatch (batch_text (default EmptyString (marshal w_batch))) = Some w_batch.
Proof.
  exact (json_text_read_back w_batch _ w_typed ltac:(vm_compute; reflexivity) ltac:(vm_compute; reflexivity)).
Defined.
