(* ===== verification/Base64.v ===== *)
(** Package [encoding/base64], the raw URL encoding: no padding, and line breaks
    in the input are skipped. *)
From S2P Require Import Prelude GoString.

Local Open Scope string_scope.
Local Open Scope Z_scope.

Definition b64_value (c : ascii) : option Z :=
  let n := code c in
  if (65 <=? n) && (n <=? 90) then Some (n - 65)
  else if (97 <=? n) && (n <=? 122) then Some (n - 71)
  else if (48 <=? n) && (n <=? 57) then Some (n + 4)
  else if n =? 45 then Some 62
  else if n =? 95 then Some 63
  else None.

Fixpoint drop_breaks (s : string) : string :=
  match s with
  | EmptyString => EmptyString
  | String c s => if (code c =? 10) || (code c =? 13) then drop_breaks s else String c (drop_breaks s)
  end.

(** the bits after the last whole byte are not looked at *)
Fixpoint b64_quanta (s : string) : option (list Z) :=
  match s with
  | EmptyString => Some []
  | String a (String b EmptyString) =>
      x ← b64_value a; y ← b64_value b; Some [x * 4 + y / 16]
  | String a (String b (String c EmptyString)) =>
      x ← b64_value a; y ← b64_value b; z ← b64_value c; Some [x * 4 + y / 16; y mod 16 * 16 + z / 4]
  | String a (String b (String c (String d s))) =>
      x ← b64_value a; y ← b64_value b; z ← b64_value c; w ← b64_value d;
      rest ← b64_quanta s;
      Some (x * 4 + y / 16 :: y mod 16 * 16 + z / 4 :: z mod 4 * 64 + w :: rest)
  | _ => None
  end.
(** RawURLEncoding.DecodeString *)
Definition b64_decode (s : string) : option (list Z) := b64_quanta (drop_breaks s).

Definition b64_char (v : Z) : ascii :=
  ascii_of_N (Z.to_N (if v <? 26 then v + 65 else if v <? 52 then v + 71 else if v <? 62 then v - 4
                      else if v =? 62 then 45 else 95)).
(** RawURLEncoding.EncodeToString *)
Fixpoint b64_encode (l : list Z) : string :=
  match l with
  | [] => EmptyString
  | [x] => String (b64_char (x / 4)) (String (b64_char (x mod 4 * 16)) EmptyString)
  | [x; y] =>
      String (b64_char (x / 4)) (String (b64_char (x mod 4 * 16 + y / 16))
        (String (b64_char (y mod 16 * 4)) EmptyString))
  | x :: y :: z :: l =>
      String (b64_char (x / 4)) (String (b64_char (x mod 4 * 16 + y / 16))
        (String (b64_char (y mod 16 * 4 + z / 64)) (String (b64_char (z mod 64)) (b64_encode l))))
  end.

Example b64_ex : b64_encode [251; 255; 0; 7] = "-_8ABw" ∧ b64_decode "-_8ABw" = Some [251; 255; 0; 7] ∧
  b64_decode "A" = None ∧ b64_decode "AA=" = None.
Proof. vm_compute. done. Qed.

Lemma b64_char_value v : 0 ≤ v < 64 →
  b64_value (b64_char v) = Some v ∧ (code (b64_char v) =? 10) || (code (b64_char v) =? 13) = false ∧
  Ascii.eqb (b64_char v) "=" = false.
Proof.
  intros Hv. assert (Hall : forallb (λ n, let c := b64_char (Z.of_nat n) in
    bool_decide (b64_value c = Some (Z.of_nat n)) && negb ((code c =? 10) || (code c =? 13)) && negb (Ascii.eqb c "=")) (seq 0 64) = true)
    by (vm_compute; reflexivity).
  rewrite forallb_forall in Hall. specialize (Hall (Z.to_nat v)). rewrite in_seq in Hall. specialize (Hall ltac:(lia)).
  rewrite Z2Nat.id in Hall by lia. cbv zeta in Hall. rewrite !andb_true_iff, !negb_true_iff in Hall.
  destruct Hall as [[H1%bool_decide_eq_true H2] H3]. done.
Qed.

Definition sextet (v : Z) : Prop := 0 ≤ v < 64.

(** the characters of an encoding *)
Definition b64_all (s : string) : bool :=
  string_all (λ c, negb ((code c =? 10) || (code c =? 13)) && negb (Ascii.eqb c "=")) s.

Lemma drop_breaks_id s : b64_all s = true → drop_breaks s = s.
Proof.
  induction s as [|c s IH]; [done|]. unfold b64_all in *. cbn [string_all drop_breaks].
  rewrite !andb_true_iff, !negb_true_iff. intros [[-> _] Hs]. by rewrite IH.
Qed.

Section with_bytes.
#[local] Ltac Zify.zify_post_hook ::= Z.to_euclidean_division_equations.

(** three bytes are four sextets *)
Lemma sextets_of x y z : 0 ≤ x < 256 → 0 ≤ y < 256 → 0 ≤ z < 256 →
  sextet (x / 4) ∧ sextet (x mod 4 * 16 + y / 16) ∧ sextet (y mod 16 * 4 + z / 64) ∧ sextet (z mod 64) ∧
  x / 4 * 4 + (x mod 4 * 16 + y / 16) / 16 = x ∧
  (x mod 4 * 16 + y / 16) mod 16 * 16 + (y mod 16 * 4 + z / 64) / 4 = y ∧
  (y mod 16 * 4 + z / 64) mod 4 * 64 + z mod 64 = z.
Proof. unfold sextet. lia. Qed.
End with_bytes.

Lemma three_at_a_time (P : list Z → Prop) :
  P [] → (∀ x, P [x]) → (∀ x y, P [x; y]) → (∀ x y z l, P l → P (x :: y :: z :: l)) → ∀ l, P l.
Proof.
  intros H0 H1 H2 H3. fix IH 1. intros [|x [|y [|z l]]]; [exact H0|apply H1|apply H2|].
  apply H3, IH.
Qed.

Lemma b64_all_char v s : sextet v → b64_all (String (b64_char v) s) = b64_all s.
Proof.
  intros Hv. destruct (b64_char_value v Hv) as (_ & H1 & H2). unfold b64_all. cbn [string_all]. by rewrite H1, H2.
Qed.

(** Decoding an encoding gives the bytes back. *)
Lemma b64_round_trip l : Forall (λ x, 0 ≤ x < 256) l → b64_decode (b64_encode l) = Some l ∧ b64_all (b64_encode l) = true.
Proof.
  intros HF. cut (b64_all (b64_encode l) = true ∧ b64_quanta (b64_encode l) = Some l).
  { intros [H1 H2]. unfold b64_decode. by rewrite drop_breaks_id. }
  revert HF. induction l as [|x|x y|x y z l IH] using three_at_a_time; intros HF; [done|..].
  - apply Forall_cons in HF as [Hx _]. destruct (sextets_of x 0 0 Hx) as (S1 & S2 & _ & _ & E1 & _); [lia..|].
    change (0 / 16) with 0 in *. rewrite Z.add_0_r in *. cbn [b64_encode]. rewrite !b64_all_char by done. split; [done|].
    cbn [b64_quanta]. rewrite (proj1 (b64_char_value _ S1)), (proj1 (b64_char_value _ S2)). cbn [mbind option_bind].
    by rewrite E1.
  - apply Forall_cons in HF as [Hx HF]. apply Forall_cons in HF as [Hy _].
    destruct (sextets_of x y 0 Hx Hy) as (S1 & S2 & S3 & _ & E1 & E2 & _); [lia|].
    change (0 / 64) with 0 in *. rewrite Z.add_0_r in *. cbn [b64_encode]. rewrite !b64_all_char by done. split; [done|].
    cbn [b64_quanta]. rewrite (proj1 (b64_char_value _ S1)), (proj1 (b64_char_value _ S2)), (proj1 (b64_char_value _ S3)).
    cbn [mbind option_bind]. by rewrite E1, E2.
  - apply Forall_cons in HF as [Hx HF]. apply Forall_cons in HF as [Hy HF]. apply Forall_cons in HF as [Hz HF].
    destruct (sextets_of x y z Hx Hy Hz) as (S1 & S2 & S3 & S4 & E1 & E2 & E3). destruct (IH HF) as [I1 I2].
    cbn [b64_encode]. rewrite !b64_all_char by done. split; [done|]. cbn [b64_quanta].
    rewrite (proj1 (b64_char_value _ S1)), (proj1 (b64_char_value _ S2)), (proj1 (b64_char_value _ S3)),
      (proj1 (b64_char_value _ S4)). cbn [mbind option_bind]. rewrite I2. cbn [mbind option_bind]. by rewrite E1, E2, E3.
Qed.
