(* ===== verification/Database.v ===== *)
(** Package [internal/database]: reading the authorization snapshot of a node from
    the panel, and writing traffic and telemetry to it.

    The tables that the statements name are a [Panel]; a statement is a function
    on it, a transaction works on a copy that [Commit] installs. Every statement
    can fail; the fault records say which do. As the driver is configured, the
    number of affected rows counts the rows that changed. *)
From S2P Require Import Prelude GoString Float64 Digest Base64 Netip Policy Model Identity Config Outbox.

Local Open Scope string_scope.
Local Open Scope Z_scope.

(** ** Users of the panel *)
Definition compileUser (id : Z) (password : string) (speed : float64) (connectors : Z)
    (forbiddenIP forbiddenPort disconnectIP : string) : outcome string User :=
  guard_err ((id <=? 0) || String.eqb password EmptyString || is_nan speed || is_inf speed
             || f64_ltb speed (f64_of_int 0) || f64_ltb (f64_of_int 1000000) speed
             || (connectors <? 0) || (1000000 <? connectors)) "invalid identity or limits" ;?
  let? blocked := ParseIPRules forbiddenIP in
  let? ports := ParsePorts forbiddenPort in
  let? disconnected := ParseSourceIPs disconnectIP in
  Ok (mkUser id (UUIDv3 id password) speed connectors blocked ports disconnected).

(** ** The node *)
Definition decodeBase64URL32 (value : string) : option (list Z) :=
  if char_in "=" value then None
  else decoded ← b64_decode value; if (length decoded =? 32)%nat then Some decoded else None.

Definition dns_char (c : ascii) : bool :=
  let n := code c in
  ((97 <=? n) && (n <=? 122)) || ((65 <=? n) && (n <=? 90)) || ((48 <=? n) && (n <=? 57)) || (n =? 45).
Definition dns_label (label : string) : outcome string unit :=
  guard_err (String.eqb label EmptyString || (63 <? slen label) || has_prefix label "-" || has_suffix label "-")
    "invalid hostname label" ;?
  guard_err (negb (string_all dns_char label)) "invalid hostname character".
Fixpoint dns_labels (l : list string) : outcome string unit :=
  match l with
  | [] => Ok tt
  | label :: l => dns_label label ;? dns_labels l
  end.
Definition validateDNSName (value : string) : outcome string unit :=
  guard_err (String.eqb value EmptyString || (253 <? slen value) || has_prefix value "." || has_suffix value ".")
    "invalid hostname length" ;?
  dns_labels (split_on "." value).

Definition validateHost (value : string) : outcome string unit :=
  let value := trim value "[]" in
  match ParseAddr value with
  | Some _ => Ok tt
  | None => validateDNSName value
  end.

(** the error of a call, with a prefix *)
Definition wrap_err {T} (prefix : string) (c : outcome string T) : outcome string T :=
  match c with Err e => Err (prefix +:+ e) | _ => c end.

Definition validateNode (n : Node) : outcome string unit :=
  guard_err ((node_ID n <=? 0) || (node_ConfigurationVersion n =? 0) || (node_PublicPort n <? 1)
             || (65535 <? node_PublicPort n)) "invalid node ID, version or public port" ;?
  guard_err (rate_invalid (node_TrafficRate n)) "invalid node traffic rate" ;?
  guard_err (negb (String.eqb (node_Fingerprint n) "chrome") || negb (String.eqb (node_Flow n) "xtls-rprx-vision")
             || negb (String.eqb (node_Transport n) "raw")) "node must use chrome, xtls-rprx-vision and raw" ;?
  wrap_err "invalid public_host: " (validateHost (node_PublicHost n)) ;?
  wrap_err "invalid server_name: " (validateDNSName (node_ServerName n)) ;?
  match SplitHostPort (node_Target n) with
  | None => Err "target must be a valid host:port"
  | Some (host, portText) =>
      guard_err (negb (is_ok (validateHost host))) "target must be a valid host:port" ;?
      guard_err (match parse_int portText with
                 | None => true
                 | Some port => (port <? 1) || (65535 <? port)
                 end) "target port is invalid" ;?
      guard_err (bool_decide (decodeBase64URL32 (node_RealityPublicKey n) = None))
        "reality public key must be unpadded base64url for 32 bytes" ;?
      guard_err ((16 <? slen (node_ShortID n)) || negb (slen (node_ShortID n) mod 2 =? 0))
        "short_id must contain at most 16 even hex characters" ;?
      guard_err (negb (hex_decodes (node_ShortID n))) "short_id must be hexadecimal"
  end.

(** ** Traffic *)

(** the largest int64, as the float it is compared as *)
Definition billed (raw : Z) (rate : float64) : outcome string Z :=
  let value := f64_mul (f64_of_int raw) rate in
  guard_err (is_nan value || is_inf value || f64_ltb (f64_of_int max_int64) value) "billed traffic overflows int64" ;?
  Ok (f64_to_int64 (math_round value)).

(** the verb %.2f: halves go to the even neighbour *)
Definition round_half_even (n d : Z) : Z :=
  let q := n / d in
  let r := 2 * (n mod d) in
  if r <? d then q else if d <? r then q + 1 else if Z.even q then q else q + 1.
Definition hundredths (m : positive) (e : Z) : Z :=
  round_half_even (100 * Z.pos m * 2 ^ Z.max 0 e) (2 ^ Z.max 0 (- e)).
Definition format_fixed2 (x : float64) : string :=
  let text (s : bool) (n : Z) :=
    (if s then "-" else EmptyString) +:+ format_int (n / 100) +:+ "." +:+
    format_int (n / 10 mod 10) +:+ format_int (n mod 10) in
  match x with
  | SpecFloat.S754_zero s => text s 0
  | SpecFloat.S754_finite s m e => text s (hundredths m e)
  | SpecFloat.S754_infinity s => if s then "-Inf" else "+Inf"
  | SpecFloat.S754_nan => "NaN"
  end.

(** the divisions by 1024; [exponent < 5] bounds their number *)
Fixpoint human_loop (fuel : nat) (n divisor exponent : Z) : Z * Z :=
  match fuel with
  | O => (divisor, exponent)
  | S fuel =>
      if (1024 <=? n) && (exponent <? 5) then human_loop fuel (n / 1024) (wrap64 (divisor * 1024)) (exponent + 1)
      else (divisor, exponent)
  end.
Definition humanBytes (value : Z) : string :=
  if value <? 1024 then format_int value +:+ " B"
  else
    let '(divisor, exponent) := human_loop 6 (value / 1024) 1024 0 in
    format_fixed2 (f64_div (f64_of_int value) (f64_of_int divisor)) +:+ " " +:+
    take_chars 1 (drop_chars (Z.to_nat exponent) "KMGTPE") +:+ "iB".

Example billed_ex : map (λ p, billed p.1 p.2)
  [(1, f64_div (f64_of_int 3) (f64_of_int 2)); (3, f64_div (f64_of_int 1) (f64_of_int 2));
   (100, f64_div (f64_of_int 1) (f64_of_int 100)); (max_int64, f64_of_int 2)]
  = [Ok 2; Ok 2; Ok 1; Err "billed traffic overflows int64"].
Proof. vm_compute. reflexivity. Qed.
Example human_ex : map humanBytes [1023; 1024; 1536; 1048575; 5 * 2 ^ 40; max_int64]
  = ["1023 B"; "1.00 KiB"; "1.50 KiB"; "1024.00 KiB"; "5.00 TiB"; "8.00 EiB"].
Proof. vm_compute. reflexivity. Qed.

(** ** The tables of the panel *)
Record UserRow : Type := mkUserRow {
  ur_passwd : string;
  ur_u : Z;
  ur_d : Z;
  ur_t : Z;
  ur_transfer_enable : Z;
  ur_enable : Z;
  ur_is_admin : Z;
  ur_class : Z;
  ur_node_group : Z;
  ur_expire_in : Z;
  ur_node_speedlimit : float64;
  ur_node_connector : Z;
  ur_forbidden_ip : option string;
  ur_forbidden_port : option string;
  ur_disconnect_ip : option string }.

(** the columns of ss_node *)
Record NodeRow : Type := mkNodeRow {
  nr_name : string;
  nr_traffic_rate : float64;
  nr_node_class : Z;
  nr_node_group : Z;
  nr_node_speedlimit : float64;
  nr_node_connector : Z;
  nr_node_bandwidth : Z;
  nr_node_bandwidth_limit : Z;
  nr_sort : Z;
  nr_type : Z;
  nr_node_heartbeat : Z }.

(** the columns of vless_reality_node_config *)
Record ConfigRow : Type := mkConfigRow {
  cr_public_host : string;
  cr_public_port : Z;
  cr_server_name : string;
  cr_target : string;
  cr_reality_public_key : string;
  cr_short_id : string;
  cr_fingerprint : string;
  cr_flow : string;
  cr_transport : string;
  cr_min_client_version : string;
  cr_config_version : Z }.

(** a row of vless_traffic_batches, by its primary key *)
Record BatchRow : Type := mkBatchRow {
  br_node_id : Z;
  br_payload_sha256 : list Z;
  br_created_at : Z;
  br_applied_at : Z }.

Record TrafficLog : Type := mkTrafficLog {
  tl_user_id : Z;
  tl_u : Z;
  tl_d : Z;
  tl_node_id : Z;
  tl_rate : float64;
  tl_traffic : string;
  tl_log_time : Z }.

Record Panel : Type := mkPanel {
  p_users : gmap Z UserRow;
  p_nodes : gmap Z NodeRow;
  p_configs : gmap Z ConfigRow;
  p_batches : gmap string BatchRow;
  p_traffic_log : list TrafficLog;
  p_alive_ip : list (Z * Z * string * Z);
  p_online_log : list (Z * Z * Z);
  p_node_info : list (Z * float64 * string * Z) }.

(** ** LoadSnapshot *)
Inductive LoadError : Type :=
| ErrNodeUnavailable
| LoadFailed (message : string).

(** the first query *)
Definition select_node (nodeID : Z) (p : Panel) : option Node :=
  n ← p_nodes p !! nodeID;
  c ← p_configs p !! nodeID;
  if (nr_sort n =? 15) && (nr_type n =? 1)
     && ((nr_node_bandwidth_limit n =? 0) || (nr_node_bandwidth n <? nr_node_bandwidth_limit n))
  then Some (mkNode nodeID (nr_name n) (nr_traffic_rate n) (nr_node_class n) (nr_node_group n)
         (nr_node_speedlimit n) (nr_node_connector n) (nr_node_bandwidth n) (nr_node_bandwidth_limit n)
         (cr_public_host c) (cr_public_port c) (cr_server_name c) (cr_target c) (cr_reality_public_key c)
         (cr_short_id c) (cr_fingerprint c) (cr_flow c) (cr_transport c) (cr_min_client_version c)
         (cr_config_version c))
  else None.

(** the condition of the second query, at the time [now] of the panel *)
Definition eligible (n : Node) (now : Z) (r : UserRow) : bool :=
  (ur_enable r =? 1) && (now <? ur_expire_in r) && (ur_u r + ur_d r <? ur_transfer_enable r)
  && ((ur_is_admin r =? 1)
      || (node_Class n <=? ur_class r) && ((node_Group n =? 0) || (ur_node_group r =? node_Group n))).

Definition row_le (a b : Z * UserRow) : Prop := a.1 ≤ b.1.
#[global] Instance row_le_dec : RelDecision row_le.
Proof. intros a b. unfold row_le. apply _. Defined.
Definition select_users (n : Node) (now : Z) (p : Panel) : list (Z * UserRow) :=
  merge_sort row_le (filter (λ r, eligible n now r.2 = true) (map_to_list (p_users p))).

(** what fails of a load: the queries, the scan of the row at an index, the end of the rows *)
Record LoadFaults : Type := mkLoadFaults {
  lf_node : bool;
  lf_users : bool;
  lf_scan : nat → bool;
  lf_rows : bool }.

Definition coalesce (s : option string) : string := default EmptyString s.
Definition compileRow (id : Z) (r : UserRow) : outcome string User :=
  compileUser id (ur_passwd r) (ur_node_speedlimit r) (ur_node_connector r) (coalesce (ur_forbidden_ip r))
    (coalesce (ur_forbidden_port r)) (coalesce (ur_disconnect_ip r)).

(** the loop over the rows: users and warnings in order *)
Fixpoint scan_users (scan : nat → bool) (i : nat) (rows : list (Z * UserRow)) : outcome string (list User * list string) :=
  match rows with
  | [] => Ok ([], [])
  | (id, r) :: rows =>
      guard_err (scan i) "scan user" ;?
      match compileRow id r with
      | Ok u => let? (users, warnings) := scan_users scan (S i) rows in Ok (u :: users, warnings)
      | Err e =>
          let? (users, warnings) := scan_users scan (S i) rows in
          Ok (users, ("user_id=" +:+ format_int id +:+ " isolated: " +:+ e) :: warnings)
      | Panic => Panic
      end
  end.

Definition load_err {T} (c : outcome string T) : outcome LoadError T :=
  match c with Ok x => Ok x | Err e => Err (LoadFailed e) | Panic => Panic end.

Definition LoadSnapshot (ft : LoadFaults) (now loadedAt : Z) (nodeID : Z) (p : Panel)
  : outcome LoadError (Snapshot * list string) :=
  guard_err (lf_node ft) (LoadFailed "load node") ;?
  match select_node nodeID p with
  | None => Err ErrNodeUnavailable
  | Some node =>
      let? _ := load_err (validateNode node) in
      guard_err (lf_users ft) (LoadFailed "load users") ;?
      let? (users, warnings) := load_err (scan_users (lf_scan ft) 0 (select_users node now p)) in
      guard_err (lf_rows ft) (LoadFailed "read users") ;?
      let? snapshot := load_err (Finalize (mkSnapshot node users loadedAt EmptyString)) in
      Ok (snapshot, warnings)
  end.

(** ** ApplyBatch *)
Inductive CommitResult : Type :=
| Committed
| CommitRefused      (* an error, and nothing was written *)
| CommitUnknown.     (* an error, although everything was written *)

(** the failing statements; the ones of the loop by the index of the entry *)
Record ApplyFaults : Type := mkApplyFaults {
  af_begin : bool;
  af_insert : bool;
  af_verify : bool;
  af_user : nat → bool;
  af_rows : nat → bool;
  af_log : nat → bool;
  af_node : bool;
  af_commit : CommitResult }.
Definition no_apply_faults : ApplyFaults :=
  mkApplyFaults false false false (λ _, false) (λ _, false) (λ _, false) false Committed.

(** the primary key is compared without regard to case *)
Definition batch_key (s : string) : string := to_lower s.

Definition with_users (m : gmap Z UserRow) (p : Panel) : Panel :=
  mkPanel m (p_nodes p) (p_configs p) (p_batches p) (p_traffic_log p) (p_alive_ip p) (p_online_log p) (p_node_info p).
Definition with_nodes (m : gmap Z NodeRow) (p : Panel) : Panel :=
  mkPanel (p_users p) m (p_configs p) (p_batches p) (p_traffic_log p) (p_alive_ip p) (p_online_log p) (p_node_info p).
Definition with_batches (m : gmap string BatchRow) (p : Panel) : Panel :=
  mkPanel (p_users p) (p_nodes p) (p_configs p) m (p_traffic_log p) (p_alive_ip p) (p_online_log p) (p_node_info p).
Definition with_log (l : list TrafficLog) (p : Panel) : Panel :=
  mkPanel (p_users p) (p_nodes p) (p_configs p) (p_batches p) l (p_alive_ip p) (p_online_log p) (p_node_info p).

Definition credit_row (up down now : Z) (r : UserRow) : UserRow :=
  mkUserRow (ur_passwd r) (ur_u r + up) (ur_d r + down) now (ur_transfer_enable r) (ur_enable r) (ur_is_admin r)
    (ur_class r) (ur_node_group r) (ur_expire_in r) (ur_node_speedlimit r) (ur_node_connector r)
    (ur_forbidden_ip r) (ur_forbidden_port r) (ur_disconnect_ip r).
(** UPDATE user SET u = u + ?, d = d + ?, t = UNIX_TIMESTAMP() WHERE id = ?: the
    number of changed rows; a column out of range is an error *)
Definition update_user (up down now uid : Z) (p : Panel) : outcome string (Panel * Z) :=
  match p_users p !! uid with
  | None => Ok (p, 0)
  | Some r =>
      guard_err (negb (is_int64 (ur_u r + up)) || negb (is_int64 (ur_d r + down))) "update user traffic" ;?
      Ok (with_users (<[uid := credit_row up down now r]> (p_users p)) p,
          b2z (negb ((up =? 0) && (down =? 0) && (ur_t r =? now))))
  end.

Definition add_bandwidth (n : Z) (r : NodeRow) : NodeRow :=
  mkNodeRow (nr_name r) (nr_traffic_rate r) (nr_node_class r) (nr_node_group r) (nr_node_speedlimit r)
    (nr_node_connector r) (nr_node_bandwidth r + n) (nr_node_bandwidth_limit r) (nr_sort r) (nr_type r)
    (nr_node_heartbeat r).
(** UPDATE ss_node SET node_bandwidth = node_bandwidth + ? WHERE id = ? *)
Definition update_bandwidth (n nodeID : Z) (p : Panel) : outcome string (Panel * Z) :=
  match p_nodes p !! nodeID with
  | None => Ok (p, 0)
  | Some r =>
      guard_err (negb (is_int64 (nr_node_bandwidth r + n))) "update node bandwidth" ;?
      Ok (with_nodes (<[nodeID := add_bandwidth n r]> (p_nodes p)) p, b2z (negb (n =? 0)))
  end.

(** the loop over the entries. Every UNIX_TIMESTAMP() is the time of its own
    statement: [now] is the time of the panel at the statements of the transaction,
    the insertion of the batch first, then for the entry at index [i] its update of
    the user and its entry in the log. *)
Definition update_time (now : nat → Z) (i : nat) : Z := now (2 * i + 1)%nat.
Definition log_time (now : nat → Z) (i : nat) : Z := now (2 * i + 2)%nat.

Fixpoint apply_entries (ft : ApplyFaults) (now : nat → Z) (b : Batch) (i : nat) (rawTotal : Z) (l : list Entry) (p : Panel)
  : outcome string (Panel * Z) :=
  match l with
  | [] => Ok (p, rawTotal)
  | e :: l =>
      let? billedUp := billed (e_Uplink e) (b_TrafficRate b) in
      let? billedDown := billed (e_Downlink e) (b_TrafficRate b) in
      guard_err (af_user ft i) "update user traffic" ;?
      let? (p, updated) := update_user billedUp billedDown (update_time now i) (e_UserID e) p in
      guard_err (af_rows ft i) "rows affected" ;?
      let? p :=
        (if 0 <? updated then
           guard_err (af_log ft i) "insert user traffic log" ;?
           Ok (with_log (p_traffic_log p ++
                 [mkTrafficLog (e_UserID e) (e_Uplink e) (e_Downlink e) (b_NodeID b) (b_TrafficRate b)
                    (humanBytes (wrap64 (billedUp + billedDown))) (log_time now i)])%list p)
         else Ok p) in
      guard_err ((wrap64 (max_int64 - e_Downlink e) <? e_Uplink e)
                 || (wrap64 (wrap64 (max_int64 - e_Uplink e) - e_Downlink e) <? rawTotal))
        "raw traffic total overflow" ;?
      apply_entries ft now b (S i) (wrap64 (rawTotal + wrap64 (e_Uplink e + e_Downlink e))) l p
  end.

(** the statements after the insertion of the batch *)
Definition apply_body (ft : ApplyFaults) (now : nat → Z) (b : Batch) (p : Panel) : outcome string Panel :=
  let? (p, rawTotal) := apply_entries ft now b 0 0 (b_Entries b) p in
  guard_err (af_node ft) "update node bandwidth" ;?
  let? (p, affected) := update_bandwidth rawTotal (b_NodeID b) p in
  guard_err (negb (affected =? 1)) "node disappeared while applying traffic" ;?
  Ok p.

Definition ApplyBatch (ft : ApplyFaults) (now : nat → Z) (b : Batch) (p : Panel) : Panel * outcome string unit :=
  match hash ← hex_decode (b_PayloadSHA256 b); if (length hash =? 32)%nat then Some hash else None with
  | None => (p, Err "invalid batch hash")
  | Some hash =>
      if af_begin ft then (p, Err "begin")
      else if af_insert ft then (p, Err "insert traffic batch")
      else
        match p_batches p !! batch_key (b_ID b) with
        | Some stored =>
            (p, guard_err (af_verify ft) "verify duplicate traffic batch" ;?
                guard_err (negb (br_node_id stored =? b_NodeID b) || negb (bool_decide (br_payload_sha256 stored = hash)))
                  "traffic batch ID collision with different payload")
        | None =>
            let row := mkBatchRow (b_NodeID b) hash (b_CreatedAt b) (now 0%nat) in
            match apply_body ft now b (with_batches (<[batch_key (b_ID b) := row]> (p_batches p)) p) with
            | Ok p' =>
                match af_commit ft with
                | Committed => (p', Ok tt)
                | CommitRefused => (p, Err "commit traffic batch")
                | CommitUnknown => (p', Err "commit traffic batch")
                end
            | Err e => (p, Err e)
            | Panic => (p, Panic)
            end
        end
  end.

(** ** ReportTelemetry *)
Record TelemetryFaults : Type := mkTelemetryFaults {
  tf_begin : bool;
  tf_alive : nat → bool;
  tf_online : bool;
  tf_info : bool;
  tf_heartbeat : bool;
  tf_commit : CommitResult }.

Fixpoint insert_alive (fails : nat → bool) (now : nat → Z) (nodeID : Z) (i : nat) (l : list (Z * string)) (p : Panel)
  : outcome string Panel :=
  match l with
  | [] => Ok p
  | (userID, ip) :: l =>
      guard_err (fails i) "insert alive IP" ;?
      insert_alive fails now nodeID (S i) l
        (mkPanel (p_users p) (p_nodes p) (p_configs p) (p_batches p) (p_traffic_log p)
           (p_alive_ip p ++ [(nodeID, userID, ip, now i)])%list (p_online_log p) (p_node_info p))
  end.

Definition set_heartbeat (now : Z) (r : NodeRow) : NodeRow :=
  mkNodeRow (nr_name r) (nr_traffic_rate r) (nr_node_class r) (nr_node_group r) (nr_node_speedlimit r)
    (nr_node_connector r) (nr_node_bandwidth r) (nr_node_bandwidth_limit r) (nr_sort r) (nr_type r) now.
(** UPDATE ss_node SET node_heartbeat = UNIX_TIMESTAMP() WHERE id = ? *)
Definition update_heartbeat (now nodeID : Z) (p : Panel) : Panel * Z :=
  match p_nodes p !! nodeID with
  | None => (p, 0)
  | Some r => (with_nodes (<[nodeID := set_heartbeat now r]> (p_nodes p)) p, b2z (negb (nr_node_heartbeat r =? now)))
  end.

(** time.Duration.Seconds of nanoseconds *)
Definition duration_seconds (d : Z) : float64 :=
  f64_add (f64_of_int (Z.quot d 1000000000)) (f64_div (f64_of_int (Z.rem d 1000000000)) (f64_of_int 1000000000)).

(** [online] lists the users of the map in the order of its iteration, and [now] is
    the time of the panel at each statement *)
Definition ReportTelemetry (ft : TelemetryFaults) (now : nat → Z) (nodeID : Z) (online : list (Z * list string))
    (uptime : Z) (load : string) (p : Panel) : Panel * outcome string unit :=
  if tf_begin ft then (p, Err "begin")
  else
    let onlineUsers := Z.of_nat (length (filter (λ x, x.2 ≠ []) online)) in
    let rows := mjoin (map (λ x, map (λ ip, (x.1, ip)) x.2) online) in
    match insert_alive (tf_alive ft) now nodeID 0 rows p with
    | Err e => (p, Err e)
    | Panic => (p, Panic)
    | Ok t =>
        if tf_online ft then (p, Err "insert online log")
        else
          let load := if 32 <? slen load then take_chars 32 load else load in
          if tf_info ft then (p, Err "insert node info")
          else if tf_heartbeat ft then (p, Err "update heartbeat")
          else
            let t := mkPanel (p_users t) (p_nodes t) (p_configs t) (p_batches t) (p_traffic_log t) (p_alive_ip t)
                       (p_online_log t ++ [(nodeID, onlineUsers, now (length rows))])%list
                       (p_node_info t ++ [(nodeID, duration_seconds uptime, load, now (S (length rows)))])%list in
            let '(t, affected) := update_heartbeat (now (S (S (length rows)))) nodeID t in
            if negb (affected =? 1) then (p, Err "node disappeared while reporting telemetry")
            else match tf_commit ft with
                 | Committed => (t, Ok tt)
                 | CommitRefused => (p, Err "commit")
                 | CommitUnknown => (t, Err "commit")
                 end
    end.
