(* ===== verification/DatabaseProps.v ===== *)
(** What is proved of the panel database: a batch is credited whole or not at all,
    and once however often it is applied; every eligible user is loaded or named
    in a warning; a loaded node is well formed. *)
From S2P Require Import Prelude GoString Float64 Digest Base64 Netip Policy Model Identity Config Outbox OutboxProps BatchText OutboxSafe Database.

Local Open Scope string_scope.
Local Open Scope Z_scope.

(** ** The credit of a batch *)
Definition bill (raw : Z) (rate : float64) : Z := match billed raw rate with Ok v => v | _ => 0 end.

Definition credit_entry (now : Z) (rate : float64) (m : gmap Z UserRow) (e : Entry) : gmap Z UserRow :=
  alter (credit_row (bill (e_Uplink e) rate) (bill (e_Downlink e) rate) now) (e_UserID e) m.

(** what is written to the log for an entry: nothing when its user has no row, or
    when the update changes none *)
Definition log_entry (now logged : Z) (b : Batch) (m : gmap Z UserRow) (e : Entry) : list TrafficLog :=
  let up := bill (e_Uplink e) (b_TrafficRate b) in
  let down := bill (e_Downlink e) (b_TrafficRate b) in
  match m !! e_UserID e with
  | Some r =>
      if (up =? 0) && (down =? 0) && (ur_t r =? now) then []
      else [mkTrafficLog (e_UserID e) (e_Uplink e) (e_Downlink e) (b_NodeID b) (b_TrafficRate b)
              (humanBytes (wrap64 (up + down))) logged]
  | None => []
  end.

Fixpoint credit_entries (now : nat → Z) (b : Batch) (i : nat) (l : list Entry) (p : Panel) : Panel :=
  match l with
  | [] => p
  | e :: l =>
      credit_entries now b (S i) l
        (mkPanel (credit_entry (update_time now i) (b_TrafficRate b) (p_users p) e) (p_nodes p) (p_configs p) (p_batches p)
           (p_traffic_log p ++ log_entry (update_time now i) (log_time now i) b (p_users p) e)%list (p_alive_ip p) (p_online_log p) (p_node_info p))
  end.

(** the reference: everything a batch writes, in one step *)
Definition credit (now : nat → Z) (b : Batch) (hash : list Z) (p : Panel) : Panel :=
  let p := with_batches (<[batch_key (b_ID b) := mkBatchRow (b_NodeID b) hash (b_CreatedAt b) (now 0%nat)]> (p_batches p)) p in
  let p := credit_entries now b 0 (b_Entries b) p in
  with_nodes (alter (add_bandwidth (entries_total (b_Entries b))) (b_NodeID b) (p_nodes p)) p.

Lemma update_user_spec now logged b e p p' n :
  let up := bill (e_Uplink e) (b_TrafficRate b) in
  let down := bill (e_Downlink e) (b_TrafficRate b) in
  update_user up down now (e_UserID e) p = Ok (p', n) →
  p' = with_users (credit_entry now (b_TrafficRate b) (p_users p) e) p ∧
  (if 0 <? n then [mkTrafficLog (e_UserID e) (e_Uplink e) (e_Downlink e) (b_NodeID b) (b_TrafficRate b)
              (humanBytes (wrap64 (up + down))) logged] else []) = log_entry now logged b (p_users p) e.
Proof.
  cbv zeta. unfold update_user, credit_entry, log_entry. destruct (p_users p !! e_UserID e) as [r|] eqn:Hr.
  - intros (_ & [= <- <-])%guard_bind_Ok_inv. rewrite (alter_insert _ _ _ r) by done. split; [done|].
    by destruct ((_ =? 0) && _ && _).
  - intros [= <- <-]. rewrite alter_id' by done. by destruct p.
Qed.

(** the loop writes the credits of the entries, and returns the total of the batch *)
Lemma apply_entries_Ok ft now b i lastID raw l p p' total :
  entries_ok lastID l → 0 ≤ raw ≤ max_int64 →
  apply_entries ft now b i raw l p = Ok (p', total) →
  p' = credit_entries now b i l p ∧ total = raw + entries_total l ∧ total ≤ max_int64.
Proof.
  revert i lastID raw p. induction l as [|e l IH]; intros i lastID raw p Hok Hraw; cbn [apply_entries credit_entries].
  { intros [= <- <-]. simpl. split; [done|]. lia. }
  intros (up & Hup & H)%obind_Ok_inv. apply obind_Ok_inv in H as (down & Hdown & H).
  apply guard_bind_Ok_inv in H as [_ H]. apply obind_Ok_inv in H as ([p1 n] & Hupd & H).
  apply guard_bind_Ok_inv in H as [_ H]. apply obind_Ok_inv in H as (p2 & Hlog & H).
  apply guard_bind_Ok_inv in H as [Hguard H].
  assert (Eup : up = bill (e_Uplink e) (b_TrafficRate b)) by (unfold bill; by rewrite Hup).
  assert (Edown : down = bill (e_Downlink e) (b_TrafficRate b)) by (unfold bill; by rewrite Hdown).
  subst up down. apply (update_user_spec _ (log_time now i)) in Hupd as [-> Hlogs].
  assert (E2 : p2 = mkPanel (credit_entry (update_time now i) (b_TrafficRate b) (p_users p) e) (p_nodes p) (p_configs p) (p_batches p)
           (p_traffic_log p ++ log_entry (update_time now i) (log_time now i) b (p_users p) e)%list
           (p_alive_ip p) (p_online_log p) (p_node_info p)).
  { rewrite <- Hlogs. destruct (0 <? n).
    - apply guard_bind_Ok_inv in Hlog as [_ [= <-]]. done.
    - injection Hlog as <-. by rewrite app_nil_r. }
  rewrite <- E2. pose proof Hok as (H1 & Hu & Hd & Hsum & Hl). pose proof (entries_total_nonneg _ _ Hl) as Hn.
  unfold entry_total in Hsum. assert (Hmin : min_int64 = - max_int64 - 1) by done.
  assert (Hw : ∀ z, min_int64 ≤ z ≤ max_int64 → wrap64 z = z) by (intros; apply wrap64_id; unfold is_int64; lia).
  apply orb_false_iff in Hguard as [_ Hguard%Z.ltb_ge].
  rewrite (Hw (max_int64 - e_Uplink e)), (Hw (max_int64 - e_Uplink e - e_Downlink e)) in Hguard by lia.
  rewrite (Hw (e_Uplink e + e_Downlink e)), Hw in H by lia.
  destruct (IH (S i) (e_UserID e) (raw + (e_Uplink e + e_Downlink e)) p2 Hl ltac:(lia) H) as (E & Ht & Hm).
  split; [done|]. split; [|done]. simpl. unfold entry_total. lia.
Qed.

Lemma credit_entries_frame now b i l p :
  p_nodes (credit_entries now b i l p) = p_nodes p ∧ p_batches (credit_entries now b i l p) = p_batches p.
Proof.
  revert i p. induction l as [|e l IH]; intros i p; cbn [credit_entries]; [done|].
  match goal with |- context [credit_entries now b (S i) l ?q] => destruct (IH (S i) q) as [-> ->] end. done.
Qed.

Lemma apply_body_Ok ft now b p p' :
  entries_ok 0 (b_Entries b) → apply_body ft now b p = Ok p' →
  p' = with_nodes (alter (add_bandwidth (entries_total (b_Entries b))) (b_NodeID b) (p_nodes p))
         (credit_entries now b 0 (b_Entries b) p) ∧ is_Some (p_nodes p !! b_NodeID b).
Proof.
  intros Hok. unfold apply_body. intros ([p1 total] & Hentries & H)%obind_Ok_inv.
  apply guard_bind_Ok_inv in H as [_ H]. apply obind_Ok_inv in H as ([p2 n] & Hupd & H).
  apply guard_bind_Ok_inv in H as [Haff [= <-]]. apply negb_false_iff, Z.eqb_eq in Haff. subst n.
  apply (apply_entries_Ok _ _ _ _ 0) in Hentries as (-> & -> & _); [|done|done].
  destruct (credit_entries_frame now b 0 (b_Entries b) p) as [Hn _].
  unfold update_bandwidth in Hupd. rewrite Hn in Hupd. destruct (p_nodes p !! b_NodeID b) as [r|] eqn:Hr; [|done].
  apply guard_bind_Ok_inv in Hupd as [_ [= <- _]]. split; [|by eexists].
  by rewrite (alter_insert _ _ _ r).
Qed.

(** the panel has a row for the batch, with its node and its hash *)
Definition batch_hash (b : Batch) : option (list Z) :=
  hash ← hex_decode (b_PayloadSHA256 b); if (length hash =? 32)%nat then Some hash else None.
Definition applied (b : Batch) (p : Panel) : Prop :=
  ∃ row hash, p_batches p !! batch_key (b_ID b) = Some row ∧ batch_hash b = Some hash ∧
    br_node_id row = b_NodeID b ∧ br_payload_sha256 row = hash.

Lemma update_user_no_panic up down now uid p : update_user up down now uid p ≠ Panic.
Proof. unfold update_user. no_panic. Qed.

Lemma apply_body_no_panic ft now b p : apply_body ft now b p ≠ Panic.
Proof.
  assert (He : ∀ l i raw p, apply_entries ft now b i raw l p ≠ Panic).
  { induction l as [|e l IH]; intros i raw q; cbn [apply_entries]; [done|]. unfold billed.
    no_panic; try apply update_user_no_panic; apply IH. }
  unfold apply_body, update_bandwidth. apply obind_no_panic; [apply He|intros]. no_panic.
Qed.

(** What an attempt can do. *)
Inductive attempt (now : nat → Z) (b : Batch) (p : Panel) : Panel → outcome string unit → Prop :=
| at_failed e : attempt now b p p (Err e)
| at_known : applied b p → attempt now b p p (Ok tt)
| at_credited hash res :
    p_batches p !! batch_key (b_ID b) = None → batch_hash b = Some hash → is_Some (p_nodes p !! b_NodeID b) →
    res = Ok tt ∨ res = Err "commit traffic batch" → attempt now b p (credit now b hash p) res.

Lemma ApplyBatch_attempt ft now b p : entries_ok 0 (b_Entries b) →
  attempt now b p (ApplyBatch ft now b p).1 (ApplyBatch ft now b p).2.
Proof.
  intros Hok. unfold ApplyBatch. fold (batch_hash b). destruct (batch_hash b) as [hash|] eqn:Hhash; [|constructor].
  destruct (af_begin ft), (af_insert ft); try constructor.
  destruct (p_batches p !! batch_key (b_ID b)) as [row|] eqn:Hrow.
  - cbn [fst snd]. destruct (af_verify ft); [constructor|]. cbn [guard_err obind].
    destruct (_ || _) eqn:E; [constructor|]. cbn [guard_err]. apply orb_false_iff in E as [E1 E2].
    apply at_known. exists row, hash. split; [done|]. split; [done|].
    apply negb_false_iff, Z.eqb_eq in E1. apply negb_false_iff, bool_decide_eq_true in E2. done.
  - set (q := with_batches _ p). destruct (apply_body ft now b q) as [p'|e|] eqn:Hbody.
    + apply apply_body_Ok in Hbody as [-> Hnode]; [|done].
      assert (E : with_nodes (alter (add_bandwidth (entries_total (b_Entries b))) (b_NodeID b) (p_nodes q))
         (credit_entries now b 0 (b_Entries b) q) = credit now b hash p).
      { unfold credit. cbv zeta. fold q. by rewrite (proj1 (credit_entries_frame now b 0 (b_Entries b) q)). }
      rewrite E. destruct (af_commit ft); cbn [fst snd]; [|constructor|]; apply at_credited; auto.
    + constructor.
    + by apply apply_body_no_panic in Hbody.
Qed.

Lemma credit_applied now b hash p : batch_hash b = Some hash → applied b (credit now b hash p).
Proof.
  intros Hh. unfold credit. cbv zeta. set (q := with_batches _ p).
  destruct (credit_entries_frame now b 0 (b_Entries b) q) as [_ Hb].
  exists (mkBatchRow (b_NodeID b) hash (b_CreatedAt b) (now 0%nat)), hash. split; [|done].
  change (p_batches (with_nodes ?m ?r)) with (p_batches r). rewrite Hb. apply lookup_insert_eq.
Qed.

(** C25: Applying a valid batch changes nothing, or writes everything that [credit]
    says in one step: whatever statement fails, the tables are as before or hold
    the batch, the users' traffic, the log and the bandwidth of the node, and
    nothing in between. The call succeeds only when the batch is recorded with its
    node and hash; when it was recorded before, it changes nothing. *)
Theorem apply_batch_all_or_nothing ft now b p p' res :
  validate_entries 0 (b_Entries b) = Ok tt → ApplyBatch ft now b p = (p', res) →
  res ≠ Panic ∧ (res = Ok tt → applied b p') ∧
  (p' = p ∨
   ∃ hash, p' = credit now b hash p ∧ batch_hash b = Some hash ∧ p_batches p !! batch_key (b_ID b) = None ∧
     is_Some (p_nodes p !! b_NodeID b) ∧ (res = Ok tt ∨ res = Err "commit traffic batch")).
Proof.
  intros Hok%validate_entries_Ok E. pose proof (ApplyBatch_attempt ft now b p Hok) as Ha. rewrite E in Ha.
  cbn [fst snd] in Ha. destruct Ha as [e|Hk|hash res Hnone Hh Hnode Hres].
  - split; [done|]. split; [done|]. by left.
  - split; [done|]. split; [done|]. by left.
  - split; [by destruct Hres as [-> | ->]|]. split; [intros _; by apply credit_applied|].
    right. by exists hash.
Qed.

(** A history of a batch: attempts to apply it, each with the panel before and after
    it and its result, between changes by others that leave the record of the batch
    alone. *)
Record Tried : Type := mkTried {
  tr_before : Panel;
  tr_after : Panel;
  tr_result : outcome string unit }.

Inductive history (b : Batch) : Panel → list Tried → Panel → Prop :=
| h_end p : history b p [] p
| h_attempt ft now p trace q :
    history b (ApplyBatch ft now b p).1 trace q →
    history b p (mkTried p (ApplyBatch ft now b p).1 (ApplyBatch ft now b p).2 :: trace) q
| h_elsewhere p p' trace q :
    p_batches p' !! batch_key (b_ID b) = p_batches p !! batch_key (b_ID b) →
    history b p' trace q → history b p trace q.

(** the attempt wrote nothing at all, and the attempt did not succeed *)
Definition idle_try (t : Tried) : Prop := tr_after t = tr_before t.
Definition failed_try (t : Tried) : Prop := idle_try t ∧ tr_result t ≠ Ok tt.
(** the attempt wrote the credit of the batch, all of it and nothing else *)
Definition credited_try (b : Batch) (t : Tried) : Prop :=
  ∃ now hash, batch_hash b = Some hash ∧ tr_after t = credit now b hash (tr_before t).

Lemma applied_transfer b p p' :
  p_batches p' !! batch_key (b_ID b) = p_batches p !! batch_key (b_ID b) → applied b p → applied b p'.
Proof. intros E (row & hash & Hrow & H). exists row, hash. by rewrite E. Qed.

(** once the panel has a row for the batch, no attempt changes anything *)
Lemma history_known b p trace q : entries_ok 0 (b_Entries b) →
  history b p trace q → p_batches p !! batch_key (b_ID b) ≠ None →
  Forall idle_try trace ∧ p_batches q !! batch_key (b_ID b) = p_batches p !! batch_key (b_ID b).
Proof.
  intros Hok. induction 1 as [p|ft now p trace q Hh IH|p p' trace q E Hh IH]; intros Hk; [done|..].
  - pose proof (ApplyBatch_attempt ft now b p Hok) as Ha.
    destruct (ApplyBatch ft now b p) as [p1 res]. cbn [fst snd] in *.
    destruct Ha as [e|_|hash res Hnone]; [..|done]; destruct (IH Hk); split; try done; by constructor.
  - rewrite <- E in *. by apply IH.
Qed.

(** C9: However often a batch is applied, with whatever failures, retries after
    unknown commits, and changes by others in between, its traffic is written at most
    once. Either every attempt failed and left every table of the panel as it was; or
    exactly one attempt wrote the credit of the batch, on top of what the panel held
    at that moment, every attempt before it failed and every attempt before or after
    it left every table as it was, and the batch is recorded at the end. So as soon as
    one attempt succeeds, the traffic has been written exactly once. *)
Theorem batch_is_credited_once b p trace q :
  validate_entries 0 (b_Entries b) = Ok tt → p_batches p !! batch_key (b_ID b) = None → history b p trace q →
  (Forall failed_try trace ∧ p_batches q !! batch_key (b_ID b) = None) ∨
  (∃ early t late, trace = (early ++ t :: late)%list ∧ Forall failed_try early ∧ credited_try b t ∧ Forall idle_try late ∧
     applied b q).
Proof.
  intros Hok%validate_entries_Ok Hnone Hh. revert Hnone.
  induction Hh as [p|ft now p trace q Hh IH|p p' trace q E Hh IH]; intros Hnone.
  - by left.
  - pose proof (ApplyBatch_attempt ft now b p Hok) as Ha.
    destruct (ApplyBatch ft now b p) as [p1 res]. cbn [fst snd] in *.
    destruct Ha as [e|Hk|hash res _ Hhash Hnode Hres].
    + destruct (IH Hnone) as [[H1 H2]|(early & t & late & -> & H1 & H2)].
      * left. split; [by constructor|done].
      * right. exists (mkTried p p (Err e) :: early), t, late. split; [done|]. split; [by constructor|done].
    + destruct Hk as (row & h & Hrow & _). by rewrite Hrow in Hnone.
    + pose proof (credit_applied now b hash p Hhash) as Happ. pose proof Happ as (row & h & Hrow & _).
      destruct (history_known b _ trace q Hok Hh ltac:(by rewrite Hrow)) as [Hidle Hq].
      right. exists [], (mkTried p (credit now b hash p) res), trace. split; [done|]. split; [done|].
      split; [by exists now, hash|]. split; [done|]. by apply (applied_transfer b _ q Hq).
  - apply IH. by rewrite E.
Qed.

(** ** What a credit adds *)
Definition find_entry (uid : Z) (l : list Entry) : option Entry := List.find (λ e, e_UserID e =? uid) l.

Lemma find_entry_none uid lastID l : entries_ok lastID l → uid ≤ lastID → find_entry uid l = None.
Proof.
  revert lastID. induction l as [|e l IH]; intros lastID; [done|]. cbn [entries_ok]. intros (H1 & _ & _ & _ & Hl) Hu.
  unfold find_entry in *. cbn [List.find]. rewrite (proj2 (Z.eqb_neq (e_UserID e) uid)) by lia.
  apply (IH (e_UserID e)); [done|lia].
Qed.

Lemma credit_entries_users now b i lastID l p uid : entries_ok lastID l →
  ∃ at_update, p_users (credit_entries now b i l p) !! uid =
    match find_entry uid l with
    | Some e => credit_row (bill (e_Uplink e) (b_TrafficRate b)) (bill (e_Downlink e) (b_TrafficRate b)) at_update <$> p_users p !! uid
    | None => p_users p !! uid
    end.
Proof.
  revert i lastID p. induction l as [|e l IH]; intros i lastID p Hok; [by exists 0|]. destruct Hok as (_ & _ & _ & _ & Hl).
  cbn [credit_entries]. match goal with |- context [credit_entries now b (S i) l ?q] => destruct (IH (S i) _ q Hl) as [t Ht] end.
  unfold find_entry. cbn [List.find]. destruct (Z.eqb_spec (e_UserID e) uid) as [<-|Hne].
  - exists (update_time now i). rewrite Ht. cbn [p_users]. unfold credit_entry.
    rewrite (find_entry_none (e_UserID e) _ l Hl) by done. by rewrite lookup_alter, decide_True.
  - exists t. rewrite Ht. cbn [p_users]. unfold credit_entry. by rewrite lookup_alter, decide_False.
Qed.

(** Crediting a valid batch adds to each of its users that the panel knows the
    billed traffic of the user's own entry, once, and to the bandwidth of the node
    the raw total; it changes no other user, node or configuration. *)
Theorem credit_adds_up now b hash p uid nodeID :
  validate_entries 0 (b_Entries b) = Ok tt →
  (∃ at_update, p_users (credit now b hash p) !! uid =
    match find_entry uid (b_Entries b) with
    | Some e => credit_row (bill (e_Uplink e) (b_TrafficRate b)) (bill (e_Downlink e) (b_TrafficRate b)) at_update <$> p_users p !! uid
    | None => p_users p !! uid
    end) ∧
  p_nodes (credit now b hash p) !! nodeID =
    (if decide (nodeID = b_NodeID b) then add_bandwidth (entries_total (b_Entries b)) <$> p_nodes p !! nodeID
     else p_nodes p !! nodeID) ∧
  p_configs (credit now b hash p) = p_configs p.
Proof.
  intros Hok%validate_entries_Ok. unfold credit. cbv zeta. set (q := with_batches _ p).
  split; [exact (credit_entries_users now b 0 0 (b_Entries b) q uid Hok)|]. split.
  - cbn [with_nodes p_nodes]. rewrite (proj1 (credit_entries_frame _ _ _ _ _)), lookup_alter.
    destruct (decide (nodeID = b_NodeID b)) as [->|Hne]; [by rewrite decide_True|by rewrite decide_False].
  - change (p_configs (with_nodes ?m ?r)) with (p_configs r). change (p_configs p) with (p_configs q).
    generalize q 0%nat (b_Entries b). clear. intros q i l. revert q i. induction l as [|e l IH]; intros q i; [done|].
    cbn [credit_entries]. by rewrite IH.
Qed.

(** ** Loading *)
Lemma sort_strings_idem l : sort_strings (sort_strings l) = sort_strings l.
Proof. apply sort_strings_perm. unfold sort_strings. apply (merge_sort_Permutation String.le). Qed.

Lemma compileRow_Ok id r u : compileRow id r = Ok u → user_ID u = id ∧ sort_lists u = u.
Proof.
  unfold compileRow, compileUser, ParseIPRules, ParsePorts, ParseSourceIPs. intros H.
  repeat first [apply guard_bind_Ok_inv in H as [_ H] | apply obind_Ok_inv in H as (? & ? & H)].
  injection H as <-. split; [done|].
  repeat match goal with H : obind _ _ = Ok _ |- _ => apply obind_Ok_inv in H as (? & _ & [= <-]) end.
  unfold sort_lists. cbn [user_ID user_UUID user_SpeedLimitMbps user_ConnectorLimit user_ForbiddenIPs user_ForbiddenPorts user_DisconnectIPs].
  by rewrite !sort_strings_idem.
Qed.

Definition warning (id : Z) (e : string) : string := "user_id=" +:+ format_int id +:+ " isolated: " +:+ e.

Lemma scan_users_Ok scan i rows users w : scan_users scan i rows = Ok (users, w) →
  (∀ id r, (id, r) ∈ rows → (∃ u, compileRow id r = Ok u ∧ u ∈ users) ∨ (∃ e, compileRow id r = Err e ∧ warning id e ∈ w)) ∧
  (∀ u, u ∈ users → ∃ r, (user_ID u, r) ∈ rows ∧ compileRow (user_ID u) r = Ok u) ∧
  sublist (map user_ID users) (map fst rows).
Proof.
  revert i users w. induction rows as [|[id r] rows IH]; intros i users w; cbn [scan_users].
  { intros [= <- <-]. split; [by intros ?? ?%not_elem_of_nil|]. split; [by intros ? ?%not_elem_of_nil|]. constructor. }
  intros [_ H]%guard_bind_Ok_inv. destruct (compileRow id r) as [u|e|] eqn:Hc; [..|done].
  - apply obind_Ok_inv in H as ([us ws] & H & [= <- <-]). destruct (IH _ _ _ H) as (H1 & H2 & H3).
    pose proof (proj1 (compileRow_Ok _ _ _ Hc)) as Hid. split; [|split].
    + intros id' r' [[= -> ->]|Hin]%elem_of_cons; [left; exists u; split; [done|by left]|].
      destruct (H1 _ _ Hin) as [(v & Hv & Hin')|?]; [left|by right]. exists v. split; [done|by right].
    + intros v [->|Hv]%elem_of_cons; [exists r; rewrite Hid; split; [by left|done]|].
      destruct (H2 v Hv) as (r' & ? & ?). exists r'. split; [by right|done].
    + cbn [map fst]. rewrite Hid. by constructor.
  - apply obind_Ok_inv in H as ([us ws] & H & [= <- <-]). destruct (IH _ _ _ H) as (H1 & H2 & H3). split; [|split].
    + intros id' r' [[= -> ->]|Hin]%elem_of_cons; [right; exists e; split; [done|by left]|].
      destruct (H1 _ _ Hin) as [?|(e' & ? & ?)]; [by left|right]. exists e'. split; [done|by right].
    + intros v Hv. destruct (H2 v Hv) as (r' & ? & ?). exists r'. split; [by right|done].
    + by constructor.
Qed.

Lemma elem_of_select_users n now p id r :
  ((id, r) ∈ select_users n now p) ↔ p_users p !! id = Some r ∧ eligible n now r = true.
Proof.
  unfold select_users. rewrite (merge_sort_Permutation row_le), list_elem_of_filter, elem_of_map_to_list. simpl. tauto.
Qed.

Lemma select_users_NoDup n now p : NoDup (map fst (select_users n now p)).
Proof.
  assert (E : map fst (select_users n now p) ≡ₚ map fst (filter (λ r, eligible n now r.2 = true) (map_to_list (p_users p)))).
  { apply (fmap_Permutation fst), merge_sort_Permutation. }
  rewrite E. eapply sublist_NoDup; [apply (NoDup_fst_map_to_list (p_users p))|].
  apply (fmap_sublist fst), sublist_filter.
Qed.

(** the steps of a load that succeeds *)
Lemma LoadSnapshot_inv ft now loadedAt nodeID p s w :
  LoadSnapshot ft now loadedAt nodeID p = Ok (s, w) →
  ∃ n users, select_node nodeID p = Some n ∧ validateNode n = Ok tt ∧
    scan_users (lf_scan ft) 0 (select_users n now p) = Ok (users, w) ∧ NoDup (map user_ID users) ∧
    snap_Node s = n ∧ snap_Users s = map sort_lists (sort_users users).
Proof.
  unfold LoadSnapshot. intros [_ H]%guard_bind_Ok_inv. destruct (select_node nodeID p) as [n|]; [|done].
  apply obind_Ok_inv in H as ([] & Hvalid & H). apply guard_bind_Ok_inv in H as [_ H].
  apply obind_Ok_inv in H as ([users ws] & Hscan & H). apply guard_bind_Ok_inv in H as [_ H].
  apply obind_Ok_inv in H as (s' & Hfin & [= <- <-]).
  destruct (scan_users _ _ _) as [[us ws']|e|] eqn:Hs; [injection Hscan as -> ->|done..].
  destruct (scan_users_Ok _ _ _ _ _ Hs) as (H1 & H2 & Hsub).
  unfold Finalize in Hfin. cbn [snap_Node snap_Users] in Hfin. destruct (snapshot_text _ _); [|done].
  injection Hfin as <-. exists n, users. split; [done|]. split; [by destruct (validateNode n) as [[]| |]|]. split; [done|].
  split; [|done]. eapply sublist_NoDup; [apply select_users_NoDup|exact Hsub].
Qed.

Lemma user_ID_sort_lists l : map user_ID (map sort_lists l) = map user_ID l.
Proof. rewrite map_map. by apply map_ext. Qed.

(** the users of a loaded snapshot have distinct ids, those of rows of the panel *)
Lemma LoadSnapshot_ids ft now loadedAt nodeID p s w :
  LoadSnapshot ft now loadedAt nodeID p = Ok (s, w) →
  NoDup (map user_ID (snap_Users s)) ∧ ∀ id, id ∈ map user_ID (snap_Users s) → is_Some (p_users p !! id).
Proof.
  intros (n & users & _ & _ & Hscan & Hnd & _ & ->)%LoadSnapshot_inv. rewrite user_ID_sort_lists.
  assert (E : map user_ID (sort_users users) ≡ₚ map user_ID users) by apply (fmap_Permutation user_ID), merge_sort_Permutation.
  split; [by rewrite E|]. intros id. rewrite E. intros (u & -> & Hu)%list_elem_of_fmap.
  destruct (scan_users_Ok _ _ _ _ _ Hscan) as (_ & H2 & _). destruct (H2 u Hu) as (r & Hin & _).
  apply elem_of_select_users in Hin as [Hr _]. by eexists.
Qed.

(** C30: A snapshot that loads has the enabled node, validated; every user that the
    panel makes eligible for the node is in it, compiled, or named in a warning
    when the user's row does not compile; it has nobody else, and is sorted by id:
    a bad row isolates its user and no other. *)
Theorem load_accounts_for_every_user ft now loadedAt nodeID p s w :
  LoadSnapshot ft now loadedAt nodeID p = Ok (s, w) →
  (∃ n, select_node nodeID p = Some n ∧ snap_Node s = n) ∧ validateNode (snap_Node s) = Ok tt ∧
  users_sorted (snap_Users s) ∧
  (∀ id r, p_users p !! id = Some r → eligible (snap_Node s) now r = true →
     (∃ u, compileRow id r = Ok u ∧ u ∈ snap_Users s) ∨ (∃ e, compileRow id r = Err e ∧ warning id e ∈ w)) ∧
  (∀ u, u ∈ snap_Users s → ∃ r, p_users p !! user_ID u = Some r ∧ eligible (snap_Node s) now r = true ∧
     compileRow (user_ID u) r = Ok u).
Proof.
  intros (n & users & Hn & Hvalid & Hs & Hnd & -> & ->)%LoadSnapshot_inv.
  destruct (scan_users_Ok _ _ _ _ _ Hs) as (H1 & H2 & Hsub).
  assert (Hsorted : ∀ u, u ∈ users → sort_lists u = u).
  { intros u (r & _ & Hc)%H2. apply (compileRow_Ok _ _ _ Hc). }
  assert (Hmem : ∀ u, (u ∈ map sort_lists (sort_users users)) ↔ u ∈ users).
  { intros u. rewrite list_elem_of_fmap. unfold sort_users. setoid_rewrite (merge_sort_Permutation user_le users). split.
    - intros (v & -> & Hv). by rewrite Hsorted.
    - intros Hu. exists u. by rewrite Hsorted. }
  split; [by exists n|]. split; [done|].
  split; [by apply finalized_users_sorted|]. split.
  - intros id r Hr He. setoid_rewrite Hmem. apply H1. by apply elem_of_select_users.
  - intros u Hu%Hmem. destruct (H2 u Hu) as (r & Hin & Hc). apply elem_of_select_users in Hin as [? ?]. by exists r.
Qed.

(** ** Nodes *)
Definition dns_label_ok (label : string) : Prop :=
  label ≠ EmptyString ∧ slen label ≤ 63 ∧ has_prefix label "-" = false ∧ has_suffix label "-" = false ∧
  string_all dns_char label = true.
(** a name of letters, digits and hyphens in labels *)
Definition dns_name (value : string) : Prop :=
  value ≠ EmptyString ∧ slen value ≤ 253 ∧ has_prefix value "." = false ∧ has_suffix value "." = false ∧
  Forall dns_label_ok (split_on "." value).
Definition host_ok (value : string) : Prop :=
  (∃ a, ParseAddr (trim value "[]") = Some a) ∨ dns_name (trim value "[]").

Lemma dns_label_Ok label : dns_label label = Ok tt ↔ dns_label_ok label.
Proof.
  unfold dns_label, dns_label_ok. rewrite guard_bind_Ok_inv, guard_err_Ok_inv, !orb_false_iff, negb_false_iff,
    String.eqb_neq, Z.ltb_ge. tauto.
Qed.

Lemma dns_labels_Ok l : dns_labels l = Ok tt ↔ Forall dns_label_ok l.
Proof.
  induction l as [|x l IH]; cbn [dns_labels]; [done|]. rewrite Forall_cons, <- dns_label_Ok, <- IH. split.
  - intros ([] & ? & ?)%obind_Ok_inv. done.
  - intros [-> ->]. done.
Qed.

Lemma validateDNSName_Ok value : validateDNSName value = Ok tt ↔ dns_name value.
Proof.
  unfold validateDNSName, dns_name. rewrite guard_bind_Ok_inv, dns_labels_Ok, !orb_false_iff, String.eqb_neq, Z.ltb_ge.
  tauto.
Qed.

Lemma validateHost_Ok value : validateHost value = Ok tt ↔ host_ok value.
Proof.
  unfold validateHost, host_ok. cbv zeta. destruct (ParseAddr (trim value "[]")) as [a|].
  - split; [|done]. intros _. left. by exists a.
  - rewrite validateDNSName_Ok. split; [by right|]. by intros [[a ?]|?].
Qed.

Lemma wrap_err_Ok (prefix : string) (c : outcome string unit) : wrap_err prefix c = Ok tt ↔ c = Ok tt.
Proof. by destruct c as [[]|e|]. Qed.

Lemma obind_unit_Ok (c k : outcome string unit) : (c ;? k) = Ok tt ↔ c = Ok tt ∧ k = Ok tt.
Proof. destruct c as [[]|e|]; simpl; split; try done; by intros []. Qed.

Lemma decode_key_Some value : decodeBase64URL32 value ≠ None ↔
  char_in "=" value = false ∧ ∃ key, b64_decode value = Some key ∧ length key = 32%nat.
Proof.
  unfold decodeBase64URL32. destruct (char_in "=" value); [split; [done|by intros []]|].
  destruct (b64_decode value) as [key|]; cbn [mbind option_bind]; [|split; [done|by intros (_ & ? & ? & _)]].
  destruct (Nat.eqb_spec (length key) 32); split; try done; [by intros _; split; [|exists key]|].
  by intros (_ & ? & [= <-] & ?).
Qed.

Lemma hex_decodes_even s : hex_decodes s = true → slen s mod 2 = 0.
Proof.
  unfold hex_decodes, slen. intros [[k Hk]%Nat.even_spec _]%andb_true_iff. rewrite Hk, Nat2Z.inj_mul, Z.mul_comm.
  apply Z.mod_mul. lia.
Qed.

(** A node of the panel is accepted exactly when its identity, port and rate are
    in range, its protocol is the only one supported, its public host is an address
    or a DNS name, its server name is a DNS name, its target is such a host with a
    port, its public key is 32 bytes of unpadded base64url and its short id at most
    eight bytes in hexadecimal. *)
Theorem validateNode_accepts n :
  validateNode n = Ok tt ↔
    0 < node_ID n ∧ node_ConfigurationVersion n ≠ 0 ∧ 1 ≤ node_PublicPort n ≤ 65535 ∧
    rate_invalid (node_TrafficRate n) = false ∧
    node_Fingerprint n = "chrome" ∧ node_Flow n = "xtls-rprx-vision" ∧ node_Transport n = "raw" ∧
    host_ok (node_PublicHost n) ∧ dns_name (node_ServerName n) ∧
    (∃ host portText port, SplitHostPort (node_Target n) = Some (host, portText) ∧ host_ok host ∧
       parse_int portText = Some port ∧ 1 ≤ port ≤ 65535) ∧
    char_in "=" (node_RealityPublicKey n) = false ∧
    (∃ key, b64_decode (node_RealityPublicKey n) = Some key ∧ length key = 32%nat) ∧
    slen (node_ShortID n) ≤ 16 ∧ hex_decodes (node_ShortID n) = true.
Proof.
  unfold validateNode. rewrite !guard_bind_Ok_inv, !obind_unit_Ok, !wrap_err_Ok, validateHost_Ok, validateDNSName_Ok,
    !orb_false_iff, !negb_false_iff, !String.eqb_eq, Z.leb_gt, Z.eqb_neq, !Z.ltb_ge.
  destruct (SplitHostPort (node_Target n)) as [[host portText]|].
  - rewrite !guard_bind_Ok_inv, guard_err_Ok_inv, !orb_false_iff, !negb_false_iff, bool_decide_eq_false, Z.ltb_ge,
      Z.eqb_eq, decode_key_Some.
    assert (Hhost : is_ok (validateHost host) = true ↔ host_ok host).
    { rewrite <- validateHost_Ok. by destruct (validateHost host) as [[]|e|]. }
    rewrite Hhost.
    assert (Hport : match parse_int portText with None => true | Some port => (port <? 1) || (65535 <? port) end = false
      ↔ ∃ port, parse_int portText = Some port ∧ 1 ≤ port ≤ 65535).
    { destruct (parse_int portText) as [port|]; [|split; [done|by intros (? & ? & _)]].
      rewrite orb_false_iff, !Z.ltb_ge. split; [intros; exists port; split; [done|lia]|by intros (? & [= <-] & ?)]. }
    rewrite Hport. split.
    + intros H. decompose [and ex] H. split_and!; try done; try lia; eauto 8.
    + intros H. decompose [and ex] H. simplify_eq. split_and!; try done; try lia; eauto.
      by apply hex_decodes_even.
  - split; [by intros H; decompose [and] H|]. intros H. decompose [and ex] H. done.
Qed.

(** ** Billing *)

(** A bill is not negative, unless the conversion of the largest product wraps. *)
Lemma billed_charges raw rate v : 0 ≤ raw → rate_invalid rate = false → billed raw rate = Ok v → 0 ≤ v ∨ v = min_int64.
Proof.
  intros Hraw Hrate. unfold billed. intros (_ & [= <-])%guard_bind_Ok_inv.
  apply f64_to_int64_nonneg, math_round_nonneg, f64_mul_nonneg; [by apply f64_of_int_nonneg|].
  unfold rate_invalid in Hrate. rewrite !orb_false_iff in Hrate.
  destruct Hrate as [[_ Hle] _]. by apply nonneg_positive.
Qed.

(** The largest counter at rate one: its float is 2^63, which passes the test
    against the float of the largest int64 and wraps in the conversion. *)
Lemma billed_wraps : billed max_int64 (f64_of_int 1) = Ok min_int64.
Proof. vm_compute. reflexivity. Qed.

(** A second report of a node within one second of the panel fails: the heartbeat
    does not change, so no row is counted as affected. *)
Lemma telemetry_twice_in_a_second ft now nodeID online online' uptime uptime' load load' p p' :
  ReportTelemetry ft (λ _, now) nodeID online uptime load p = (p', Ok tt) →
  ∃ e, ReportTelemetry ft (λ _, now) nodeID online' uptime' load' p' = (p', Err e).
Proof.
  assert (Halive : ∀ fails i l q q', insert_alive fails (λ _, now) nodeID i l q = Ok q' → p_nodes q' = p_nodes q).
  { intros fails i l. revert i. induction l as [|[u ip] l IH]; intros i q q'; cbn [insert_alive]; [by intros [= <-]|].
    intros [_ H]%guard_bind_Ok_inv. apply IH in H. done. }
  unfold ReportTelemetry. destruct (tf_begin ft); [done|]. cbv zeta.
  destruct (insert_alive _ _ _ _ _ p) as [t|e|] eqn:Ht; [|done|done].
  destruct (tf_online ft), (tf_info ft), (tf_heartbeat ft); try done.
  destruct (update_heartbeat _ _ _) as [q n] eqn:Hq. destruct (Z.eqb_spec n 1); [|done]. cbn [negb].
  destruct (tf_commit ft); [|done|done]. intros [= <-].
  assert (Hbeat : ∃ r, p_nodes q !! nodeID = Some r ∧ nr_node_heartbeat r = now).
  { unfold update_heartbeat in Hq. cbn [p_nodes] in Hq. destruct (p_nodes t !! nodeID) as [r|] eqn:Hr; [|by injection Hq as <- <-].
    injection Hq as <- _. cbn [with_nodes p_nodes]. exists (set_heartbeat now r). split; [apply lookup_insert_eq|done]. }
  destruct Hbeat as (r & Hr & Hnow).
  destruct (insert_alive _ _ _ _ _ q) as [t'|e'|] eqn:Ht'; [|by eexists|].
  - unfold update_heartbeat. cbn [p_nodes]. rewrite (Halive _ _ _ _ _ Ht'), Hr, Hnow, Z.eqb_refl. by eexists.
  - exfalso. clear -Ht'. revert Ht'. generalize 0%nat (mjoin (map (λ x : Z * list string, map (λ ip, (x.1, ip)) x.2) online')) q.
    intros i l. revert i. induction l as [|[u ip] l IH]; intros i q0; cbn [insert_alive]; [done|].
    unfold guard_err. case_match; [done|]. apply IH.
Qed.

(** ** Witnesses *)
Definition w_row (id : Z) (rules : string) : UserRow :=
  mkUserRow "pw" 10 20 0 1000000 1 0 5 0 2000000000 (f64_of_int 0) 0 (Some rules) None None.
Definition w_nodeRow : NodeRow := mkNodeRow "node" w_rate 0 0 (f64_of_int 0) 0 0 0 15 1 0.
Definition w_configRow : ConfigRow :=
  mkConfigRow "node.example.com" 443 "www.example.com" "www.example.com:443"
    "AAECAwQFBgcICQoLDA0ODxAREhMUFRYXGBkaGxwdHh8" "0123456789abcdef" "chrome" "xtls-rprx-vision" "raw" EmptyString 3.
Definition w_panel : Panel :=
  mkPanel (<[2 := w_row 2 "192.0.2.0/24"]> (<[5 := w_row 5 "nonsense"]> ∅)) {[ 7 := w_nodeRow ]} {[ 7 := w_configRow ]}
    ∅ [] [] [] [].
Definition w_lost : ApplyFaults :=
  mkApplyFaults false false false (λ _, false) (λ _, false) (λ _, false) false CommitUnknown.
Definition w_hash : list Z := Eval vm_compute in default [] (batch_hash w_batch).

Lemma w_valid : validate_entries 0 (b_Entries w_batch) = Ok tt.
Proof. vm_compute. reflexivity. Qed.

Definition w_clock (i : nat) : Z := 1700000100 + Z.of_nat i.

Lemma apply_batch_witness :
  let r := ApplyBatch no_apply_faults w_clock w_batch w_panel in
  r.2 ≠ Panic ∧ (r.2 = Ok tt → applied w_batch r.1) ∧
  (r.1 = w_panel ∨
   ∃ hash, r.1 = credit w_clock w_batch hash w_panel ∧ batch_hash w_batch = Some hash ∧
     p_batches w_panel !! batch_key (b_ID w_batch) = None ∧ is_Some (p_nodes w_panel !! b_NodeID w_batch) ∧
     (r.2 = Ok tt ∨ r.2 = Err "commit traffic batch")).
Proof.
  exact (apply_batch_all_or_nothing no_apply_faults w_clock w_batch w_panel _ _ w_valid (surjective_pairing _)).
Defined.

(** a refused connection, an unknown commit, a retry that finds the batch, and one more *)
Definition w_refused : ApplyFaults :=
  mkApplyFaults true false false (λ _, false) (λ _, false) (λ _, false) false Committed.
Lemma w_history : ∃ trace q, history w_batch w_panel trace q ∧
  map tr_result trace = [Err "begin"; Err "commit traffic batch"; Ok tt; Ok tt].
Proof.
  eexists _, _. split.
  - apply (h_attempt _ w_refused w_clock), (h_attempt _ w_lost w_clock), (h_attempt _ no_apply_faults w_clock),
      (h_attempt _ no_apply_faults w_clock), h_end.
  - vm_compute. reflexivity.
Qed.

Lemma batch_is_credited_once_witness : ∃ trace q, history w_batch w_panel trace q ∧ length trace = 4%nat ∧
  applied w_batch q ∧ ∃ t, t ∈ trace ∧ credited_try w_batch t.
Proof.
  destruct w_history as (trace & q & Hh & Hrs). exists trace, q. split; [exact Hh|].
  split; [rewrite <- (length_map tr_result), Hrs; reflexivity|].
  destruct (batch_is_credited_once w_batch w_panel trace q w_valid ltac:(vm_compute; reflexivity) Hh)
    as [[Hfail _]|(early & t & late & E & _ & Ht & _ & Happ)].
  - exfalso. assert (Hin : Ok tt ∈ map tr_result trace) by (rewrite Hrs; right; right; left).
    apply list_elem_of_fmap in Hin as (t & Ht & Hin). rewrite Forall_forall in Hfail.
    destruct (Hfail t Hin) as [_ Hne]. by destruct Hne.
  - split; [exact Happ|]. exists t. split; [|exact Ht]. rewrite E. apply elem_of_app. right. left.
Defined.

Lemma credit_adds_up_witness :
  (∃ at_update, p_users (credit w_clock w_batch w_hash w_panel) !! 5 =
     Some (credit_row 150 300 at_update (w_row 5 "nonsense"))) ∧
  nr_node_bandwidth <$> p_nodes (credit w_clock w_batch w_hash w_panel) !! 7 = Some 301.
Proof.
  destruct (credit_adds_up w_clock w_batch w_hash w_panel 5 7 w_valid) as ((t & H1) & H2 & _). rewrite H2.
  split; [exists t; rewrite H1|]; vm_compute; reflexivity.
Defined.

Definition no_load_faults : LoadFaults := mkLoadFaults false false (λ _, false) false.
Lemma load_accounts_witness : ∃ s w, LoadSnapshot no_load_faults 1700000000 0 7 w_panel = Ok (s, w) ∧
  validateNode (snap_Node s) = Ok tt ∧ users_sorted (snap_Users s).
Proof.
  assert (E : ∃ s w, LoadSnapshot no_load_faults 1700000000 0 7 w_panel = Ok (s, w)) by (eexists _, _; vm_compute; reflexivity).
  destruct E as (s & w & E). exists s, w. split; [exact E|].
  destruct (load_accounts_for_every_user no_load_faults 1700000000 0 7 w_panel s w E) as (_ & H1 & H2 & _). by split.
Defined.
