(* ===== verification/X25519.v ===== *)
(** Package [crypto/ecdh]: the public key of an X25519 private key (RFC 7748). *)
From S2P Require Import Prelude GoString Digest.

Local Open Scope string_scope.
Local Open Scope Z_scope.

Definition field_p : Z := 2 ^ 255 - 19.
(** a remainder by folding the high bits: [2 ^ 255 = 19] in the field *)
Definition mask255 : Z := Z.ones 255.
Definition fold_bits (x : Z) : Z := Z.land x mask255 + 19 * Z.shiftr x 255.
Definition reduce (x : Z) : Z :=
  let y := fold_bits (fold_bits x) in if y <? field_p then y else y - field_p.

Lemma fold_bits_spec x : 0 ≤ x → fold_bits x = x mod 2 ^ 255 + 19 * (x / 2 ^ 255).
Proof. intros Hx. unfold fold_bits, mask255. by rewrite Z.land_ones, Z.shiftr_div_pow2. Qed.

Lemma fold_bits_mod x : 0 ≤ x → fold_bits x mod field_p = x mod field_p ∧ 0 ≤ fold_bits x.
Proof.
  intros Hx. rewrite fold_bits_spec by done. pose proof (Z.div_mod x (2 ^ 255) ltac:(lia)) as Hd.
  pose proof (Z.mod_pos_bound x (2 ^ 255) ltac:(lia)). pose proof (Z.div_pos x (2 ^ 255) ltac:(lia) ltac:(lia)).
  split; [|lia]. assert (E : x = x mod 2 ^ 255 + 19 * (x / 2 ^ 255) + x / 2 ^ 255 * field_p) by (unfold field_p; lia).
  rewrite E at 3. by rewrite Z.mod_add by done.
Qed.

Lemma reduce_mod x : 0 ≤ x < 2 ^ 511 → reduce x = x mod field_p.
Proof.
  intros Hx. destruct (fold_bits_mod x ltac:(lia)) as [E1 H1]. destruct (fold_bits_mod _ H1) as [E2 H2].
  rewrite <- E1, <- E2. unfold reduce. cbv zeta.
  assert (B1 : fold_bits x < 2 ^ 261).
  { rewrite fold_bits_spec by lia. pose proof (Z.mod_pos_bound x (2 ^ 255) ltac:(lia)).
    assert (x / 2 ^ 255 < 2 ^ 256) by (apply Z.div_lt_upper_bound; lia). lia. }
  assert (B2 : fold_bits (fold_bits x) < 2 * field_p).
  { rewrite (fold_bits_spec (fold_bits x)) by lia. pose proof (Z.mod_pos_bound (fold_bits x) (2 ^ 255) ltac:(lia)).
    assert (fold_bits x / 2 ^ 255 < 2 ^ 6) by (apply Z.div_lt_upper_bound; lia). unfold field_p. lia. }
  generalize dependent (fold_bits (fold_bits x)). intros y _ Hy By. destruct (Z.ltb_spec y field_p).
  - symmetry. apply Z.mod_small. lia.
  - rewrite <- (Z.mod_small (y - field_p) field_p) by lia. rewrite <- (Z.mod_add y (-1) field_p) by done.
    replace (y + -1 * field_p) with (y - field_p) by lia. done.
Qed.
Definition fmul (a b : Z) : Z := reduce (a * b).
Definition fadd (a b : Z) : Z := reduce (a + b).
Definition fsub (a b : Z) : Z := reduce (a + field_p - b).

(** [a ^ n] by squaring *)
Fixpoint fpow (a : Z) (n : positive) : Z :=
  match n with
  | xH => a
  | xO n => let b := fpow a n in fmul b b
  | xI n => let b := fpow a n in fmul a (fmul b b)
  end.
Definition finv (a : Z) : Z := fpow a (Z.to_pos (field_p - 2)).

(** the Montgomery ladder over the bits [t .. 0] of the scalar *)
Fixpoint ladder (t : nat) (k x1 x2 z2 x3 z3 : Z) : Z * Z :=
  let bit := Z.testbit k (Z.of_nat t) in
  let '(x2, x3) := if bit then (x3, x2) else (x2, x3) in
  let '(z2, z3) := if bit then (z3, z2) else (z2, z3) in
  let a := fadd x2 z2 in let aa := fmul a a in
  let b := fsub x2 z2 in let bb := fmul b b in
  let e := fsub aa bb in
  let da := fmul (fsub x3 z3) a in
  let cb := fmul (fadd x3 z3) b in
  let x3 := let s := fadd da cb in fmul s s in
  let z3 := let d := fsub da cb in fmul x1 (fmul d d) in
  let x2 := fmul aa bb in
  let z2 := fmul e (fadd aa (fmul 121665 e)) in
  let '(x2, x3) := if bit then (x3, x2) else (x2, x3) in
  let '(z2, z3) := if bit then (z3, z2) else (z2, z3) in
  match t with
  | O => (x2, z2)
  | S t => ladder t k x1 x2 z2 x3 z3
  end.

Fixpoint of_le (l : list Z) : Z := match l with [] => 0 | b :: l => b + 256 * of_le l end.
Fixpoint to_le (n : nat) (z : Z) : list Z := match n with O => [] | S n => z mod 256 :: to_le n (z / 256) end.

(** the scalar of a private key: bits 0 to 2 and 255 are cleared, bit 254 is set *)
Definition clamp (k : Z) : Z := Z.lor (Z.land k (2 ^ 255 - 8)) (2 ^ 254).

(** NewPrivateKey(key).PublicKey().Bytes(); NewPrivateKey fails on another length *)
Definition public_key (key : list Z) : option (list Z) :=
  if (length key =? 32)%nat then
    let '(x, z) := ladder 254 (clamp (of_le key)) 9 1 0 9 1 in
    Some (to_le 32 (fmul x (finv z)))
  else None.

(** a test vector of RFC 7748, and the key pair of the examples of this development *)
Definition sample_private : list Z := 9 :: replicate 31 0.
Definition sample_public : list Z :=
  [66; 44; 142; 122; 98; 39; 215; 188; 161; 53; 11; 62; 43; 183; 39; 159; 120; 151; 184; 123; 182; 133;
   75; 120; 60; 96; 232; 3; 17; 174; 48; 121].
Lemma rfc7748 : public_key sample_private = Some sample_public.
Proof. vm_compute. reflexivity. Qed.
Example sample_public_hex : hex_encode sample_public = "422c8e7a6227d7bca1350b3e2bb7279f7897b87bb6854b783c60e80311ae3079".
Proof. vm_compute. reflexivity. Qed.
