(* ===== verification/Xray.v ===== *)
(** The parts of the vendored Xray core that the engine calls: the table of VLESS
    users ([proxy/vless/validator.go]), the parsing of their UUIDs
    ([common/uuid]), and the traffic counters ([app/stats]). *)
From S2P Require Import Prelude GoString Digest.

Local Open Scope string_scope.
Local Open Scope Z_scope.

(** ** uuid.ParseString *)
Definition set_at (i : nat) (f : Z → Z) (l : list Z) : list Z := (take i l ++ map f (take 1 (drop i l)) ++ drop (S i) l)%list.

(** the groups of hexadecimal digits, each with a dash before it if there is one *)
Fixpoint uuid_groups (groups : list nat) (text : string) : option (list Z) :=
  match groups with
  | [] => Some []
  | n :: groups =>
      let text := trim_prefix text "-" in
      if (String.length text <? n)%nat then None
      else
        b ← hex_decode (take_chars n text);
        rest ← uuid_groups groups (drop_chars n text);
        Some (b ++ rest)%list
  end.

Definition ParseString (str : string) : option (list Z) :=
  let l := slen str in
  if (l <? 32) || (36 <? l) then
    if (l =? 0) || (30 <? l) then None
    else
      let u := take 16 (sha1 (replicate 16 0 ++ bytes_of str)%list) in
      Some (set_at 8 (λ b, Z.lor (Z.land b 63) 128) (set_at 6 (λ b, Z.lor (Z.land b 15) 80) u))
  else uuid_groups [8; 4; 4; 4; 12]%nat str.

Example ParseString_ex : ParseString "d2b7d951-3d54-3f23-abb8-f752e336b3cd" =
  Some [210; 183; 217; 81; 61; 84; 63; 35; 171; 184; 247; 82; 227; 54; 179; 205] ∧
  ParseString "d2b7d9513d543f23abb8f752e336b3cd" = ParseString "d2b7d951-3d54-3f23-abb8-f752e336b3cd" ∧
  hex_encode <$> ParseString "example" = Some "feb54431301b52bba6dde1e93e81bb9e".
Proof. vm_compute. done. Qed.

(** ** The table of users *)

(** protocol.MemoryUser with a vless.MemoryAccount; the level is always 0 *)
Record MemoryUser : Type := mkMemoryUser {
  mu_ID : list Z;
  mu_Flow : string;
  mu_Encryption : string;
  mu_Email : string }.
#[global] Instance MemoryUser_eq_dec : EqDecision MemoryUser.
Proof. solve_decision. Defined.

(** ProcessUUID: two bytes of the UUID are free for the client *)
Definition ProcessUUID (id : list Z) : list Z := set_at 7 (λ _, 0) (set_at 6 (λ _, 0) id).

Record Validator : Type := mkValidator {
  v_email : gmap string MemoryUser;
  v_users : gmap (list Z) MemoryUser }.

Definition ValidatorAdd (u : MemoryUser) (v : Validator) : Validator * outcome string unit :=
  let store email := mkValidator email (<[ProcessUUID (mu_ID u) := u]> (v_users v)) in
  if String.eqb (mu_Email u) EmptyString then (store (v_email v), Ok tt)
  else
    let key := to_lower (mu_Email u) in
    match v_email v !! key with
    | Some _ => (v, Err ("User " +:+ mu_Email u +:+ " already exists."))
    | None => (store (<[key := u]> (v_email v)), Ok tt)
    end.

Definition ValidatorDel (e : string) (v : Validator) : Validator * outcome string unit :=
  if String.eqb e EmptyString then (v, Err "Email must not be empty.")
  else
    let key := to_lower e in
    match v_email v !! key with
    | None => (v, Err ("User " +:+ e +:+ " not found."))
    | Some u => (mkValidator (delete key (v_email v)) (delete (ProcessUUID (mu_ID u)) (v_users v)), Ok tt)
    end.

(** Get: the user that a request with this UUID belongs to *)
Definition ValidatorGet (id : list Z) (v : Validator) : option MemoryUser := v_users v !! ProcessUUID id.

(** ** The traffic counters, by name *)
Abbreviation counters := (gmap string Z) (only parsing).
Definition CounterSet (name : string) (value : Z) (c : counters) : counters * option Z :=
  match c !! name with Some old => (<[name := value]> c, Some old) | None => (c, None) end.
Definition CounterAdd (name : string) (delta : Z) (c : counters) : counters :=
  match c !! name with Some old => <[name := wrap64 (old + delta)]> c | None => c end.
(** the dispatcher registers the counters of a user with the first link *)
Definition GetOrRegisterCounter (name : string) (c : counters) : counters :=
  match c !! name with Some _ => c | None => <[name := 0]> c end.
