(* ===== verification/Engine.v ===== *)
(** Package [internal/xrayadapter]: the engine, which configures the data plane,
    keeps its users in step with the panel, and takes the traffic counters.

    [Start] ends in the construction of an Xray instance from the configuration;
    of it the engine relies on the users of the inbound, which come from the
    clients of the configuration, on the counters, which start empty, and on
    the errors, which the fault record lists. *)
From S2P Require Import Prelude GoString Float64 Digest Json Base64 X25519 Model Identity Config Session Outbox Xray.

Local Open Scope string_scope.
Local Open Scope Z_scope.

(** ** The configuration of the data plane *)
Definition verifyRealityKey (privateKey publicText : string) : outcome string string :=
  let privateText := trim_space privateKey in
  guard_err (char_in "=" privateText) "REALITY private key must be unpadded base64url" ;?
  match b64_decode privateText with
  | None => Err "REALITY private key must decode to 32 bytes"
  | Some privateBytes =>
      guard_err (negb (length privateBytes =? 32)%nat) "REALITY private key must decode to 32 bytes" ;?
      match public_key privateBytes with
      | None => Err "invalid REALITY private key"
      | Some key =>
          guard_err (negb (String.eqb (b64_encode key) publicText)) "REALITY private key does not match panel public key" ;?
          Ok privateText
      end
  end.

(** json.Marshal of a map: its keys are sorted *)
Definition key_le (a b : string * json) : Prop := String.le a.1 b.1.
#[global] Instance key_le_dec : RelDecision key_le.
Proof. intros a b. unfold key_le. apply _. Defined.
Definition map_json (l : list (string * json)) : json := JObject (merge_sort key_le l).

Definition client_json (n : Node) (u : User) : json :=
  map_json [("id", JString (user_UUID u)); ("email", JString (UserEmail (node_ID n) (user_ID u)));
            ("level", int_json 0); ("flow", JString (node_Flow n))].

Definition reality_json (n : Node) (privateText : string) : json :=
  map_json
    ([("show", JBool false); ("target", JString (node_Target n)); ("xver", int_json 0);
      ("serverNames", JArray [JString (node_ServerName n)]); ("privateKey", JString privateText);
      ("shortIds", JArray [JString (node_ShortID n)])] ++
     (if String.eqb (node_MinClientVersion n) EmptyString then []
      else [("minClientVer", JString (node_MinClientVersion n))]))%list.

Definition config_json (s : Snapshot) (host : string) (port : Z) (privateText : string) : json :=
  let n := snap_Node s in
  map_json
    [("log", map_json [("loglevel", JString "warning")]);
     ("stats", map_json []);
     ("policy", map_json [("levels", map_json [("0", map_json
        [("statsUserUplink", JBool true); ("statsUserDownlink", JBool true); ("statsUserOnline", JBool true)])])]);
     ("inbounds", JArray [map_json
        [("tag", JString "vless-reality-in"); ("listen", JString host); ("port", int_json port); ("protocol", JString "vless");
         ("settings", map_json [("clients", JArray (map (client_json n) (snap_Users s))); ("decryption", JString "none")]);
         ("streamSettings", map_json
            [("network", JString "raw"); ("security", JString "reality");
             ("realitySettings", reality_json n privateText)])]]);
     ("outbounds", JArray [map_json [("tag", JString "direct"); ("protocol", JString "freedom")];
                           map_json [("tag", JString "blocked"); ("protocol", JString "blackhole")]]);
     ("routing", map_json [("domainStrategy", JString "AsIs"); ("rules", JArray [])])].

Definition BuildConfig (s : Snapshot) (listen privateKey : string) : outcome string string :=
  let? privateText := verifyRealityKey privateKey (node_RealityPublicKey (snap_Node s)) in
  match SplitHostPort listen with
  | None => Err "split host port"
  | Some (host, portText) =>
      match parse_int portText with
      | None => Err "invalid syntax"
      | Some port => Ok (write (config_json s host port privateText))
      end
  end.

(** ** Users of the data plane *)
Definition memoryUser (n : Node) (u : User) : outcome string MemoryUser :=
  match ParseString (user_UUID u) with
  | None => Err ("compile user " +:+ format_int (user_ID u) +:+ ": failed to parse ID")
  | Some id => Ok (mkMemoryUser id (node_Flow n) "none" (UserEmail (node_ID n) (user_ID u)))
  end.

Definition AddUser (n : Node) (u : User) (v : Validator) : Validator * outcome string unit :=
  match memoryUser n u with
  | Ok memory => ValidatorAdd memory v
  | Err e => (v, Err e)
  | Panic => (v, Panic)
  end.
Definition RemoveUser (n : Node) (u : User) (v : Validator) : Validator * outcome string unit :=
  ValidatorDel (UserEmail (node_ID n) (user_ID u)) v.

(** the users of a new inbound *)
Fixpoint inbound_users (n : Node) (l : list User) (v : Validator) : outcome string Validator :=
  match l with
  | [] => Ok v
  | u :: l =>
      match AddUser n u v with
      | (v, Ok _) => inbound_users n l v
      | (_, Err e) => Err e
      | (_, Panic) => Panic
      end
  end.

Definition dataPlaneNodeEqual (left right : Node) : bool :=
  (node_ID left =? node_ID right) && f64_eqb (node_TrafficRate left) (node_TrafficRate right)
  && String.eqb (node_ServerName left) (node_ServerName right) && String.eqb (node_Target left) (node_Target right)
  && String.eqb (node_RealityPublicKey left) (node_RealityPublicKey right)
  && String.eqb (node_ShortID left) (node_ShortID right) && String.eqb (node_Fingerprint left) (node_Fingerprint right)
  && String.eqb (node_Flow left) (node_Flow right) && String.eqb (node_Transport left) (node_Transport right)
  && String.eqb (node_MinClientVersion left) (node_MinClientVersion right).

(** ** The engine *)

(** [running] says that the instance is not nil, and [registered] that [unregister] is not *)
Record Engine : Type := mkEngine {
  running : bool;
  stats : gmap string Z;
  table : Validator;
  registry : Registry;
  registered : bool;
  snapshot : Snapshot;
  retired : gset Z }.

Record StartFaults : Type := mkStartFaults {
  sf_load : bool;
  sf_new : bool;
  sf_start : bool;
  sf_stats : bool;
  sf_inbound : bool }.
Definition no_start_faults : StartFaults := mkStartFaults false false false false false.

(** [occupied]: another controller is registered in the process *)
Definition Start (ft : StartFaults) (occupied : bool) (s : Snapshot) (cfg : Config) (privateKey : string)
  : outcome string Engine :=
  let? _ := BuildConfig s (cfg_Listen cfg) privateKey in
  guard_err (sf_load ft) "compile Xray config" ;?
  guard_err occupied "register Xray session controller" ;?
  guard_err (sf_new ft) "create Xray core" ;?
  let? users := inbound_users (snap_Node s) (snap_Users s) (mkValidator ∅ ∅) in
  guard_err (sf_start ft) "start Xray core" ;?
  guard_err (sf_stats ft) "Xray stats manager is unavailable" ;?
  guard_err (sf_inbound ft) "VLESS inbound user manager is unavailable" ;?
  Ok (mkEngine true ∅ users (New s cfg) true s ∅).

Definition CanApply (e : Engine) (next : Snapshot) : bool := dataPlaneNodeEqual (snap_Node (snapshot e)) (snap_Node next).

(** the users of [users] that have no counterpart with the same UUID in [others] *)
Definition user_changed (others : gmap Z User) (u : User) : bool :=
  match others !! user_ID u with
  | None => true
  | Some v => negb (String.eqb (user_UUID u) (user_UUID v))
  end.
Definition changed_users (users others : gmap Z User) : list User :=
  sort_users (filter (λ u, user_changed others u = true) (map snd (map_to_list users))).

(** the loops of Apply: the users that were handled, and the error that stopped it *)
Fixpoint remove_all (n : Node) (l : list User) (v : Validator) : Validator * list User * option string :=
  match l with
  | [] => (v, [], None)
  | u :: l =>
      match RemoveUser n u v with
      | (v, Ok _) => let '(v, done, err) := remove_all n l v in (v, u :: done, err)
      | (v, Err e) => (v, [], Some e)
      | (v, Panic) => (v, [], None)
      end
  end.
Fixpoint add_all (n : Node) (l : list User) (v : Validator) : Validator * list User * option string :=
  match l with
  | [] => (v, [], None)
  | u :: l =>
      match AddUser n u v with
      | (v, Ok _) => let '(v, done, err) := add_all n l v in (v, u :: done, err)
      | (v, Err e) => (v, [], Some e)
      | (v, Panic) => (v, [], None)
      end
  end.

(** errors.Join of one more error *)
Definition join_err (err : option string) (c : outcome string unit) : option string :=
  match c, err with
  | Err e, None => Some e
  | Err e, Some err => Some (err +:+ bytes [10]%nat +:+ e)
  | _, _ => err
  end.
Fixpoint undo (op : User → Validator → Validator * outcome string unit) (l : list User) (v : Validator)
    (err : option string) : Validator * option string :=
  match l with
  | [] => (v, err)
  | u :: l => let '(v, c) := op u v in undo op l v (join_err err c)
  end.
Definition rollbackUsers (n : Node) (added removed : list User) (cause : string) (v : Validator) : Validator * string :=
  let '(v, err) := undo (RemoveUser n) added v None in
  let '(v, err) := undo (AddUser n) removed v err in
  (v, match err with
      | None => cause
      | Some e => "apply users failed (" +:+ cause +:+ "), rollback failed: " +:+ e
      end).

Definition with_table (v : Validator) (e : Engine) : Engine :=
  mkEngine (running e) (stats e) v (registry e) (registered e) (snapshot e) (retired e).

(** a later user takes the place of an earlier one with the same id *)
Definition usersByID (users : list User) : gmap Z User :=
  fold_left (λ result user, <[user_ID user := user]> result) users ∅.
Lemma usersByID_userMap : usersByID = userMap.
Proof. reflexivity. Qed.

(** Apply: the engine, and the revoked users with the interrupts that ran *)
Definition Apply (next : Snapshot) (e : Engine) : Engine * outcome string (list Z * list callback) :=
  if negb (running e) then (e, Err "Xray engine is closed")
  else if negb (dataPlaneNodeEqual (snap_Node (snapshot e)) (snap_Node next))
  then (e, Err "node data-plane configuration requires a full restart")
  else
    let node := snap_Node (snapshot e) in
    let oldByID := usersByID (snap_Users (snapshot e)) in
    let newByID := usersByID (snap_Users next) in
    let remove := changed_users oldByID newByID in
    let add := changed_users newByID oldByID in
    match remove_all node remove (table e) with
    | (v, removed, Some err) =>
        let '(v, err) := rollbackUsers node [] removed err v in (with_table v e, Err err)
    | (v, removed, None) =>
        match add_all (snap_Node next) add v with
        | (v, added, Some err) =>
            let '(v, err) := rollbackUsers node added removed err v in (with_table v e, Err err)
        | (v, added, None) =>
            match Update (registry e) next with
            | Panic => (with_table v e, Panic)
            | Err err => (with_table v e, Err err)
            | Ok (r, callbacks, revoked) =>
                let gone := dom oldByID ∖ dom newByID in
                (mkEngine true (stats e) v r (registered e) next ((retired e ∪ gone) ∖ dom newByID), Ok (revoked, callbacks))
            end
        end
    end.

(** ** Traffic *)
Definition counter_name (n : Node) (uid : Z) (direction : string) : string :=
  "user>>>" +:+ UserEmail (node_ID n) uid +:+ ">>>traffic>>>" +:+ direction.

Definition takeCounter (name : string) (c : gmap string Z) : gmap string Z * outcome string Z :=
  match CounterSet name 0 c with
  | (c, None) => (c, Ok 0)
  | (c, Some value) => if value <? 0 then (CounterAdd name value c, Err "negative Xray counter") else (c, Ok value)
  end.

(** the loop of drainLocked: the counters, the retired users and the entries *)
Fixpoint drain_loop (n : Node) (r : Registry) (ids : list Z) (c : gmap string Z) (ret : gset Z)
  : gmap string Z * gset Z * outcome string (list Entry) :=
  match ids with
  | [] => (c, ret, Ok [])
  | uid :: ids =>
      match takeCounter (counter_name n uid "uplink") c with
      | (c, Ok uplink) =>
          match takeCounter (counter_name n uid "downlink") c with
          | (c, Ok downlink) =>
              let '(entries, ret) :=
                if negb (uplink =? 0) || negb (downlink =? 0) then ([mkEntry uid uplink downlink], ret)
                else ([], if bool_decide (uid ∈ ret) && negb (HasUserSessions r uid) then ret ∖ {[uid]} else ret) in
              let '(c, ret, rest) := drain_loop n r ids c ret in
              (c, ret, let? rest := rest in Ok (entries ++ rest)%list)
          | (c, Err e) => (c, ret, Err e)
          | (c, Panic) => (c, ret, Panic)
          end
      | (c, Err e) => (c, ret, Err e)
      | (c, Panic) => (c, ret, Panic)
      end
  end.
Definition tracked (e : Engine) : gset Z := list_to_set (map user_ID (snap_Users (snapshot e))) ∪ retired e.
Definition Drain (e : Engine) : Engine * outcome string (list Entry) :=
  let '(c, ret, entries) :=
    drain_loop (snap_Node (snapshot e)) (registry e) (sorted_ids (tracked e)) (stats e) (retired e) in
  (mkEngine (running e) c (table e) (registry e) (registered e) (snapshot e) ret, entries).

Definition restore_entry (n : Node) (c : gmap string Z) (x : Entry) : gmap string Z :=
  CounterAdd (counter_name n (e_UserID x) "downlink") (e_Downlink x)
    (CounterAdd (counter_name n (e_UserID x) "uplink") (e_Uplink x) c).
Definition RestoreEntries (entries : list Entry) (e : Engine) : Engine :=
  mkEngine (running e) (fold_left (restore_entry (snap_Node (snapshot e))) entries (stats e)) (table e)
    (registry e) (registered e) (snapshot e) (retired e).

(** CloseAndDrain: the engine, the interrupts that ran, the entries, and the joined errors *)
Definition CloseAndDrain (close_fails : bool) (e : Engine)
  : Engine * list callback * outcome string (list Entry * option string) :=
  if negb (running e) then (e, [], Ok ([], None))
  else
    let '(r, callbacks) := CloseRegistry (registry e) in
    let closeErr := if close_fails then Some "close Xray core" else None in
    let e := mkEngine false (stats e) (table e) r false (snapshot e) (retired e) in
    match Drain e with
    | (e, Ok entries) => (e, callbacks, Ok (entries, closeErr))
    | (e, Err err) => (e, callbacks, Ok ([], join_err closeErr (Err err)))
    | (e, Panic) => (e, callbacks, Panic)
    end.

(** Online and SessionMetrics ask the registry; Snapshot is the field [snapshot] *)
Definition EngineOnline (now : Z) (e : Engine) : gmap Z (gmap string Z) := Online now (registry e).
Definition SessionMetrics (e : Engine) : Metrics := RegistryMetrics (registry e).

(** FlattenOnline: the addresses of each user that has any, sorted *)
Definition FlattenOnline {T} (value : gmap Z (gmap string T)) : gmap Z (list string) :=
  (λ byIP, merge_sort String.le (map fst (map_to_list byIP))) <$> filter (λ p, p.2 ≠ ∅) value.
