(* ===== verification/EngineUsers.v ===== *)
(** The users of the data plane: [Apply] brings the table of the inbound from the
    users of one snapshot to those of the next, or leaves it exactly as it was. *)
From S2P Require Import Prelude GoString Float64 Digest Policy Model Identity Config Session SessionUpdate Xray Engine.

Local Open Scope string_scope.
Local Open Scope Z_scope.

(** ** Identities *)
Lemma UserEmail_lower nid uid : to_lower (UserEmail nid uid) = UserEmail nid uid.
Proof. apply to_lower_id. unfold UserEmail. by rewrite !string_all_app, !format_int_not_upper. Qed.

Lemma UserEmail_inj nid a b :
  is_int64 a = true → is_int64 b = true → UserEmail nid a = UserEmail nid b → a = b.
Proof.
  unfold UserEmail. intros Ha Hb E. do 3 apply string_app_inj_l in E. by apply format_int_inj.
Qed.

Lemma memoryUser_Ok n u mu : memoryUser n u = Ok mu →
  ParseString (user_UUID u) = Some (mu_ID mu) ∧ mu_Email mu = UserEmail (node_ID n) (user_ID u).
Proof. unfold memoryUser. destruct (ParseString (user_UUID u)) as [id|]; [|done]. by intros [= <-]. Qed.

Lemma memoryUser_no_panic n u : memoryUser n u ≠ Panic.
Proof. unfold memoryUser. by destruct (ParseString _). Qed.

(** users with the same id and UUID are the same in the table *)
Lemma memoryUser_same n m u v : node_ID n = node_ID m → node_Flow n = node_Flow m →
  user_ID u = user_ID v → user_UUID u = user_UUID v → memoryUser n u = memoryUser m v.
Proof. unfold memoryUser. intros -> -> -> ->. done. Qed.

(** ** The table holds a set of users *)
Section Table.
Context (n : Node).

Record holds (P : User → Prop) (v : Validator) : Prop := {
  h_valid : ∀ u, P u → ∃ mu, memoryUser n u = Ok mu;
  h_email : ∀ key mu, v_email v !! key = Some mu ↔ ∃ u, P u ∧ memoryUser n u = Ok mu ∧ key = mu_Email mu;
  h_users : ∀ pid mu, v_users v !! pid = Some mu ↔ ∃ u, P u ∧ memoryUser n u = Ok mu ∧ pid = ProcessUUID (mu_ID mu) }.

(** users that can be in a table together: their ids are 64 bits wide, one id has
    one entry, and no two ids share a UUID as the table sees it *)
Record compatible (P : User → Prop) : Prop := {
  c_range : ∀ u, P u → is_int64 (user_ID u) = true;
  c_one : ∀ u v, P u → P v → user_ID u = user_ID v → memoryUser n u = memoryUser n v;
  c_uuid : ∀ u v mu mv, P u → P v → memoryUser n u = Ok mu → memoryUser n v = Ok mv →
    ProcessUUID (mu_ID mu) = ProcessUUID (mu_ID mv) → user_ID u = user_ID v }.

Lemma compatible_weaken (P Q : User → Prop) : (∀ u, Q u → P u) → compatible P → compatible Q.
Proof. intros H [H1 H2 H3]. constructor; eauto. Qed.

Lemma email_inj (P : User → Prop) u v mu mv : compatible P → P u → P v →
  memoryUser n u = Ok mu → memoryUser n v = Ok mv → mu_Email mu = mu_Email mv → user_ID u = user_ID v ∧ mu = mv.
Proof.
  intros Hc Hu Hv Eu Ev E. assert (Hid : user_ID u = user_ID v).
  { rewrite (proj2 (memoryUser_Ok _ _ _ Eu)), (proj2 (memoryUser_Ok _ _ _ Ev)) in E.
    apply UserEmail_inj in E; [done|by apply (c_range P)..]. }
  split; [done|]. pose proof (c_one P Hc u v Hu Hv Hid) as Em. congruence.
Qed.

(** the table is determined by the entries it holds *)
Lemma holds_unique P Q v w : holds P v → holds Q w →
  (∀ mu, (∃ u, P u ∧ memoryUser n u = Ok mu) ↔ (∃ u, Q u ∧ memoryUser n u = Ok mu)) → v = w.
Proof.
  intros [_ E1 U1] [_ E2 U2] HPQ. destruct v as [ve vu], w as [we wu]. simpl in *. f_equal.
  - apply map_eq. intros key. apply option_eq. intros mu. rewrite E1, E2. specialize (HPQ mu). split.
    + intros (u & Hu & Em & ->). destruct (proj1 HPQ ltac:(eauto)) as (w & ? & ?). eauto.
    + intros (u & Hu & Em & ->). destruct (proj2 HPQ ltac:(eauto)) as (w & ? & ?). eauto.
  - apply map_eq. intros key. apply option_eq. intros mu. rewrite U1, U2. specialize (HPQ mu). split.
    + intros (u & Hu & Em & ->). destruct (proj1 HPQ ltac:(eauto)) as (w & ? & ?). eauto.
    + intros (u & Hu & Em & ->). destruct (proj2 HPQ ltac:(eauto)) as (w & ? & ?). eauto.
Qed.

Lemma holds_ext P Q v : holds P v → (∀ u, P u ↔ Q u) → holds Q v.
Proof.
  intros [H1 H2 H3] E. constructor.
  - intros u Hu%E. eauto.
  - intros key mu. rewrite H2. by setoid_rewrite E.
  - intros pid mu. rewrite H3. by setoid_rewrite E.
Qed.

Definition without (P : User → Prop) (ids : list Z) : User → Prop := λ x, P x ∧ user_ID x ∉ ids.

Lemma remove_holds P v u : holds P v → compatible P → P u →
  ∃ v', RemoveUser n u v = (v', Ok tt) ∧ holds (without P [user_ID u]) v'.
Proof.
  intros Hh Hc Hu. pose proof Hh as [Hv He Hp]. destruct (Hv u Hu) as [mu Emu].
  pose proof (proj2 (memoryUser_Ok _ _ _ Emu)) as Email.
  assert (Hlook : v_email v !! UserEmail (node_ID n) (user_ID u) = Some mu) by (apply He; exists u; by rewrite <- Email).
  unfold RemoveUser, ValidatorDel. rewrite UserEmail_lower, Hlook. eexists. split; [done|]. constructor.
  - intros x [Hx _]. by apply Hv.
  - intros key mx. cbn [v_email]. rewrite lookup_delete_Some, He. split.
    + intros (Hne & x & Hx & Ex & ->). exists x. split; [|done]. split; [done|].
      intros Hid%list_elem_of_singleton. apply Hne. rewrite <- Email.
      pose proof (c_one P Hc u x Hu Hx (eq_sym Hid)) as Em. congruence.
    + intros (x & [Hx Hid] & Ex & ->). split; [|by exists x]. rewrite <- Email. intros E.
      apply Hid. destruct (email_inj P u x mu mx Hc Hu Hx Emu Ex E) as [Hux _]. rewrite Hux. by left.
  - intros pid mx. cbn [v_users]. rewrite lookup_delete_Some, Hp. split.
    + intros (Hne & x & Hx & Ex & ->). exists x. split; [|done]. split; [done|].
      intros Hid%list_elem_of_singleton. apply Hne.
      pose proof (c_one P Hc u x Hu Hx (eq_sym Hid)) as Em. congruence.
    + intros (x & [Hx Hid] & Ex & ->). split; [|by exists x]. intros E.
      apply Hid. rewrite (c_uuid P Hc u x mu mx) by done. by left.
Qed.

Lemma add_holds P v u mu : holds P v → compatible (λ x, P x ∨ x = u) →
  (∀ x, P x → user_ID x ≠ user_ID u) → memoryUser n u = Ok mu →
  ∃ v', AddUser n u v = (v', Ok tt) ∧ holds (λ x, P x ∨ x = u) v'.
Proof.
  intros Hh Hc Hfresh Emu. pose proof Hh as [Hv He Hp].
  pose proof (proj2 (memoryUser_Ok _ _ _ Emu)) as Email.
  assert (Hnot : ∀ x mx, P x → memoryUser n x = Ok mx → mu_Email mx ≠ mu_Email mu).
  { intros x mx Hx Ex E. apply (Hfresh x Hx).
    by destruct (email_inj _ x u mx mu Hc (or_introl Hx) (or_intror eq_refl) Ex Emu E). }
  assert (Hlook : v_email v !! mu_Email mu = None).
  { apply eq_None_not_Some. intros [mx (x & Hx & Ex & E)%He]. by destruct (Hnot x mx Hx Ex). }
  unfold AddUser, ValidatorAdd. rewrite Emu.
  assert (Hne : String.eqb (mu_Email mu) EmptyString = false) by (rewrite Email; done).
  rewrite Hne. rewrite Email, UserEmail_lower, <- Email, Hlook. eexists. split; [done|]. constructor.
  - intros x [Hx| ->]; [by apply Hv|by exists mu].
  - intros key mx. cbn [v_email]. rewrite lookup_insert_Some, He. split.
    + intros [[<- <-]|(Hk & x & Hx & Ex & ->)]; [exists u; split; [by right|done]|exists x; split; [by left|done]].
    + intros (x & [Hx| ->] & Ex & ->); [right|left].
      * split; [|by exists x]. intros E. by apply (Hnot x mx).
      * rewrite Emu in Ex. by injection Ex as <-.
  - intros pid mx. cbn [v_users]. rewrite lookup_insert_Some, Hp. split.
    + intros [[<- <-]|(Hk & x & Hx & Ex & ->)]; [exists u; split; [by right|done]|exists x; split; [by left|done]].
    + intros (x & [Hx| ->] & Ex & ->); [right|left].
      * split; [|by exists x]. intros E. apply (Hfresh x Hx). symmetry.
        by apply (c_uuid _ Hc u x mu mx); [right|left|..].
      * rewrite Emu in Ex. by injection Ex as <-.
Qed.

Lemma remove_all_holds P v l : holds P v → compatible P → (∀ u, u ∈ l → P u) → NoDup (map user_ID l) →
  ∃ v', remove_all n l v = (v', l, None) ∧ holds (without P (map user_ID l)) v'.
Proof.
  revert P v. induction l as [|u l IH]; intros P v Hh Hc Hl Hnd.
  { exists v. split; [done|]. eapply holds_ext; [done|]. intros u. unfold without. rewrite elem_of_nil. tauto. }
  cbn [map] in Hnd. apply NoDup_cons in Hnd as [Hnot Hnd].
  destruct (remove_holds P v u Hh Hc (Hl u ltac:(by left))) as (v1 & E1 & H1).
  destruct (IH (without P [user_ID u]) v1 H1) as (v2 & E2 & H2).
  - eapply compatible_weaken; [|done]. by intros x [? _].
  - intros x Hx. split; [apply Hl; by right|]. intros E%list_elem_of_singleton. apply Hnot. rewrite <- E.
    by apply list_elem_of_fmap_2.
  - done.
  - exists v2. cbn [remove_all]. rewrite E1, E2. split; [done|]. eapply holds_ext; [done|].
    intros x. unfold without. cbn [map]. rewrite list_elem_of_singleton, elem_of_cons. tauto.
Qed.

Lemma undo_remove_holds P v l err : holds P v → compatible P → (∀ u, u ∈ l → P u) → NoDup (map user_ID l) →
  ∃ v', undo (RemoveUser n) l v err = (v', err) ∧ holds (without P (map user_ID l)) v'.
Proof.
  intros Hh Hc Hl Hnd. destruct (remove_all_holds P v l Hh Hc Hl Hnd) as (v' & E & H'). exists v'. split; [|done].
  clear -E. revert v v' E. induction l as [|u l IH]; intros v v'; cbn [remove_all undo]; [by intros [= ->]|].
  destruct (RemoveUser n u v) as [v1 [[]|e|]]; [|done..]. cbn [join_err].
  destruct (remove_all n l v1) as [[v2 l2] err2] eqn:E2. intros [= <- -> ->]. by rewrite (IH _ _ E2).
Qed.

(** what adding users one by one leads to: all are in, or those before the first
    whose UUID does not parse *)
Lemma add_all_holds P v l : holds P v → compatible (λ x, P x ∨ x ∈ l) → NoDup (map user_ID l) →
  (∀ x u, P x → u ∈ l → user_ID x ≠ user_ID u) →
  ∃ v' l1 l2, l = (l1 ++ l2)%list ∧ holds (λ x, P x ∨ x ∈ l1) v' ∧
    ((l2 = [] ∧ add_all n l v = (v', l1, None)) ∨
     ∃ u e, head l2 = Some u ∧ memoryUser n u = Err e ∧ add_all n l v = (v', l1, Some e)).
Proof.
  revert P v. induction l as [|u l IH]; intros P v Hh Hc Hnd Hfresh.
  { exists v, [], []. split; [done|]. split; [|by left]. eapply holds_ext; [done|].
    intros x. rewrite elem_of_nil. tauto. }
  cbn [map] in Hnd. apply NoDup_cons in Hnd as [Hnot Hnd].
  destruct (memoryUser n u) as [mu|e|] eqn:Em; [|..|by apply memoryUser_no_panic in Em].
  - destruct (add_holds P v u mu Hh) as (v1 & E1 & H1); [|by intros x Hx; apply Hfresh; [|left]|done|].
    { eapply compatible_weaken; [|exact Hc]. intros x [?| ->]; [by left|right; by left]. }
    destruct (IH (λ x, P x ∨ x = u) v1 H1) as (v2 & l1 & l2 & -> & H2 & Hres); [|done|..].
    { eapply compatible_weaken; [|exact Hc]. intros x [[?| ->]|?]; [by left|right; by left|right; by right]. }
    { intros x w [Hx| ->] Hw; [apply Hfresh; [done|by right]|].
      intros E. apply Hnot. rewrite E. by apply list_elem_of_fmap_2. }
    exists v2, (u :: l1), l2. split; [done|]. split.
    { eapply holds_ext; [done|]. intros x. rewrite elem_of_cons. tauto. }
    cbn [add_all]. rewrite E1. destruct Hres as [[-> E2]|(w & e & Hw & Ew & E2)]; rewrite E2; [by left|right; eauto].
  - exists v, [], (u :: l). split; [done|]. split.
    { eapply holds_ext; [done|]. intros x. rewrite elem_of_nil. tauto. }
    right. exists u, e. split; [done|]. split; [done|]. cbn [add_all]. unfold AddUser. by rewrite Em.
Qed.

Lemma undo_add_holds P v l err : holds P v → compatible (λ x, P x ∨ x ∈ l) → NoDup (map user_ID l) →
  (∀ x u, P x → u ∈ l → user_ID x ≠ user_ID u) → (∀ u, u ∈ l → ∃ mu, memoryUser n u = Ok mu) →
  ∃ v', undo (AddUser n) l v err = (v', err) ∧ holds (λ x, P x ∨ x ∈ l) v'.
Proof.
  intros Hh Hc Hnd Hfresh Hvalid. destruct (add_all_holds P v l Hh Hc Hnd Hfresh) as (v' & l1 & l2 & El & H' & Hres).
  destruct Hres as [[-> E]|(u & e & Hu & Ee & _)].
  2:{ destruct l2 as [|w l2]; [done|]. injection Hu as ->. destruct (Hvalid u) as [mu Emu]; [|congruence].
      rewrite El. apply elem_of_app. right. by left. }
  rewrite app_nil_r in El. subst l1. exists v'. split; [|done]. clear -E. revert v v' E.
  induction l as [|u l IH]; intros v v'; cbn [add_all undo]; [by intros [= ->]|].
  destruct (AddUser n u v) as [v1 [[]|e|]]; [|done..]. cbn [join_err].
  destruct (add_all n l v1) as [[v2 l2] err2] eqn:E2. intros [= <- -> ->]. by rewrite (IH _ _ E2).
Qed.
End Table.

(** ** The users to remove and to add *)
Lemma userMap_Some users id u : NoDup (map user_ID users) →
  userMap users !! id = Some u ↔ u ∈ users ∧ user_ID u = id.
Proof.
  intros Hnd. split; [by intros [? ?]%lookup_userMap_Some|]. intros [Hu <-].
  destruct (userMap users !! user_ID u) as [v|] eqn:Hv.
  - apply lookup_userMap_Some in Hv as [Hid Hv]. f_equal.
    apply list_elem_of_lookup in Hu as [i Hi], Hv as [j Hj].
    assert (i = j) as ->; [|congruence]. eapply NoDup_lookup; [exact Hnd|..].
    + change (map user_ID users) with (user_ID <$> users). rewrite list_lookup_fmap, Hi. done.
    + change (map user_ID users) with (user_ID <$> users). rewrite list_lookup_fmap, Hj. simpl. by rewrite Hid.
  - rewrite lookup_userMap, last_None in Hv. exfalso.
    assert (Hin : u ∈ filter (λ v, user_ID v = user_ID u) users) by (by apply list_elem_of_filter).
    rewrite Hv in Hin. by apply not_elem_of_nil in Hin.
Qed.

(** a user has a counterpart with the same id and UUID *)
Definition counterpart (others : list User) (u : User) : Prop :=
  ∃ v, v ∈ others ∧ user_ID v = user_ID u ∧ user_UUID v = user_UUID u.

Lemma user_changed_spec others u : NoDup (map user_ID others) →
  user_changed (userMap others) u = true ↔ ¬ counterpart others u.
Proof.
  intros Hnd. unfold user_changed, counterpart. destruct (userMap others !! user_ID u) as [v|] eqn:Hv.
  - apply userMap_Some in Hv as [Hv Hid]; [|done]. rewrite negb_true_iff, String.eqb_neq. split.
    + intros Hne (w & Hw & Hwid & Huuid). apply Hne. rewrite <- Huuid. f_equal.
      assert (E : userMap others !! user_ID u = Some w) by (by apply userMap_Some).
      assert (E' : userMap others !! user_ID u = Some v) by (by apply userMap_Some). congruence.
    + intros Hno E. apply Hno. by exists v.
  - split; [|done]. intros _ (w & Hw & Hwid & _).
    assert (E : userMap others !! user_ID u = Some w) by (by apply userMap_Some). congruence.
Qed.

Lemma user_unchanged others u : user_changed (userMap others) u = false → counterpart others u.
Proof.
  unfold user_changed. destruct (userMap others !! user_ID u) as [v|] eqn:Hv; [|done].
  apply lookup_userMap_Some in Hv as [Hid Hv]. intros E%negb_false_iff%String.eqb_eq. by exists v.
Qed.

Lemma elem_of_changed_users users others u : NoDup (map user_ID users) → NoDup (map user_ID others) →
  (u ∈ changed_users (userMap users) (userMap others)) ↔ u ∈ users ∧ ¬ counterpart others u.
Proof.
  intros Hu Ho. unfold changed_users, sort_users. rewrite (merge_sort_Permutation user_le), list_elem_of_filter,
    user_changed_spec by done.
  assert (E : (u ∈ map snd (map_to_list (userMap users))) ↔ u ∈ users); [|rewrite E; tauto].
  rewrite list_elem_of_fmap. split.
  - intros ([k w] & -> & Hw%elem_of_map_to_list). by apply userMap_Some in Hw as [? _].
  - intros Hin. exists (user_ID u, u). split; [done|]. by apply elem_of_map_to_list, userMap_Some.
Qed.

Lemma changed_users_NoDup users others : NoDup (map user_ID users) →
  NoDup (map user_ID (changed_users (userMap users) others)).
Proof.
  intros Hnd. unfold changed_users, sort_users.
  assert (E : map user_ID (merge_sort user_le (filter (λ u, user_changed others u = true) (map snd (map_to_list (userMap users)))))
    ≡ₚ map user_ID (filter (λ u, user_changed others u = true) (map snd (map_to_list (userMap users))))).
  { apply (fmap_Permutation user_ID), merge_sort_Permutation. }
  rewrite E. eapply sublist_NoDup; [|apply (fmap_sublist user_ID), sublist_filter].
  assert (E2 : map user_ID (map snd (map_to_list (userMap users))) = map fst (map_to_list (userMap users))).
  { rewrite map_map. apply map_ext_in. intros [k w] Hw%list_elem_of_In%elem_of_map_to_list.
    by apply userMap_Some in Hw as [_ ?]. }
  change (NoDup (map user_ID (map snd (map_to_list (userMap users))))). rewrite E2. apply NoDup_fst_map_to_list.
Qed.

(** ** Apply *)
Definition in_users (users : list User) : User → Prop := λ u, u ∈ users.

(** the table of the engine holds exactly the users of its snapshot *)
Definition in_step (e : Engine) : Prop :=
  holds (snap_Node (snapshot e)) (in_users (snap_Users (snapshot e))) (table e).

Lemma dataPlane_identity n m : dataPlaneNodeEqual n m = true → node_ID n = node_ID m ∧ node_Flow n = node_Flow m.
Proof.
  unfold dataPlaneNodeEqual. rewrite !andb_true_iff, !String.eqb_eq, Z.eqb_eq. tauto.
Qed.

Lemma AddUser_same n m u v : node_ID n = node_ID m → node_Flow n = node_Flow m → AddUser n u v = AddUser m u v.
Proof. intros H1 H2. unfold AddUser. by rewrite (memoryUser_same n m u u). Qed.

Lemma add_all_same n m l v : node_ID n = node_ID m → node_Flow n = node_Flow m → add_all n l v = add_all m l v.
Proof.
  intros H1 H2. revert v. induction l as [|u l IH]; intros v; [done|]. cbn [add_all].
  rewrite (AddUser_same n m) by done. destruct (AddUser m u v) as [v1 [[]|e|]]; [by rewrite IH|done..].
Qed.

Lemma holds_same n m P v : node_ID n = node_ID m → node_Flow n = node_Flow m → holds n P v → holds m P v.
Proof.
  intros H1 H2 [A B C]. assert (E : ∀ u, memoryUser m u = memoryUser n u) by (intros; by apply memoryUser_same).
  constructor; setoid_rewrite E; done.
Qed.

(** the users that stay and those that are added are the entries of the next snapshot *)
Section Switch.
Context (n : Node) (old new : list User).
Context (Hold : NoDup (map user_ID old)) (Hnew : NoDup (map user_ID new)).
Context (Cold : compatible n (in_users old)) (Cnew : compatible n (in_users new)).

Definition to_remove : list User := changed_users (userMap old) (userMap new).
Definition to_add : list User := changed_users (userMap new) (userMap old).
Definition kept : User → Prop := without (in_users old) (map user_ID to_remove).

Lemma old_unique u v : u ∈ old → v ∈ old → user_ID u = user_ID v → u = v.
Proof using Hold.
  intros Hu Hv E. assert (E1 : userMap old !! user_ID u = Some u) by (by apply userMap_Some).
  assert (E2 : userMap old !! user_ID u = Some v) by (by apply userMap_Some). congruence.
Qed.

Lemma kept_spec u : kept u ↔ u ∈ old ∧ counterpart new u.
Proof using Hold Hnew.
  unfold kept, without, in_users. split.
  - intros [Hu Hno]. split; [done|]. destruct (user_changed (userMap new) u) eqn:E.
    + destruct Hno. apply list_elem_of_fmap_2. apply elem_of_changed_users; [done..|].
      split; [done|]. by apply user_changed_spec.
    + by apply user_unchanged.
  - intros [Hu Hc]. split; [done|]. intros (w & Hid & [Hw Hno]%elem_of_changed_users)%list_elem_of_fmap; [|done..].
    assert (u = w) as -> by (by apply old_unique). done.
Qed.

Lemma kept_add_compatible : compatible n (λ x, kept x ∨ x ∈ to_add).
Proof using Hold Hnew Cnew.
  assert (Hrep : ∀ x, kept x ∨ x ∈ to_add → ∃ y, y ∈ new ∧ user_ID y = user_ID x ∧ memoryUser n y = memoryUser n x).
  { intros x [(_ & y & Hy & Hid & Huuid)%kept_spec|[Hx _]%elem_of_changed_users]; [|by exists x|done..].
    exists y. split; [done|]. split; [done|]. by apply memoryUser_same. }
  destruct Cnew as [C1 C2 C3]. constructor.
  - intros u (y & Hy & <- & _)%Hrep. by apply C1.
  - intros u v (y & Hy & Hu & <-)%Hrep (z & Hz & Hv & <-)%Hrep E. apply C2; [done..|congruence].
  - intros u v mu mv (y & Hy & <- & <-)%Hrep (z & Hz & <- & <-)%Hrep Eu Ev E. by eapply C3.
Qed.

Lemma kept_add_fresh x u : kept x → u ∈ to_add → user_ID x ≠ user_ID u.
Proof using Hold Hnew.
  intros (Hx & y & Hy & Hid & Huuid)%kept_spec [Hu Hno]%elem_of_changed_users E; [|done..].
  apply Hno. exists x. split; [done|]. split; [done|]. rewrite <- Huuid. f_equal.
  assert (E1 : userMap new !! user_ID x = Some y) by (by apply userMap_Some).
  assert (E2 : userMap new !! user_ID x = Some u) by (by apply userMap_Some). congruence.
Qed.

(** removing and adding leads to the users of the next snapshot *)
Lemma switch_reaches_new v : holds n (λ x, kept x ∨ x ∈ to_add) v → holds n (in_users new) v.
Proof using Hold Hnew.
  intros [H1 H2 H3].
  assert (Hto : ∀ u, kept u ∨ u ∈ to_add → ∃ w, in_users new w ∧ memoryUser n w = memoryUser n u).
  { intros u [(_ & y & Hy & Hid & Huuid)%kept_spec|[Hx _]%elem_of_changed_users]; [|by exists u|done..].
    exists y. split; [done|]. by apply memoryUser_same. }
  assert (Hfrom : ∀ w, in_users new w → ∃ u, (kept u ∨ u ∈ to_add) ∧ memoryUser n u = memoryUser n w).
  { intros w Hw. destruct (user_changed (userMap old) w) eqn:E.
    - exists w. split; [|done]. right. apply elem_of_changed_users; [done..|]. split; [done|].
      by apply (user_changed_spec old w Hold).
    - apply user_unchanged in E as (u & Hu & Hid & Huuid). exists u. split; [|by apply memoryUser_same].
      left. apply kept_spec. split; [done|]. by exists w. }
  constructor.
  - intros w (u & Hu & <-)%Hfrom. by apply H1.
  - intros key mu. rewrite H2. split.
    + intros (u & (w & Hw & E)%Hto & Em & ->). exists w. by rewrite E.
    + intros (w & (u & Hu & E)%Hfrom & Em & ->). exists u. by rewrite E.
  - intros pid mu. rewrite H3. split.
    + intros (u & (w & Hw & E)%Hto & Em & ->). exists w. by rewrite E.
    + intros (w & (u & Hu & E)%Hfrom & Em & ->). exists u. by rewrite E.
Qed.

Lemma to_remove_old u : u ∈ to_remove → in_users old u.
Proof using Hold Hnew. by intros [? _]%elem_of_changed_users. Qed.

(** undoing what was added and re-adding what was removed restores the table *)
Lemma rollback_restores v v1 l1 l2 cause :
  holds n (in_users old) v → to_add = (l1 ++ l2)%list → holds n (λ x, kept x ∨ x ∈ l1) v1 →
  rollbackUsers n l1 to_remove cause v1 = (v, cause).
Proof using Hold Hnew Cold Cnew.
  intros Hv Hsplit Hv1. pose proof (changed_users_NoDup new (userMap old) Hnew) as Hnd.
  change (changed_users (userMap new) (userMap old)) with to_add in Hnd. rewrite Hsplit, map_app in Hnd.
  apply NoDup_app in Hnd as (Hnd & _ & _).
  assert (Hsub : ∀ x, x ∈ l1 → x ∈ to_add) by (intros; rewrite Hsplit; apply elem_of_app; by left).
  unfold rollbackUsers.
  destruct (undo_remove_holds n (λ x, kept x ∨ x ∈ l1) v1 l1 None Hv1) as (v2 & -> & H2); [|by intros; right|done|].
  { eapply compatible_weaken; [|apply kept_add_compatible]. intros x [?|?]; [by left|right; by apply Hsub]. }
  assert (H2' : holds n kept v2).
  { eapply holds_ext; [exact H2|]. intros x. unfold without at 1. split.
    - intros [[?|Hx] Hno]; [done|]. destruct Hno. by apply list_elem_of_fmap_2.
    - intros Hx. split; [by left|]. intros (u & E & Hu)%list_elem_of_fmap.
      by apply (kept_add_fresh x u Hx (Hsub u Hu)). }
  destruct (undo_add_holds n kept v2 to_remove None H2') as (v3 & -> & H3).
  - eapply compatible_weaken; [|exact Cold]. intros x [[? _]%kept_spec|?]; [done|by apply to_remove_old].
  - by apply changed_users_NoDup.
  - intros x u [_ Hno] Hu E. apply Hno. rewrite E. by apply list_elem_of_fmap_2.
  - intros u Hu. apply (h_valid n _ _ Hv). by apply to_remove_old.
  - f_equal. eapply holds_unique; [exact H3|exact Hv|]. intros mu. split; intros (u & Hu & Em); exists u; (split; [|done]).
    + destruct Hu as [[? _]%kept_spec|?]; [done|by apply to_remove_old].
    + destruct (user_changed (userMap new) u) eqn:E.
      * right. apply elem_of_changed_users; [done..|]. split; [done|]. by apply (user_changed_spec new u Hnew).
      * left. apply kept_spec. split; [done|]. by apply user_unchanged.
Qed.
End Switch.

Lemma elem_of_dom_userMap users uid : (uid ∈ dom (userMap users)) ↔ uid ∈ map user_ID users.
Proof.
  rewrite elem_of_dom, list_elem_of_fmap. split.
  - intros [u [Hid Hu]%lookup_userMap_Some]. by exists u.
  - intros (u & -> & Hu). rewrite lookup_userMap.
    destruct (filter (λ v, user_ID v = user_ID u) users) eqn:E; [|by rewrite last_cons; destruct (last _)].
    assert (Hin : u ∈ filter (λ v, user_ID v = user_ID u) users) by (by apply list_elem_of_filter).
    rewrite E in Hin. by apply not_elem_of_nil in Hin.
Qed.

(** no user of the old snapshot is lost from the traffic count *)
Lemma tracked_kept old new (ret : gset Z) uid :
  uid ∈ (list_to_set (map user_ID old) : gset Z) ∪ ret →
  uid ∈ (list_to_set (map user_ID new) : gset Z) ∪ ((ret ∪ dom (userMap old) ∖ dom (userMap new)) ∖ dom (userMap new)).
Proof.
  rewrite !elem_of_union, !elem_of_list_to_set, !elem_of_difference, elem_of_union, elem_of_difference, !elem_of_dom_userMap.
  intros H. destruct (decide (uid ∈ map user_ID new)); [by left|]. right. tauto.
Qed.

(** an engine whose users can be switched to those of [next] *)
Record switchable (e : Engine) (next : Snapshot) : Prop := {
  sw_step : in_step e;
  sw_old : NoDup (map user_ID (snap_Users (snapshot e)));
  sw_new : NoDup (map user_ID (snap_Users next));
  sw_old_ok : compatible (snap_Node (snapshot e)) (in_users (snap_Users (snapshot e)));
  sw_new_ok : compatible (snap_Node (snapshot e)) (in_users (snap_Users next)) }.

Lemma Apply_outcome e next e' res :
  switchable e next → Apply next e = (e', res) →
  match res with
  | Ok (revoked, callbacks) =>
      in_step e' ∧ snapshot e' = next ∧ running e' = true ∧ stats e' = stats e ∧
      Update (registry e) next = Ok (registry e', callbacks, revoked) ∧
      ∀ uid, uid ∈ tracked e → uid ∈ tracked e'
  | Err _ =>
      e' = e ∧ (running e = false ∨ dataPlaneNodeEqual (snap_Node (snapshot e)) (snap_Node next) = false ∨
                ∃ u err, u ∈ snap_Users next ∧ memoryUser (snap_Node next) u = Err err)
  | Panic => Update (registry e) next = Panic
  end.
Proof.
  intros [Hstep Hold Hnew Cold Cnew]. unfold Apply. rewrite usersByID_userMap.
  destruct (running e) eqn:Hrun; [|intros [= <- <-]; auto]. cbn [negb].
  destruct (dataPlaneNodeEqual _ _) eqn:Hdp; [|intros [= <- <-]; auto]. cbn [negb]. cbv zeta.
  destruct (dataPlane_identity _ _ Hdp) as [Hid Hflow].
  set (n := snap_Node (snapshot e)) in *. set (old := snap_Users (snapshot e)) in *. set (new := snap_Users next) in *.
  fold (to_remove old new). fold (to_add old new).
  destruct (remove_all_holds n (in_users old) (table e) (to_remove old new) Hstep Cold) as (v1 & -> & H1).
  { intros u. by apply to_remove_old. }
  { by apply changed_users_NoDup. }
  fold (kept old new) in H1. rewrite (add_all_same (snap_Node next) n) by done.
  destruct (add_all_holds n (kept old new) v1 (to_add old new) H1) as (v2 & l1 & l2 & Hsplit & H2 & Hres).
  { by apply kept_add_compatible. }
  { by apply changed_users_NoDup. }
  { intros x u. by apply kept_add_fresh. }
  destruct Hres as [[-> ->]|(u & err & Hhead & Herr & ->)].
  - rewrite app_nil_r in Hsplit. rewrite <- Hsplit in H2.
    destruct (Update (registry e) next) as [[[r cbs] revoked]|err|] eqn:Hup; intros [= <- <-].
    + split; [eapply holds_same; [exact Hid|exact Hflow|apply (switch_reaches_new n old new Hold Hnew); done]|].
      split; [done|]. split; [done|]. split; [done|]. split; [done|].
      intros uid. unfold tracked. cbn [snapshot retired]. by apply tracked_kept.
    + by apply Update_no_err in Hup.
    + done.
  - rewrite (rollback_restores n old new) with (v := table e) (l2 := l2) by done. intros [= <- <-]. split; [by destruct e|].
    right. right. exists u, err. split.
    + assert (Hu : u ∈ to_add old new) by (rewrite Hsplit; apply elem_of_app; right; destruct l2; [done|injection Hhead as ->; by left]).
      by apply elem_of_changed_users in Hu as [? _].
    + rewrite <- Herr. by apply memoryUser_same.
Qed.

(** C12: Apply either installs the next snapshot as a whole, or changes nothing: the
    rollback of a half-done switch restores the very same table. It fails only when the
    engine is closed, the data plane would have to be rebuilt, or a user to add has no
    UUID, and it panics only where the session registry does. *)
Theorem apply_installs_or_restores e next e' res :
  switchable e next → Apply next e = (e', res) →
  match res with
  | Ok (revoked, callbacks) =>
      in_step e' ∧ snapshot e' = next ∧ running e' = true ∧ stats e' = stats e ∧
      Update (registry e) next = Ok (registry e', callbacks, revoked) ∧
      ∀ uid, uid ∈ tracked e → uid ∈ tracked e'
  | Err _ =>
      e' = e ∧ (running e = false ∨ dataPlaneNodeEqual (snap_Node (snapshot e)) (snap_Node next) = false ∨
                ∃ u err, u ∈ snap_Users next ∧ memoryUser (snap_Node next) u = Err err)
  | Panic => Update (registry e) next = Panic
  end.
Proof. apply Apply_outcome. Qed.

(** ** Users that can be in a table together *)
Definition process_id (u : User) : option (list Z) := ProcessUUID <$> ParseString (user_UUID u).
Definition apart (u v : User) : bool :=
  (user_ID u =? user_ID v) || bool_decide (process_id u = None) || negb (bool_decide (process_id u = process_id v)).

Lemma compatible_users n l :
  Forall (λ u, is_int64 (user_ID u) = true) l → NoDup (map user_ID l) →
  forallb (λ u, forallb (apart u) l) l = true → compatible n (in_users l).
Proof.
  intros Hids Hnd Hap. rewrite forallb_forall in Hap. constructor; unfold in_users.
  - intros u Hu. exact (proj1 (Forall_forall _ _) Hids u Hu).
  - intros u v Hu Hv E. assert (E1 : userMap l !! user_ID u = Some u) by (by apply userMap_Some).
    assert (E2 : userMap l !! user_ID u = Some v) by (by apply userMap_Some). congruence.
  - intros u v mu mv Hu Hv [Eu _]%memoryUser_Ok [Ev _]%memoryUser_Ok E.
    assert (Ha : apart u v = true).
    { apply list_elem_of_In in Hu, Hv. specialize (Hap u Hu). rewrite forallb_forall in Hap. by apply Hap. }
    unfold apart, process_id in Ha. rewrite Eu, Ev in Ha. cbn in Ha. rewrite E in Ha.
    rewrite (bool_decide_eq_true_2 (Some _ = Some _)) in Ha by done. cbn in Ha. rewrite !orb_false_r in Ha. by apply Z.eqb_eq.
Qed.

(** the users of a new inbound are those of its snapshot *)
Lemma inbound_users_add n l v v' : inbound_users n l v = Ok v' → add_all n l v = (v', l, None).
Proof.
  revert v. induction l as [|u l IH]; intros v; cbn [inbound_users add_all]; [by intros [= ->]|].
  destruct (AddUser n u v) as [v1 [[]|e|]]; [|done..]. intros H. by rewrite (IH _ H).
Qed.

Lemma holds_empty n : holds n (λ _, False) (mkValidator ∅ ∅).
Proof. constructor; [done| |]; intros key mu; cbn; rewrite lookup_empty; (split; [done|]); by intros (u & [] & _). Qed.

Lemma inbound_users_holds n l v : compatible n (in_users l) → NoDup (map user_ID l) →
  inbound_users n l (mkValidator ∅ ∅) = Ok v → holds n (in_users l) v.
Proof.
  intros Hc Hnd Hin%inbound_users_add.
  destruct (add_all_holds n (λ _, False) (mkValidator ∅ ∅) l) as (v' & l1 & l2 & El & Hh & Hres).
  - apply holds_empty.
  - eapply compatible_weaken; [|exact Hc]. by intros u [[]|?].
  - done.
  - done.
  - destruct Hres as [[-> E]|(u & e & _ & _ & E)]; rewrite E in Hin; [|done]. injection Hin as -> ->.
    eapply holds_ext; [exact Hh|]. intros u. unfold in_users. tauto.
Qed.
