(* ===== verification/EngineTraffic.v ===== *)
(** The traffic counters of the engine: [Drain] takes exactly what was counted for
    the users that the engine tracks, [RestoreEntries] puts it back, and no user
    that has traffic or a session is ever left untracked. *)
From S2P Require Import Prelude GoString Float64 Digest Policy Model Identity Config Session SessionInv SessionUpdate.
From S2P Require Import Outbox OutboxProps Xray Engine EngineUsers.

Local Open Scope string_scope.
Local Open Scope Z_scope.

(** ** The names of the counters *)
Definition id_char (c : ascii) : bool := is_digit c || Ascii.eqb c "-".

Lemma format_int_chars z : string_all id_char (format_int z) = true.
Proof.
  assert (Hpos : ∀ n, 0 ≤ n → string_all id_char (format_int n) = true).
  { intros n Hn. eapply string_all_weaken; [|by apply format_int_digits]. unfold id_char. by intros c ->. }
  destruct (Z.leb_spec 0 z); [by apply Hpos|].
  specialize (Hpos (- z) ltac:(lia)). revert Hpos. unfold format_int.
  rewrite (proj2 (Z.ltb_ge (- z) 0)), (proj2 (Z.ltb_lt z 0)) by lia. intros E. cbn [string_all]. by rewrite E.
Qed.

Lemma UserEmail_app nid uid : UserEmail nid uid = "sspanel-node-" +:+ format_int nid +:+ "-user-" +:+ format_int uid.
Proof. reflexivity. Qed.

Lemma counter_name_inj n a b d d' : is_int64 a = true → is_int64 b = true →
  counter_name n a d = counter_name n b d' → a = b ∧ d = d'.
Proof.
  intros Ha Hb. unfold counter_name. rewrite !UserEmail_app, !string_app_assoc. intros E.
  do 4 apply string_app_inj_l in E.
  change (">>>traffic>>>" +:+ d) with (String ">" (">>traffic>>>" +:+ d)) in E.
  change (">>>traffic>>>" +:+ d') with (String ">" (">>traffic>>>" +:+ d')) in E.
  apply (string_split_unique id_char) in E as [Eid E]; [|apply format_int_chars..|done|done].
  apply format_int_inj in Eid; [|done..]. split; [done|]. injection E as E. by do 1 apply string_app_inj_l in E.
Qed.

(** ** Taking the counters *)

(** no counter is negative *)
Definition counted (c : gmap string Z) : Prop := ∀ name v, c !! name = Some v → 0 ≤ v ≤ max_int64.

Definition zero (name : string) (c : gmap string Z) : gmap string Z := alter (λ _, 0) name c.
Definition zero_user (n : Node) (c : gmap string Z) (uid : Z) : gmap string Z :=
  zero (counter_name n uid "downlink") (zero (counter_name n uid "uplink") c).

(** what the counters of a user say, and the entry it makes *)
Definition uplink_of (n : Node) (c : gmap string Z) (uid : Z) : Z := mget c (counter_name n uid "uplink").
Definition downlink_of (n : Node) (c : gmap string Z) (uid : Z) : Z := mget c (counter_name n uid "downlink").
Definition quiet (n : Node) (c : gmap string Z) (uid : Z) : bool := (uplink_of n c uid =? 0) && (downlink_of n c uid =? 0).
Definition entry_of (n : Node) (c : gmap string Z) (uid : Z) : list Entry :=
  if quiet n c uid then [] else [mkEntry uid (uplink_of n c uid) (downlink_of n c uid)].

(** a counter is worth its value *)
Definition value_of (_ : string) (v : Z) : Z := v.

Lemma counted_zero name c : counted c → counted (zero name c).
Proof.
  intros Hc j v. unfold zero. rewrite lookup_alter. destruct (decide (name = j)) as [->|]; [|apply Hc].
  destruct (c !! j); [|done]. intros [= <-]. done.
Qed.

Lemma mget_zero name c j : mget (zero name c) j = if decide (name = j) then 0 else mget c j.
Proof.
  unfold zero, mget. rewrite lookup_alter. destruct (decide (name = j)) as [->|]; [|done]. by destruct (c !! j).
Qed.

Lemma msum_zero_one name c : msum value_of (zero name c) = msum value_of c - mget c name.
Proof.
  unfold zero, mget. destruct (c !! name) as [v|] eqn:E.
  - rewrite (alter_insert _ _ _ v) by done. rewrite (msum_update value_of c name v) by done. unfold value_of. simpl. lia.
  - rewrite alter_id' by done. simpl. lia.
Qed.

Lemma takeCounter_counted name c : counted c → takeCounter name c = (zero name c, Ok (mget c name)).
Proof.
  intros Hc. unfold takeCounter, CounterSet, zero, mget. destruct (c !! name) as [v|] eqn:E.
  - apply Hc in E as Hv. rewrite (proj2 (Z.ltb_ge v 0)) by lia. by rewrite (alter_insert _ _ _ v).
  - by rewrite alter_id'.
Qed.

Section Drain.
Context (n : Node) (r : Registry).

Lemma zero_user_other c uid u d : is_int64 uid = true → is_int64 u = true → uid ≠ u →
  mget (zero_user n c uid) (counter_name n u d) = mget c (counter_name n u d).
Proof.
  intros Hi Hu Hne. unfold zero_user. rewrite !mget_zero.
  rewrite !decide_False; [done|intros [? _]%counter_name_inj; done..].
Qed.

Lemma entry_of_other c uid u : is_int64 uid = true → is_int64 u = true → uid ≠ u →
  entry_of n (zero_user n c uid) u = entry_of n c u ∧ quiet n (zero_user n c uid) u = quiet n c u.
Proof.
  intros Hi Hu Hne. unfold entry_of, quiet, uplink_of, downlink_of. by rewrite !zero_user_other.
Qed.

Lemma zero_user_total c uid : is_int64 uid = true →
  msum value_of (zero_user n c uid) = msum value_of c - entries_total (entry_of n c uid).
Proof.
  intros Hi. unfold zero_user. rewrite !msum_zero_one, mget_zero.
  rewrite decide_False by (intros [_ ?]%counter_name_inj; done).
  unfold entry_of, quiet, uplink_of, downlink_of, entries_total.
  destruct (_ =? 0) eqn:E1; [destruct (_ =? 0) eqn:E2 in |- *|];
    cbn [andb fold_right]; unfold entry_total; cbn [e_Uplink e_Downlink];
    rewrite ?Z.eqb_eq in *; lia.
Qed.

Definition zero_users (ids : list Z) (c : gmap string Z) : gmap string Z := fold_left (zero_user n) ids c.
Definition taken (ids : list Z) (c : gmap string Z) : list Entry := flat_map (entry_of n c) ids.
(** the users that drop out of the retired ones *)
Definition idle (c : gmap string Z) (uid : Z) : bool := quiet n c uid && negb (HasUserSessions r uid).

Lemma counted_zero_user c uid : counted c → counted (zero_user n c uid).
Proof. intros Hc. by apply counted_zero, counted_zero. Qed.

Lemma taken_other c uid ids : is_int64 uid = true → Forall (λ u, is_int64 u = true) ids → uid ∉ ids →
  taken ids (zero_user n c uid) = taken ids c.
Proof.
  intros Hi. induction ids as [|u ids IH]; intros Hids Hnot; [done|].
  apply Forall_cons in Hids as [Hu Hids]. apply not_elem_of_cons in Hnot as [Hne Hnot].
  unfold taken in *. cbn [flat_map]. by rewrite IH, (proj1 (entry_of_other c uid u Hi Hu Hne)).
Qed.

Lemma idle_other c uid ids : is_int64 uid = true → Forall (λ u, is_int64 u = true) ids → uid ∉ ids →
  filter (λ u, idle (zero_user n c uid) u = true) ids = filter (λ u, idle c u = true) ids.
Proof.
  intros Hi. induction ids as [|u ids IH]; intros Hids Hnot; [done|].
  apply Forall_cons in Hids as [Hu Hids]. apply not_elem_of_cons in Hnot as [Hne Hnot].
  rewrite !filter_cons, IH by done. unfold idle. by rewrite (proj2 (entry_of_other c uid u Hi Hu Hne)).
Qed.

(** the loop takes every counter once *)
Lemma drain_loop_spec ids c ret : counted c → NoDup ids → Forall (λ u, is_int64 u = true) ids →
  drain_loop n r ids c ret =
    (zero_users ids c, ret ∖ list_to_set (filter (λ u, idle c u = true) ids), Ok (taken ids c)).
Proof.
  revert c ret. induction ids as [|uid ids IH]; intros c ret Hc Hnd Hids.
  { cbn [drain_loop]. f_equal. f_equal. set_solver. }
  apply NoDup_cons in Hnd as [Hnot Hnd]. apply Forall_cons in Hids as [Hi Hids]. cbn [drain_loop].
  rewrite takeCounter_counted by done. rewrite takeCounter_counted by by apply counted_zero.
  fold (zero_user n c uid). rewrite mget_zero, decide_False by (intros [_ ?]%counter_name_inj; done).
  fold (uplink_of n c uid) (downlink_of n c uid).
  pose proof (taken_other c uid ids Hi Hids Hnot) as E1. pose proof (idle_other c uid ids Hi Hids Hnot) as E2.
  unfold zero_users, taken. cbn [fold_left flat_map]. fold (zero_users ids (zero_user n c uid)).
  fold (taken ids c). rewrite <- E1. assert (Eidle : idle c uid = quiet n c uid && negb (HasUserSessions r uid)) by done.
  assert (Eentry : entry_of n c uid = if quiet n c uid then [] else [mkEntry uid (uplink_of n c uid) (downlink_of n c uid)]) by done.
  rewrite <- negb_andb. fold (quiet n c uid). rewrite Eentry. clear Eentry.
  destruct (quiet n c uid); cbn [negb andb] in *.
  - rewrite IH by (done || by apply counted_zero_user). rewrite E2. cbn [obind]. f_equal. f_equal.
    rewrite filter_cons, Eidle. destruct (HasUserSessions r uid); cbn [negb].
    + rewrite decide_False by done. by rewrite andb_false_r.
    + rewrite decide_True by done. rewrite andb_true_r, list_to_set_cons.
      destruct (bool_decide (uid ∈ ret)) eqn:Er; [set_solver|]. apply bool_decide_eq_false in Er. set_solver.
  - rewrite filter_cons, Eidle, decide_False by done. rewrite IH by (done || by apply counted_zero_user). by rewrite E2.
Qed.

Lemma zero_users_total ids c : NoDup ids → Forall (λ u, is_int64 u = true) ids →
  msum value_of (zero_users ids c) = msum value_of c - entries_total (taken ids c).
Proof.
  revert c. induction ids as [|uid ids IH]; intros c Hnd Hids.
  { unfold taken, zero_users, entries_total. cbn [flat_map fold_left fold_right]. lia. }
  apply NoDup_cons in Hnd as [Hnot Hnd]. apply Forall_cons in Hids as [Hi Hids].
  unfold zero_users, taken. cbn [fold_left flat_map]. fold (zero_users ids (zero_user n c uid)).
  rewrite IH by done. rewrite taken_other, zero_user_total by done.
  fold (taken ids c). generalize (taken ids c). intros l.
  assert (Happ : ∀ a b, entries_total (a ++ b) = entries_total a + entries_total b).
  { induction a as [|x a IHa]; intros b; unfold entries_total in *; cbn [fold_right app]; [done|]. rewrite IHa. lia. }
  rewrite Happ. lia.
Qed.

Lemma taken_ids ids c : sublist (map e_UserID (taken ids c)) ids.
Proof.
  induction ids as [|u ids IH]; [constructor|]. unfold taken, entry_of. cbn [flat_map].
  destruct (quiet n c u); cbn [app map]; by constructor.
Qed.

Lemma elem_of_taken ids c x : (x ∈ taken ids c) ↔
  e_UserID x ∈ ids ∧ e_Uplink x = uplink_of n c (e_UserID x) ∧ e_Downlink x = downlink_of n c (e_UserID x) ∧
  (e_Uplink x ≠ 0 ∨ e_Downlink x ≠ 0).
Proof.
  unfold taken. rewrite list_elem_of_In, in_flat_map. unfold entry_of, quiet. split.
  - intros (u & Hu & Hx). destruct ((_ =? 0) && (_ =? 0)) eqn:E; [done|]. destruct Hx as [<-|[]].
    cbn [e_UserID e_Uplink e_Downlink]. split; [by apply list_elem_of_In|]. split; [done|]. split; [done|]. lia.
  - intros (Hid & Hu & Hd & Hnz). exists (e_UserID x). split; [by apply list_elem_of_In|].
    rewrite <- Hu, <- Hd, (proj2 (andb_false_iff _ _)) by lia. left. by destruct x.
Qed.
End Drain.

(** ** Drain *)
Definition metered (e : Engine) : Prop := counted (stats e) ∧ ∀ uid, uid ∈ tracked e → is_int64 uid = true.
(** what the counters have counted and nobody has taken *)
Definition outstanding (e : Engine) : Z := msum value_of (stats e).

Lemma tracked_ids e : metered e →
  NoDup (sorted_ids (tracked e)) ∧ Forall (λ u, is_int64 u = true) (sorted_ids (tracked e)).
Proof.
  intros [_ Hids]. unfold sorted_ids. split.
  - rewrite merge_sort_Permutation. apply NoDup_elements.
  - apply Forall_forall. intros uid. rewrite merge_sort_Permutation, elem_of_elements. apply Hids.
Qed.

Lemma elem_of_sorted_ids s uid : (uid ∈ sorted_ids s) ↔ uid ∈ s.
Proof. unfold sorted_ids. by rewrite merge_sort_Permutation, elem_of_elements. Qed.

Definition drained_engine (e : Engine) : Engine :=
  let n := snap_Node (snapshot e) in
  mkEngine (running e) (zero_users n (sorted_ids (tracked e)) (stats e)) (table e) (registry e) (registered e) (snapshot e)
    (retired e ∖ list_to_set (filter (λ u, idle n (registry e) (stats e) u = true) (sorted_ids (tracked e)))).
Definition drained_entries (e : Engine) : list Entry := taken (snap_Node (snapshot e)) (sorted_ids (tracked e)) (stats e).

Lemma Drain_spec e : metered e → Drain e = (drained_engine e, Ok (drained_entries e)).
Proof.
  intros Hm. destruct (tracked_ids e Hm) as [Hnd Hids]. unfold Drain.
  rewrite drain_loop_spec; [done|apply Hm|done|done].
Qed.

Lemma drained_total e : metered e → outstanding (drained_engine e) = outstanding e - entries_total (drained_entries e).
Proof. intros Hm. destruct (tracked_ids e Hm) as [Hnd Hids]. exact (zero_users_total _ _ (stats e) Hnd Hids). Qed.

Lemma counted_zero_users n ids c : counted c → counted (zero_users n ids c).
Proof.
  revert c. induction ids as [|u ids IH]; intros c Hc; [done|]. unfold zero_users. cbn [fold_left].
  by apply IH, counted_zero_user.
Qed.

Lemma zero_users_zeroes n ids c uid : Forall (λ u, is_int64 u = true) ids → is_int64 uid = true → NoDup ids →
  ∀ d, d = "uplink" ∨ d = "downlink" →
  mget (zero_users n ids c) (counter_name n uid d) = if decide (uid ∈ ids) then 0 else mget c (counter_name n uid d).
Proof.
  intros Hids Hi Hnd d Hd. revert c. induction ids as [|u ids IH]; intros c; [done|].
  apply Forall_cons in Hids as [Hu Hids]. apply NoDup_cons in Hnd as [Hnot Hnd].
  unfold zero_users. cbn [fold_left]. fold (zero_users n ids (zero_user n c u)). rewrite IH by done.
  destruct (decide (u = uid)) as [->|Hne].
  - rewrite decide_False, decide_True by (done || by left). unfold zero_user. rewrite !mget_zero.
    destruct Hd as [-> | ->]; repeat case_decide; done.
  - rewrite zero_user_other by done. destruct (decide (uid ∈ ids)).
    + by rewrite decide_True by by right.
    + rewrite decide_False; [done|]. by intros [->|?]%elem_of_cons.
Qed.

(** a drain forgets only users without traffic and sessions *)
Lemma drain_takes_all_tracked e uid : uid ∈ tracked e →
  uid ∈ tracked (drained_engine e) ∨
  quiet (snap_Node (snapshot e)) (stats e) uid = true ∧ HasUserSessions (registry e) uid = false.
Proof.
  intros Hu. destruct (idle (snap_Node (snapshot e)) (registry e) (stats e) uid) eqn:Hq.
  - right. unfold idle in Hq. apply andb_prop in Hq as [? ?%negb_true_iff]. done.
  - left. unfold tracked in *. cbn [snapshot retired drained_engine].
    rewrite elem_of_union, elem_of_difference, elem_of_list_to_set in *. destruct Hu as [?|Hu]; [by left|]. right.
    split; [done|]. rewrite elem_of_list_to_set, list_elem_of_filter. intros [? _]. congruence.
Qed.

(** C26: Drain takes exactly what was counted: one entry for each tracked user with
    traffic, in order of the user ids, with the values of its two counters, which are
    zero afterwards. What the entries add up to is what the counters lose; a retired
    user is dropped only when it had no traffic and has no session. *)
Theorem drain_takes_all e e' res : metered e → Drain e = (e', res) →
  ∃ entries, res = Ok entries ∧
    sublist (map e_UserID entries) (sorted_ids (tracked e)) ∧
    (∀ x, x ∈ entries ↔ e_UserID x ∈ tracked e ∧
       e_Uplink x = uplink_of (snap_Node (snapshot e)) (stats e) (e_UserID x) ∧
       e_Downlink x = downlink_of (snap_Node (snapshot e)) (stats e) (e_UserID x) ∧
       (e_Uplink x ≠ 0 ∨ e_Downlink x ≠ 0)) ∧
    (∀ uid, uid ∈ tracked e → quiet (snap_Node (snapshot e)) (stats e') uid = true) ∧
    outstanding e' = outstanding e - entries_total entries ∧
    (∀ uid, uid ∈ tracked e → uid ∈ tracked e' ∨
       quiet (snap_Node (snapshot e)) (stats e) uid = true ∧ HasUserSessions (registry e) uid = false).
Proof.
  intros Hm. rewrite Drain_spec by done. intros [= <- <-]. destruct (tracked_ids e Hm) as [Hnd Hids].
  exists (drained_entries e). split; [done|]. split; [unfold drained_entries; apply taken_ids|]. split.
  { intros x. unfold drained_entries. by rewrite elem_of_taken, elem_of_sorted_ids. }
  split.
  { intros uid Hu. unfold quiet, uplink_of, downlink_of. cbn [stats drained_engine].
    assert (Hz : ∀ d, d = "uplink" ∨ d = "downlink" → mget (zero_users (snap_Node (snapshot e)) (sorted_ids (tracked e)) (stats e))
      (counter_name (snap_Node (snapshot e)) uid d) = 0); [|by rewrite !Hz by auto].
    intros d Hd. rewrite zero_users_zeroes by (done || by apply Hm). by rewrite decide_True by by apply elem_of_sorted_ids. }
  split; [by apply drained_total|].
  intros uid. apply drain_takes_all_tracked.
Qed.

(** ** Restore *)
Definition add_counter (delta : Z) (name : string) (c : gmap string Z) : gmap string Z :=
  alter (λ v, wrap64 (v + delta)) name c.
Lemma CounterAdd_alter name delta c : CounterAdd name delta c = add_counter delta name c.
Proof.
  unfold CounterAdd, add_counter. destruct (c !! name) as [v|] eqn:E.
  - by rewrite (alter_insert _ _ _ v).
  - by rewrite alter_id'.
Qed.

Lemma add_zero_ne delta a b c : a ≠ b → add_counter delta a (zero b c) = zero b (add_counter delta a c).
Proof. intros Hne. by apply alter_alter_ne. Qed.

Lemma restore_zero_other n c x uid : is_int64 uid = true → is_int64 (e_UserID x) = true → e_UserID x ≠ uid →
  restore_entry n (zero_user n c uid) x = zero_user n (restore_entry n c x) uid.
Proof.
  intros Hi Hx Hne. unfold restore_entry, zero_user. rewrite !CounterAdd_alter.
  assert (Hd : ∀ d d', counter_name n (e_UserID x) d ≠ counter_name n uid d').
  { intros d d' [? _]%counter_name_inj; done. }
  by rewrite !add_zero_ne.
Qed.

Lemma restore_zero_users n ids c x : is_int64 (e_UserID x) = true → Forall (λ u, is_int64 u = true) ids →
  e_UserID x ∉ ids → restore_entry n (zero_users n ids c) x = zero_users n ids (restore_entry n c x).
Proof.
  intros Hx. revert c. induction ids as [|u ids IH]; intros c Hids Hnot; [done|].
  apply Forall_cons in Hids as [Hu Hids]. apply not_elem_of_cons in Hnot as [Hne Hnot].
  unfold zero_users. cbn [fold_left]. fold (zero_users n ids (zero_user n c u)) (zero_users n ids (zero_user n (restore_entry n c x) u)).
  by rewrite IH, restore_zero_other.
Qed.

Lemma add_zero name c : counted c → add_counter (mget c name) name (zero name c) = c.
Proof.
  intros Hc. unfold add_counter, zero. rewrite alter_alter_eq. apply map_eq. intros j. rewrite lookup_alter.
  case_decide as E; [subst j|done]. unfold mget. destruct (c !! name) as [v|] eqn:Ev; [|done]. cbn. f_equal.
  apply Hc in Ev. rewrite Z.add_0_l. apply wrap64_id. unfold is_int64. assert (min_int64 < 0) by done. lia.
Qed.

(** the entry of a user brings its counters back *)
Lemma restore_entry_of n c uid : counted c → is_int64 uid = true →
  fold_left (restore_entry n) (entry_of n c uid) (zero_user n c uid) = c.
Proof.
  intros Hc Hi. set (u := counter_name n uid "uplink"). set (d := counter_name n uid "downlink").
  assert (Hne : u ≠ d) by (intros [_ ?]%counter_name_inj; done).
  unfold entry_of, quiet, uplink_of, downlink_of, zero_user. fold u d.
  assert (Hback : add_counter (mget c d) d (add_counter (mget c u) u (zero d (zero u c))) = c).
  { assert (E : add_counter (mget c u) u (zero d (zero u c)) = zero d c).
    { by rewrite add_zero_ne, add_zero. }
    rewrite E. by apply add_zero. }
  destruct (mget c u =? 0) eqn:E1; [destruct (mget c d =? 0) eqn:E2|]; cbn [andb fold_left].
  1:{ apply Z.eqb_eq in E1, E2. rewrite E1, E2 in Hback.
    assert (Hnop : ∀ name m, counted m → add_counter 0 name m = m).
    { intros name m Hm. apply map_eq. intros j. unfold add_counter. rewrite lookup_alter.
      case_decide as E; [subst j|done]. destruct (m !! name) as [v|] eqn:Ev; [|done]. cbn. f_equal.
      apply Hm in Ev. rewrite Z.add_0_r. apply wrap64_id. unfold is_int64. assert (min_int64 < 0) by done. lia. }
    by rewrite (Hnop u), (Hnop d) in Hback by (repeat apply counted_zero; done). }
  all: unfold restore_entry; cbn [e_UserID e_Uplink e_Downlink]; fold u d; by rewrite !CounterAdd_alter.
Qed.

Lemma restore_taken n ids c : counted c → NoDup ids → Forall (λ u, is_int64 u = true) ids →
  fold_left (restore_entry n) (taken n ids c) (zero_users n ids c) = c.
Proof.
  revert c. induction ids as [|u ids IH]; intros c Hc Hnd Hids; [done|].
  apply NoDup_cons in Hnd as [Hnot Hnd]. apply Forall_cons in Hids as [Hi Hids].
  unfold taken at 1, zero_users. cbn [flat_map fold_left]. fold (taken n ids c) (zero_users n ids (zero_user n c u)).
  rewrite fold_left_app. assert (E : fold_left (restore_entry n) (entry_of n c u) (zero_users n ids (zero_user n c u)) = zero_users n ids c).
  { rewrite <- (restore_entry_of n c u) at 3 by done. unfold entry_of. destruct (quiet n c u); [done|]. cbn [fold_left].
    by rewrite restore_zero_users. }
  rewrite E. by apply IH.
Qed.

Lemma restored_stats e e' entries : metered e → Drain e = (e', Ok entries) → stats (RestoreEntries entries e') = stats e.
Proof.
  intros Hm. rewrite Drain_spec by done. intros [= <- <-]. destruct (tracked_ids e Hm) as [Hnd Hids].
  by apply restore_taken; [apply Hm|..].
Qed.

Lemma restore_fresh e entries : stats e = ∅ → RestoreEntries entries e = e.
Proof.
  destruct e as [run c v r reg s ret]. intros Hc. cbn [stats] in Hc. subst c. unfold RestoreEntries. cbn. f_equal.
  induction entries as [|x l IH]; [done|]. cbn [fold_left]. exact IH.
Qed.

(** Restoring the entries of a drain brings every counter back to what it was; an
    engine that has not counted anything for a user yet ignores the entries of it. *)
Theorem restore_undoes_drain e e' entries : metered e → Drain e = (e', Ok entries) →
  stats (RestoreEntries entries e') = stats e ∧
  ∀ fresh, stats fresh = ∅ → RestoreEntries entries fresh = fresh.
Proof. intros Hm Hd. split; [by apply restored_stats|]. intros fresh. apply restore_fresh. Qed.
