(* ===== verification/EngineSafe.v ===== *)
(** What is kept over the life of an engine: whoever has a session is tracked, so a
    drain visits the counters of every user with a session. A link counts even when its
    lease is gone: [stray] is what has been counted where no drain looks, and each
    operation of the engine says what becomes of it. *)
From S2P Require Import Prelude GoString Float64 Digest Json Base64 X25519 Policy Model Identity Config.
From S2P Require Import Session SessionInv SessionUpdate Outbox OutboxProps Xray Engine EngineUsers EngineTraffic.

Local Open Scope string_scope.
Local Open Scope Z_scope.

(** ** Sessions of a user, across the operations of the registry *)

(** [r'] has the users of [r], and no user has sessions that had none *)
Definition no_new_sessions (r r' : Registry) : Prop :=
  users r' = users r ∧ ∀ uid, HasUserSessions r' uid = true → HasUserSessions r uid = true.

Lemma no_new_refl r : no_new_sessions r r.
Proof. by split. Qed.
Lemma no_new_same r r' : users r' = users r → userTCP r' = userTCP r → userXUDP r' = userXUDP r → no_new_sessions r r'.
Proof. intros E1 E2 E3. split; [done|]. unfold HasUserSessions. by rewrite E2, E3. Qed.
Lemma no_new_revoked r r' : revoked_from r r' → no_new_sessions r r'.
Proof. intros [_ E]. rewrite E. by apply no_new_same. Qed.
Lemma dropUser_active uid u m : 0 < mget (dropUser uid m) u → 0 < mget m u.
Proof.
  unfold dropUser. destruct (Z.ltb_spec 1 (mget m uid)).
  - rewrite mget_insert. case_decide as E; [subst u|]; lia.
  - rewrite mget_delete. case_decide; [lia|done].
Qed.

Lemma no_new_close r id : no_new_sessions r (CloseLease r id).
Proof.
  unfold CloseLease. destruct (lookupLease r id) as [l|]; [|apply no_new_refl].
  destruct (l_once l); [apply no_new_refl|]. split; [by destruct (l_kind l)|]. intros uid. unfold HasUserSessions.
  destruct (l_kind l); cbn; rewrite !orb_true_iff, !Z.ltb_lt; (intros [H|H]; [left|right]);
    first [done | by apply dropUser_active in H].
Qed.

Lemma no_new_op d r r' : op d r r' → generation r' = generation r → no_new_sessions r r'.
Proof.
  intros Hop. destruct Hop; intros Hgen.
  - apply no_new_same; unfold AcquireHandshake; by repeat case_match.
  - apply no_new_same; unfold releaseHandshake; by case_match.
  - destruct (openLookup_reg r request) as [->|(reason & ->)]; by apply no_new_same.
  - destruct (authorizeTarget_reg r lookup user request) as [->|(reason & ->)]; by apply no_new_same.
  - unfold openCommit. rewrite H. by apply no_new_same.
  - apply Update_inv in H as [_ E]. rewrite E in Hgen. cbn in Hgen. lia.
  - apply no_new_revoked, revoked_from_revokeLocked.
  - pose proof (revoked_from_revokeLocked (dom (users (with_closed true r))) ∅ (with_closed true r)) as [_ E].
    unfold CloseRegistry. rewrite E. by apply no_new_same.
  - unfold BindInterrupt, storeLease. apply no_new_same; by repeat case_match.
  - unfold Rebind, storeLease. apply no_new_same; by repeat case_match.
  - apply no_new_close.
Qed.

Lemma HasUserSessions_admit r p uid : HasUserSessions (openCommit r p).1 uid = true →
  HasUserSessions r uid = true ∨ commitRefusal r p = None ∧ uid = p_userID p.
Proof.
  unfold openCommit. destruct (commitRefusal r p) eqn:E; [by left|]. cbn [fst]. unfold HasUserSessions.
  destruct (p_kind p); cbn; rewrite mget_insert; case_decide; auto.
Qed.

(** ** The invariant *)
Definition with_registry (r : Registry) (e : Engine) : Engine :=
  mkEngine (running e) (stats e) (table e) r (registered e) (snapshot e) (retired e).
Definition with_stats (c : gmap string Z) (e : Engine) : Engine :=
  mkEngine (running e) c (table e) (registry e) (registered e) (snapshot e) (retired e).

Definition ids_typed (s : Snapshot) : Prop := ∀ uid, uid ∈ map user_ID (snap_Users s) → is_int64 uid = true.

(** the users of the registry are those of the snapshot, and whoever has a session is
    tracked; the counters are not negative *)
Record sound (e : Engine) : Prop := {
  so_users : users (registry e) = userMap (snap_Users (snapshot e));
  so_sessions : ∀ uid, HasUserSessions (registry e) uid = true → uid ∈ tracked e;
  so_metered : metered e }.

(** a link of a user counts [k] more bytes *)
Definition count_traffic (uid : Z) (d : string) (k : Z) (e : Engine) : Engine :=
  let name := counter_name (snap_Node (snapshot e)) uid d in
  with_stats (CounterAdd name k (GetOrRegisterCounter name (stats e))) e.

Lemma count_traffic_stats uid d k e name :
  counted (stats e) → 0 ≤ k → mget (stats e) (counter_name (snap_Node (snapshot e)) uid d) + k ≤ max_int64 →
  stats (count_traffic uid d k e) !! name =
    (if decide (name = counter_name (snap_Node (snapshot e)) uid d) then Some (mget (stats e) name + k) else stats e !! name).
Proof.
  intros Hc Hk Hmax. unfold count_traffic. cbv zeta. cbn [stats with_stats]. set (cn := counter_name _ uid d) in *.
  assert (Hv : 0 ≤ mget (stats e) cn).
  { unfold mget. destruct (stats e !! cn) as [v|] eqn:E; [|done]. apply Hc in E. simpl. lia. }
  assert (Hw : wrap64 (mget (stats e) cn + k) = mget (stats e) cn + k).
  { apply wrap64_id. unfold is_int64. assert (min_int64 < 0) by done. lia. }
  rewrite CounterAdd_alter. unfold add_counter, GetOrRegisterCounter. rewrite lookup_alter.
  case_decide as E; [subst name; rewrite decide_True by done|rewrite decide_False by congruence].
  - unfold mget in *. destruct (stats e !! cn) as [v|] eqn:Ev.
    + rewrite Ev. cbn in *. by rewrite Hw.
    + rewrite lookup_insert_eq. cbn in *. by rewrite Hw.
  - destruct (stats e !! cn); [done|]. by rewrite lookup_insert_ne.
Qed.

Lemma count_traffic_insert uid d k e (cn := counter_name (snap_Node (snapshot e)) uid d) :
  counted (stats e) → 0 ≤ k → mget (stats e) cn + k ≤ max_int64 →
  stats (count_traffic uid d k e) = <[cn := mget (stats e) cn + k]> (stats e).
Proof.
  intros Hc Hk Hmax. apply map_eq. intros name. rewrite count_traffic_stats by done. fold cn. rewrite lookup_insert.
  repeat case_decide; congruence.
Qed.

(** ** Sums of counters *)
Lemma mget_default (c : gmap string Z) name : default 0 (value_of name <$> c !! name) = mget c name.
Proof. unfold mget. by destruct (c !! name). Qed.

Lemma total_le c c' : (∀ name, mget c name ≤ mget c' name) → msum value_of c ≤ msum value_of c'.
Proof. intros Hc. apply msum_mono. intros name. by rewrite !mget_default. Qed.

Lemma total_eq c c' : (∀ name, mget c name = mget c' name) → msum value_of c = msum value_of c'.
Proof. intros Hc. apply Z.le_antisymm; apply total_le; intros name; by rewrite Hc. Qed.

(** one counter more *)
Lemma total_add c c' name k : (∀ j, mget c' j = mget c j + (if decide (name = j) then k else 0)) →
  msum value_of c' = msum value_of c + k.
Proof.
  intros Hc. rewrite (total_eq c' (<[name := mget c name + k]> c)).
  - rewrite (msum_at _ (insert _ _ _) name), (msum_at _ c name), delete_insert_eq, lookup_insert_eq, mget_default.
    cbn. unfold value_of at 1. lia.
  - intros j. rewrite mget_insert, Hc. case_decide; [by subst|lia].
Qed.

Lemma total_nonneg c : counted c → 0 ≤ msum value_of c.
Proof. intros Hc. apply msum_nonneg. intros name v Hv. by apply Hc in Hv as [? _]. Qed.

Lemma total_zero c name v : counted c → msum value_of c = 0 → c !! name = Some v → v = 0.
Proof.
  intros Hc Hz Hv. rewrite (msum_delete _ _ _ _ Hv) in Hz. unfold value_of at 1 in Hz.
  assert (0 ≤ msum value_of (delete name c)).
  { apply total_nonneg. intros j w [_ Hj]%lookup_delete_Some. by apply (Hc j). }
  apply Hc in Hv. lia.
Qed.

(** counting adds what was counted *)
Lemma count_traffic_total uid d k e :
  counted (stats e) → 0 ≤ k → mget (stats e) (counter_name (snap_Node (snapshot e)) uid d) + k ≤ max_int64 →
  outstanding (count_traffic uid d k e) = outstanding e + k.
Proof.
  intros Hc Hk Hmax. apply (total_add _ _ (counter_name (snap_Node (snapshot e)) uid d)). intros j.
  rewrite count_traffic_insert, mget_insert by done. case_decide; [by subst|lia].
Qed.

Lemma counted_traffic uid d k e :
  counted (stats e) → 0 ≤ k → mget (stats e) (counter_name (snap_Node (snapshot e)) uid d) + k ≤ max_int64 →
  counted (stats (count_traffic uid d k e)).
Proof.
  intros Hc Hk Hmax name v. rewrite count_traffic_insert by done.
  intros [[<- <-]|[_ Hv]]%lookup_insert_Some; [|by apply Hc in Hv]. split; [|done].
  unfold mget. destruct (stats e !! _) as [w|] eqn:Ew; [apply Hc in Ew|]; simpl; lia.
Qed.

(** ** What a drain does not visit

    A link counts whatever became of its lease: the counters of a user that is no
    longer tracked can grow, and no drain takes them. [stray] is what a drain at this
    moment would leave in the counters. *)
Definition stray (e : Engine) : Z := outstanding (drained_engine e).

(** what is missed when [k] bytes of a user are counted, or forgotten *)
Definition missed (e : Engine) (uid k : Z) : Z := if bool_decide (uid ∈ tracked e) then 0 else k.

Definition visits (e : Engine) (name : string) : bool :=
  existsb (λ uid, String.eqb name (counter_name (snap_Node (snapshot e)) uid "uplink") ||
                  String.eqb name (counter_name (snap_Node (snapshot e)) uid "downlink")) (sorted_ids (tracked e)).
(** what a drain leaves in a counter *)
Definition left_over (e : Engine) (name : string) : Z := if visits e name then 0 else mget (stats e) name.

Lemma visits_true e name : visits e name = true ↔
  ∃ uid d, uid ∈ tracked e ∧ (d = "uplink" ∨ d = "downlink") ∧ name = counter_name (snap_Node (snapshot e)) uid d.
Proof.
  unfold visits. rewrite existsb_exists. split.
  - intros (uid & Hu%list_elem_of_In%elem_of_sorted_ids & [E|E]%orb_true_iff); apply String.eqb_eq in E; eauto 6.
  - intros (uid & d & Hu & Hd & ->). exists uid. split; [by apply list_elem_of_In, elem_of_sorted_ids|].
    destruct Hd as [-> | ->]; rewrite String.eqb_refl; [done|apply orb_true_r].
Qed.

Lemma visits_counter e uid d : metered e → is_int64 uid = true → d = "uplink" ∨ d = "downlink" →
  visits e (counter_name (snap_Node (snapshot e)) uid d) = bool_decide (uid ∈ tracked e).
Proof.
  intros Hm Hi Hd. case_bool_decide as Hu; [apply visits_true; eauto|]. apply not_true_is_false.
  intros (u & d' & Hin & _ & E)%visits_true. apply counter_name_inj in E as [-> _]; [done..|by apply Hm].
Qed.

(** tracking more users visits more counters *)
Lemma visits_weaken e e' name : node_ID (snap_Node (snapshot e')) = node_ID (snap_Node (snapshot e)) →
  (∀ uid, uid ∈ tracked e → uid ∈ tracked e') → visits e name = true → visits e' name = true.
Proof.
  intros En Hin. rewrite !visits_true. intros (uid & d & Hu & Hd & ->). exists uid, d. split; [by apply Hin|].
  split; [done|]. unfold counter_name. by rewrite En.
Qed.

Lemma mget_zero_users n ids c name : mget (zero_users n ids c) name =
  if existsb (λ uid, String.eqb name (counter_name n uid "uplink") || String.eqb name (counter_name n uid "downlink")) ids
  then 0 else mget c name.
Proof.
  revert c. induction ids as [|u ids IH]; intros c; [done|]. unfold zero_users. cbn [fold_left existsb].
  fold (zero_users n ids (zero_user n c u)). rewrite IH. unfold zero_user. rewrite !mget_zero.
  destruct (existsb _ ids); [by rewrite orb_true_r|]. rewrite orb_false_r.
  destruct (String.eqb_spec name (counter_name n u "uplink")) as [->|H1];
    [by repeat case_decide|]. destruct (String.eqb_spec name (counter_name n u "downlink")) as [->|H2]; cbn [orb].
  - by rewrite decide_True.
  - by rewrite !decide_False by congruence.
Qed.

Lemma mget_drained e name : mget (stats (drained_engine e)) name = left_over e name.
Proof. apply mget_zero_users. Qed.

Lemma stray_le e e' : (∀ name, left_over e name ≤ left_over e' name) → stray e ≤ stray e'.
Proof. intros H. apply total_le. intros name. rewrite !mget_drained. apply H. Qed.
Lemma stray_eq e e' : (∀ name, left_over e name = left_over e' name) → stray e = stray e'.
Proof. intros H. apply total_eq. intros name. rewrite !mget_drained. apply H. Qed.
Lemma stray_add e e' name k : (∀ j, left_over e' j = left_over e j + (if decide (name = j) then k else 0)) →
  stray e' = stray e + k.
Proof. intros H. apply (total_add _ _ name). intros j. rewrite !mget_drained. apply H. Qed.

Lemma stray_nonneg e : metered e → 0 ≤ stray e.
Proof. intros [Hc _]. by apply total_nonneg, counted_zero_users. Qed.

(** what the counters hold is what a drain takes and what it leaves *)
Lemma stray_split e : metered e → outstanding e = entries_total (drained_entries e) + stray e.
Proof. intros Hm. pose proof (drained_total e Hm). unfold stray. lia. Qed.

Lemma stray_same e e' : stats e' = stats e → snapshot e' = snapshot e → retired e' = retired e → stray e' = stray e.
Proof.
  intros E1 E2 E3. apply stray_eq. intros name. unfold left_over, visits, tracked. by rewrite E1, E2, E3.
Qed.

(** counting for a user that the drain visits leaves nothing, counting for another leaves it all *)
Lemma stray_traffic uid d k e : metered e → is_int64 uid = true → d = "uplink" ∨ d = "downlink" → 0 ≤ k →
  mget (stats e) (counter_name (snap_Node (snapshot e)) uid d) + k ≤ max_int64 →
  stray (count_traffic uid d k e) = stray e + missed e uid k.
Proof.
  intros Hm Hi Hd Hk Hmax. pose proof (visits_counter e uid d Hm Hi Hd) as Hv.
  apply (stray_add _ _ (counter_name (snap_Node (snapshot e)) uid d)). intros j. unfold left_over.
  change (visits (count_traffic uid d k e) j) with (visits e j).
  rewrite count_traffic_insert, mget_insert by (done || by apply Hm).
  set (cn := counter_name _ uid d) in *. destruct (decide (cn = j)) as [<-|Hne].
  - rewrite Hv. unfold missed. by case_bool_decide.
  - destruct (visits e j); lia.
Qed.

(** ** The invariant is kept, and what becomes of the strays *)
Lemma sound_registry e r' : sound e → users r' = users (registry e) →
  (∀ uid, HasUserSessions r' uid = true → HasUserSessions (registry e) uid = true ∨ is_Some (users (registry e) !! uid)) →
  sound (with_registry r' e).
Proof.
  intros [H1 H2 H4] Hu Hs. constructor; [by cbn; rewrite Hu| |done].
  intros uid [?|Huser]%Hs; [by apply H2|]. unfold tracked. apply elem_of_union_l, elem_of_list_to_set.
  rewrite H1 in Huser. by apply elem_of_dom, elem_of_dom_userMap in Huser.
Qed.

Lemma commitRefusal_user r p : commitRefusal r p = None → is_Some (users r !! p_userID p).
Proof. unfold commitRefusal. destruct (users r !! p_userID p); [by eexists|done]. Qed.

Lemma sound_session moved e r' : sound e → op moved (registry e) r' → generation r' = generation (registry e) →
  sound (with_registry r' e).
Proof.
  intros Hs Hop Hgen. destruct (no_new_op _ _ _ Hop Hgen) as [Hu Hsess].
  apply sound_registry; [done|done|]. intros uid ?. left. by apply Hsess.
Qed.

Lemma sound_open e p : sound e → sound (with_registry (openCommit (registry e) p).1 e).
Proof.
  intros Hs. apply sound_registry; [done| |].
  - unfold openCommit. destruct (commitRefusal _ p); [done|]. by destruct (p_kind p).
  - intros uid [?|[Href ->]]%HasUserSessions_admit; [by left|]. right. by apply commitRefusal_user.
Qed.

Lemma sound_traffic e uid d k : sound e → 0 ≤ k →
  mget (stats e) (counter_name (snap_Node (snapshot e)) uid d) + k ≤ max_int64 → sound (count_traffic uid d k e).
Proof. intros [H1 H2 [H4 H5]] Hk Hmax. constructor; [done|done|]. split; [by apply counted_traffic|done]. Qed.

Lemma mget_Some `{Countable K} (m : gmap K Z) k v : m !! k = Some v → mget m k = v.
Proof. unfold mget. by intros ->. Qed.

Lemma sound_drain e : sound e → sound (drained_engine e).
Proof.
  intros [H1 H2 [H4 H5]]. constructor; [done| |].
  - intros uid Hu. destruct (drain_takes_all_tracked e uid (H2 uid Hu)) as [?|[_ ?]]; [done|]. cbn in Hu. congruence.
  - split; [by apply counted_zero_users|]. intros uid Hu. apply H5. revert Hu. unfold tracked. cbn. set_solver.
Qed.

Lemma tracked_drained e uid : uid ∈ tracked (drained_engine e) → uid ∈ tracked e.
Proof. unfold tracked. cbn. set_solver. Qed.

(** a counter that the drain visits, but not the next one, was zero *)
Lemma forgotten_zero e name : visits e name = true → visits (drained_engine e) name = false → mget (stats e) name = 0.
Proof.
  intros (uid & d & Hu & Hd & ->)%visits_true Hv. destruct (drain_takes_all_tracked e uid Hu) as [Hin|[Hq _]].
  - rewrite (proj2 (visits_true (drained_engine e) _)) in Hv; [done|]. by exists uid, d.
  - apply andb_prop in Hq as [Q1%Z.eqb_eq Q2%Z.eqb_eq]. by destruct Hd as [-> | ->].
Qed.

Lemma visits_drained e name : visits (drained_engine e) name = true → visits e name = true.
Proof. apply visits_weaken; [done|]. intros uid. apply tracked_drained. Qed.

(** a drain leaves as much for the next one to miss as it missed itself *)
Lemma stray_drain e : stray (drained_engine e) = stray e.
Proof.
  apply stray_eq. intros name. unfold left_over at 1. rewrite mget_drained. unfold left_over.
  destruct (visits (drained_engine e) name) eqn:Hd; [by rewrite (visits_drained _ _ Hd)|done].
Qed.

(** putting the entries back restores the counters; only users without any were forgotten *)
Lemma sound_restore e e' entries : sound e → Drain e = (e', Ok entries) → sound (RestoreEntries entries e').
Proof.
  intros Hs Hd. pose proof Hs as [H1 H2 Hm]. pose proof (restored_stats e e' entries Hm Hd) as Estats.
  rewrite Drain_spec in Hd by done. injection Hd as <- <-. pose proof (sound_drain e Hs) as [D1 D2 [_ D5]].
  constructor; [done|done|]. split; [rewrite Estats; apply Hm|done].
Qed.

Lemma stray_restore e e' entries : metered e → Drain e = (e', Ok entries) → stray (RestoreEntries entries e') = stray e.
Proof.
  intros Hm Hd. pose proof (restored_stats e e' entries Hm Hd) as Estats.
  rewrite Drain_spec in Hd by done. injection Hd as <- <-. apply stray_eq. intros name. unfold left_over.
  rewrite Estats. change (visits (RestoreEntries ?l ?e) name) with (visits e name).
  destruct (visits (drained_engine e) name) eqn:Hv; [by rewrite (visits_drained _ _ Hv)|].
  destruct (visits e name) eqn:Hv'; [by apply forgotten_zero|done].
Qed.

(** a switch of users tracks everybody who was tracked, and may come back to the
    counters of a user that had been forgotten *)
Lemma sound_apply e next e' res : sound e → ids_typed next → Apply next e = (e', res) → res ≠ Panic →
  sound e' ∧ stray e' ≤ stray e.
Proof.
  intros Hs Hids Ha Hp. pose proof Hs as [H1 H2 [H4 H5]]. unfold Apply in Ha. rewrite usersByID_userMap in Ha.
  assert (Htable : ∀ v, sound (with_table v e) ∧ stray (with_table v e) ≤ stray e).
  { intros v. split; [by constructor|]. rewrite (stray_same e); [lia|done..]. }
  destruct (negb (running e)); [by injection Ha as <- _|].
  destruct (dataPlaneNodeEqual _ _) eqn:Hdp; [|by injection Ha as <- _]. cbn [negb] in Ha. cbv zeta in Ha.
  destruct (remove_all _ _ _) as [[v1 removed] [err|]].
  { destruct (rollbackUsers _ _ _ _ _) as [v2 err2]. injection Ha as <- _. apply Htable. }
  destruct (add_all _ _ _) as [[v2 added] [err|]].
  { destruct (rollbackUsers _ _ _ _ _) as [v3 err2]. injection Ha as <- _. apply Htable. }
  destruct (Update (registry e) next) as [[[r cbs] revoked]|err|] eqn:Hup; [|by injection Ha as <- _|by injection Ha as _ <-].
  injection Ha as <- _. apply Update_inv in Hup as [_ Er].
  assert (Htr : ∀ uid, uid ∈ tracked e → uid ∈ tracked (mkEngine true (stats e) v2 r (registered e) next
     ((retired e ∪ dom (userMap (snap_Users (snapshot e))) ∖ dom (userMap (snap_Users next))) ∖ dom (userMap (snap_Users next))))).
  { intros uid. by apply tracked_kept. }
  destruct (dataPlane_identity _ _ Hdp) as [Hid _].
  split; [constructor; cbn [registry snapshot stats]|].
  - by rewrite Er.
  - intros uid Hu. apply Htr, H2. rewrite Er in Hu. done.
  - split; [done|]. intros uid. unfold tracked. cbn [snapshot retired]. rewrite elem_of_union, elem_of_list_to_set.
    intros [?|Hu]; [by apply Hids|]. apply H5. unfold tracked. rewrite elem_of_union, elem_of_list_to_set.
    apply elem_of_difference in Hu as [[?|Hu]%elem_of_union _]; [by right|left].
    apply elem_of_difference in Hu as [Hu _]. by apply elem_of_dom_userMap in Hu.
  - apply stray_le. intros name. unfold left_over. cbn [stats].
    destruct (visits e name) eqn:Hv.
    + rewrite (visits_weaken e _ name); [apply Z.le_refl|cbn; by rewrite Hid|exact Htr|exact Hv].
    + clear Hv. destruct (visits _ name); [|apply Z.le_refl]. unfold mget. destruct (stats e !! name) as [v'|] eqn:Ev; [|done].
      by apply H4 in Ev as [? _].
Qed.

Lemma sound_Start ft occupied s cfg key e : ids_typed s → Start ft occupied s cfg key = Ok e →
  sound e ∧ stats e = ∅ ∧ running e = true ∧ snapshot e = s.
Proof.
  intros Hids. unfold Start. intros (_ & _ & H)%obind_Ok_inv.
  repeat (apply guard_bind_Ok_inv in H as [_ H]). apply obind_Ok_inv in H as (v & _ & H).
  repeat (apply guard_bind_Ok_inv in H as [_ H]). injection H as <-. split; [|done]. constructor.
  - done.
  - intros uid Hu. done.
  - split; [done|]. intros uid. unfold tracked. cbn. rewrite union_empty_r_L, elem_of_list_to_set. apply Hids.
Qed.

Lemma stray_fresh e : stats e = ∅ → stray e = 0.
Proof.
  intros E. unfold stray, outstanding. apply msum_zero. intros name v Hv. unfold value_of.
  pose proof (mget_drained e name) as Hl. unfold left_over, mget in Hl. rewrite E, lookup_empty, Hv in Hl.
  cbn in Hl. by destruct (visits e name).
Qed.

(** ** The configuration of the data plane *)

(** The engine starts only with the private key of the panel: a key text is
    accepted exactly when, without the space around it, it is unpadded base64url of 32
    bytes whose X25519 public key is, in the same encoding, the key of the node. *)
Theorem reality_key_matches privateKey publicText text :
  verifyRealityKey privateKey publicText = Ok text ↔
  text = trim_space privateKey ∧ char_in "=" text = false ∧
  ∃ private public, b64_decode text = Some private ∧ length private = 32%nat ∧
    public_key private = Some public ∧ b64_encode public = publicText.
Proof.
  unfold verifyRealityKey. cbv zeta. rewrite guard_bind_Ok_inv. split.
  - intros [Heq H]. destruct (b64_decode _) as [private|] eqn:Ed; [|done].
    apply guard_bind_Ok_inv in H as [Hlen%negb_false_iff%Nat.eqb_eq H].
    destruct (public_key private) as [public|] eqn:Ep; [|done].
    apply guard_bind_Ok_inv in H as [Hpub%negb_false_iff%String.eqb_eq [= <-]]. split; [done|]. split; [done|]. by exists private, public.
  - intros (-> & Heq & private & public & Ed & Hlen & Ep & Hpub). split; [done|].
    rewrite Ed, Hlen, Ep, Hpub, String.eqb_refl. done.
Qed.

(** ** Witnesses *)
Definition w_key : string := "CQAAAAAAAAAAAAAAAAAAAAAAAAAAAAAAAAAAAAAAAAA".
Definition w_public : string := "QiyOemIn17yhNQs-K7cnn3iXuHu2hUt4PGDoAxGuMHk".
Lemma w_key_accepted text : trim_space text = w_key → verifyRealityKey text w_public = Ok w_key.
Proof.
  intros Ht. apply reality_key_matches. split; [done|]. split; [reflexivity|]. exists sample_private, sample_public.
  split; [reflexivity|]. split; [reflexivity|]. split; [exact rfc7748|reflexivity].
Qed.
(** what Start does behind the check of the key, on the address of the examples *)
Lemma start_accepted ft occupied s cfg text : trim_space text = w_key → node_RealityPublicKey (snap_Node s) = w_public →
  cfg_Listen cfg = "127.0.0.1:8443" →
  Start ft occupied s cfg text =
    (guard_err (sf_load ft) "compile Xray config" ;?
     guard_err occupied "register Xray session controller" ;?
     guard_err (sf_new ft) "create Xray core" ;?
     let? users := inbound_users (snap_Node s) (snap_Users s) (mkValidator ∅ ∅) in
     guard_err (sf_start ft) "start Xray core" ;?
     guard_err (sf_stats ft) "Xray stats manager is unavailable" ;?
     guard_err (sf_inbound ft) "VLESS inbound user manager is unavailable" ;?
     Ok (mkEngine true ∅ users (New s cfg) true s ∅)).
Proof. intros Ht Hp Hl. unfold Start, BuildConfig. by rewrite Hp, Hl, w_key_accepted. Qed.
Definition w_node : Node :=
  mkNode 7 "node" (f64_of_int 2) 0 0 (f64_of_int 0) 0 0 0 "node.example.com" 443 "www.example.com" "www.example.com:443"
    w_public "0123456789abcdef" "chrome" "xtls-rprx-vision" "raw" EmptyString 3.
Definition w_user (id : Z) (uuid : string) : User := mkUser id uuid (f64_of_int 0) 0 [] [] [].
Definition w_user2 : User := w_user 2 "d2b7d951-3d54-3f23-abb8-f752e336b3cd".
Definition w_user5 : User := w_user 5 "feb54431-301b-52bb-a6dd-e1e93e81bb9e".
Definition w_user9 : User := w_user 9 "00112233-4455-6677-8899-aabbccddeeff".
Definition w_snapshot : Snapshot := mkSnapshot w_node [w_user2; w_user5] 1700000000 EmptyString.
Definition w_next : Snapshot := mkSnapshot w_node [w_user5; w_user9] 1700000060 EmptyString.
Definition w_broken : Snapshot := mkSnapshot w_node [w_user5; w_user 9 "00112233-4455-6677-8899-aabbccddeefg"] 1700000060 EmptyString.
Definition w_config : Config :=
  mkConfig 7 "127.0.0.1:8443" "/state" "/key"
    (mkDatabaseConfig "127.0.0.1:3306" "sspanel" "service" "/password" "disabled" EmptyString EmptyString 4 2)
    (mkIntervals 60 60 3600 120) (mkLimits 2 2 1 1 1 1) (2 ^ 30) "info".
Definition w_users : Validator := Eval vm_compute in
  match inbound_users w_node [w_user2; w_user5] (mkValidator ∅ ∅) with Ok v => v | _ => mkValidator ∅ ∅ end.
Definition w_engine : Engine := mkEngine true ∅ w_users (New w_snapshot w_config) true w_snapshot ∅.
Definition w_prepared : Prepared := mkPrepared 5 "203.0.113.1" TCP 443 ["198.51.100.1"] EmptyString.
Definition w_opened : Engine := with_registry (openCommit (registry w_engine) w_prepared).1 w_engine.
Definition w_busy : Engine := count_traffic 5 "downlink" 1000 (count_traffic 5 "uplink" 200 w_opened).

Lemma w_start : Start no_start_faults false w_snapshot w_config w_key = Ok w_engine.
Proof. rewrite start_accepted by reflexivity. vm_compute. reflexivity. Qed.

Lemma w_ids : ids_typed w_snapshot.
Proof. intros uid Hu. repeat (apply elem_of_cons in Hu as [->|Hu]; [done|]). by apply not_elem_of_nil in Hu. Qed.

Lemma w_sound : sound w_busy.
Proof.
  pose proof (sound_Start _ _ _ _ _ _ w_ids w_start) as [H0 _].
  apply sound_traffic; [|done|by vm_compute]. apply sound_traffic; [|done|by vm_compute]. by apply sound_open.
Qed.
Lemma w_metered : metered w_busy.
Proof. apply w_sound. Qed.

Lemma drain_takes_all_witness : ∃ entries, (Drain w_busy).2 = Ok entries ∧ mkEntry 5 200 1000 ∈ entries.
Proof.
  destruct (drain_takes_all w_busy (Drain w_busy).1 (Drain w_busy).2 w_metered (surjective_pairing _))
    as (entries & Hd & _ & Hin & _).
  exists entries. split; [exact Hd|]. apply Hin. vm_compute. repeat split. by left.
Defined.

Lemma restore_undoes_drain_witness :
  stats (RestoreEntries [mkEntry 5 200 1000] (Drain w_busy).1) = stats w_busy ∧
  RestoreEntries [mkEntry 5 200 1000] w_engine = w_engine.
Proof.
  destruct (restore_undoes_drain w_busy (Drain w_busy).1 [mkEntry 5 200 1000] w_metered ltac:(vm_compute; reflexivity))
    as [H1 H2].
  split; [exact H1|]. exact (H2 w_engine eq_refl).
Defined.

Lemma w_compatible l : Forall (λ u, is_int64 (user_ID u) = true) l → NoDup (map user_ID l) →
  forallb (λ u, forallb (apart u) l) l = true → compatible w_node (in_users l).
Proof. apply compatible_users. Qed.

Lemma w_switchable next : NoDup (map user_ID (snap_Users next)) → compatible w_node (in_users (snap_Users next)) →
  switchable w_engine next.
Proof.
  intros Hnd Hc. assert (Hold : NoDup (map user_ID [w_user2; w_user5])) by (apply (bool_decide_unpack _); vm_compute; done).
  assert (Cold : compatible w_node (in_users [w_user2; w_user5])).
  { apply w_compatible; [by repeat constructor|done|by vm_compute]. }
  constructor; [|exact Hold|exact Hnd|exact Cold|exact Hc].
  apply inbound_users_holds; [exact Cold|exact Hold|vm_compute; reflexivity].
Qed.

Lemma w_next_switchable : switchable w_engine w_next ∧ switchable w_engine w_broken.
Proof.
  assert (Hnd : NoDup [5; 9]) by (apply (bool_decide_unpack _); vm_compute; done).
  split; apply w_switchable; try exact Hnd; apply w_compatible; try exact Hnd; by repeat constructor || by vm_compute.
Qed.

(** a switch that goes through, and one that is rolled back *)
Lemma apply_installs_or_restores_witness :
  (∃ e' revoked callbacks, Apply w_next w_engine = (e', Ok (revoked, callbacks)) ∧ in_step e' ∧ snapshot e' = w_next) ∧
  (∃ err, Apply w_broken w_engine = (w_engine, Err err)).
Proof.
  destruct w_next_switchable as [H1 H2]. split.
  - pose proof (apply_installs_or_restores w_engine w_next (Apply w_next w_engine).1 (Apply w_next w_engine).2 H1
      (surjective_pairing _)) as H.
    assert (E : ∃ p, (Apply w_next w_engine).2 = Ok p) by (eexists; vm_compute; reflexivity).
    destruct E as [[revoked callbacks] E]. rewrite E in H. destruct H as (Hs & Hsnap & _).
    exists (Apply w_next w_engine).1, revoked, callbacks. split; [|split; [exact Hs|exact Hsnap]].
    rewrite <- E. apply surjective_pairing.
  - pose proof (apply_installs_or_restores w_engine w_broken (Apply w_broken w_engine).1 (Apply w_broken w_engine).2 H2
      (surjective_pairing _)) as H.
    assert (E : ∃ err, (Apply w_broken w_engine).2 = Err err) by (eexists; vm_compute; reflexivity).
    destruct E as [err E]. rewrite E in H. destruct H as [He _]. exists err. rewrite <- He at 2. rewrite <- E.
    apply surjective_pairing.
Defined.
