(* ===== verification/ClientAuth.v ===== *)
(** The VLESS inbound ([proxy/vless] in the vendored Xray-core): the request header,
    the user that its UUID stands for, the checks of its flow, and whether the connection
    is dispatched or becomes a Mux connection ([common/mux/server.go]). Together with
    the engine, which keeps the table of users, and the dispatcher, which opens the
    sessions, it says whose credential a session is opened with. *)
From S2P Require Import Prelude GoString Float64 Digest Netip Model Identity Config Policy.
From S2P Require Import Session SessionInv SessionConn SessionUpdate SessionLease NetAddress SessionControl Xudp.
From S2P Require Import Outbox Xray Engine EngineUsers EngineTraffic EngineSafe.

Local Open Scope string_scope.
Local Open Scope Z_scope.

(** ** The request header *)
Definition Clear (st : Reading) : Reading := mkReading EmptyString (rd_input st).

(** Clear, ReadFullFrom of one byte, and the byte *)
Definition read_byte (st : Reading) : option (Reading * Z) :=
  st ← ReadFullFrom 1 (Clear st);
  match rd_buffer st with String c _ => Some (st, code c) | EmptyString => None end.

Definition RequestCommandTCP : Z := 1.
Definition RequestCommandUDP : Z := 2.
Definition RequestCommandMux : Z := 3.
Definition RequestCommandRvs : Z := 4.
Definition XRV : string := "xtls-rprx-vision".
Definition muxCoolAddress : Address := domainAddress "v1.mux.cool".

(** protocol.RequestHeader; the version is always 0 *)
Record RequestHeader : Type := mkRequestHeader {
  rq_Command : Z;
  rq_User : MemoryUser;
  rq_Address : Address;
  rq_Port : Z }.

Definition RequestDestination (h : RequestHeader) : Destination :=
  mkDestination (rq_Address h) (rq_Port h) (if rq_Command h =? RequestCommandUDP then Network_UDP else Network_TCP).

Definition or_err {T} (e : string) (o : option T) : outcome string T :=
  match o with Some x => Ok x | None => Err e end.

Section Inbound.
(** proto.Unmarshal of the addons, as far as their flow *)
Context (Unmarshal : string → option string).

Definition DecodeHeaderAddons (st : Reading) : option (Reading * string) :=
  '(st, length) ← read_byte st;
  if length =? 0 then Some (st, EmptyString)
  else
    st ← ReadFullFrom length (Clear st);
    flow ← Unmarshal (rd_buffer st);
    Some (st, flow).

(** DecodeRequestHeader behind the UUID, for the user that it stands for: the UUID, the
    header, the flow, and what is left of the input *)
Definition DecodeRequest (id : list Z) (user : MemoryUser) (st : Reading)
  : outcome string (list Z * RequestHeader * string * string) :=
  let? x := or_err "failed to decode request header addons" (DecodeHeaderAddons st) in
  let '(st, flow) := x in
  let? x := or_err "failed to read request command" (read_byte st) in
  let '(st, command) := x in
  let? x := or_err "invalid request address"
    (if command =? RequestCommandMux then Some (st, muxCoolAddress, 0)
     else if command =? RequestCommandRvs then Some (st, domainAddress "v1.rvs.cool", 0)
     else if (command =? RequestCommandTCP) || (command =? RequestCommandUDP) then ReadAddressPort st
     else None) in
  let '(st, a, port) := x in
  Ok (id, mkRequestHeader command user a port, flow, rd_input st).

(** DecodeRequestHeader, without fallbacks *)
Definition DecodeRequestHeader (v : Validator) (input : string)
  : outcome string (list Z * RequestHeader * string * string) :=
  let? x := or_err "failed to read request version" (read_byte (mkReading EmptyString input)) in
  let '(st, version) := x in
  guard_err (negb (version =? 0)) "invalid request version" ;?
  let? st := or_err "failed to read request user id" (ReadFullFrom 16 (Clear st)) in
  let id := bytes_of (rd_buffer st) in
  let? user := or_err "invalid request user id" (ValidatorGet id v) in
  DecodeRequest id user st.

(** ** Process *)

(** [first]: what is left of the first read behind the header *)
Definition isMuxAndNotXUDP (command : Z) (first : string) : bool :=
  if negb (command =? RequestCommandMux) then false
  else
    match bytes_of first with
    | _ :: _ :: b2 :: b3 :: _ :: _ :: b6 :: _ => negb ((b2 =? 0) && (b3 =? 0) && (b6 =? 2))
    | _ => true
    end.

(** a request that is let through: the inbound and the target of its context, the UUID
    that was sent, and whether the context allows UDP only *)
Record Accepted : Type := mkAccepted {
  ac_inbound : Inbound;
  ac_target : Destination;
  ac_ID : list Z;
  ac_udp_only : bool }.

(** Process for a header that was decoded, with the bytes [more] behind the first read.
    The connection is a REALITY connection, and no account has a reverse proxy. *)
Definition acceptHeader (inbound : Inbound) (more : string) (x : list Z * RequestHeader * string * string)
  : outcome string Accepted :=
  let '(id, request, flow, rest) := x in
  let command := rq_Command request in
  let account := rq_User request in
  let left := take_chars (String.length rest - String.length more) rest in
  let accept splice :=
    guard_err (command =? RequestCommandRvs) "user is not allowed to create reverse proxy" ;?
    Ok (mkAccepted (mkInbound (in_Tag inbound) (Some (mu_Email account)) (in_Source inbound) splice)
          (RequestDestination request) id
          ((command =? RequestCommandMux) && String.eqb (mu_Flow account) XRV)) in
  if String.eqb flow XRV then
    guard_err (negb (String.eqb (mu_Flow account) flow)) "account is not able to use the flow" ;?
    guard_err (command =? RequestCommandUDP) "flow doesn't support UDP" ;?
    accept (if (command =? RequestCommandMux) || (command =? RequestCommandRvs) then 3 else 2)
  else if String.eqb flow EmptyString then
    guard_err (String.eqb (mu_Flow account) XRV && ((command =? RequestCommandTCP) || isMuxAndNotXUDP command left))
      "account is rejected since the client flow is empty" ;?
    accept 3
  else Err "unknown request flow".

(** the request of a client whose first read is [first], with the bytes [more] behind it *)
Definition acceptRequest (v : Validator) (inbound : Inbound) (first more : string) : outcome string Accepted :=
  let? x := DecodeRequestHeader v (first +:+ more) in acceptHeader inbound more x.

(** the whole of Process: the slot of the handshake is given back on every path *)
Definition Process (controller : option Registry) (v : Validator) (inbound : Inbound) (first more : string)
  : option Registry * outcome string Accepted :=
  match acquireHandshake controller (Some inbound) with
  | (c, Err _) => (c, Err "handshake rejected by session controller")
  | (c, Panic) => (c, Panic)
  | (c, Ok held) => (if held : bool then releaseHandshake <$> c else c, acceptRequest v inbound first more)
  end.
End Inbound.

(** DispatchLink of the Mux server: a new Mux connection, or none when the
    dispatcher serves the target *)
Definition serveMux (a : Accepted) : option Carrier :=
  if bool_decide (dst_Address (ac_target a) = muxCoolAddress)
  then Some (mkCarrier (with_splice 3 (ac_inbound a)) ∅ false false (ac_udp_only a) 0)
  else None.

(** ** Engines from their start on *)

(** users that the table of a node can hold: no two share an id, or a UUID *)
Record identified (s : Snapshot) : Prop := {
  id_unique : NoDup (map user_ID (snap_Users s));
  id_apart : compatible (snap_Node s) (in_users (snap_Users s)) }.

(** an engine that was started, while sessions and traffic come and go and it is
    drained, restored and switched to other snapshots *)
Inductive live : Engine → Prop :=
| live_start ft occupied s cfg key e : identified s → Start ft occupied s cfg key = Ok e → live e
| live_apply e next e' res : live e → identified next → Apply next e = (e', res) → res ≠ Panic → live e'
| live_session e r' : live e → op everyone (registry e) r' → generation r' = generation (registry e) → live (with_registry r' e)
| live_open e p : live e → live (with_registry (openCommit (registry e) p).1 e)
| live_traffic e c : live e → live (with_stats c e)
| live_drain e : live e → live (Drain e).1
| live_restore e entries : live e → live (RestoreEntries entries e).

(** the table, the registry and the snapshot of an engine are of the same users *)
Record aligned (e : Engine) : Prop := {
  al_step : in_step e;
  al_users : users (registry e) = userMap (snap_Users (snapshot e));
  al_node : nodeID (registry e) = node_ID (snap_Node (snapshot e));
  al_identified : identified (snapshot e) }.

Lemma op_node d r r' : op d r r' → generation r' = generation r → users r' = users r ∧ nodeID r' = nodeID r.
Proof.
  intros Hop Hgen. split; [by eapply no_new_op|]. destruct Hop; try done.
  - unfold AcquireHandshake. by repeat case_match.
  - unfold releaseHandshake. by case_match.
  - by destruct (openLookup_reg r request) as [->|(reason & ->)].
  - by destruct (authorizeTarget_reg r lookup user request) as [->|(reason & ->)].
  - unfold openCommit. by rewrite H.
  - apply Update_inv in H as [_ E]. rewrite E in Hgen. cbn in Hgen. lia.
  - unfold BindInterrupt, storeLease. by repeat case_match.
  - unfold Rebind, storeLease. by repeat case_match.
  - unfold CloseLease. repeat case_match; try done. cbv zeta. by destruct (l_kind l).
Qed.

Lemma aligned_registry e r : aligned e → users r = users (registry e) → nodeID r = nodeID (registry e) →
  aligned (with_registry r e).
Proof. intros [H1 H2 H3 H4] E1 E2. by constructor; cbn; rewrite ?E1, ?E2. Qed.

Lemma compatible_node n m P : node_ID n = node_ID m → node_Flow n = node_Flow m → compatible n P → compatible m P.
Proof.
  intros H1 H2 [A B C]. assert (E : ∀ u, memoryUser m u = memoryUser n u) by (intros; by apply memoryUser_same).
  constructor; [done|..]; setoid_rewrite E; done.
Qed.

Lemma aligned_apply e next e' res : aligned e → identified next → Apply next e = (e', res) → res ≠ Panic → aligned e'.
Proof.
  intros Ha Hn Happly Hp. destruct (dataPlaneNodeEqual (snap_Node (snapshot e)) (snap_Node next)) eqn:Hdp.
  - destruct (dataPlane_identity _ _ Hdp) as [E1 E2]. destruct Ha as [H1 H2 H3 [I1 I2]], Hn as [N1 N2].
    assert (Hsw : switchable e next) by (by constructor; [..|eapply compatible_node; [..|exact N2]]).
    pose proof (Apply_outcome e next e' res Hsw Happly) as Hout.
    destruct res as [[revoked callbacks]|err|]; [|by destruct Hout as [-> _]|done].
    destruct Hout as (Hs & Hsnap & _ & _ & Hup & _). apply Update_inv in Hup as [_ Er].
    constructor; [done|..]; rewrite Hsnap; [by rewrite Er..|done].
  - assert (E : e' = e); [|by subst]. unfold Apply in Happly. destruct (negb (running e)); [by injection Happly|].
    rewrite Hdp in Happly. by injection Happly.
Qed.

Lemma Drain_frame e : table (Drain e).1 = table e ∧ registry (Drain e).1 = registry e ∧ snapshot (Drain e).1 = snapshot e.
Proof. unfold Drain. by destruct (drain_loop _ _ _ _ _) as [[c ret] res]. Qed.

Lemma live_aligned e : live e → aligned e.
Proof.
  induction 1 as [ft occupied s cfg key e Hid Hstart|e next e' res _ IH Hid Happly Hp|e r' _ IH Hop Hgen|e p _ IH|e c _ IH|e _ IH|e entries _ IH].
  - unfold Start in Hstart. split_guards. simplify_eq. constructor; [|done..].
    by apply inbound_users_holds; [apply Hid..|].
  - by eapply aligned_apply.
  - destruct (op_node _ _ _ Hop Hgen). by apply aligned_registry.
  - apply aligned_registry; [done|..]; unfold openCommit; (destruct (commitRefusal _ p); [done|]); by destruct (p_kind p).
  - destruct IH as [H1 H2 H3 H4]. by constructor.
  - destruct (Drain_frame e) as (E1 & E2 & E3). destruct IH as [H1 H2 H3 H4].
    constructor; rewrite ?E2, ?E3; try done. unfold in_step. by rewrite E1, E3.
  - destruct IH as [H1 H2 H3 H4]. by constructor.
Qed.

(** ** What a request is let through for *)
Lemma read_byte_inv st st' b : read_byte st = Some (st', b) →
  ∃ c, rd_input st = String c (rd_input st') ∧ b = code c ∧ rd_buffer st' = String c EmptyString.
Proof.
  unfold read_byte. destruct (ReadFullFrom 1 (Clear st)) as [x|] eqn:E; [|done]. cbn [mbind option_bind].
  unfold ReadFullFrom, Clear in E. cbn [rd_buffer rd_input] in E.
  destruct (8192 <? _); [done|]. destruct (rd_input st) as [|c s]; [done|].
  destruct (slen (String c s) <? 1); [done|]. injection E as <-. cbn. intros [= <- <-]. exists c. by destruct s.
Qed.

Lemma mux_is_name : wire_address muxCoolAddress.
Proof. split; [done|]. split; vm_compute; reflexivity. Qed.
Lemma rvs_is_name : wire_address (domainAddress "v1.rvs.cool").
Proof. split; [done|]. split; vm_compute; reflexivity. Qed.

Section Requests.
Context (Unmarshal : string → option string).

Lemma DecodeRequestHeader_inv v input id rq flow rest :
  DecodeRequestHeader Unmarshal v input = Ok (id, rq, flow, rest) →
  ValidatorGet id v = Some (rq_User rq) ∧ wire_address (rq_Address rq) ∧
  id = bytes_of (take_chars 16 (drop_chars 1 input)).
Proof.
  unfold DecodeRequestHeader. intros ([st version] & H1 & H)%obind_Ok_inv.
  apply guard_bind_Ok_inv in H as [_ H]. apply obind_Ok_inv in H as (st1 & H2 & H).
  apply obind_Ok_inv in H as (user & H3 & H). unfold DecodeRequest in H. apply obind_Ok_inv in H as ([st2 flow'] & _ & H).
  apply obind_Ok_inv in H as ([st3 command] & _ & H). apply obind_Ok_inv in H as ([[st4 a] port] & H4 & [= <- <- <- <-]).
  destruct (read_byte _) as [[x b]|] eqn:Hb; [|done]. injection H1 as -> ->.
  apply read_byte_inv in Hb as (c & Hin & _ & _). cbn [rd_input] in Hin.
  destruct (ReadFullFrom 16 (Clear st)) as [x|] eqn:Hr; [|done]. injection H2 as ->.
  destruct (ValidatorGet _ v) as [mu|] eqn:Hv; [|done]. injection H3 as ->. split; [done|]. split.
  - cbn [rq_Address]. destruct (command =? RequestCommandMux); [by injection H4 as <- <- <-; apply mux_is_name|].
    destruct (command =? RequestCommandRvs); [by injection H4 as <- <- <-; apply rvs_is_name|].
    destruct (_ || _); [|done]. destruct (ReadAddressPort st3) as [[[y b] q]|] eqn:Ha; [|done].
    injection H4 as <- <- <-. by apply ReadAddressPort_wire in Ha as [? _].
  - unfold ReadFullFrom, Clear in Hr. cbn [rd_buffer rd_input] in Hr. destruct (8192 <? _); [done|].
    destruct (_ <? 16); [done|]. injection Hr as <-. cbn [rd_buffer]. by rewrite Hin.
Qed.

Lemma acceptRequest_inv v inb first more a : acceptRequest Unmarshal v inb first more = Ok a →
  ∃ mu, ValidatorGet (ac_ID a) v = Some mu ∧ in_User (ac_inbound a) = Some (mu_Email mu) ∧
    in_Tag (ac_inbound a) = in_Tag inb ∧ in_Source (ac_inbound a) = in_Source inb ∧
    wire_address (dst_Address (ac_target a)) ∧ ac_ID a = bytes_of (take_chars 16 (drop_chars 1 (first +:+ more))).
Proof.
  intros ([[[id rq] flow] rest] & (H1 & H2 & H3)%DecodeRequestHeader_inv & H)%obind_Ok_inv.
  exists (rq_User rq). unfold acceptHeader in H. destruct (String.eqb flow XRV); [|destruct (String.eqb flow EmptyString); [|done]];
    split_guards; simplify_eq/=; done.
Qed.
End Requests.

(** the user of a snapshot that a UUID stands for *)
Definition credential (u : User) (id : list Z) : Prop := ProcessUUID <$> ParseString (user_UUID u) = Some (ProcessUUID id).

Lemma ValidatorGet_user e id mu : aligned e → ValidatorGet id (table e) = Some mu →
  ∃ u, u ∈ snap_Users (snapshot e) ∧ memoryUser (snap_Node (snapshot e)) u = Ok mu ∧ credential u id.
Proof.
  intros [[_ _ H] _ _ _] Hg. apply H in Hg as (u & Hu & Em & E). exists u. split; [done|]. split; [done|].
  unfold credential. rewrite (proj1 (memoryUser_Ok _ _ _ Em)). cbn. by rewrite E.
Qed.
Lemma ValidatorGet_credential e id u mu : aligned e → u ∈ snap_Users (snapshot e) →
  memoryUser (snap_Node (snapshot e)) u = Ok mu → credential u id → ValidatorGet id (table e) = Some mu.
Proof.
  intros [[_ _ H] _ _ _] Hu Em Hc. apply H. exists u. split; [done|]. split; [done|].
  unfold credential in Hc. rewrite (proj1 (memoryUser_Ok _ _ _ Em)) in Hc. by injection Hc.
Qed.
Lemma credential_unique e id u v : aligned e → u ∈ snap_Users (snapshot e) → v ∈ snap_Users (snapshot e) →
  credential u id → credential v id → u = v.
Proof.
  intros [[Hvalid _ _] _ _ [Hnd [_ _ Huuid]]] Hu Hv Cu Cv.
  destruct (Hvalid u Hu) as [mu Eu], (Hvalid v Hv) as [mv Ev].
  apply (old_unique (snap_Users (snapshot e)) Hnd u v Hu Hv), (Huuid u v mu mv Hu Hv Eu Ev). unfold credential in *.
  rewrite (proj1 (memoryUser_Ok _ _ _ Eu)) in Cu. rewrite (proj1 (memoryUser_Ok _ _ _ Ev)) in Cv.
  injection Cu as ->. by injection Cv as ->.
Qed.

(** C2: a session belongs to the credential that opened it. From the start of an
    engine on, through all switches of users, what a client sends is let through only
    if its UUID, the sixteen bytes behind the version, is the UUID of a user of the
    snapshot in force (up to the two bytes that are free for the client), of exactly
    one; and the connection opens sessions of that user only, to targets that the
    user's policy in that snapshot permits. *)
Theorem session_belongs_to_the_credential Unmarshal e inb first more a :
  live e → in_Tag inb = inboundTag → acceptRequest Unmarshal (table e) inb first more = Ok a →
  ∃ u, u ∈ snap_Users (snapshot e) ∧ credential u (bytes_of (take_chars 16 (drop_chars 1 (first +:+ more)))) ∧
    (∀ v, v ∈ snap_Users (snapshot e) → credential v (bytes_of (take_chars 16 (drop_chars 1 (first +:+ more)))) → v = u) ∧
    ∀ lookup c' inb' target lease, resolver_ok lookup →
      DispatchLink (Some (registry e)) lookup (Some (ac_inbound a)) (ac_target a) = (c', inb', Ok (target, lease)) →
      ∃ r' id l n, c' = Some r' ∧ lease = Some id ∧ sessions r' !! id = Some l ∧ l_revoked l = false ∧
        l_userID l = user_ID u ∧ netip_of (dst_Address target) = Some n ∧
        IPBlocked (user_ForbiddenIPs u) (addr_string n) = false ∧
        PortBlocked (user_ForbiddenPorts u) (dst_Port target) = false.
Proof.
  intros Hlive%live_aligned Htag (mu & Hget & Huser & Htag' & _ & Hwire & Hid)%acceptRequest_inv.
  destruct (ValidatorGet_user e _ mu Hlive Hget) as (u & Hu & Em & Hc). rewrite Hid in Hc.
  exists u. split; [done|]. split; [done|]. split; [intros v Hv Cv; by apply (credential_unique e _ v u Hlive Hv Hu Cv)|].
  intros lookup c' inb' target lease Hlookup. unfold DispatchLink. destruct (bool_decide _); [done|].
  intros (r' & id & l & user & n & -> & -> & Eu & Hl & Hr & Hus & Hint & Hmail & Hport & _ & _ & Hn & Hip & Hpb & _)
    %openControlledSession_permits; [|done|by rewrite Htag'|done].
  exists r', id, l, n. rewrite Hport. rewrite Huser, (proj2 (memoryUser_Ok _ _ _ Em)) in Hmail. apply (inj Some) in Hmail.
  rewrite (al_node e Hlive) in Hmail.
  assert (E : user_ID u = l_userID l).
  { eapply UserEmail_inj; [|exact Hint|exact Hmail]. by apply (id_apart _ (al_identified e Hlive)). }
  rewrite Eu, (al_users e Hlive), <- E in Hus. apply userMap_Some in Hus as [Hin Hid']; [|apply (al_identified e Hlive)].
  assert (user = u) as ->; [|done]. by eapply old_unique; [apply (al_identified e Hlive)|..].
Qed.

(** the slot of a handshake is given back whatever the client sends *)
Lemma Process_returns_the_slot Unmarshal r v inb first more c res : 0 ≤ handshakes r →
  Process Unmarshal (Some r) v inb first more = (c, res) → ∃ r', c = Some r' ∧ handshakes r' = handshakes r.
Proof.
  intros Hr. unfold Process, acquireHandshake, ControlAcquire, AcquireHandshake.
  destruct (negb _); [intros [= <- _]; by exists r|].
  destruct (closed r || _); [intros [= <- _]; by eexists|]. intros [= <- _]. cbn [fmap option_fmap option_map].
  eexists. split; [done|]. unfold releaseHandshake. cbn [with_handshakes handshakes].
  destruct (Z.ltb_spec 0 (handshakes r + 1)); cbn [with_handshakes handshakes]; lia.
Qed.

(** ** Credentials that are replaced *)

(** a request whose version, UUID and rest are these *)
Definition vless_request (id rest : string) : string := String (byte 0) (id +:+ rest).

Lemma request_more id rest more : vless_request id rest +:+ more = vless_request id (rest +:+ more).
Proof. change (String (byte 0) ((id +:+ rest) +:+ more) = vless_request id (rest +:+ more)). by rewrite string_app_assoc. Qed.

Section Rotation.
Context (Unmarshal : string → option string).

Lemma DecodeRequestHeader_request v id rest : String.length id = 16%nat →
  DecodeRequestHeader Unmarshal v (vless_request id rest) =
    (let? user := or_err "invalid request user id" (ValidatorGet (bytes_of id) v) in
     DecodeRequest Unmarshal (bytes_of id) user (mkReading id rest)).
Proof.
  intros Hlen. unfold DecodeRequestHeader, read_byte.
  assert (E1 : ReadFullFrom 1 (Clear (mkReading EmptyString (vless_request id rest))) = Some (mkReading (String (byte 0) EmptyString) (id +:+ rest))).
  { unfold ReadFullFrom, vless_request, Clear. cbn [rd_buffer rd_input]. change (8192 <? slen EmptyString + 1) with false. cbn iota.
    destruct (Z.ltb_spec (slen (String (byte 0) (id +:+ rest))) 1) as [Hl|_]; [unfold slen in Hl; cbn in Hl; lia|]. done. }
  rewrite E1. cbn [mbind option_bind rd_buffer or_err obind]. change (code (byte 0) =? 0) with true. cbn [negb guard_err obind].
  assert (E2 : ∀ b, ReadFullFrom 16 (Clear (mkReading b (id +:+ rest))) = Some (mkReading id rest)).
  { intros b. unfold ReadFullFrom, Clear. cbn [rd_buffer rd_input]. change (8192 <? slen EmptyString + 16) with false. cbn iota.
    destruct (Z.ltb_spec (slen (id +:+ rest)) 16) as [Hl|_]; [unfold slen in Hl; rewrite string_length_app in Hl; lia|].
    change (Z.to_nat 16) with 16%nat. rewrite <- Hlen, take_chars_app, drop_chars_app. done. }
  rewrite E2. done.
Qed.

(** what a request is accepted for depends on the flow and the email of its user *)
Lemma acceptRequest_user v w inb id id' rest more mu mw a :
  String.length id = 16%nat → String.length id' = 16%nat →
  ValidatorGet (bytes_of id) v = Some mu → ValidatorGet (bytes_of id') w = Some mw →
  mu_Flow mw = mu_Flow mu → mu_Email mw = mu_Email mu →
  acceptRequest Unmarshal v inb (vless_request id rest) more = Ok a →
  acceptRequest Unmarshal w inb (vless_request id' rest) more =
    Ok (mkAccepted (ac_inbound a) (ac_target a) (bytes_of id') (ac_udp_only a)).
Proof.
  intros Hl Hl' Hv Hw Hflow Hmail. unfold acceptRequest. rewrite !request_more, !DecodeRequestHeader_request by done.
  rewrite Hv, Hw. cbn [or_err obind]. unfold DecodeRequest.
  change (DecodeHeaderAddons Unmarshal (mkReading id' (rest +:+ more))) with (DecodeHeaderAddons Unmarshal (mkReading id (rest +:+ more))).
  destruct (DecodeHeaderAddons _ _) as [[st flow]|]; [|done]. cbn [or_err obind].
  destruct (read_byte st) as [[st1 command]|]; [|done]. cbn [or_err obind].
  destruct (if command =? RequestCommandMux then _ else _) as [[[st2 b] port]|]; [|done]. cbn [or_err obind].
  unfold acceptHeader. cbn [rq_Command rq_User]. rewrite Hflow, Hmail.
  intros H. destruct (String.eqb flow XRV); [|destruct (String.eqb flow EmptyString); [|done]];
    split_guards; simplify_eq/=; by repeat match goal with E : _ = false |- _ => rewrite E; clear E; cbn [guard_err obind] end.
Qed.
End Rotation.

(** an update leaves no live session to a user whose UUID is replaced *)
Lemma replaced_user_revoked r new r' cbs ids uid old updated id l :
  Update r new = Ok (r', cbs, ids) → users r !! uid = Some old → userMap (snap_Users new) !! uid = Some updated →
  user_UUID old ≠ user_UUID updated → sessions r' !! id = Some l → l_userID l = uid → l_revoked l = true.
Proof.
  intros (more & aff & Hen & _ & _)%Update_Ok_inv Hold Hnew Hne Hl Hu.
  assert (Hall : uid ∈ revokeAllUsers r new).
  { assert (Hin : uid ∈ dom (users r)) by (apply elem_of_dom; by rewrite Hold).
    unfold revokeAllUsers. destruct (f64_eqb _ _); [|done]. apply elem_of_dom. exists old.
    apply map_lookup_filter_Some. split; [done|]. cbn. unfold goneOrChanged. rewrite Hnew.
    unfold userPolicyWithoutDisconnectChanged. rewrite (proj2 (String.eqb_neq _ _) Hne). by destruct (user_ID old =? user_ID updated). }
  apply revoked_user_no_survivors in Hall. destruct (l_revoked l) eqn:Hr; [done|]. exfalso.
  destruct (enforce_revoked _ _ _ _ Hen) as [Hm _].
  destruct (more_revoked_lookup _ _ _ _ Hm Hl) as (l0 & Hl0 & [<-| ->]); [|done].
  apply (not_elem_of_empty (C := gset string) (l_sourceIP l)). rewrite <- Hall.
  apply elem_of_liveSources. by exists id, l.
Qed.

(** a switch that goes through *)
Lemma Apply_Ok_inv next e e' res : Apply next e = (e', Ok res) →
  snapshot e' = next ∧ (∃ cbs ids, Update (registry e) next = Ok (registry e', cbs, ids)) ∧
  dataPlaneNodeEqual (snap_Node (snapshot e)) (snap_Node next) = true.
Proof.
  unfold Apply. destruct (negb (running e)); [done|]. destruct (dataPlaneNodeEqual _ _) eqn:Hdp; [|done].
  cbn [negb]. cbv zeta. destruct (remove_all _ _ _) as [[v1 removed] [err|]]; [by destruct (rollbackUsers _ _ _ _ _)|].
  destruct (add_all _ _ _) as [[v2 added] [err|]]; [by destruct (rollbackUsers _ _ _ _ _)|].
  destruct (Update (registry e) next) as [[[r cbs] revoked]|err|]; [|done..].
  intros [= <- _]. split; [done|]. split; [by exists cbs, revoked|done].
Qed.

(** the connection of a Mux server that began as [k] and is still open *)
Definition still_served (k : Carrier) (c : Z) (m : MuxState) : Prop :=
  ∃ k', mx_carriers m !! c = Some k' ∧ ca_inbound k' = ca_inbound k ∧
    ca_udp_only k' = ca_udp_only k ∧ ca_closed k' = false ∧ ca_cancelled k' = false.

(** the Mux server after the registry has changed and called its callbacks *)
Definition mux_after (r : Registry) (cbs : list callback) (m : MuxState) : MuxState := run_callbacks cbs (set_registry r m).

Lemma still_served_after k c r cbs m : still_served k c m → still_served k c (mux_after r cbs m).
Proof.
  intros (k' & Hk & H). exists k'. unfold mux_after. rewrite (proj1 (run_callbacks_carriers _ _)). done.
Qed.

(** an open connection of a user whom the registry admits opens a session of that user *)
Lemma served_opens_session r k c u nodeTag lookup now sid target r' inb d lease m :
  still_served k c m → mx_registry m = r → wire_address (dst_Address target) → resolver_ok lookup →
  in_Tag (ca_inbound k) = inboundTag → in_User (ca_inbound k) = Some (UserEmail nodeTag u) → nodeTag = nodeID r →
  is_int64 u = true →
  (ca_udp_only k = true → dst_Network target = Network_UDP) →
  Dispatch (Some r) lookup (Some (ca_inbound k)) target = (r', inb, Ok (d, lease)) →
  ∃ m', handleStatusNew lookup now c sid 0 target m = (m', Ok tt) ∧ carries m' c sid u.
Proof.
  intros (k' & Hk & Einb & Eudp & Hopen & _) <- Hwire Hlookup Htag Hmail -> Hu Hudp Hd.
  assert (Hd' := Hd). unfold Dispatch in Hd'. destruct (bool_decide _); [done|].
  apply openControlledSession_permits in Hd' as (r1 & id & l & user & n & -> & -> & _ & Hl & Hr & _ & Hint & Hm & _);
    [|done..]. rewrite Hmail in Hm. apply (inj Some) in Hm.
  assert (u = l_userID l) as -> by (by eapply UserEmail_inj).
  eapply handleStatusNew_opens; [exact Hk|exact Hopen|by rewrite Eudp|rewrite Einb; exact Hd|exact Hl|exact Hr].
Qed.

(** C20: replacing a user's UUID does not take it from the Mux connections that
    were opened with it. After the engine switched to a snapshot in which the user has
    another UUID, the old one is refused, and every session of the user is revoked;
    but a Mux connection that was let through with the old UUID is still served when
    the callbacks of the update have run. It is to the dispatcher what a connection
    opened with the new UUID is, and a frame on it opens a session of the user, with a
    live lease, whenever the registry admits the user from that source. *)
Theorem replaced_uuid_keeps_its_mux Unmarshal e next e' res inb old new rest more u u' a k :
  live e → identified next → Apply next e = (e', Ok res) →
  String.length old = 16%nat → String.length new = 16%nat →
  u ∈ snap_Users (snapshot e) → credential u (bytes_of old) →
  u' ∈ snap_Users next → user_ID u' = user_ID u → user_UUID u' ≠ user_UUID u → credential u' (bytes_of new) →
  (∀ v, v ∈ snap_Users next → ¬ credential v (bytes_of old)) →
  in_Tag inb = inboundTag →
  acceptRequest Unmarshal (table e) inb (vless_request old rest) more = Ok a → serveMux a = Some k →
  acceptRequest Unmarshal (table e') inb (vless_request old rest) more = Err "invalid request user id" ∧
  (∀ id l, sessions (registry e') !! id = Some l → l_userID l = user_ID u → l_revoked l = true) ∧
  (∃ a', acceptRequest Unmarshal (table e') inb (vless_request new rest) more = Ok a' ∧ serveMux a' = Some k) ∧
  ∀ cbs ids c m, Update (registry e) next = Ok (registry e', cbs, ids) → still_served k c m →
    still_served k c (mux_after (registry e') cbs m) ∧
    ∀ lookup now sid target r'' inb'' d lease,
      resolver_ok lookup → wire_address (dst_Address target) →
      (ca_udp_only k = true → dst_Network target = Network_UDP) →
      Dispatch (Some (registry e')) lookup (Some (ca_inbound k)) target = (r'', inb'', Ok (d, lease)) →
      ∃ m', handleStatusNew lookup now c sid 0 target (mux_after (registry e') cbs m) = (m', Ok tt) ∧
        carries m' c sid (user_ID u).
Proof.
  intros Hlive Hid Happly Ho Hn Hu Cu Hu' Hsame Hne Cu' Hgone Htag Hacc Hk.
  pose proof (live_aligned e Hlive) as Ha. pose proof (aligned_apply e next e' (Ok res) Ha Hid Happly ltac:(done)) as Ha'.
  destruct (Apply_Ok_inv _ _ _ _ Happly) as (<- & (cbs & ids & Hup) & [Enode Eflow]%dataPlane_identity).
  pose proof Ha as [Hstep Husers Hnode Hident]. pose proof Ha' as [Hstep' Husers' Hnode' Hident'].
  destruct (h_valid _ _ _ Hstep u Hu) as [mu Emu]. destruct (h_valid _ _ _ Hstep' u' Hu') as [mu' Emu'].
  pose proof (ValidatorGet_credential e _ u mu Ha Hu Emu Cu) as Hget.
  pose proof (ValidatorGet_credential e' _ u' mu' Ha' Hu' Emu' Cu') as Hget'.
  split; [|split; [|split]].
  - destruct (ValidatorGet (bytes_of old) (table e')) as [mv|] eqn:Hv.
    { apply (ValidatorGet_user e' _ _ Ha') in Hv as (v & Hin & _ & Cv). by destruct (Hgone v Hin). }
    unfold acceptRequest.
    by rewrite request_more, DecodeRequestHeader_request, Hv.
  - intros id l. eapply replaced_user_revoked; [exact Hup|..].
    + rewrite Husers. apply userMap_Some; [apply Hident|done].
    + apply userMap_Some; [apply Hident'|done].
    + by intros E; destruct Hne.
  - eexists. split; [eapply (acceptRequest_user Unmarshal (table e) (table e')); [exact Ho|exact Hn|exact Hget|exact Hget'|..|exact Hacc]|].
    + unfold memoryUser in Emu, Emu'. repeat case_match; simplify_eq/=. done.
    + rewrite (proj2 (memoryUser_Ok _ _ _ Emu)), (proj2 (memoryUser_Ok _ _ _ Emu')), Hsame. by rewrite Enode.
    + done.
  - intros cbs' ids' c m _ Hserved. split; [by apply still_served_after|].
    intros lookup now sid target r'' inb'' d lease Hlookup Hwire Hudp.
    apply acceptRequest_inv in Hacc as (mv & Hmv & Hmail & Htag' & _ & _ & Hac).
    unfold serveMux in Hk. case_bool_decide; [|done]. injection Hk as <-.
    assert (Eid : ac_ID a = bytes_of old).
    { rewrite Hac, request_more. unfold vless_request. cbn [drop_chars]. by rewrite <- Ho, take_chars_app. }
    assert (mv = mu) by (rewrite Eid in Hmv; congruence).
    subst mv. eapply (served_opens_session (registry e') _ c (user_ID u) (nodeID (registry e')));
      [by apply still_served_after|apply run_callbacks_carriers|done|done|by cbn; rewrite Htag'| |done| |done].
    + cbn. rewrite Hmail, (proj2 (memoryUser_Ok _ _ _ Emu)). by rewrite Hnode', Enode.
    + by apply (id_apart _ Hident).
Qed.

(** ** Witnesses *)
Definition w_inbound : Inbound := mkInbound inboundTag None (Some (ipv4Address 3405803777)) 1.
Definition w_addons (_ : string) : option string := Some XRV.
Definition w_id5 : string := bytes [254; 181; 68; 49; 48; 27; 82; 187; 166; 221; 225; 233; 62; 129; 187; 158]%nat.
Definition w_id6 : string := bytes [0; 17; 34; 51; 68; 85; 102; 119; 136; 153; 170; 187; 204; 221; 238; 255]%nat.
(** a request for 198.51.100.1:443, and one for a Mux connection *)
Definition w_tcp : string := bytes [1; 0; 1; 1; 187; 1; 198; 51; 100; 1]%nat.
Definition w_mux : string := bytes [1; 0; 3]%nat.
Definition w_rotated : Snapshot :=
  mkSnapshot w_node [w_user2; w_user 5 "00112233-4455-6677-8899-aabbccddeeff"] 1700000060 EmptyString.

Lemma w_identified : identified w_snapshot ∧ identified w_rotated.
Proof.
  assert (Hnd : NoDup [2; 5]) by (apply (bool_decide_unpack _); vm_compute; done).
  split; (constructor; [exact Hnd|]); (apply w_compatible; [by repeat constructor|exact Hnd|vm_compute; reflexivity]).
Qed.
Lemma w_live : live w_engine.
Proof. exact (live_start _ _ _ _ _ _ (proj1 w_identified) w_start). Qed.

Definition w_accepted (v : Validator) (id rest : string) : outcome string Accepted :=
  acceptRequest w_addons v w_inbound (vless_request id rest) EmptyString.
Definition w_direct : Accepted := mkAccepted (mkInbound inboundTag (Some "sspanel-node-7-user-5") (Some (ipv4Address 3405803777)) 2)
  (mkDestination (ipv4Address 3325256705) 443 Network_TCP) (bytes_of w_id5) false.
Definition w_dial : option Registry * option Inbound * outcome string (Destination * option Z) :=
  DispatchLink (Some (registry w_engine)) demoDNS (Some (ac_inbound w_direct)) (ac_target w_direct).

Lemma session_belongs_to_the_credential_witness :
  w_accepted (table w_engine) w_id5 w_tcp = Ok w_direct ∧ w_dial.2 = Ok (ac_target w_direct, Some 1) ∧
  ∃ r' l, w_dial.1.1 = Some r' ∧ sessions r' !! 1 = Some l ∧ l_userID l = 5.
Proof.
  assert (E1 : w_accepted (table w_engine) w_id5 w_tcp = Ok w_direct) by (vm_compute; reflexivity).
  assert (E2 : w_dial.2 = Ok (ac_target w_direct, Some 1)) by (vm_compute; reflexivity).
  split; [exact E1|]. split; [exact E2|].
  destruct (session_belongs_to_the_credential w_addons w_engine w_inbound _ EmptyString w_direct w_live eq_refl E1)
    as (u & Hu & Hc & Hone & Hses).
  assert (Hin5 : w_user5 ∈ snap_Users (snapshot w_engine)) by (right; left).
  assert (Hc5 : credential w_user5 (bytes_of (take_chars 16 (drop_chars 1 (vless_request w_id5 w_tcp +:+ EmptyString)))))
    by (vm_compute; reflexivity).
  pose proof (Hone w_user5 Hin5 Hc5) as Hu5.
  assert (E3 : w_dial = (w_dial.1.1, w_dial.1.2, Ok (ac_target w_direct, Some 1)))
    by (rewrite <- E2; destruct w_dial as [[c i] o]; reflexivity).
  destruct (Hses demoDNS w_dial.1.1 w_dial.1.2 (ac_target w_direct) (Some 1) demoDNS_ok E3) as (r' & id' & l & n & Hr & Hid & Hl & _ & Hlu & _).
  injection Hid as <-. exists r', l. split; [exact Hr|]. split; [exact Hl|]. rewrite Hlu, <- Hu5. reflexivity.
Defined.

(** the Mux connection opens a flow of the user in the engine that has the new UUID *)
Definition w_carrier : Accepted := mkAccepted (mkInbound inboundTag (Some "sspanel-node-7-user-5") (Some (ipv4Address 3405803777)) 3)
  (mkDestination muxCoolAddress 0 Network_TCP) (bytes_of w_id5) true.
Definition w_mux_conn : Carrier := mkCarrier (ac_inbound w_carrier) ∅ false false true 0.
Definition w_switched : Engine := (Apply w_rotated w_engine).1.
(** before the switch the user has a flow on the connection *)
Definition w_before : MuxState :=
  (handleStatusNew noDNS 0 1 4 99 udpTarget (mkMux (registry w_engine) ∅ ∅ ∅ ∅ {[ 1 := w_mux_conn ]} 10)).1.
Definition w_callbacks : list callback :=
  match Update (registry w_engine) w_rotated with Ok (_, cbs, _) => cbs | _ => [] end.
Definition w_after : MuxState := mux_after (registry w_switched) w_callbacks w_before.
Lemma w_admits : ∃ r inb d, Dispatch (Some (registry w_switched)) noDNS (Some (ca_inbound w_mux_conn)) udpTarget = (Some r, inb, Ok (d, Some 1)).
Proof. eexists _, _, _. vm_compute. reflexivity. Qed.

Lemma w_switch : Apply w_rotated w_engine = (w_switched, Ok ([5], [])).
Proof.
  assert (E : (Apply w_rotated w_engine).2 = Ok ([5], [])) by (vm_compute; reflexivity).
  unfold w_switched. rewrite <- E. apply surjective_pairing.
Qed.

Lemma replaced_uuid_keeps_its_mux_witness :
  w_accepted (table w_engine) w_id5 w_mux = Ok w_carrier ∧
  w_accepted (table w_switched) w_id5 w_mux = Err "invalid request user id" ∧
  (∃ a', w_accepted (table w_switched) w_id6 w_mux = Ok a' ∧ serveMux a' = Some w_mux_conn) ∧
  ∃ m', handleStatusNew noDNS 0 1 5 0 udpTarget w_after = (m', Ok tt) ∧ carries m' 1 5 5.
Proof.
  assert (Ha : w_accepted (table w_engine) w_id5 w_mux = Ok w_carrier) by (vm_compute; reflexivity).
  assert (Hk : serveMux w_carrier = Some w_mux_conn) by (vm_compute; reflexivity).
  assert (Hgone : ∀ v, v ∈ snap_Users w_rotated → ¬ credential v (bytes_of w_id5)).
  { intros v Hv. repeat (apply elem_of_cons in Hv as [->|Hv]; [by vm_compute|]). by apply not_elem_of_nil in Hv. }
  assert (Hold : w_user5 ∈ snap_Users (snapshot w_engine)) by (right; left).
  assert (Hnew : w_user 5 "00112233-4455-6677-8899-aabbccddeeff" ∈ snap_Users w_rotated) by (right; left).
  assert (C5 : credential w_user5 (bytes_of w_id5)) by (vm_compute; reflexivity).
  assert (C6 : credential (w_user 5 "00112233-4455-6677-8899-aabbccddeeff") (bytes_of w_id6)) by (vm_compute; reflexivity).
  assert (Hne : user_UUID (w_user 5 "00112233-4455-6677-8899-aabbccddeeff") ≠ user_UUID w_user5) by discriminate.
  destruct (replaced_uuid_keeps_its_mux w_addons w_engine w_rotated w_switched ([5], []) w_inbound w_id5 w_id6
    w_mux EmptyString w_user5 (w_user 5 "00112233-4455-6677-8899-aabbccddeeff") w_carrier w_mux_conn w_live (proj2 w_identified) w_switch
    eq_refl eq_refl Hold C5 Hnew eq_refl Hne C6 Hgone eq_refl Ha Hk) as (H1 & _ & H2 & H3).
  split; [exact Ha|]. split; [exact H1|]. split; [exact H2|].
  assert (Hup : Update (registry w_engine) w_rotated = Ok (registry w_switched, w_callbacks, [5])) by (vm_compute; reflexivity).
  assert (Hserved : still_served w_mux_conn 1 w_before).
  { eexists. split; [vm_compute; reflexivity|]. by split_and!. }
  destruct (H3 _ _ 1 w_before Hup Hserved) as [_ H4]. destruct w_admits as (r & inb & d & Hd).
  apply (H4 noDNS 0 5 udpTarget _ _ _ _ ltac:(by intros host answer x [=]) ltac:(by split) ltac:(done) Hd).
Defined.
