(* ===== verification/DrainSteps.v ===== *)
(** Draining while sessions go on. [Drain] holds the mutex of the engine, but links count
    bytes and sessions open and close without it: between the reading of one counter and
    of the next, and before the decision to forget a user, anything can happen to them.
    Here the loop of [drainLocked] is a machine of atomic actions; a history of an engine
    is made of such drains, of what links and sessions do, and of switches of users. *)
From S2P Require Import Prelude GoString Float64 Digest Policy Model Identity Config Session SessionInv SessionUpdate.
From S2P Require Import Outbox OutboxProps Xray Engine EngineUsers EngineTraffic EngineSafe.

Local Open Scope string_scope.
Local Open Scope Z_scope.

(** ** The machine *)

(** what is done of the current user: nothing, its uplink is taken, or both counters are *)
Inductive drain_pc : Type :=
| AtUplink
| AtDownlink (uplink : Z)
| AtDecision (uplink downlink : Z).
Record Draining : Type := mkDraining {
  dr_engine : Engine;
  dr_ids : list Z;
  dr_pc : drain_pc;
  dr_entries : list Entry;
  dr_err : option string }.

Definition with_drain (c : gmap string Z) (ret : gset Z) (e : Engine) : Engine :=
  mkEngine (running e) c (table e) (registry e) (registered e) (snapshot e) ret.

Definition begin_drain (e : Engine) : Draining := mkDraining e (sorted_ids (tracked e)) AtUplink [] None.

(** one atomic action; a finished machine stays as it is *)
Definition drain_step (d : Draining) : Draining :=
  let '(mkDraining e ids pc entries err) := d in
  let n := snap_Node (snapshot e) in
  match ids with
  | [] => d
  | uid :: rest =>
      match pc with
      | AtUplink =>
          match takeCounter (counter_name n uid "uplink") (stats e) with
          | (c, Ok uplink) => mkDraining (with_drain c (retired e) e) ids (AtDownlink uplink) entries err
          | (c, Err x) => mkDraining (with_drain c (retired e) e) [] AtUplink [] (Some x)
          | (c, Panic) => d
          end
      | AtDownlink uplink =>
          match takeCounter (counter_name n uid "downlink") (stats e) with
          | (c, Ok downlink) => mkDraining (with_drain c (retired e) e) ids (AtDecision uplink downlink) entries err
          | (c, Err x) => mkDraining (with_drain c (retired e) e) [] AtUplink [] (Some x)
          | (c, Panic) => d
          end
      | AtDecision uplink downlink =>
          if negb (uplink =? 0) || negb (downlink =? 0)
          then mkDraining e rest AtUplink (entries ++ [mkEntry uid uplink downlink])%list err
          else
            let ret := if bool_decide (uid ∈ retired e) && negb (HasUserSessions (registry e) uid)
                       then retired e ∖ {[uid]} else retired e in
            mkDraining (with_drain (stats e) ret e) rest AtUplink entries err
      end
  end.

Definition drain_result (d : Draining) : outcome string (list Entry) :=
  match dr_err d with Some x => Err x | None => Ok (dr_entries d) end.

Fixpoint run_drain (steps : nat) (d : Draining) : Draining :=
  match steps with O => d | S steps => run_drain steps (drain_step d) end.

(** ** Without interference the machine is [Drain] *)
Lemma run_drain_done steps e pc entries err : run_drain steps (mkDraining e [] pc entries err) = mkDraining e [] pc entries err.
Proof. by induction steps. Qed.

Lemma run_drain_add a b d : run_drain (a + b) d = run_drain b (run_drain a d).
Proof. revert d. induction a as [|a IH]; intros d; [done|]. apply IH. Qed.

Lemma takeCounter_no_panic name c : (takeCounter name c).2 ≠ Panic.
Proof. unfold takeCounter, CounterSet. destruct (c !! name); [|done]. by destruct (_ <? 0). Qed.

Lemma with_drain_twice c1 ret1 c2 ret2 e : with_drain c2 ret2 (with_drain c1 ret1 e) = with_drain c2 ret2 e.
Proof. done. Qed.

Lemma drain_loop_no_panic n r ids c ret : (drain_loop n r ids c ret).2 ≠ Panic.
Proof.
  revert c ret. induction ids as [|uid ids IH]; intros c ret; [done|]. cbn [drain_loop].
  pose proof (takeCounter_no_panic (counter_name n uid "uplink") c) as P1.
  destruct (takeCounter _ c) as [c1 [up|x|]]; [|done|done].
  pose proof (takeCounter_no_panic (counter_name n uid "downlink") c1) as P2.
  destruct (takeCounter _ c1) as [c2 [down|x|]]; [|done|done]. cbn zeta. destruct (_ || _).
  - specialize (IH c2 ret). by destruct (drain_loop _ _ _ _ _) as [[c3 ret3] [l|x|]].
  - match goal with |- context [drain_loop _ _ _ c2 ?ret'] => specialize (IH c2 ret') end.
    by destruct (drain_loop _ _ _ _ _) as [[c3 ret3] [l|x|]].
Qed.

(** the machine after the loop *)
Definition finished (e : Engine) (entries : list Entry) (x : gmap string Z * gset Z * outcome string (list Entry)) : Draining :=
  let '(c, ret, res) := x in
  match res with
  | Ok l => mkDraining (with_drain c ret e) [] AtUplink (entries ++ l)%list None
  | Err x => mkDraining (with_drain c ret e) [] AtUplink [] (Some x)
  | Panic => mkDraining e [] AtUplink [] None
  end.

Lemma run_drain_loop ids e entries :
  run_drain (3 * length ids) (mkDraining e ids AtUplink entries None) =
  finished e entries (drain_loop (snap_Node (snapshot e)) (registry e) ids (stats e) (retired e)).
Proof.
  revert e entries. induction ids as [|uid ids IH]; intros e entries.
  { cbn. rewrite app_nil_r. by destruct e. }
  replace (3 * length (uid :: ids))%nat with (3 + 3 * length ids)%nat by (cbn [length]; lia).
  rewrite run_drain_add. cbn [drain_loop].
  change (run_drain 3 ?d) with (drain_step (drain_step (drain_step d))).
  unfold drain_step at 3. pose proof (takeCounter_no_panic (counter_name (snap_Node (snapshot e)) uid "uplink") (stats e)) as P1.
  destruct (takeCounter (counter_name (snap_Node (snapshot e)) uid "uplink") (stats e)) as [c1 [up|x|]]; [| |done].
  2:{ cbn [drain_step]. by rewrite run_drain_done. }
  unfold drain_step at 2. cbn [with_drain stats snapshot].
  pose proof (takeCounter_no_panic (counter_name (snap_Node (snapshot e)) uid "downlink") c1) as P2.
  destruct (takeCounter (counter_name (snap_Node (snapshot e)) uid "downlink") c1) as [c2 [down|x|]]; [| |done].
  2:{ cbn [drain_step]. by rewrite run_drain_done. }
  unfold drain_step. cbn [with_drain stats snapshot registry retired running table registered].
  destruct (negb (up =? 0) || negb (down =? 0)); rewrite IH; cbn [with_drain stats snapshot registry retired running table registered].
  - pose proof (drain_loop_no_panic (snap_Node (snapshot e)) (registry e) ids c2 (retired e)) as P3.
    destruct (drain_loop _ _ ids c2 _) as [[c ret] [l|x|]]; [|done|done]. cbn. by rewrite <- (assoc_L (++)%list).
  - match goal with |- context [drain_loop ?n ?r ids c2 ?ret'] => pose proof (drain_loop_no_panic n r ids c2 ret') as P3 end.
    destruct (drain_loop _ _ ids c2 _) as [[c ret] [l|x|]]; done.
Qed.

(** The machine implements [Drain]: when nothing comes between its actions, three of
    them for each user reach the engine and the result of the drain. *)
Theorem drain_machine_is_drain e :
  let d := run_drain (3 * length (sorted_ids (tracked e))) (begin_drain e) in
  dr_ids d = [] ∧ dr_engine d = (Drain e).1 ∧ drain_result d = (Drain e).2.
Proof.
  cbv zeta. unfold begin_drain. rewrite run_drain_loop. unfold Drain.
  pose proof (drain_loop_no_panic (snap_Node (snapshot e)) (registry e) (sorted_ids (tracked e)) (stats e) (retired e)) as P.
  by destruct (drain_loop _ _ _ _ _) as [[c ret] [l|x|]].
Qed.

(** ** Interference *)

(** What links and sessions do to the engine: everything that does not take the mutex
    of the engine. A link counts as long as it carries traffic, whatever became of its
    lease. [k] are the bytes that are counted, and [x] those of them that are counted
    for a user whom no drain visits. *)
Inductive interference (e : Engine) : Z → Z → Engine → Prop :=
| in_session r' : op everyone (registry e) r' → generation r' = generation (registry e) →
    interference e 0 0 (with_registry r' e)
| in_open p : interference e 0 0 (with_registry (openCommit (registry e) p).1 e)
| in_traffic uid d k :
    is_int64 uid = true → d = "uplink" ∨ d = "downlink" → 0 ≤ k →
    mget (stats e) (counter_name (snap_Node (snapshot e)) uid d) + k ≤ max_int64 →
    interference e k (missed e uid k) (count_traffic uid d k e).

Definition with_engine (e : Engine) (d : Draining) : Draining :=
  mkDraining e (dr_ids d) (dr_pc d) (dr_entries d) (dr_err d).

(** the bytes in the counters of the current user, if the action forgets the user *)
Definition forgotten (d : Draining) : Z :=
  match dr_ids d with
  | [] => 0
  | uid :: _ =>
      let e := dr_engine d in
      missed (dr_engine (drain_step d)) uid
        (uplink_of (snap_Node (snapshot e)) (stats e) uid + downlink_of (snap_Node (snapshot e)) (stats e) uid)
  end.

(** no user loses the last of its sessions, and nothing is counted for a user without any *)
Definition orderly (e e' : Engine) : Prop :=
  ∀ uid, is_int64 uid = true →
         if HasUserSessions (registry e) uid then HasUserSessions (registry e') uid = true
         else ∀ d, mget (stats e') (counter_name (snap_Node (snapshot e)) uid d) =
                   mget (stats e) (counter_name (snap_Node (snapshot e)) uid d).

Section Interference.
  (** which interference there is *)
Context (P : Engine → Engine → Prop).

(** a step of the drain or of the others, with the bytes that are counted, and those
    that come where no drain looks *)
Inductive dstep (d : Draining) : Z → Z → Draining → Prop :=
| ds_own : dstep d 0 (forgotten d) (drain_step d)
| ds_other k x e' : interference (dr_engine d) k x e' → P (dr_engine d) e' → dstep d k x (with_engine e' d).
Inductive dsteps (d : Draining) : Z → Z → Draining → Prop :=
| ds_done : dsteps d 0 0 d
| ds_more n y d1 k x d2 : dsteps d n y d1 → dstep d1 k x d2 → dsteps d (n + k) (y + x) d2.

Lemma interference_frame e k x e' : interference e k x e' →
  snapshot e' = snapshot e ∧ retired e' = retired e ∧ running e' = running e.
Proof. by intros []. Qed.

Lemma interference_sound e k x e' : sound e → interference e k x e' → sound e'.
Proof. intros Hs []; [by eapply sound_session|by apply sound_open|by apply sound_traffic]. Qed.

(** what is counted, and what is counted where no drain looks *)
Lemma interference_total e k x e' : metered e → interference e k x e' →
  counted (stats e') ∧ outstanding e' = outstanding e + k ∧ stray e' = stray e + x ∧ 0 ≤ x ≤ k.
Proof.
  intros Hm [r' _ _|p|uid d k' Hi Hd Hk Hmax]; pose proof (proj1 Hm) as Hc.
  1-2: split; [done|]; split; [unfold outstanding; cbn; lia|]; rewrite (stray_same e) by done; lia.
  split; [by apply counted_traffic|]. split; [by apply count_traffic_total|].
  split; [by apply stray_traffic|]. unfold missed. case_bool_decide; lia.
Qed.

(** ** Nothing is lost on the way *)
Definition held (pc : drain_pc) : Z :=
  match pc with AtUplink => 0 | AtDownlink up => up | AtDecision up down => up + down end.

(** the users to visit are tracked until they have been visited *)
Record conserved (total missing : Z) (d : Draining) : Prop := {
  co_sound : sound (dr_engine d);
  co_ids : NoDup (dr_ids d) ∧ ∀ uid, uid ∈ dr_ids d → uid ∈ tracked (dr_engine d);
  co_err : dr_err d = None;
  co_done : dr_ids d = [] → dr_pc d = AtUplink;
  co_total : outstanding (dr_engine d) + entries_total (dr_entries d) + held (dr_pc d) = total;
  co_missing : stray (dr_engine d) = missing }.

Lemma entries_total_snoc l x : entries_total (l ++ [x]) = entries_total l + entry_total x.
Proof. induction l as [|y l IH]; unfold entries_total in *; cbn [fold_right app]; [lia|]. rewrite IH. lia. Qed.

Lemma outstanding_zero e name ret :
  outstanding (with_drain (zero name (stats e)) ret e) = outstanding e - mget (stats e) name.
Proof. apply msum_zero_one. Qed.

Lemma sound_zero e name : sound e → sound (with_drain (zero name (stats e)) (retired e) e).
Proof. intros [H1 H2 [H4 H5]]. constructor; [done|done|]. split; [by apply counted_zero|done]. Qed.

(** taking a counter that a drain visits leaves the others as they are *)
Lemma stray_zero e name : visits e name = true → stray (with_drain (zero name (stats e)) (retired e) e) = stray e.
Proof.
  intros Hv. apply stray_eq. intros j. unfold left_over. cbn [with_drain stats].
  change (visits (with_drain ?c (retired e) e) j) with (visits e j).
  destruct (visits e j) eqn:Hj; [done|]. rewrite mget_zero. case_decide; [congruence|done].
Qed.

Definition forget (uid : Z) (e : Engine) : Engine := with_drain (stats e) (retired e ∖ {[uid]}) e.

Lemma tracked_forget e uid u : u ∈ tracked (forget uid e) → u ∈ tracked e.
Proof. unfold tracked, forget. cbn [with_drain snapshot retired]. set_solver. Qed.
Lemma tracked_forget_other e uid u : u ≠ uid → u ∈ tracked e → u ∈ tracked (forget uid e).
Proof. unfold tracked, forget. cbn [with_drain snapshot retired]. set_solver. Qed.

Lemma sound_forget e uid : sound e → HasUserSessions (registry e) uid = false → sound (forget uid e).
Proof.
  intros [H1 H2 [H4 H5]] Hs. constructor; [done| |split; [done|]].
  - intros u Hu. apply tracked_forget_other; [intros ->; cbn in Hu; congruence|by apply H2].
  - intros u Hu. by eapply H5, tracked_forget.
Qed.

(** forgetting a user leaves its counters to nobody *)
Lemma stray_forget e uid : metered e → uid ∈ tracked e →
  stray (forget uid e) = stray e + missed (forget uid e) uid
    (uplink_of (snap_Node (snapshot e)) (stats e) uid + downlink_of (snap_Node (snapshot e)) (stats e) uid).
Proof.
  intros Hm Hu. assert (Hm' : metered (forget uid e)).
  { split; [apply Hm|]. intros u Hin. by eapply Hm, tracked_forget. }
  assert (Hi : is_int64 uid = true) by by apply Hm.
  unfold missed. case_bool_decide as Hin.
  { rewrite Z.add_0_r. apply stray_eq. intros name. unfold left_over.
    assert (E : tracked (forget uid e) = tracked e); [|unfold visits; by rewrite E].
    apply set_eq. intros u. split; [apply tracked_forget|]. destruct (decide (u = uid)) as [->|Hne]; [done|].
    by apply tracked_forget_other. }
  set (n := snap_Node (snapshot e)). set (up := counter_name n uid "uplink"). set (down := counter_name n uid "downlink").
  assert (Hud : up ≠ down) by (by intros [_ ?]%counter_name_inj).
  assert (Hv : ∀ d, d = "uplink" ∨ d = "downlink" →
    visits e (counter_name n uid d) = true ∧ visits (forget uid e) (counter_name n uid d) = false).
  { intros d Hd. split; [unfold n; rewrite visits_counter by done; by apply bool_decide_eq_true|].
    change n with (snap_Node (snapshot (forget uid e))). rewrite visits_counter by done. by apply bool_decide_eq_false. }
  assert (Hsame : ∀ name, name ≠ up → name ≠ down → visits (forget uid e) name = visits e name).
  { intros name H1 H2. apply eq_true_iff_eq. rewrite !visits_true.
    split; intros (u & d & Ht & Hd & ->); exists u, d; (split; [|done]); [by eapply tracked_forget|].
    apply tracked_forget_other; [|done]. intros ->. by destruct Hd as [-> | ->]. }
  destruct (Hv "uplink" ltac:(by left)) as [U1 U2]. destruct (Hv "downlink" ltac:(by right)) as [D1 D2].
  fold up in U1, U2. fold down in D1, D2.
  unfold uplink_of, downlink_of. fold n up down. rewrite Z.add_assoc.
  unfold stray at 1 2, outstanding. 
  rewrite <- (total_add (stats (drained_engine e))
    (<[up := mget (stats e) up]> (stats (drained_engine e))) up (mget (stats e) up)).
  - apply (total_add _ _ down). intros j. rewrite mget_insert, !mget_drained. unfold left_over. cbn [forget with_drain stats].
    destruct (decide (up = j)) as [<-|H1]; [rewrite U2, decide_False by done; lia|].
    destruct (decide (down = j)) as [<-|H2]; [rewrite D2, D1; lia|]. rewrite Hsame by done. lia.
  - intros j. rewrite mget_insert, mget_drained. unfold left_over. case_decide as Hj; [|lia]. subst j. rewrite U1. lia.
Qed.

Lemma forgotten_tracked d uid rest : dr_ids d = uid :: rest → uid ∈ tracked (dr_engine (drain_step d)) → forgotten d = 0.
Proof. intros E Hu. unfold forgotten. rewrite E. unfold missed. by rewrite bool_decide_eq_true_2. Qed.

Lemma with_drain_id e : with_drain (stats e) (retired e) e = e.
Proof. by destruct e. Qed.

(** the three actions *)
Lemma conserved_uplink total missing e uid ids entries err :
  conserved total missing (mkDraining e (uid :: ids) AtUplink entries err) →
  let d := mkDraining e (uid :: ids) AtUplink entries err in conserved total (missing + forgotten d) (drain_step d).
Proof.
  intros [H1 [Hnd H2] H3 H4 H5 H6] d. cbn [dr_engine dr_ids dr_err dr_pc dr_entries held] in *.
  assert (E : drain_step d = mkDraining (with_drain (zero (counter_name (snap_Node (snapshot e)) uid "uplink") (stats e)) (retired e) e)
    (uid :: ids) (AtDownlink (uplink_of (snap_Node (snapshot e)) (stats e) uid)) entries err).
  { unfold drain_step, d. by rewrite takeCounter_counted by apply (so_metered _ H1). }
  rewrite (forgotten_tracked d uid ids) by (done || rewrite E; apply H2; by left). rewrite Z.add_0_r, E.
  constructor; cbn [dr_engine dr_ids dr_err dr_pc dr_entries held]; [by apply sound_zero|done|done|done| |].
  - rewrite outstanding_zero. unfold uplink_of. lia.
  - rewrite stray_zero; [done|]. apply visits_true. exists uid, "uplink". split; [apply H2; by left|]. split; [by left|done].
Qed.

Lemma conserved_downlink total missing e uid ids up entries err :
  conserved total missing (mkDraining e (uid :: ids) (AtDownlink up) entries err) →
  let d := mkDraining e (uid :: ids) (AtDownlink up) entries err in conserved total (missing + forgotten d) (drain_step d).
Proof.
  intros [H1 [Hnd H2] H3 H4 H5 H6] d. cbn [dr_engine dr_ids dr_err dr_pc dr_entries held] in *.
  assert (E : drain_step d = mkDraining (with_drain (zero (counter_name (snap_Node (snapshot e)) uid "downlink") (stats e)) (retired e) e)
    (uid :: ids) (AtDecision up (downlink_of (snap_Node (snapshot e)) (stats e) uid)) entries err).
  { unfold drain_step, d. by rewrite takeCounter_counted by apply (so_metered _ H1). }
  rewrite (forgotten_tracked d uid ids) by (done || rewrite E; apply H2; by left). rewrite Z.add_0_r, E.
  constructor; cbn [dr_engine dr_ids dr_err dr_pc dr_entries held]; [by apply sound_zero|done|done|done| |].
  - rewrite outstanding_zero. unfold downlink_of. lia.
  - rewrite stray_zero; [done|]. apply visits_true. exists uid, "downlink". split; [apply H2; by left|]. split; [by right|done].
Qed.

Lemma conserved_decision total missing e uid ids up down entries err :
  conserved total missing (mkDraining e (uid :: ids) (AtDecision up down) entries err) →
  let d := mkDraining e (uid :: ids) (AtDecision up down) entries err in conserved total (missing + forgotten d) (drain_step d).
Proof.
  intros [H1 [Hnd H2] H3 H4 H5 H6] d. cbn [dr_engine dr_ids dr_err dr_pc dr_entries held] in *.
  assert (Hu : uid ∈ tracked e) by (apply H2; by left). apply NoDup_cons in Hnd as [Hnot Hnd].
  assert (Hrest : ∀ u, u ∈ ids → u ∈ tracked e) by (intros u ?; apply H2; by right).
  destruct (negb (up =? 0) || negb (down =? 0)) eqn:Ez.
  { assert (E : drain_step d = mkDraining e ids AtUplink (entries ++ [mkEntry uid up down])%list err)
      by (unfold drain_step, d; by rewrite Ez).
    rewrite (forgotten_tracked d uid ids) by (done || by rewrite E). rewrite Z.add_0_r, E.
    constructor; cbn [dr_engine dr_ids dr_err dr_pc dr_entries held]; try done.
    rewrite entries_total_snoc. unfold entry_total. cbn [e_Uplink e_Downlink]. lia. }
  assert (Htotal : outstanding e + entries_total entries + 0 = total) by lia.
  destruct (bool_decide (uid ∈ retired e) && negb (HasUserSessions (registry e) uid)) eqn:Er.
  - assert (E : drain_step d = mkDraining (forget uid e) ids AtUplink entries err)
      by (unfold drain_step, d; by rewrite Ez, Er).
    apply andb_prop in Er as [_ Hs%negb_true_iff].
    assert (Ef : forgotten d = missed (forget uid e) uid
      (uplink_of (snap_Node (snapshot e)) (stats e) uid + downlink_of (snap_Node (snapshot e)) (stats e) uid))
      by (unfold forgotten; by rewrite E).
    rewrite Ef, E. constructor; cbn [dr_engine dr_ids dr_err dr_pc dr_entries held]; try done.
    + by apply sound_forget.
    + split; [done|]. intros u Hin. apply tracked_forget_other; [by intros ->|by apply Hrest].
    + rewrite stray_forget by (done || apply H1). by rewrite H6.
  - assert (E : drain_step d = mkDraining e ids AtUplink entries err)
      by (unfold drain_step, d; by rewrite Ez, Er, with_drain_id).
    rewrite (forgotten_tracked d uid ids) by (done || by rewrite E). rewrite Z.add_0_r, E. by constructor.
Qed.

Lemma conserved_own total missing d : conserved total missing d →
  conserved total (missing + forgotten d) (drain_step d).
Proof.
  intros Hc. destruct d as [e [|uid ids] pc entries err].
  { unfold forgotten. cbn. by rewrite Z.add_0_r. }
  destruct pc as [|up|up down]; [by apply conserved_uplink|by apply conserved_downlink|by apply conserved_decision].
Qed.

Lemma conserved_other total missing d k x e' : conserved total missing d → interference (dr_engine d) k x e' →
  conserved (total + k) (missing + x) (with_engine e' d).
Proof.
  intros [H1 [Hnd H2] H3 H4 H5 H6] Hi. destruct (interference_total _ _ _ _ (so_metered _ H1) Hi) as (Hc & Ht & Hx & _).
  destruct (interference_frame _ _ _ _ Hi) as (Es & Er & _).
  constructor; cbn [with_engine dr_engine dr_ids dr_pc dr_entries]; [by eapply interference_sound| |done|done|lia|lia].
  split; [done|]. intros uid Hu. unfold tracked. rewrite Es, Er. by apply H2.
Qed.

Lemma conserved_steps total missing d n y d' : conserved total missing d → dsteps d n y d' →
  conserved (total + n) (missing + y) d'.
Proof.
  intros H0 H. induction H as [|n y d1 k x d2 _ IH Hstep]; [by rewrite !Z.add_0_r|]. rewrite !Z.add_assoc.
  destruct Hstep as [|k x e' Hi _]; [rewrite Z.add_0_r; by apply conserved_own|]. by apply conserved_other.
Qed.

(** ** While everything is orderly, nobody with traffic is forgotten *)
Definition watched (d : Draining) : Prop :=
  ∀ uid rest, dr_ids d = uid :: rest → HasUserSessions (registry (dr_engine d)) uid = false →
    match dr_pc d with
    | AtUplink => True
    | AtDownlink _ => uplink_of (snap_Node (snapshot (dr_engine d))) (stats (dr_engine d)) uid = 0
    | AtDecision _ _ => quiet (snap_Node (snapshot (dr_engine d))) (stats (dr_engine d)) uid = true
    end.

Lemma watched_own total missing d : conserved total missing d → watched d → watched (drain_step d) ∧ forgotten d = 0.
Proof.
  intros [H1 [Hnd H2] H3 H4 H5 H6] Hw. destruct d as [e [|uid ids] pc entries err]; [done|]. unfold watched in *.
  cbn [dr_engine dr_ids dr_pc] in *. specialize (Hw uid ids eq_refl).
  assert (Hu : uid ∈ tracked e) by (apply H2; by left).
  assert (Hi : is_int64 uid = true) by by apply (so_metered _ H1).
  pose proof (proj1 (so_metered _ H1)) as Hc. unfold drain_step. destruct pc as [|up|up down].
  - rewrite takeCounter_counted by done. split; [|by eapply forgotten_tracked; [done|cbn; rewrite takeCounter_counted by done]].
    intros u rest [= <- <-] _. cbn. unfold uplink_of. rewrite mget_zero. by rewrite decide_True.
  - rewrite takeCounter_counted by done. split; [|by eapply forgotten_tracked; [done|cbn; rewrite takeCounter_counted by done]].
    intros u rest [= <- <-] Hs. specialize (Hw Hs). cbn. unfold quiet, uplink_of, downlink_of in *. rewrite !mget_zero.
    rewrite decide_False by (by intros [_ ?]%counter_name_inj). rewrite decide_True by done. by rewrite Hw.
  - destruct (_ || _) eqn:Ez; [split; [done|]; eapply forgotten_tracked; [done|]; cbn; by rewrite Ez|].
    split; [done|]. unfold forgotten. cbn [dr_ids dr_engine]. unfold missed. case_bool_decide as Hin; [done|].
    destruct (HasUserSessions (registry e) uid) eqn:Es.
    { destruct Hin. unfold drain_step. by rewrite Ez, Es, andb_false_r, with_drain_id. }
    specialize (Hw eq_refl). apply andb_prop in Hw as [Q1%Z.eqb_eq Q2%Z.eqb_eq]. lia.
Qed.

Lemma watched_other total missing d k x e' : watched d → conserved total missing d → interference (dr_engine d) k x e' → orderly (dr_engine d) e' →
  watched (with_engine e' d) ∧ x = 0.
Proof.
  intros Hw [Hs [_ Htr] _ _ _ _] Hi Ho. destruct (interference_frame _ _ _ _ Hi) as (Esnap & _ & _). split.
  - unfold watched in *. cbn [with_engine dr_ids dr_pc dr_engine]. intros uid rest Hids Hn.
    specialize (Hw uid rest Hids).
    specialize (Ho uid ltac:(apply (so_metered _ Hs), Htr; rewrite Hids; by left)).
    destruct (HasUserSessions (registry (dr_engine d)) uid) eqn:E; [congruence|]. specialize (Hw eq_refl).
    destruct (dr_pc d); [done|..]; unfold quiet, uplink_of, downlink_of in *; by rewrite Esnap, !Ho.
  - destruct Hi as [r' _ _|p|uid d' k Hi Hd Hk Hmax]; [done..|]. unfold missed. case_bool_decide as Hin; [done|].
    specialize (Ho uid Hi). destruct (HasUserSessions (registry (dr_engine d)) uid) eqn:E.
    { destruct Hin. by apply (so_sessions _ Hs). }
    specialize (Ho d'). rewrite count_traffic_insert, mget_insert in Ho by (done || apply (so_metered _ Hs)).
    rewrite decide_True in Ho by done. lia.
Qed.

Lemma watched_steps total missing d n y d' : (∀ a b, P a b → orderly a b) → conserved total missing d → watched d →
  dsteps d n y d' → watched d' ∧ y = 0.
Proof.
  intros HP Hc H0 H. induction H as [|n y d1 k x d2 Hd [IH ->] Hstep]; [done|].
  pose proof (conserved_steps _ _ _ _ _ _ Hc Hd) as Hc1.
  destruct Hstep as [|k x e' Hi Hp].
  - by destruct (watched_own _ _ _ Hc1 IH) as [? ->].
  - by destruct (watched_other _ _ _ _ _ _ IH Hc1 Hi (HP _ _ Hp)) as [? ->].
Qed.

Lemma dsteps_nonneg total missing d n y d' : conserved total missing d → dsteps d n y d' → 0 ≤ y.
Proof.
  intros Hc H. induction H as [|n y d1 k x d2 Hd IH Hstep]; [done|].
  pose proof (co_sound _ _ _ (conserved_steps _ _ _ _ _ _ Hc Hd)) as Hs. destruct Hstep as [|k x e' Hi _].
  - assert (0 ≤ forgotten d1); [|lia]. unfold forgotten, missed, uplink_of, downlink_of.
    destruct (dr_ids d1); [done|]. case_bool_decide; [done|].
    assert (Hm : ∀ name, 0 ≤ mget (stats (dr_engine d1)) name); [|by apply Z.add_nonneg_nonneg].
    intros name. unfold mget. destruct (_ !! name) eqn:E; [|done]. by apply (so_metered _ Hs) in E as [? _].
  - destruct (interference_total _ _ _ _ (so_metered _ Hs) Hi) as (_ & _ & _ & ?). lia.
Qed.

(** what the drain forgets in some actions of its own *)
Fixpoint run_forgotten (steps : nat) (d : Draining) : Z :=
  match steps with O => 0 | S steps => forgotten d + run_forgotten steps (drain_step d) end.
Lemma dsteps_run steps d : dsteps d 0 (run_forgotten steps d) (run_drain steps d).
Proof.
  assert (H : ∀ d' y, dsteps d 0 y d' → dsteps d 0 (y + run_forgotten steps d') (run_drain steps d')).
  { induction steps as [|steps IH]; intros d' y Hd; [cbn; by rewrite Z.add_0_r|]. cbn. rewrite Z.add_assoc. apply IH.
    change 0 with (0 + 0) at 1. by eapply ds_more; [|apply ds_own]. }
  exact (H d 0 (ds_done _)).
Qed.

(** the actions that are left; interference adds none, so a drain ends *)
Definition actions_left (d : Draining) : nat :=
  (3 * length (dr_ids d) - match dr_pc d with AtUplink => 0 | AtDownlink _ => 1 | AtDecision _ _ => 2 end)%nat.
Lemma drain_progress d : dr_ids d ≠ [] → (actions_left (drain_step d) < actions_left d)%nat.
Proof.
  destruct d as [e [|uid ids] pc entries err]; [done|]. intros _. unfold actions_left, drain_step.
  assert (Hn : ∀ name c, (takeCounter name c).2 = Panic → False) by (intros name c E; by apply takeCounter_no_panic in E).
  destruct pc as [|up|up down]; cbn [dr_ids dr_pc length].
  - specialize (Hn (counter_name (snap_Node (snapshot e)) uid "uplink") (stats e)).
    destruct (takeCounter _ _) as [c [x|x|]]; cbn [dr_ids dr_pc length snd] in *; [lia..|by destruct Hn].
  - specialize (Hn (counter_name (snap_Node (snapshot e)) uid "downlink") (stats e)).
    destruct (takeCounter _ _) as [c [x|x|]]; cbn [dr_ids dr_pc length snd] in *; [lia..|by destruct Hn].
  - destruct (_ || _); cbn [dr_ids dr_pc length]; lia.
Qed.

Lemma conserved_begin e : sound e → conserved (outstanding e) (stray e) (begin_drain e).
Proof.
  intros Hs. destruct (tracked_ids e (so_metered _ Hs)) as [Hnd _]. constructor; try done; cbn [begin_drain dr_ids dr_engine].
  - split; [done|]. intros uid. apply elem_of_sorted_ids.
  - unfold entries_total. cbn. lia.
Qed.

(** C28: A drain that sessions and traffic interleave with in any way succeeds and takes
    every byte at most once: what it returns and what the counters hold then add up to
    what they held before and what was counted meanwhile ([n]; counters stay below [2 ^ 63]). What it leaves where no
    later drain looks has grown by exactly [y]: the bytes counted meanwhile for users
    that were not tracked at that moment, which a link can do after its lease is gone,
    and what the counters of a retired user held when the drain forgot the user. As
    long as no user loses its last session during the drain and nothing is counted for
    a user without sessions, [y] is zero: every byte that is left belongs to a user
    that the next drain visits. *)
Theorem drain_survives_interference e n y d : sound e → dsteps (begin_drain e) n y d → dr_ids d = [] →
  ∃ entries, drain_result d = Ok entries ∧ entries_total entries + outstanding (dr_engine d) = outstanding e + n ∧
    stray (dr_engine d) = stray e + y ∧ sound (dr_engine d) ∧
    ((∀ a b, P a b → orderly a b) → y = 0).
Proof.
  intros Hs Hd Hend. pose proof (conserved_begin e Hs) as Hc.
  destruct (conserved_steps _ _ _ _ _ _ Hc Hd) as [H1 _ H2 H3 H4 H5]. rewrite (H3 Hend) in H4. cbn [held] in H4.
  exists (dr_entries d). unfold drain_result. rewrite H2. split; [done|]. split; [lia|]. split; [done|]. split; [done|].
  intros HP. by destruct (watched_steps _ _ _ _ _ _ HP Hc ltac:(done) Hd).
Qed.
End Interference.

(** ** Histories of an engine

    Between the operations that take its mutex, sessions and links do what they want;
    a drain is a run of the machine, with interference; entries that could not be
    persisted are put back one by one; the users are switched. [x] are the bytes that
    came where no drain looked at the time: counted for, put back for, or left in the
    counters of a user that was not tracked any more. *)
Definition unrestricted (e e' : Engine) : Prop := True.

Inductive hstep (e : Engine) : Z → Engine → Prop :=
| hs_other k x e' : interference e k x e' → hstep e x e'
| hs_drain n y d : dsteps unrestricted (begin_drain e) n y d → dr_ids d = [] → hstep e y (dr_engine d)
| hs_restore entry :
    is_int64 (e_UserID entry) = true → 0 ≤ e_Uplink entry → 0 ≤ e_Downlink entry →
    uplink_of (snap_Node (snapshot e)) (stats e) (e_UserID entry) + e_Uplink entry ≤ max_int64 →
    downlink_of (snap_Node (snapshot e)) (stats e) (e_UserID entry) + e_Downlink entry ≤ max_int64 →
    hstep e (missed e (e_UserID entry) (entry_total entry)) (RestoreEntries [entry] e)
| hs_apply next e' res : ids_typed next → Apply next e = (e', res) → res ≠ Panic → hstep e 0 e'.
Inductive history (e : Engine) : Z → Engine → Prop :=
| hi_start : history e 0 e
| hi_step x e1 y e2 : history e x e1 → hstep e1 y e2 → history e (x + y) e2.

(** putting back what has a counter *)
Lemma mget_add_counter delta name c j : counted c → 0 ≤ delta → mget c name + delta ≤ max_int64 →
  mget (add_counter delta name c) j =
    mget c j + (if decide (name = j) then (if bool_decide (c !! name = None) then 0 else delta) else 0).
Proof.
  intros Hc Hd Hmax. unfold add_counter, mget in *. rewrite lookup_alter. case_decide as Hj; [subst j|lia].
  destruct (c !! name) as [v|] eqn:Ev; cbn in *; [|lia]. rewrite wrap64_id; [lia|].
  apply Hc in Ev. unfold is_int64. assert (min_int64 < 0) by done. lia.
Qed.

Lemma counted_add_counter delta name c : counted c → 0 ≤ delta → mget c name + delta ≤ max_int64 →
  counted (add_counter delta name c).
Proof.
  intros Hc Hd Hmax j v Hv. pose proof (mget_add_counter delta name c j Hc Hd Hmax) as Hm.
  unfold mget at 1 in Hm. rewrite Hv in Hm. cbn in Hm. subst v.
  assert (Hj : 0 ≤ mget c j ≤ max_int64).
  { unfold mget. destruct (c !! j) as [w|] eqn:Ew; [by apply Hc in Ew|done]. }
  case_decide as E; [subst j|lia]. case_bool_decide; lia.
Qed.

Lemma restore_one e x : sound e → is_int64 (e_UserID x) = true → 0 ≤ e_Uplink x → 0 ≤ e_Downlink x →
  uplink_of (snap_Node (snapshot e)) (stats e) (e_UserID x) + e_Uplink x ≤ max_int64 →
  downlink_of (snap_Node (snapshot e)) (stats e) (e_UserID x) + e_Downlink x ≤ max_int64 →
  sound (RestoreEntries [x] e) ∧ stray e ≤ stray (RestoreEntries [x] e) ≤ stray e + missed e (e_UserID x) (entry_total x).
Proof.
  intros Hs Hi Hu Hd Hmu Hmd. pose proof Hs as [H1 H2 Hm]. pose proof Hm as [Hc Hids].
  set (n := snap_Node (snapshot e)) in *. set (uid := e_UserID x) in *.
  set (up := counter_name n uid "uplink"). set (down := counter_name n uid "downlink").
  assert (Hne : up ≠ down) by (by intros [_ ?]%counter_name_inj).
  set (c1 := add_counter (e_Uplink x) up (stats e)). set (c2 := add_counter (e_Downlink x) down c1).
  assert (Est : stats (RestoreEntries [x] e) = c2).
  { unfold RestoreEntries. cbn [stats fold_left]. unfold restore_entry. by rewrite !CounterAdd_alter. }
  assert (M1 : ∀ j, mget c1 j = mget (stats e) j + (if decide (up = j) then (if bool_decide (stats e !! up = None) then 0 else e_Uplink x) else 0))
    by (intros j; by apply mget_add_counter).
  assert (Hc1 : counted c1) by by apply counted_add_counter.
  assert (Hd1 : mget c1 down + e_Downlink x ≤ max_int64) by (rewrite M1, decide_False by done; unfold downlink_of in Hmd; fold down in Hmd; lia).
  assert (M2 : ∀ j, mget c2 j = mget c1 j + (if decide (down = j) then (if bool_decide (c1 !! down = None) then 0 else e_Downlink x) else 0))
    by (intros j; by apply mget_add_counter).
  split.
  { constructor; [done|done|]. split; [rewrite Est; by apply counted_add_counter|done]. }
  assert (Hv : ∀ d, d = "uplink" ∨ d = "downlink" → visits e (counter_name n uid d) = bool_decide (uid ∈ tracked e))
    by (intros d; by apply visits_counter).
  pose proof (Hv "uplink" ltac:(by left)) as Vu. pose proof (Hv "downlink" ltac:(by right)) as Vd. fold up in Vu. fold down in Vd.
  assert (Hl : ∀ j, left_over (RestoreEntries [x] e) j = if visits e j then 0 else mget c2 j).
  { intros j. unfold left_over. rewrite Est. done. }
  set (a := if bool_decide (uid ∈ tracked e) then 0 else if bool_decide (stats e !! up = None) then 0 else e_Uplink x).
  set (b := if bool_decide (uid ∈ tracked e) then 0 else if bool_decide (c1 !! down = None) then 0 else e_Downlink x).
  assert (E : stray (RestoreEntries [x] e) = stray e + a + b).
  { unfold stray at 1 2, outstanding. rewrite <- (total_add (stats (drained_engine e))
      (<[up := left_over e up + a]> (stats (drained_engine e))) up a).
    - apply (total_add _ _ down). intros j. rewrite mget_insert, !mget_drained, Hl, M2, M1. unfold left_over.
      destruct (decide (up = j)) as [<-|Hj].
      + rewrite !decide_False by done. rewrite Vu. unfold a. repeat case_bool_decide; lia.
      + destruct (decide (down = j)) as [<-|Hj']; [rewrite Vd; unfold b; repeat case_bool_decide; lia|].
        destruct (visits e j); lia.
    - intros j. rewrite mget_insert, mget_drained. destruct (decide (up = j)) as [<-|Hj]; [done|lia]. }
  rewrite E. unfold a, b, missed, entry_total. repeat case_bool_decide; lia.
Qed.

Lemma hstep_sound e x e' : sound e → hstep e x e' → sound e' ∧ stray e' ≤ stray e + x ∧ 0 ≤ x.
Proof.
  intros Hs [k x' e1 Hi|n y d Hd Hend|entry H1 H2 H3 H4 H5|next e1 res Hids Ha Hp].
  - destruct (interference_total _ _ _ _ (so_metered _ Hs) Hi) as (_ & _ & E & ?).
    split; [by eapply interference_sound|lia].
  - destruct (drain_survives_interference _ e n y d Hs Hd Hend) as (entries & _ & _ & E & Hs' & _).
    split; [done|]. split; [lia|]. apply (dsteps_nonneg _ _ _ _ _ _ _ (conserved_begin e Hs) Hd).
  - destruct (restore_one e entry Hs H1 H2 H3 H4 H5) as [? ?]. split; [done|]. split; [lia|].
    unfold missed, entry_total. case_bool_decide; lia.
  - destruct (sound_apply _ _ _ _ Hs Hids Ha Hp). split; [done|]. lia.
Qed.

(** C14: Nothing that is counted escapes the drains, except what is counted for users
    that no drain visits any more. From the start of an engine on, whatever sessions
    come and go, whatever traffic links count (with a lease or without), however drains
    are interleaved with them, entries restored and users switched: every user of the
    snapshot in force and every user with a session is tracked, a drain succeeds and
    takes all that the counters of the tracked users hold, and what it leaves is at
    most [x], the bytes of the history that were counted, restored or left for a user
    that was not tracked at that moment (counters stay below [2 ^ 63]). When there were none, every counter is zero
    after the drain. *)
Theorem no_traffic_escapes ft occupied s cfg key e0 x e :
  ids_typed s → Start ft occupied s cfg key = Ok e0 → history e0 x e →
  (∀ uid, uid ∈ map user_ID (snap_Users (snapshot e)) ∨ HasUserSessions (registry e) uid = true → uid ∈ tracked e) ∧
  ∃ entries, Drain e = (drained_engine e, Ok entries) ∧
    entries_total entries + outstanding (drained_engine e) = outstanding e ∧
    (∀ uid, uid ∈ tracked e → quiet (snap_Node (snapshot e)) (stats (drained_engine e)) uid = true) ∧
    0 ≤ outstanding (drained_engine e) ≤ x ∧
    (x = 0 → ∀ name v, stats (drained_engine e) !! name = Some v → v = 0).
Proof.
  intros Hids Hstart Hreach. destruct (sound_Start _ _ _ _ _ _ Hids Hstart) as (Hs0 & Hstats & _).
  assert (Hs : sound e ∧ stray e ≤ x).
  { induction Hreach as [|x e1 y e2 _ [IH Hx] Hstep]; [by rewrite stray_fresh|].
    destruct (hstep_sound _ _ _ IH Hstep) as (? & ? & _). split; [done|lia]. }
  destruct Hs as [Hs Hx]. pose proof (so_metered _ Hs) as Hm. pose proof (stray_nonneg e Hm) as Hn. split.
  { intros uid [Hu|Hu]; [|by apply (so_sessions _ Hs)]. apply elem_of_union_l. by apply elem_of_list_to_set. }
  exists (drained_entries e). split; [by apply Drain_spec|]. split; [rewrite (stray_split e Hm); unfold stray; lia|].
  split; [|split; [done|]].
  - intros uid Hu. unfold quiet, uplink_of, downlink_of. rewrite !mget_drained. unfold left_over.
    rewrite !visits_counter by (auto || by apply Hm). by rewrite bool_decide_eq_true_2.
  - intros -> name v. apply total_zero; [by apply counted_zero_users, Hm|]. unfold stray, outstanding in *. lia.
Qed.

(** ** Witness: a user counts seven more bytes after his uplink was taken *)
Definition d_taken : Draining := run_drain 4 (begin_drain w_busy).
Definition d_counted : Draining := with_engine (count_traffic 5 "uplink" 7 (dr_engine d_taken)) d_taken.
Definition d_ended : Draining := run_drain 2 d_counted.

Lemma dsteps_trans P a n y b m x c : dsteps P a n y b → dsteps P b m x c → dsteps P a (n + m) (y + x) c.
Proof.
  intros H1 H2. revert H1. induction H2 as [|m x c k z c' _ IH Hstep]; intros H1; [by rewrite !Z.add_0_r|].
  rewrite !Z.add_assoc. by eapply ds_more; [apply IH|].
Qed.

Lemma orderly_traffic uid d k e : sound e → HasUserSessions (registry e) uid = true → is_int64 uid = true → 0 ≤ k →
  mget (stats e) (counter_name (snap_Node (snapshot e)) uid d) + k ≤ max_int64 → orderly e (count_traffic uid d k e).
Proof.
  intros Hs Hu Hi Hk Hmax u Hu'. change (registry (count_traffic uid d k e)) with (registry e).
  destruct (HasUserSessions (registry e) u) eqn:E; [done|]. intros d'.
  rewrite count_traffic_insert, mget_insert by (done || apply (so_metered _ Hs)).
  rewrite decide_False; [done|]. intros [-> _]%counter_name_inj; [congruence|done..].
Qed.

Lemma d_taken_sound : sound (dr_engine d_taken).
Proof.
  exact (co_sound _ _ _ (conserved_steps unrestricted _ _ _ _ _ _ (conserved_begin w_busy w_sound) (dsteps_run _ 4 _))).
Qed.

Lemma d_run : dsteps orderly (begin_drain w_busy) 7 0 d_ended.
Proof.
  change 7 with (0 + 7 + 0). replace 0 with (run_forgotten 4 (begin_drain w_busy) + 0 + run_forgotten 2 d_counted) at 3
    by (vm_compute; reflexivity).
  apply (dsteps_trans _ _ _ _ d_counted); [|apply dsteps_run].
  apply (ds_more _ _ 0 _ d_taken 7 0); [apply dsteps_run|].
  apply (ds_other _ _ 7 0 (count_traffic 5 "uplink" 7 (dr_engine d_taken))).
  - apply (in_traffic (dr_engine d_taken) 5 "uplink" 7); [done|by left|done|by vm_compute].
  - apply orderly_traffic; [exact d_taken_sound|by vm_compute|done|done|by vm_compute].
Qed.

Lemma drain_survives_interference_witness : ∃ entries, drain_result d_ended = Ok entries ∧
  entries_total entries + outstanding (dr_engine d_ended) = 1207 ∧ stray (dr_engine d_ended) = 0.
Proof.
  destruct (drain_survives_interference orderly w_busy 7 0 d_ended w_sound d_run ltac:(vm_compute; reflexivity))
    as (entries & H1 & H2 & H3 & _).
  exists entries. split; [exact H1|]. split; [rewrite H2|rewrite H3]; vm_compute; reflexivity.
Defined.

(** ** The window *)
Definition d_dropped : Snapshot := mkSnapshot w_node [w_user2] 1700000060 EmptyString.
Definition d_retired : Engine := (Apply d_dropped w_opened).1.
Definition d_read : Draining := run_drain 5 (begin_drain d_retired).
Definition d_late : Draining := with_engine (count_traffic 5 "uplink" 100 (dr_engine d_read)) d_read.
Definition d_closed : Draining :=
  with_engine (with_registry (CloseLease (registry (dr_engine d_late)) 1) (dr_engine d_late)) d_late.
Definition d_forgot : Draining := drain_step d_closed.

Lemma d_retired_reach : history w_engine 0 d_retired.
Proof.
  change 0 with (0 + 0). eapply (hi_step _ 0 w_opened); [change 0 with (0 + 0); eapply hi_step; [apply hi_start|]|].
  - eapply (hs_other _ 0). apply in_open.
  - apply (hs_apply w_opened d_dropped _ (Apply d_dropped w_opened).2); [|apply surjective_pairing|vm_compute; discriminate].
    intros uid ->%list_elem_of_singleton. done.
Qed.

Lemma d_forgot_run : dsteps unrestricted (begin_drain d_retired) 100 100 d_forgot.
Proof.
  change 100 with (0 + 100 + 0 + 0) at 1.
  replace 100 with (run_forgotten 5 (begin_drain d_retired) + 0 + 0 + forgotten d_closed) at 2 by (vm_compute; reflexivity).
  apply (ds_more _ _ _ _ d_closed 0); [|apply ds_own].
  apply (ds_more _ _ _ _ d_late 0); [apply (ds_more _ _ 0 _ d_read 100); [apply dsteps_run|]|].
  - apply (ds_other _ _ 100 0 (count_traffic 5 "uplink" 100 (dr_engine d_read))); [|done].
    apply (in_traffic (dr_engine d_read) 5 "uplink" 100); [done|by left|done|by vm_compute].
  - apply (ds_other _ _ 0 0 (with_registry (CloseLease (registry (dr_engine d_late)) 1) (dr_engine d_late))); [|done].
    apply in_session; [apply op_close_lease|by vm_compute].
Qed.

(** C29: The window in which traffic is lost. A user whom the panel has removed counts a
    hundred bytes after the drain has read his counters, and closes his last session
    before the drain looks for it: the drain forgets him, and neither it nor any later
    drain returns the bytes, although they are still in his counter. *)
Theorem drain_can_forget_traffic :
  ∃ s cfg key e0 e d, ids_typed s ∧ Start no_start_faults false s cfg key = Ok e0 ∧ history e0 0 e ∧
    dsteps unrestricted (begin_drain e) 100 100 d ∧ dr_ids d = [] ∧ drain_result d = Ok [] ∧
    outstanding (dr_engine d) = 100 ∧ Drain (dr_engine d) = (dr_engine d, Ok []).
Proof.
  exists w_snapshot, w_config, w_key, w_engine, d_retired, d_forgot.
  split; [exact w_ids|]. split; [exact w_start|]. split; [exact d_retired_reach|].
  split; [exact d_forgot_run|].
  split; [vm_compute; reflexivity|split; [vm_compute; reflexivity|split; [vm_compute; reflexivity|vm_compute; reflexivity]]].
Qed.

(** ** Witness: a drain that forgets a user, and a link of that user that goes on *)
Definition d_stray : Engine := count_traffic 5 "uplink" 30 (dr_engine d_forgot).

Lemma d_stray_reach : history w_engine 130 d_stray.
Proof.
  change 130 with (0 + 100 + 30). apply (hi_step _ _ (dr_engine d_forgot)).
  - apply (hi_step _ _ d_retired); [exact d_retired_reach|].
    apply (hs_drain _ 100 100 d_forgot d_forgot_run). vm_compute. reflexivity.
  - apply (hs_other _ 30). replace 30 with (missed (dr_engine d_forgot) 5 30) at 2 by (vm_compute; reflexivity).
    apply (in_traffic (dr_engine d_forgot) 5 "uplink" 30); [done|by left|done|by vm_compute].
Qed.

Lemma d_busy_reach : history w_engine 0 w_busy.
Proof.
  change 0 with (0 + 0 + 0 + 0). apply (hi_step _ _ (count_traffic 5 "uplink" 200 w_opened)).
  - apply (hi_step _ _ w_opened); [apply (hi_step _ _ w_engine); [apply hi_start|]|].
    + eapply (hs_other _ 0). apply in_open.
    + apply (hs_other _ 200). replace 0 with (missed w_opened 5 200) by (vm_compute; reflexivity).
      apply (in_traffic w_opened 5 "uplink" 200); [done|by left|done|by vm_compute].
  - apply (hs_other _ 1000). replace 0 with (missed (count_traffic 5 "uplink" 200 w_opened) 5 1000) by (vm_compute; reflexivity).
    apply (in_traffic (count_traffic 5 "uplink" 200 w_opened) 5 "downlink" 1000); [done|by right|done|by vm_compute].
Qed.

Lemma no_traffic_escapes_witness :
  (∃ entries, Drain w_busy = (drained_engine w_busy, Ok entries) ∧ entries_total entries = 1200 ∧
     ∀ name v, stats (drained_engine w_busy) !! name = Some v → v = 0) ∧
  outstanding d_stray = 130 ∧ outstanding (drained_engine d_stray) ≤ 130.
Proof.
  split; [|split; [vm_compute; reflexivity|]].
  - destruct (no_traffic_escapes no_start_faults false w_snapshot w_config w_key w_engine 0 w_busy w_ids w_start d_busy_reach)
      as (_ & entries & Hd & Ht & _ & Hb & Hz).
    exists entries. split; [exact Hd|]. split; [|exact (Hz eq_refl)].
    assert (E : outstanding w_busy = 1200) by (vm_compute; reflexivity). rewrite E in Ht. lia.
  - destruct (no_traffic_escapes no_start_faults false w_snapshot w_config w_key w_engine 130 d_stray w_ids w_start d_stray_reach)
      as (_ & entries & _ & _ & _ & Hb & _). apply Hb.
Defined.
