(* ===== verification/ApplySteps.v ===== *)
(** Switching users while clients connect. [Apply] holds the mutex of the engine, but the
    inbound reads the table of users, and sessions open, close and count bytes, without
    it. Here [Apply] is a machine whose actions are the calls it makes: a user is removed
    or added, the registry is updated, the snapshot is installed; requests and sessions
    come between them. *)
From S2P Require Import Prelude GoString Float64 Digest Netip Policy Model Identity Config Session SessionInv SessionConn SessionUpdate SessionLease.
From S2P Require Import NetAddress SessionControl Xudp Outbox Xray Engine EngineUsers EngineTraffic EngineSafe ClientAuth DrainSteps.

Local Open Scope string_scope.
Local Open Scope Z_scope.

(** ** The machine *)

(** where Apply is: the users that are left to handle, and those that were handled *)
Inductive apply_pc : Type :=
| Removing (todo add removed : list User)
| Adding (todo removed added : list User)
| UndoAdded (todo removed : list User) (cause : string) (err : option string)
| UndoRemoved (todo : list User) (cause : string) (err : option string)
| Updating
| Installing (revoked : list Z) (callbacks : list callback)
| Finished (res : outcome string (list Z * list callback)).
Record Applying : Type := mkApplying {
  ap_next : Snapshot;
  ap_engine : Engine;
  ap_pc : apply_pc }.

Definition begin_apply (next : Snapshot) (e : Engine) : Applying :=
  mkApplying next e
    (if negb (running e) then Finished (Err "Xray engine is closed")
     else if negb (dataPlaneNodeEqual (snap_Node (snapshot e)) (snap_Node next))
     then Finished (Err "node data-plane configuration requires a full restart")
     else
       let oldByID := usersByID (snap_Users (snapshot e)) in
       let newByID := usersByID (snap_Users next) in
       Removing (changed_users oldByID newByID) (changed_users newByID oldByID) []).

(** the snapshot and the retired users behind the update of the registry *)
Definition install (next : Snapshot) (e : Engine) : Engine :=
  let oldByID := usersByID (snap_Users (snapshot e)) in
  let newByID := usersByID (snap_Users next) in
  mkEngine true (stats e) (table e) (registry e) (registered e) next
    ((retired e ∪ (dom oldByID ∖ dom newByID)) ∖ dom newByID).

Definition rollback_error (cause : string) (err : option string) : string :=
  match err with
  | None => cause
  | Some e => "apply users failed (" +:+ cause +:+ "), rollback failed: " +:+ e
  end.

(** one atomic action: what becomes of the engine, and where Apply is then *)
Definition apply_action (next : Snapshot) (e : Engine) (pc : apply_pc) : Engine * apply_pc :=
  let n := snap_Node (snapshot e) in
  match pc with
  | Removing [] add removed => (e, Adding add removed [])
  | Removing (u :: todo) add removed =>
      match RemoveUser n u (table e) with
      | (v, Ok _) => (with_table v e, Removing todo add (removed ++ [u]))
      | (v, Err err) => (with_table v e, UndoAdded [] removed err None)
      | (v, Panic) => (with_table v e, Finished Panic)
      end
  | Adding [] removed added => (e, Updating)
  | Adding (u :: todo) removed added =>
      match AddUser (snap_Node next) u (table e) with
      | (v, Ok _) => (with_table v e, Adding todo removed (added ++ [u]))
      | (v, Err err) => (with_table v e, UndoAdded added removed err None)
      | (v, Panic) => (with_table v e, Finished Panic)
      end
  | UndoAdded [] removed cause err => (e, UndoRemoved removed cause err)
  | UndoAdded (u :: todo) removed cause err =>
      let '(v, c) := RemoveUser n u (table e) in (with_table v e, UndoAdded todo removed cause (join_err err c))
  | UndoRemoved [] cause err => (e, Finished (Err (rollback_error cause err)))
  | UndoRemoved (u :: todo) cause err =>
      let '(v, c) := AddUser n u (table e) in (with_table v e, UndoRemoved todo cause (join_err err c))
  | Updating =>
      match Update (registry e) next with
      | Ok (r, callbacks, revoked) => (with_registry r e, Installing revoked callbacks)
      | Err err => (e, Finished (Err err))
      | Panic => (e, Finished Panic)
      end
  | Installing revoked callbacks => (install next e, Finished (Ok (revoked, callbacks)))
  | Finished res => (e, pc)
  end.
Definition apply_step (a : Applying) : Applying :=
  let '(e, pc) := apply_action (ap_next a) (ap_engine a) (ap_pc a) in mkApplying (ap_next a) e pc.
Fixpoint run_apply (steps : nat) (a : Applying) : Applying :=
  match steps with O => a | S steps => run_apply steps (apply_step a) end.

(** the actions that are left at most *)
Definition apply_left (pc : apply_pc) : nat :=
  match pc with
  | Removing todo add removed => 2 * length todo + 2 * length add + length removed + 5
  | Adding todo removed added => 2 * length todo + length removed + length added + 4
  | UndoAdded todo removed _ _ => length todo + length removed + 2
  | UndoRemoved todo _ _ => length todo + 1
  | Updating => 2
  | Installing _ _ => 1
  | Finished _ => 0
  end.
Definition is_finished (pc : apply_pc) : bool := match pc with Finished _ => true | _ => false end.

(** every action leaves fewer to do, so Apply ends *)
Lemma apply_progress a : is_finished (ap_pc a) = false → (apply_left (ap_pc (apply_step a)) < apply_left (ap_pc a))%nat.
Proof.
  destruct a as [next e pc]. unfold apply_step. cbn [ap_next ap_engine ap_pc].
  destruct pc as [[|u todo] add removed|[|u todo] removed added|[|u todo] removed cause err|[|u todo] cause err| |revoked cbs|res];
    intros Hf; cbn [apply_action]; repeat case_match; simplify_eq; cbn [ap_pc apply_left length]; rewrite ?length_app;
    cbn [length]; lia.
Qed.

(** ** Without interference the machine is [Apply] *)
Lemma run_apply_add a b x : run_apply (a + b) x = run_apply b (run_apply a x).
Proof. revert x. induction a as [|a IH]; intros x; [done|]. apply IH. Qed.

Lemma run_apply_S m a : run_apply (S m) a = apply_step (run_apply m a).
Proof. replace (S m) with (m + 1)%nat by lia. by rewrite run_apply_add. Qed.

Lemma apply_step_finished a : is_finished (ap_pc a) = true → apply_step a = a.
Proof. destruct a as [next e pc]. by destruct pc. Qed.

Lemma run_apply_finished m a : is_finished (ap_pc a) = true → run_apply m a = a.
Proof. intros H. induction m as [|m IH]; [done|]. by rewrite run_apply_S, IH, apply_step_finished. Qed.

Lemma run_apply_next m a : ap_next (run_apply m a) = ap_next a.
Proof.
  induction m as [|m IH]; [done|]. rewrite run_apply_S. rewrite <- IH. unfold apply_step.
  by destruct (apply_action _ _ _).
Qed.

Lemma run_apply_ends a : is_finished (ap_pc (run_apply (apply_left (ap_pc a)) a)) = true.
Proof.
  remember (apply_left (ap_pc a)) as k eqn:E. assert (Hk : (apply_left (ap_pc a) ≤ k)%nat) by lia. clear E.
  revert a Hk. induction k as [|k IH]; intros a Hk; cbn [run_apply].
  - destruct (is_finished (ap_pc a)) eqn:Hf; [done|]. apply apply_progress in Hf. lia.
  - destruct (is_finished (ap_pc a)) eqn:Hf; [by rewrite apply_step_finished, run_apply_finished|].
    apply IH. apply apply_progress in Hf. lia.
Qed.

Definition reaches (a b : Applying) : Prop := ∃ m, run_apply m a = b.
Lemma reaches_step a b : reaches (apply_step a) b → reaches a b.
Proof. intros [m H]. by exists (S m). Qed.
Lemma reaches_trans a b c : reaches a b → reaches b c → reaches a c.
Proof. intros [m <-] [k <-]. exists (m + k)%nat. apply run_apply_add. Qed.
Lemma reaches_refl a : reaches a a.
Proof. by exists 0%nat. Qed.

Lemma reaches_end a b : reaches a b → is_finished (ap_pc b) = true → run_apply (apply_left (ap_pc a)) a = b.
Proof.
  intros [m Hm] Hb. pose proof (run_apply_ends a) as He. set (k := apply_left (ap_pc a)) in *.
  rewrite <- (run_apply_finished m _ He), <- run_apply_add, Nat.add_comm, run_apply_add, Hm.
  by apply run_apply_finished.
Qed.

Lemma RemoveUser_no_panic n u v : (RemoveUser n u v).2 ≠ Panic.
Proof. unfold RemoveUser, ValidatorDel. by repeat case_match. Qed.
Lemma AddUser_no_panic n u v : (AddUser n u v).2 ≠ Panic.
Proof.
  unfold AddUser. pose proof (memoryUser_no_panic n u). destruct (memoryUser n u); [|done..].
  unfold ValidatorAdd. by repeat case_match.
Qed.

Section Alone.
Context (next : Snapshot).

Lemma removing_reaches todo add e removed :
  reaches (mkApplying next e (Removing todo add removed))
    (let '(v, rs, err) := remove_all (snap_Node (snapshot e)) todo (table e) in
     mkApplying next (with_table v e)
       match err with
       | None => Adding add (removed ++ rs) []
       | Some err => UndoAdded [] (removed ++ rs) err None
       end).
Proof.
  revert e removed. induction todo as [|u todo IH]; intros e removed; cbn [remove_all].
  { exists 1%nat. cbn. rewrite app_nil_r. by destruct e. }
  apply reaches_step. unfold apply_step. cbn [ap_next ap_engine ap_pc apply_action].
  pose proof (RemoveUser_no_panic (snap_Node (snapshot e)) u (table e)) as Hp.
  destruct (RemoveUser _ u (table e)) as [v [x|err|]]; [|rewrite app_nil_r; apply reaches_refl|done].
  specialize (IH (with_table v e) (removed ++ [u])%list). cbn [with_table table snapshot] in IH.
  destruct (remove_all _ todo v) as [[w rs] err]. by rewrite <- (assoc_L (++)%list) in IH.
Qed.

Lemma adding_reaches todo e removed added :
  reaches (mkApplying next e (Adding todo removed added))
    (let '(v, rs, err) := add_all (snap_Node next) todo (table e) in
     mkApplying next (with_table v e)
       match err with
       | None => Updating
       | Some err => UndoAdded (added ++ rs) removed err None
       end).
Proof.
  revert e added. induction todo as [|u todo IH]; intros e added; cbn [add_all].
  { exists 1%nat. cbn. by destruct e. }
  apply reaches_step. unfold apply_step. cbn [ap_next ap_engine ap_pc apply_action].
  pose proof (AddUser_no_panic (snap_Node next) u (table e)) as Hp.
  destruct (AddUser _ u (table e)) as [v [x|err|]]; [|rewrite app_nil_r; apply reaches_refl|done].
  specialize (IH (with_table v e) (added ++ [u])%list). cbn [with_table table snapshot] in IH.
  destruct (add_all _ todo v) as [[w rs] err]. by rewrite <- (assoc_L (++)%list) in IH.
Qed.

Lemma undo_reaches added removed cause e :
  reaches (mkApplying next e (UndoAdded added removed cause None))
    (let '(v, err) := rollbackUsers (snap_Node (snapshot e)) added removed cause (table e) in
     mkApplying next (with_table v e) (Finished (Err err))).
Proof.
  unfold rollbackUsers. generalize (@None string) as err. revert e. induction added as [|u added IH]; intros e err; cbn [undo].
  - apply reaches_step. unfold apply_step. cbn [ap_next ap_engine ap_pc apply_action].
    revert e err. induction removed as [|u removed IH]; intros e err; cbn [undo];
      apply reaches_step; unfold apply_step; cbn [ap_next ap_engine ap_pc apply_action].
    + replace (with_table (table e) e) with e by (by destruct e). apply reaches_refl.
    + destruct (AddUser _ u (table e)) as [v c]. apply (IH (with_table v e)).
  - apply reaches_step. unfold apply_step. cbn [ap_next ap_engine ap_pc apply_action].
    destruct (RemoveUser _ u (table e)) as [v c]. apply (IH (with_table v e)).
Qed.

Lemma updating_reaches e :
  reaches (mkApplying next e Updating)
    match Update (registry e) next with
    | Ok (r, callbacks, revoked) => mkApplying next (install next (with_registry r e)) (Finished (Ok (revoked, callbacks)))
    | Err err => mkApplying next e (Finished (Err err))
    | Panic => mkApplying next e (Finished Panic)
    end.
Proof.
  destruct (Update (registry e) next) as [[[r cbs] revoked]|err|] eqn:E;
    [exists 2%nat|exists 1%nat|exists 1%nat]; cbn [run_apply]; unfold apply_step; cbn [ap_next ap_engine ap_pc apply_action]; rewrite E; done.
Qed.

Lemma begin_reaches e : reaches (begin_apply next e) (mkApplying next (Apply next e).1 (Finished (Apply next e).2)).
Proof.
  unfold begin_apply, Apply. destruct (negb (running e)); [apply reaches_refl|].
  destruct (negb (dataPlaneNodeEqual _ _)); [apply reaches_refl|]. cbv zeta.
  eapply reaches_trans; [apply removing_reaches|].
  destruct (remove_all _ _ (table e)) as [[v removed] [err|]]; cbn [app].
  { eapply reaches_trans; [apply undo_reaches|]. cbn [with_table table snapshot].
    destruct (rollbackUsers _ _ _ _ v) as [w x]. apply reaches_refl. }
  eapply reaches_trans; [apply adding_reaches|]. cbn [with_table table snapshot].
  destruct (add_all _ _ v) as [[w added] [err|]]; cbn [app].
  { eapply reaches_trans; [apply undo_reaches|]. cbn [with_table table snapshot].
    destruct (rollbackUsers _ _ _ _ w) as [z x]. apply reaches_refl. }
  eapply reaches_trans; [apply updating_reaches|]. cbn [with_table table snapshot registry].
  destruct (Update (registry e) next) as [[[r cbs] revoked]|err|]; apply reaches_refl.
Qed.
End Alone.

Lemma run_apply_is_Apply next e :
  run_apply (apply_left (ap_pc (begin_apply next e))) (begin_apply next e) =
  mkApplying next (Apply next e).1 (Finished (Apply next e).2).
Proof. apply reaches_end; [apply begin_reaches|done]. Qed.

(** ** Interference *)
Definition with_apply_engine (e : Engine) (a : Applying) : Applying := mkApplying (ap_next a) e (ap_pc a).

(** Sessions and traffic, with the bytes they count; whether a drain finds them is not
    of interest here. *)
Definition interferes (e : Engine) (k : Z) (e' : Engine) : Prop := ∃ x, interference e k x e'.

(** sessions and traffic that come one after the other, with the bytes they count *)
Inductive isteps (e : Engine) : Z → Engine → Prop :=
| is_done : isteps e 0 e
| is_more n e1 k e2 : isteps e n e1 → interferes e1 k e2 → isteps e (n + k) e2.

Inductive astep (a : Applying) : Z → Applying → Prop :=
| as_own : astep a 0 (apply_step a)
| as_other k e' : interferes (ap_engine a) k e' → astep a k (with_apply_engine e' a).
Inductive asteps (a : Applying) : Z → Applying → Prop :=
| as_done : asteps a 0 a
| as_more n a1 k a2 : asteps a n a1 → astep a1 k a2 → asteps a (n + k) a2.

(** the registry and the counters of another engine *)
Definition patch (s e : Engine) : Engine :=
  mkEngine (running e) (stats s) (table e) (registry s) (registered e) (snapshot e) (retired e).

Lemma patch_twice s t e : patch s (patch t e) = patch s e.
Proof. done. Qed.
Lemma patch_self e : patch e e = e.
Proof. by destruct e. Qed.

Lemma interference_patch e k e' : interferes e k e' → e' = patch e' e.
Proof. by intros [x []]; destruct e. Qed.

Lemma interference_transport e k e' f : interferes e k e' → stats f = stats e → registry f = registry e →
  node_ID (snap_Node (snapshot f)) = node_ID (snap_Node (snapshot e)) → interferes f k (patch e' f).
Proof.
  intros Hi Es Er Ei.
  assert (Ec : ∀ uid d, counter_name (snap_Node (snapshot f)) uid d = counter_name (snap_Node (snapshot e)) uid d)
    by (intros; unfold counter_name; by rewrite Ei).
  destruct Hi as [x [r' Hop Hgen|p|uid d k' Hs Hd Hk Hmax]]; eexists.
  - replace (patch _ f) with (with_registry r' f) by (unfold patch, with_registry; cbn; by rewrite Es).
    apply in_session; by rewrite Er.
  - replace (patch _ f) with (with_registry (openCommit (registry f) p).1 f)
      by (unfold patch, with_registry; cbn; by rewrite Es, Er). apply in_open.
  - replace (patch _ f) with (count_traffic uid d k' f)
      by (unfold patch, count_traffic, with_stats; cbn; by rewrite Es, Er, Ec).
    apply in_traffic; [done|done|done|by rewrite Es, Ec].
Qed.

Lemma isteps_patch e k e' : isteps e k e' → e' = patch e' e.
Proof.
  induction 1 as [|n e1 k e2 _ IH Hi]; [by rewrite patch_self|].
  rewrite (interference_patch _ _ _ Hi) at 1. rewrite IH. by rewrite patch_twice.
Qed.

Lemma isteps_transport e k e' f : isteps e k e' → stats f = stats e → registry f = registry e →
  node_ID (snap_Node (snapshot f)) = node_ID (snap_Node (snapshot e)) → isteps f k (patch e' f).
Proof.
  intros H Es Er Ei. induction H as [|n e1 k e2 H1 IH Hi].
  - unfold patch. rewrite <- Es, <- Er. destruct f. apply is_done.
  - apply (is_more _ n (patch e1 f)); [done|]. rewrite <- (patch_twice e2 e1).
    apply (interference_transport e1); [done..|]. rewrite (isteps_patch _ _ _ H1). done.
Qed.

Lemma isteps_live e k e' : isteps e k e' → live e → live e'.
Proof.
  induction 1 as [|n e1 k e2 _ IH Hi]; [done|]. intros He. specialize (IH He).
  destruct Hi as [x []]; [by apply live_session|by apply live_open|by apply live_traffic].
Qed.

(** ** The moment of a switch *)

(** Apply has not reached the registry, or has failed *)
Definition before_update (pc : apply_pc) : bool :=
  match pc with Installing _ _ | Finished _ => false | _ => true end.

(** before the update of the registry, the actions of Apply and what sessions do touch
    different things *)
Lemma action_patch next s e pc : before_update (apply_action next e pc).2 = true →
  apply_action next (patch s e) pc = (patch s (apply_action next e pc).1, (apply_action next e pc).2).
Proof.
  destruct pc as [[|u todo] add removed|[|u todo] removed added|[|u todo] removed cause err|[|u todo] cause err| |revoked cbs|res];
    cbn [apply_action patch table snapshot]; try done;
    [by destruct (RemoveUser _ u _) as [v [x|x|]]|by destruct (AddUser _ u _) as [v [x|x|]]
    |by destruct (RemoveUser _ u _) as [v c]|by destruct (AddUser _ u _) as [v c]|].
  by destruct (Update _ next) as [[[r cbs] revoked]|x|].
Qed.

Lemma before_update_step a : before_update (ap_pc (apply_step a)) = true → before_update (ap_pc a) = true.
Proof. destruct a as [next e pc]. by destruct pc. Qed.

Lemma run_patch next s e m : before_update (ap_pc (run_apply m (begin_apply next e))) = true →
  run_apply m (begin_apply next (patch s e)) =
    with_apply_engine (patch s (ap_engine (run_apply m (begin_apply next e)))) (run_apply m (begin_apply next e)).
Proof.
  induction m as [|m IH]; [done|]. rewrite !run_apply_S. intros Hb. rewrite IH by (by apply before_update_step).
  destruct (run_apply m (begin_apply next e)) as [next' e' pc]. unfold apply_step in *. cbn [with_apply_engine ap_next ap_engine ap_pc] in *.
  rewrite action_patch; by destruct (apply_action next' e' pc).
Qed.

Lemma run_apply_frame next e m : is_finished (ap_pc (run_apply m (begin_apply next e))) = false →
  snapshot (ap_engine (run_apply m (begin_apply next e))) = snapshot e ∧
  dataPlaneNodeEqual (snap_Node (snapshot e)) (snap_Node next) = true.
Proof.
  induction m as [|m IH].
  - cbn [run_apply]. unfold begin_apply. destruct (negb (running e)); [done|].
    by destruct (dataPlaneNodeEqual _ _).
  - rewrite run_apply_S. destruct (run_apply m (begin_apply next e)) as [next' e' pc]. intros Hf.
    destruct IH as [E Hd]; [by destruct pc|]. split; [|done]. revert Hf. unfold apply_step. cbn [ap_next ap_engine ap_pc] in *.
    destruct pc as [[|u todo] add removed|[|u todo] removed added|[|u todo] removed cause err|[|u todo] cause err| |revoked cbs|res];
      cbn [apply_action]; repeat case_match; simplify_eq; done.
Qed.

Lemma isteps_snoc e k e1 j e2 : isteps e k e1 → interferes e1 j e2 → isteps e (k + j) e2.
Proof. intros. by eapply is_more. Qed.

(** [a] is the machine that starts after the first [k1] bytes of the interference, followed
    by the rest of it *)
Record linearized (next : Snapshot) (e : Engine) (k : Z) (a : Applying) (k1 k2 : Z) (e1 : Engine) (m : nat) : Prop := {
  li_bytes : k = k1 + k2;
  li_before : isteps e k1 e1;
  li_next : ap_next a = next;
  li_pc : ap_pc a = ap_pc (run_apply m (begin_apply next e1));
  li_after : isteps (ap_engine (run_apply m (begin_apply next e1))) k2 (ap_engine a);
  li_none : before_update (ap_pc a) = true → k2 = 0 ∧ ap_engine a = ap_engine (run_apply m (begin_apply next e1)) }.

Lemma linearized_other next e k a k1 k2 e1 m j e' :
  linearized next e k a k1 k2 e1 m → interferes (ap_engine a) j e' →
  ∃ k1' k2' e1', linearized next e (k + j) (with_apply_engine e' a) k1' k2' e1' m.
Proof.
  intros [-> H1 Hn Hpc H2 H0] Hi. destruct (before_update (ap_pc a)) eqn:Hb.
  - destruct (H0 eq_refl) as [-> Ee]. rewrite Hpc in Hb. pose proof (run_patch next e' e1 m Hb) as Hrun.
    assert (Hf : is_finished (ap_pc (run_apply m (begin_apply next e1))) = false) by (by destruct (ap_pc (run_apply m _))).
    destruct (run_apply_frame next e1 m Hf) as [Hs _].
    assert (E1 : stats e1 = stats (ap_engine a) ∧ registry e1 = registry (ap_engine a)).
    { pose proof (run_patch next e1 e1 m Hb) as Hself. rewrite patch_self in Hself. rewrite Ee.
      apply (f_equal ap_engine) in Hself. cbn in Hself. by rewrite Hself. }
    exists (k1 + j), 0, (patch e' e1). constructor.
    + lia.
    + eapply is_more; [exact H1|]. apply (interference_transport (ap_engine a)); [done|apply E1|apply E1|]. by rewrite Ee, Hs.
    + done.
    + by rewrite Hrun.
    + rewrite Hrun. cbn. rewrite <- Ee, <- (interference_patch _ _ _ Hi). apply is_done.
    + intros _. split; [done|]. rewrite Hrun. cbn. by rewrite <- Ee, <- (interference_patch _ _ _ Hi).
  - exists k1, (k2 + j), e1. constructor; [lia|done|done|done|by eapply is_more|]. cbn. by rewrite Hb.
Qed.

Lemma install_patch next s e : install next (patch s e) = patch s (install next e).
Proof. done. Qed.

Lemma linearized_own next e k a k1 k2 e1 m :
  linearized next e k a k1 k2 e1 m → linearized next e k (apply_step a) k1 k2 e1 (S m).
Proof.
  intros [-> H1 Hn Hpc H2 H0]. set (b := run_apply m (begin_apply next e1)) in *.
  assert (Eb : ap_next b = next) by (unfold b; by rewrite run_apply_next).
  assert (Hstep : linearized next e (k1 + k2) (apply_step a) k1 k2 e1 (S m) ↔
    (ap_pc (apply_step a) = ap_pc (apply_step b) ∧ isteps (ap_engine (apply_step b)) k2 (ap_engine (apply_step a)) ∧
     (before_update (ap_pc (apply_step a)) = true → k2 = 0 ∧ ap_engine (apply_step a) = ap_engine (apply_step b)))).
  { split; [intros [_ _ _ E1 E2 E3]|intros (E1 & E2 & E3); constructor]; rewrite ?run_apply_S in *; try done.
    unfold apply_step. by destruct (apply_action _ _ _). }
  apply Hstep. clear Hstep. destruct (before_update (ap_pc a)) eqn:Hb.
  - destruct (H0 eq_refl) as [-> Ee]. assert (a = b) as ->; [|split; [done|split; [apply is_done|done]]].
    destruct a, b; cbn in *; by subst.
  - destruct a as [na ea pa]. cbn [ap_next ap_engine ap_pc] in *. subst na. unfold apply_step. rewrite Eb, <- Hpc.
    cbn [ap_next ap_engine ap_pc].
    destruct pa as [| | | | |revoked cbs|res]; try done. cbn [apply_action ap_engine ap_pc].
    split; [done|]. split; [|done]. rewrite (isteps_patch _ _ _ H2), install_patch.
    assert (Hf : is_finished (ap_pc b) = false) by (by rewrite <- Hpc).
    destruct (run_apply_frame next e1 m Hf) as [Hs [Hid _]%dataPlane_identity].
    apply (isteps_transport (ap_engine b)); [done..|]. cbn [install snapshot]. fold b in Hs. by rewrite Hs.
Qed.

Lemma asteps_linearized next e k a : asteps (begin_apply next e) k a → ∃ k1 k2 e1 m, linearized next e k a k1 k2 e1 m.
Proof.
  induction 1 as [|n a1 k a2 _ (k1 & k2 & e1 & m & IH) Hstep].
  - exists 0, 0, e, 0%nat. constructor; try done; apply is_done.
  - destruct Hstep as [|k e' Hi].
    + exists k1, k2, e1, (S m). rewrite Z.add_0_r. by apply linearized_own.
    + destruct (linearized_other _ _ _ _ _ _ _ _ _ _ IH Hi) as (k1' & k2' & e1' & H). by exists k1', k2', e1', m.
Qed.

Lemma asteps_finished next e k a res : asteps (begin_apply next e) k a → ap_pc a = Finished res →
  ∃ k1 e1 k2 e2, k = k1 + k2 ∧ isteps e k1 e1 ∧ Apply next e1 = (e2, res) ∧ isteps e2 k2 (ap_engine a).
Proof.
  intros (k1 & k2 & e1 & m & [H1 H2 _ H3 H4 _])%asteps_linearized Hf.
  assert (E : run_apply m (begin_apply next e1) = mkApplying next (Apply next e1).1 (Finished (Apply next e1).2)).
  { rewrite <- run_apply_is_Apply. symmetry. apply reaches_end; [by exists m|]. by rewrite <- H3, Hf. }
  exists k1, e1, k2, (Apply next e1).1. rewrite E in H3, H4. rewrite Hf in H3. injection H3 as ->.
  split; [done|]. split; [done|]. split; [apply surjective_pairing|exact H4].
Qed.

(** C4: A switch of users takes effect at one moment. However sessions, traffic and Apply
    interleave, what Apply returns and what it leaves is what it does as a whole at some
    moment on the way, with the rest of the interference before and after it; so an
    engine whose users were switched while clients were connected is an engine whose
    users were switched between their operations. *)
Theorem apply_takes_effect_at_once next e k a res :
  asteps (begin_apply next e) k a → ap_pc a = Finished res →
  (∃ k1 e1 k2 e2, k = k1 + k2 ∧ isteps e k1 e1 ∧ Apply next e1 = (e2, res) ∧ isteps e2 k2 (ap_engine a)) ∧
  (live e → identified next → res ≠ Panic → live (ap_engine a)).
Proof.
  intros H Hf. destruct (asteps_finished next e k a res H Hf) as (k1 & e1 & k2 & e2 & Hk & H1 & Happly & H2).
  split; [by exists k1, e1, k2, e2|]. intros Hlive Hid Hres. eapply isteps_live; [exact H2|].
  eapply live_apply; [exact (isteps_live _ _ _ H1 Hlive)|exact Hid|exact Happly|exact Hres].
Qed.

(** ** What a request finds on the way *)
Section Phases.
Context (n : Node) (old new : list User).
Context (Hold : NoDup (map user_ID old)) (Hnew : NoDup (map user_ID new)).
Context (Cold : compatible n (in_users old)) (Cnew : compatible n (in_users new)).

(** the users in the table while Apply is at [pc] *)
Definition present (pc : apply_pc) : User → Prop :=
  match pc with
  | Removing _ _ removed => without (in_users old) (map user_ID removed)
  | Adding _ _ added => λ x, kept old new x ∨ x ∈ added
  | UndoAdded todo _ _ _ => λ x, kept old new x ∨ x ∈ todo
  | UndoRemoved todo _ _ => λ x, kept old new x ∨ (x ∈ (to_remove old new) ∧ x ∉ todo)
  | Updating | Installing _ _ | Finished (Ok _) | Finished Panic => in_users new
  | Finished (Err _) => in_users old
  end.

(** the lists that Apply walks *)
Definition lists_at (pc : apply_pc) : Prop :=
  match pc with
  | Removing todo add removed => add = (to_add old new) ∧ (to_remove old new) = (removed ++ todo)%list
  | Adding todo removed added => removed = (to_remove old new) ∧ (to_add old new) = (added ++ todo)%list
  | UndoAdded todo removed _ err => removed = (to_remove old new) ∧ err = None ∧ ∃ l1 l2, (to_add old new) = (l1 ++ todo ++ l2)%list
  | UndoRemoved todo _ err => err = None ∧ ∃ l, (to_remove old new) = (l ++ todo)%list
  | _ => True
  end.

Lemma stays_old u : kept old new u → in_users old u.
Proof using Hold Hnew. by intros [? _]. Qed.

(** every user that is present is one of the old or of the new snapshot *)
Lemma present_users pc u : lists_at pc → present pc u → in_users old u ∨ in_users new u.
Proof using Hold Hnew.
  pose proof (λ x, elem_of_changed_users old new x Hold Hnew) as Eg.
  pose proof (λ x, elem_of_changed_users new old x Hnew Hold) as Ef. fold (to_remove old new) in Eg. fold (to_add old new) in Ef.
  assert (Hf : ∀ x, x ∈ (to_add old new) → in_users new x) by (intros x [? _]%Ef; done).
  destruct pc as [todo add removed|todo removed added|todo removed c err|todo c err| |? ?|[[? ?]|?|]]; cbn [present lists_at]; intros Hl Hu.
  - left. apply Hu.
  - destruct Hu as [[? _]|Hu]; [by left|right]. apply Hf. destruct Hl as [_ ->]. apply elem_of_app. by left.
  - destruct Hu as [[? _]|Hu]; [by left|right]. apply Hf. destruct Hl as (_ & _ & l1 & l2 & ->).
    rewrite !elem_of_app. by right; left.
  - destruct Hu as [[? _]|[[? _]%Eg _]]; by left.
  - by right.
  - by right.
  - by right.
  - by left.
  - by right.
Qed.

(** a user who kept old new is present all the time, as he is in the old snapshot or as the
    new one has him *)
Lemma present_stays pc u : lists_at pc → kept old new u → ∃ w, present pc w ∧ memoryUser n w = memoryUser n u.
Proof using Hold Hnew.
  intros Hl Hs. pose proof Hs as (Hu & v & Hv & Hid & Huuid)%kept_spec; [|done..].
  assert (Ev : memoryUser n v = memoryUser n u) by (by apply memoryUser_same).
  destruct pc as [todo add removed|todo removed added|todo removed c err|todo c err| |? ?|[[? ?]|?|]]; cbn [present lists_at] in *.
  - exists u. split; [|done]. destruct Hs as [_ Hno], Hl as [_ E]. split; [done|]. intros Hin. apply Hno. rewrite E, map_app.
    apply elem_of_app. by left.
  - exists u. by split; [left|].
  - exists u. by split; [left|].
  - exists u. by split; [left|].
  - by exists v.
  - by exists v.
  - by exists v.
  - by exists u.
  - by exists v.
Qed.

Lemma fresh_NoDup : NoDup (map user_ID (to_add old new)).
Proof using Hnew. by apply changed_users_NoDup. Qed.
Lemma gone_NoDup : NoDup (map user_ID (to_remove old new)).
Proof using Hold. by apply changed_users_NoDup. Qed.

Lemma NoDup_middle (l1 l2 : list User) u : NoDup (map user_ID (l1 ++ u :: l2)) →
  ∀ x, x ∈ l1 ∨ x ∈ l2 → user_ID x ≠ user_ID u.
Proof.
  rewrite map_app. cbn [map]. intros (_ & Hd & [Hn _]%NoDup_cons)%NoDup_app x [Hx|Hx] E.
  - apply (Hd (user_ID x)); [by apply list_elem_of_fmap_2|]. rewrite E. by left.
  - apply Hn. rewrite <- E. by apply list_elem_of_fmap_2.
Qed.

Lemma phase_start v : holds n (in_users old) v → holds n (present (Removing (to_remove old new) (to_add old new) [])) v.
Proof. intros H. eapply holds_ext; [exact H|]. intros u. cbn. unfold without. rewrite elem_of_nil. tauto. Qed.

Lemma phase_remove v u todo add removed : lists_at (Removing (u :: todo) add removed) →
  holds n (present (Removing (u :: todo) add removed)) v →
  ∃ v', RemoveUser n u v = (v', Ok tt) ∧ holds n (present (Removing todo add (removed ++ [u]))) v'.
Proof using Hold Hnew Cold.
  cbn [lists_at present]. intros [_ E] H.
  destruct (remove_holds n _ v u H) as (v' & Ev & H').
  - eapply compatible_weaken; [|exact Cold]. by intros x [? _].
  - split.
    + apply (to_remove_old old new Hold Hnew). rewrite E. apply elem_of_app. right. by left.
    + intros (x & Ex & Hx)%list_elem_of_fmap. pose proof gone_NoDup as Hnd. rewrite E in Hnd.
      by apply (NoDup_middle _ _ _ Hnd x (or_introl Hx)).
  - exists v'. split; [done|]. eapply holds_ext; [exact H'|]. intros x. unfold without.
    rewrite map_app, elem_of_app, list_elem_of_singleton. cbn [map]. rewrite list_elem_of_singleton. tauto.
Qed.

Lemma phase_removed v add removed : lists_at (Removing [] add removed) → holds n (present (Removing [] add removed)) v →
  lists_at (Adding add removed []) ∧ holds n (present (Adding add removed [])) v.
Proof using Type.
  cbn [lists_at present]. rewrite app_nil_r. intros [-> <-] H. split; [done|]. eapply holds_ext; [exact H|].
  intros x. rewrite elem_of_nil. unfold kept. tauto.
Qed.

Lemma phase_add v u todo removed added : lists_at (Adding (u :: todo) removed added) →
  holds n (present (Adding (u :: todo) removed added)) v →
  (∃ v', AddUser n u v = (v', Ok tt) ∧ holds n (present (Adding todo removed (added ++ [u]))) v') ∨
  ∃ err, AddUser n u v = (v, Err err).
Proof using Hold Hnew Cnew.
  cbn [lists_at present]. intros [_ E] H. pose proof fresh_NoDup as Hnd. rewrite E in Hnd.
  assert (Hsub : ∀ x, x ∈ added ∨ x = u → x ∈ (to_add old new)).
  { intros x Hx. rewrite E, elem_of_app, elem_of_cons. tauto. }
  destruct (memoryUser n u) as [mu|err|] eqn:Em; [left|right|by apply memoryUser_no_panic in Em].
  - destruct (add_holds n _ v u mu H) as (v' & Ev & H').
    + eapply compatible_weaken; [|by apply (kept_add_compatible n old new)].
      intros x [[?|?]|?]; [by left|right; apply Hsub; by left|right; apply Hsub; by right].
    + intros x [Hx|Hx]; [by apply (kept_add_fresh old new Hold Hnew); [|apply Hsub; right]|].
      by apply (NoDup_middle _ _ _ Hnd x (or_introl Hx)).
    + done.
    + exists v'. split; [done|]. eapply holds_ext; [exact H'|]. intros x. rewrite elem_of_app, list_elem_of_singleton. tauto.
  - exists err. unfold AddUser. by rewrite Em.
Qed.

Lemma phase_added v removed added : lists_at (Adding [] removed added) → holds n (present (Adding [] removed added)) v →
  holds n (present Updating) v.
Proof using Hold Hnew.
  cbn [lists_at present]. rewrite app_nil_r. intros [_ <-] H. by apply (switch_reaches_new n old new).
Qed.

Lemma phase_undo_added v u todo removed c err : lists_at (UndoAdded (u :: todo) removed c err) →
  holds n (present (UndoAdded (u :: todo) removed c err)) v →
  ∃ v', RemoveUser n u v = (v', Ok tt) ∧ holds n (present (UndoAdded todo removed c err)) v'.
Proof using Hold Hnew Cnew.
  cbn [lists_at present]. intros (_ & _ & l1 & l2 & E) H. pose proof fresh_NoDup as Hnd. rewrite E in Hnd.
  cbn [app] in Hnd.
  assert (Hsub : ∀ x, x ∈ u :: todo → x ∈ (to_add old new)) by (intros x Hx; rewrite E, !elem_of_app; by right; left).
  destruct (remove_holds n _ v u H) as (v' & Ev & H').
  - eapply compatible_weaken; [|by apply (kept_add_compatible n old new)].
    intros x [?|?]; [by left|right; by apply Hsub].
  - right. by left.
  - exists v'. split; [done|]. eapply holds_ext; [exact H'|]. intros x. unfold without.
    rewrite elem_of_cons, list_elem_of_singleton. split.
    + intros [[?|[->|?]] Hne]; [by left|by destruct Hne|by right].
    + intros Hx. split; [tauto|]. destruct Hx as [Hx|Hx]; [by apply (kept_add_fresh old new Hold Hnew); [|apply Hsub; left]|].
      apply (NoDup_middle _ _ _ Hnd x). right. apply elem_of_app. by left.
Qed.

Lemma phase_undo_removed v u todo c err : lists_at (UndoRemoved (u :: todo) c err) →
  (∀ x, in_users old x → ∃ mu, memoryUser n x = Ok mu) →
  holds n (present (UndoRemoved (u :: todo) c err)) v →
  ∃ v', AddUser n u v = (v', Ok tt) ∧ holds n (present (UndoRemoved todo c err)) v'.
Proof using Hold Hnew Cold.
  cbn [lists_at present]. intros (_ & l & E) Hvalid H. pose proof gone_NoDup as Hnd. rewrite E in Hnd.
  assert (Hu : u ∈ (to_remove old new)) by (rewrite E, elem_of_app; right; by left).
  destruct (Hvalid u) as [mu Em]; [by apply (to_remove_old old new Hold Hnew)|].
  assert (Hne : ∀ x, x ∈ (to_remove old new) → x ∉ u :: todo → user_ID x ≠ user_ID u).
  { intros x Hx Hno. apply (NoDup_middle _ _ _ Hnd x). rewrite E, elem_of_app in Hx. tauto. }
  destruct (add_holds n _ v u mu H) as (v' & Ev & H').
  - eapply compatible_weaken; [|exact Cold].
    intros x [[Hx%stays_old|[Hx _]]| ->]; [done|by apply (to_remove_old old new Hold Hnew)..].
  - intros x [[_ Hno]|[Hx Hno]]; [|by apply Hne]. intros Eq. apply Hno. rewrite Eq. by apply list_elem_of_fmap_2.
  - done.
  - exists v'. split; [done|]. eapply holds_ext; [exact H'|]. intros x. cbv beta. rewrite not_elem_of_cons. split.
    + intros [[?|(? & ? & ?)]| ->]; [by left|by right|]. right. split; [done|].
      intros Hin. by apply (NoDup_middle _ _ _ Hnd u (or_intror Hin)).
    + intros [?|[Hx Hno]]; [by left; left|]. destruct (decide (user_ID x = user_ID u)) as [Eq|Hxu].
      * right. by apply (old_unique old Hold); [apply (to_remove_old old new Hold Hnew)..|].
      * left. right. split; [done|]. split; [|done]. by intros ->.
Qed.

Lemma phase_undone v removed c err : lists_at (UndoAdded [] removed c err) → holds n (present (UndoAdded [] removed c err)) v →
  lists_at (UndoRemoved removed c err) ∧ holds n (present (UndoRemoved removed c err)) v.
Proof using Type.
  cbn [lists_at present]. intros (-> & -> & _) H. split; [by split; [|exists []]|]. eapply holds_ext; [exact H|].
  intros x. cbv beta. rewrite elem_of_nil. tauto.
Qed.

Lemma phase_restored v c err : lists_at (UndoRemoved [] c err) → holds n (present (UndoRemoved [] c err)) v →
  holds n (in_users old) v.
Proof using Hold Hnew.
  cbn [present]. intros _ H. eapply holds_ext; [exact H|]. intros x. split.
  - intros [Hx%stays_old|[Hx _]]; [done|by apply (to_remove_old old new Hold Hnew)].
  - intros Hx. destruct (user_changed (userMap new) x) eqn:E.
    + right. split; [|apply not_elem_of_nil]. apply elem_of_changed_users; [done..|]. split; [done|].
      by apply (user_changed_spec new x Hnew).
    + left. apply kept_spec; [done..|]. split; [done|]. by apply user_unchanged.
Qed.
End Phases.

(** the snapshot that the registry works with *)
Definition in_force (e : Engine) (next : Snapshot) (pc : apply_pc) : Snapshot :=
  match pc with Installing _ _ | Finished (Ok _) => next | _ => snapshot e end.

Lemma interference_keeps e k e' : interferes e k e' →
  table e' = table e ∧ snapshot e' = snapshot e ∧
  users (registry e') = users (registry e) ∧ nodeID (registry e') = nodeID (registry e).
Proof.
  intros [x [r' Hop Hgen|p|uid d k' _ _ _ _]]; [|split_and!; try done..].
  - destruct (op_node _ _ _ Hop Hgen). by split_and!.
  - cbn. unfold openCommit. destruct (commitRefusal _ p); [done|]. by destruct (p_kind p).
  - cbn. unfold openCommit. destruct (commitRefusal _ p); [done|]. by destruct (p_kind p).
Qed.

Section OnTheWay.
Context (e : Engine) (next : Snapshot).
Context (Ha : aligned e) (Hnext : identified next).

(** what holds at every moment of a switch from [e] to [next] *)
Record on_the_way (a : Applying) : Prop := {
  ow_next : ap_next a = next;
  ow_lists : lists_at (snap_Users (snapshot e)) (snap_Users next) (ap_pc a);
  ow_table : holds (snap_Node (snapshot e)) (present (snap_Users (snapshot e)) (snap_Users next) (ap_pc a)) (table (ap_engine a));
  ow_users : users (registry (ap_engine a)) = userMap (snap_Users (in_force e next (ap_pc a)));
  ow_node : nodeID (registry (ap_engine a)) = node_ID (snap_Node (snapshot e));
  ow_same : is_finished (ap_pc a) = false →
    snapshot (ap_engine a) = snapshot e ∧ dataPlaneNodeEqual (snap_Node (snapshot e)) (snap_Node next) = true }.

Lemma on_the_way_begin : on_the_way (begin_apply next e).
Proof using Ha.
  destruct Ha as [H1 H2 H3 H4]. unfold begin_apply. rewrite usersByID_userMap.
  destruct (negb (running e)); [by constructor|]. destruct (dataPlaneNodeEqual _ _) eqn:Hd; [|by constructor].
  constructor; try done. by apply phase_start.
Qed.

Lemma on_the_way_other a k e' : on_the_way a → interferes (ap_engine a) k e' → on_the_way (with_apply_engine e' a).
Proof using Type.
  intros [H1 H2 H3 H4 H5 H6] (E1 & E2 & E3 & E4)%interference_keeps.
  constructor; cbn [with_apply_engine ap_next ap_engine ap_pc]; by rewrite ?E1, ?E2, ?E3, ?E4.
Qed.

Lemma on_the_way_own a : on_the_way a → on_the_way (apply_step a).
Proof using Ha Hnext.
  destruct Ha as [_ _ _ [Uold Cold]], Hnext as [Unew Cnew].
  destruct a as [nx f pc]. intros [H1 Hl Ht Hus Hno Hs]. cbn [ap_next ap_engine ap_pc] in *. subst nx.
  unfold apply_step. cbn [ap_next ap_engine ap_pc].
  destruct (is_finished pc) eqn:Hf; [by destruct pc|]. destruct (Hs eq_refl) as [Es Hd].
  destruct (dataPlane_identity _ _ Hd) as [Eid Eflow].
  assert (Cnew' : compatible (snap_Node (snapshot e)) (in_users (snap_Users next))) by (by eapply compatible_node; [..|exact Cnew]).
  destruct pc as [[|u todo] add removed|[|u todo] removed added|[|u todo] removed cause err|[|u todo] cause err| |revoked cbs|res];
    cbn [apply_action]; rewrite ?Es.
  - destruct (phase_removed _ _ _ _ _ _ Hl Ht) as [Hl' Ht']. by constructor.
  - destruct (phase_remove _ _ _ Uold Unew Cold _ _ _ _ _ Hl Ht) as (v & -> & Ht'). constructor; try done.
    destruct Hl as [-> E]. split; [done|]. by rewrite <- (assoc_L (++)%list).
  - constructor; try done. by apply (phase_added _ _ _ Uold Unew _ _ _ Hl Ht).
  - rewrite <- (AddUser_same _ _ _ _ Eid Eflow).
    destruct (phase_add _ _ _ Uold Unew Cnew' _ _ _ _ _ Hl Ht) as [(v & -> & Ht')|(x & ->)].
    + constructor; try done. destruct Hl as [-> E]. split; [done|]. by rewrite <- (assoc_L (++)%list).
    + constructor; try done. destruct Hl as [-> E]. split; [done|]. split; [done|]. by exists [], (u :: todo).
  - destruct (phase_undone _ _ _ _ _ _ _ Hl Ht) as [Hl' Ht']. by constructor.
  - destruct (phase_undo_added _ _ _ Uold Unew Cnew' _ _ _ _ _ _ Hl Ht) as (v & -> & Ht'). cbn [join_err].
    constructor; try done. destruct Hl as (-> & -> & l1 & l2 & E). split; [done|]. split; [done|].
    exists (l1 ++ [u])%list, l2. by rewrite <- (assoc_L (++)%list).
  - constructor; try done. by apply (phase_restored _ _ _ Uold Unew _ _ _ Hl Ht).
  - destruct (phase_undo_removed _ _ _ Uold Unew Cold _ _ _ _ _ Hl (h_valid _ _ _ (al_step _ Ha)) Ht) as (v & -> & Ht').
    cbn [join_err]. constructor; try done. destruct Hl as (-> & l & E). split; [done|].
    exists (l ++ [u])%list. by rewrite <- (assoc_L (++)%list).
  - destruct (Update (registry f) next) as [[[r cbs] revoked]|x|] eqn:Hup.
    + apply Update_inv in Hup as [_ Er]. constructor; try done; cbn; rewrite Er; [done|]. by cbn; rewrite Eid.
    + by apply Update_no_err in Hup.
    + by constructor.
  - by constructor.
  - done.
Qed.

Lemma on_the_way_steps a k b : on_the_way a → asteps a k b → on_the_way b.
Proof using Ha Hnext.
  intros H0. induction 1 as [|m a1 k a2 _ IH Hstep]; [done|].
  destruct Hstep as [|k e' Hi]; [by apply on_the_way_own|by eapply on_the_way_other].
Qed.

Lemma on_the_way_all k a : asteps (begin_apply next e) k a → on_the_way a.
Proof using Ha Hnext. apply on_the_way_steps, on_the_way_begin. Qed.
End OnTheWay.

Lemma ValidatorGet_present n P v id mu : holds n P v →
  (ValidatorGet id v = Some mu ↔ ∃ u, P u ∧ memoryUser n u = Ok mu ∧ credential u id).
Proof.
  intros [_ _ H]. unfold ValidatorGet, credential. rewrite H. split; intros (u & Hu & Em & E); exists u; (split; [done|]; split; [done|]).
  - by rewrite (proj1 (memoryUser_Ok _ _ _ Em)), E.
  - rewrite (proj1 (memoryUser_Ok _ _ _ Em)) in E. by injection E as ->.
Qed.

Lemma ReadFullFrom_Clear k st st' : ReadFullFrom k (Clear st) = Some st' → rd_buffer st' = take_chars (Z.to_nat k) (rd_input st).
Proof.
  unfold ReadFullFrom, Clear. cbn [rd_buffer rd_input]. destruct (8192 <? _); [done|]. destruct (_ <? k); [done|].
  by intros [= <-].
Qed.

Lemma acceptRequest_table Unmarshal v w inb first more :
  ValidatorGet (bytes_of (take_chars 16 (drop_chars 1 (first +:+ more)))) v =
    ValidatorGet (bytes_of (take_chars 16 (drop_chars 1 (first +:+ more)))) w →
  acceptRequest Unmarshal v inb first more = acceptRequest Unmarshal w inb first more.
Proof.
  intros E. unfold acceptRequest, DecodeRequestHeader. destruct (read_byte _) as [[st version]|] eqn:Hb; [|done].
  cbn [or_err obind]. destruct (guard_err (negb (version =? 0)) _); [|done..]. cbn [obind].
  destruct (ReadFullFrom 16 (Clear st)) as [st1|] eqn:Hr; [|done]. cbn [or_err obind].
  apply read_byte_inv in Hb as (c & Hin & _ & _). cbn [rd_input] in Hin. rewrite Hin in E.
  cbn [drop_chars] in E. rewrite (ReadFullFrom_Clear _ _ _ Hr). change (Z.to_nat 16) with 16%nat. by rewrite E.
Qed.

(** the UUID that a request carries *)
Definition request_id (first more : string) : list Z := bytes_of (take_chars 16 (drop_chars 1 (first +:+ more))).

(** C5: A switch never opens the door wider. While Apply replaces users one after the
    other, or takes them back, a request is let through only for the credential of a
    user of the old or of the new snapshot; and whatever moment it is let through at,
    and at whatever later moment its session is opened, the session is of that user's id,
    the id has a user in the snapshot that the registry works with at that moment, and
    that user's policy permits the target. *)
Theorem switch_admits_old_or_new Unmarshal e next k a inb first more acc :
  live e → identified next → asteps (begin_apply next e) k a → in_Tag inb = inboundTag →
  acceptRequest Unmarshal (table (ap_engine a)) inb first more = Ok acc →
  ∃ s u, (s = snapshot e ∨ s = next) ∧ u ∈ snap_Users s ∧ credential u (request_id first more) ∧
    ∀ j b lookup c' inb' target lease, asteps a j b → resolver_ok lookup →
      DispatchLink (Some (registry (ap_engine b))) lookup (Some (ac_inbound acc)) (ac_target acc) = (c', inb', Ok (target, lease)) →
      ∃ r' id l n w, c' = Some r' ∧ lease = Some id ∧ sessions r' !! id = Some l ∧ l_revoked l = false ∧
        l_userID l = user_ID u ∧ w ∈ snap_Users (in_force e next (ap_pc b)) ∧ user_ID w = user_ID u ∧
        netip_of (dst_Address target) = Some n ∧ IPBlocked (user_ForbiddenIPs w) (addr_string n) = false ∧
        PortBlocked (user_ForbiddenPorts w) (dst_Port target) = false.
Proof.
  intros Ha%live_aligned Hnext Hsteps Htag (mu & Hget & Huser & Htag' & _ & Hwire & Hid)%acceptRequest_inv.
  pose proof (on_the_way_all e next Ha Hnext k a Hsteps) as Hway.
  pose proof Ha as [_ _ Hnode [Uold Cold]]. pose proof Hnext as [Unew Cnew]. rewrite Hid in Hget.
  apply (ValidatorGet_present _ _ _ _ _ (ow_table _ _ _ Hway)) in Hget as (u & Hu & Em & Hc).
  assert (Hin : ∃ s, (s = snapshot e ∨ s = next) ∧ u ∈ snap_Users s ∧ is_int64 (user_ID u) = true).
  { destruct (present_users _ _ Uold Unew _ _ (ow_lists _ _ _ Hway) Hu) as [H|H];
      [exists (snapshot e)|exists next]; (split; [by auto|]; split; [exact H|]); [by apply Cold|by apply Cnew]. }
  destruct Hin as (s & Hs & Hin & Hint'). exists s, u. split; [done|]. split; [done|]. split; [done|].
  intros j b lookup c' inb' target lease Hb Hlookup. unfold DispatchLink. destruct (bool_decide _); [done|].
  pose proof (on_the_way_steps e next Ha Hnext a j b Hway Hb) as Hway'.
  intros (r' & id & l & user & n & -> & -> & Eu & Hl & Hr & Hus & Hint & Hmail & Hport & _ & _ & Hn & Hip & Hpb & _)
    %openControlledSession_permits; [|done|by rewrite Htag'|done].
  rewrite Huser, (proj2 (memoryUser_Ok _ _ _ Em)), (ow_node _ _ _ Hway') in Hmail. apply (inj Some) in Hmail.
  assert (E : user_ID u = l_userID l) by (by eapply UserEmail_inj).
  rewrite Eu, (ow_users _ _ _ Hway'), <- E in Hus. apply lookup_userMap_Some in Hus as [Hw Hw'].
  exists r', id, l, n, user. by rewrite Hport.
Qed.

(** C16: A switch locks nobody out. A user who has the same UUID in the old and in the new
    snapshot is let through at every moment of the switch, and of its rollback, exactly
    as before it. *)
Theorem switch_locks_nobody_out Unmarshal e next k a inb first more acc u :
  live e → identified next → asteps (begin_apply next e) k a →
  u ∈ snap_Users (snapshot e) → counterpart (snap_Users next) u → credential u (request_id first more) →
  acceptRequest Unmarshal (table e) inb first more = Ok acc →
  acceptRequest Unmarshal (table (ap_engine a)) inb first more = Ok acc.
Proof.
  intros Ha%live_aligned Hnext Hsteps Hu Hstay Hc Hacc. rewrite <- Hacc. apply acceptRequest_table.
  pose proof (on_the_way_all e next Ha Hnext k a Hsteps) as Hway. fold (request_id first more).
  pose proof Ha as [Hstep _ _ [Uold Cold]]. pose proof Hnext as [Unew _].
  destruct (h_valid _ _ _ Hstep u Hu) as [mu Em].
  assert (Hk : kept (snap_Users (snapshot e)) (snap_Users next) u) by (by apply kept_spec).
  destruct (present_stays (snap_Node (snapshot e)) _ _ Uold Unew _ _ (ow_lists _ _ _ Hway) Hk) as (w & Hw & Ew).
  transitivity (Some mu); [|symmetry].
  - apply (ValidatorGet_present _ _ _ _ _ (ow_table _ _ _ Hway)). exists w. rewrite Ew. split; [done|]. split; [done|].
    unfold credential in *. rewrite Em in Ew. rewrite (proj1 (memoryUser_Ok _ _ _ Ew)), <- (proj1 (memoryUser_Ok _ _ _ Em)). done.
  - apply (ValidatorGet_present _ _ _ _ _ Hstep). by exists u.
Qed.

(** ** Witnesses: the UUID of user 5 is replaced while clients come and go *)
Definition s_begin : Applying := begin_apply w_rotated w_engine.
(** user 5 is out of the table, and not yet in it again *)
Definition s_removed : Applying := run_apply 1 s_begin.
Definition s_switched : Applying := run_apply 6 s_begin.

Lemma asteps_run m a : asteps a 0 (run_apply m a).
Proof.
  induction m as [|m IH]; [apply as_done|]. rewrite run_apply_S. change 0 with (0 + 0). by eapply as_more; [|apply as_own].
Qed.
Lemma asteps_trans a j b k c : asteps a j b → asteps b k c → asteps a (j + k) c.
Proof.
  intros H1 H2. revert H1. induction H2 as [|m c k c' _ IH Hstep]; intros H1; [by rewrite Z.add_0_r|].
  rewrite Z.add_assoc. by eapply as_more; [apply IH|].
Qed.

Lemma s_switching : asteps s_begin 0 s_switched.
Proof. unfold s_switched. apply asteps_run. Qed.
Lemma s_removing : asteps s_begin 0 s_removed.
Proof. unfold s_removed. apply asteps_run. Qed.

Lemma s_accepted' : acceptRequest w_addons (table (ap_engine s_begin)) w_inbound (vless_request w_id5 w_tcp) EmptyString = Ok w_direct.
Proof. vm_compute. reflexivity. Qed.

(** what a dispatch through [r] opened *)
Definition opened_for (uid : Z) (r : option Registry) : bool :=
  match r with
  | Some r => match sessions r !! 1 with Some l => (l_userID l =? uid) && negb (l_revoked l) | None => false end
  | None => false
  end.
Lemma dispatched (x : option Registry * option Inbound * outcome string (Destination * option Z)) uid d :
  x.2 = Ok (d, Some 1) → opened_for uid x.1.1 = true →
  ∃ r i l, x = (Some r, i, Ok (d, Some 1)) ∧ sessions r !! 1 = Some l ∧ l_userID l = uid ∧ l_revoked l = false.
Proof.
  destruct x as [[[r|] i] o]; cbn; [|done]. intros -> H. destruct (sessions r !! 1) as [l|] eqn:E; [|done].
  apply andb_prop in H as [H1%Z.eqb_eq H2%negb_true_iff]. by exists r, i, l.
Qed.
Lemma s_dispatched : ∃ r i l,
  DispatchLink (Some (registry (ap_engine s_switched))) demoDNS (Some (ac_inbound w_direct)) (ac_target w_direct) =
    (Some r, i, Ok (ac_target w_direct, Some 1)) ∧ sessions r !! 1 = Some l ∧ l_userID l = 5 ∧ l_revoked l = false.
Proof. apply dispatched; vm_compute; reflexivity. Qed.
Lemma s_accepted : acceptRequest w_addons (table w_engine) w_inbound (vless_request w_id5 w_tcp) EmptyString = Ok w_direct.
Proof. vm_compute. reflexivity. Qed.

Lemma switch_admits_old_or_new_witness :
  ap_pc s_switched = Finished (Ok ([5], [])) ∧ ∃ r i l,
  DispatchLink (Some (registry (ap_engine s_switched))) demoDNS (Some (ac_inbound w_direct)) (ac_target w_direct) =
    (Some r, i, Ok (ac_target w_direct, Some 1)) ∧ sessions r !! 1 = Some l ∧ l_revoked l = false.
Proof.
  split; [vm_compute; reflexivity|]. destruct s_dispatched as (r & i & _ & E & _).
  destruct (switch_admits_old_or_new w_addons w_engine w_rotated 0 s_begin w_inbound (vless_request w_id5 w_tcp) EmptyString
    w_direct w_live (proj2 w_identified) (as_done _) eq_refl s_accepted') as (s & u & Hs & Hu & Hc & H).
  destruct (H 0 s_switched demoDNS (Some r) i (ac_target w_direct) (Some 1) s_switching demoDNS_ok E)
    as (r' & id & l & n & w & Hr & Hid & Hl & Hrev & _).
  injection Hr as <-. injection Hid as <-. exists r, i, l. split; [exact E|]. split; [exact Hl|exact Hrev].
Defined.

Lemma switch_locks_nobody_out_witness : ∃ acc,
  w_accepted (table w_engine) (bytes [210; 183; 217; 81; 61; 84; 63; 35; 171; 184; 247; 82; 227; 54; 179; 205]%nat) w_tcp = Ok acc ∧
  w_accepted (table (ap_engine s_removed)) (bytes [210; 183; 217; 81; 61; 84; 63; 35; 171; 184; 247; 82; 227; 54; 179; 205]%nat) w_tcp = Ok acc ∧
  w_accepted (table (ap_engine s_removed)) w_id5 w_tcp = Err "invalid request user id".
Proof.
  set (id := bytes [210; 183; 217; 81; 61; 84; 63; 35; 171; 184; 247; 82; 227; 54; 179; 205]%nat).
  assert (E : w_accepted (table w_engine) id w_tcp = Ok (mkAccepted
    (mkInbound inboundTag (Some "sspanel-node-7-user-2") (Some (ipv4Address 3405803777)) 2)
    (mkDestination (ipv4Address 3325256705) 443 Network_TCP) (bytes_of id) false)) by (vm_compute; reflexivity).
  eexists. split; [exact E|]. split; [|vm_compute; reflexivity].
  assert (Hold : w_user2 ∈ snap_Users (snapshot w_engine)) by left.
  assert (Hstay : counterpart (snap_Users w_rotated) w_user2) by (exists w_user2; split; [left|split; reflexivity]).
  assert (Hc : credential w_user2 (request_id (vless_request id w_tcp) EmptyString)) by (vm_compute; reflexivity).
  exact (switch_locks_nobody_out w_addons w_engine w_rotated 0 s_removed w_inbound (vless_request id w_tcp) EmptyString _ w_user2
    w_live (proj2 w_identified) s_removing Hold Hstay Hc E).
Defined.

(** user 5 counts seven bytes between his removal and the update *)
Definition s_open : Applying := run_apply 1 (begin_apply w_rotated w_opened).
Definition s_counted : Applying := with_apply_engine (count_traffic 5 "uplink" 7 (ap_engine s_open)) s_open.
Definition s_ended : Applying := run_apply 5 s_counted.
Lemma s_run : asteps (begin_apply w_rotated w_opened) 7 s_ended.
Proof.
  change 7 with (0 + 7 + 0). apply (asteps_trans _ _ s_counted); [|apply asteps_run].
  apply (as_more _ 0 s_open 7); [apply asteps_run|]. apply as_other.
  eexists. apply in_traffic; [by vm_compute|by left|done|by vm_compute].
Qed.

Lemma apply_takes_effect_at_once_witness : live (ap_engine s_ended) ∧ outstanding (ap_engine s_ended) = 7.
Proof.
  assert (E : ap_pc s_ended = Finished (Ok ([5], []))) by (vm_compute; reflexivity).
  destruct (apply_takes_effect_at_once w_rotated w_opened 7 s_ended (Ok ([5], [])) s_run E) as [_ H].
  split; [|vm_compute; reflexivity]. apply H; [|exact (proj2 w_identified)|discriminate].
  exact (live_open _ w_prepared w_live).
Defined.

(** C21: The session that is opened late. A connection that was let through with the old
    UUID just before the switch, and is dispatched just after it, opens a session that
    the update could not revoke: the old UUID is refused from then on, and the session
    that it authorized stays. *)
Theorem late_session_outlives_its_uuid :
  ∃ e next a rest acc target c' inb' id l u old,
    live e ∧ identified next ∧ asteps (begin_apply next e) 0 a ∧ (∃ res, ap_pc a = Finished (Ok res)) ∧
    u ∈ snap_Users (snapshot e) ∧ credential u (bytes_of old) ∧ (∀ v, v ∈ snap_Users next → ¬ credential v (bytes_of old)) ∧
    acceptRequest w_addons (table e) w_inbound (vless_request old rest) EmptyString = Ok acc ∧
    acceptRequest w_addons (table (ap_engine a)) w_inbound (vless_request old rest) EmptyString = Err "invalid request user id" ∧
    DispatchLink (Some (registry (ap_engine a))) demoDNS (Some (ac_inbound acc)) (ac_target acc) = (Some c', inb', Ok (target, Some id)) ∧
    sessions c' !! id = Some l ∧ l_userID l = user_ID u ∧ l_revoked l = false.
Proof.
  assert (Hgone : ∀ v, v ∈ snap_Users w_rotated → ¬ credential v (bytes_of w_id5)).
  { intros v Hv. repeat (apply elem_of_cons in Hv as [->|Hv]; [by vm_compute|]). by apply not_elem_of_nil in Hv. }
  assert (Hr : acceptRequest w_addons (table (ap_engine s_switched)) w_inbound (vless_request w_id5 w_tcp) EmptyString =
    Err "invalid request user id") by (vm_compute; reflexivity).
  destruct s_dispatched as (r & i & l & E & Hl1 & Hl2 & Hl3).
  assert (Hold : w_user5 ∈ snap_Users (snapshot w_engine)) by (right; left).
  assert (C5 : credential w_user5 (bytes_of w_id5)) by (vm_compute; reflexivity).
  assert (Hf : ap_pc s_switched = Finished (Ok ([5], []))) by (vm_compute; reflexivity).
  exists w_engine, w_rotated, s_switched, w_tcp, w_direct, (ac_target w_direct), r, i, 1, l, w_user5, w_id5.
  split; [exact w_live|]. split; [exact (proj2 w_identified)|]. split; [exact s_switching|].
  split; [exists ([5], []); exact Hf|]. split; [exact Hold|]. split; [exact C5|].
  split; [exact Hgone|].
  split; [exact s_accepted|]. split; [exact Hr|]. split; [exact E|].
  split; [exact Hl1|]. split; [exact Hl2|exact Hl3].
Qed.
