(* ===== verification/ConfigLoad.v ===== *)
(** Package [internal/config]: reading the configuration file and the secrets.
    There are two passes over the text: the walk over its tokens that looks for
    repeated keys, and the decoder. Both read one value and look at what is behind
    it, so both work on the value that the text starts with and on the rest. *)
From S2P Require Import Prelude GoString Json Netip Config Outbox BatchText.

Local Open Scope string_scope.
Local Open Scope Z_scope.

(** the next value of a decoder over the text, and the rest *)
Definition next_value (s : string) : option (json * string) := read_value (S (String.length s)) 0 s.

(** the next token, when no value is open: the start of an array or object, or a value *)
Definition next_token (s : string) : bool :=
  match skip_space s with
  | String "[" _ | String "{" _ => true
  | _ => bool_decide (is_Some (next_value s))
  end.

(** ** rejectDuplicateKeys *)
Fixpoint repeats (l : list string) : bool :=
  match l with [] => false | k :: l => existsb (String.eqb k) l || repeats l end.
Fixpoint duplicate_keys (j : json) : bool :=
  match j with
  | JArray l => existsb duplicate_keys l
  | JObject l => repeats (map fst l) || existsb (λ p, duplicate_keys p.2) l
  | _ => false
  end.
Definition rejectDuplicateKeys (text : string) : outcome string unit :=
  match next_value text with
  | None => Err "inspect config"
  | Some (j, rest) =>
      guard_err (duplicate_keys j) "inspect config: duplicate config key" ;?
      if String.eqb (skip_space rest) EmptyString then Ok tt
      else Err (if next_token rest then "config contains multiple JSON values" else "invalid character")
  end.

(** ensureEOF, of the text that the decoder has not read *)
Definition ensureEOF (rest : string) : outcome string unit :=
  if String.eqb (skip_space rest) EmptyString then Ok tt
  else Err (match next_value rest with
            | Some _ => "config contains multiple JSON values"
            | None => "decode trailing config"
            end).

(** both passes accept the texts of one value with space around it *)
Lemma read_next text j : read text = Some j ↔ ∃ rest, next_value text = Some (j, rest) ∧ skip_space rest = EmptyString.
Proof.
  unfold read. fold (next_value text). destruct (next_value text) as [[k rest]|]; cbn [mbind option_bind].
  - destruct (skip_space rest) eqn:E.
    + split; [intros [= <-]; by exists rest|by intros (? & [= <- <-] & _)].
    + split; [done|]. intros (? & [= _ <-] & ?). congruence.
  - split; [done|by intros (? & ? & _)].
Qed.

(** ** Decoding *)
Definition set_database (key : string) (j : json) (d : DatabaseConfig) : option DatabaseConfig :=
  let '(mkDatabaseConfig address name username password tls ca server max_open max_idle) := d in
  if same_field key "address" then
    s ← decode_string address j; Some (mkDatabaseConfig s name username password tls ca server max_open max_idle)
  else if same_field key "name" then
    s ← decode_string name j; Some (mkDatabaseConfig address s username password tls ca server max_open max_idle)
  else if same_field key "username" then
    s ← decode_string username j; Some (mkDatabaseConfig address name s password tls ca server max_open max_idle)
  else if same_field key "password_file" then
    s ← decode_string password j; Some (mkDatabaseConfig address name username s tls ca server max_open max_idle)
  else if same_field key "tls_mode" then
    s ← decode_string tls j; Some (mkDatabaseConfig address name username password s ca server max_open max_idle)
  else if same_field key "ca_file" then
    s ← decode_string ca j; Some (mkDatabaseConfig address name username password tls s server max_open max_idle)
  else if same_field key "server_name" then
    s ← decode_string server j; Some (mkDatabaseConfig address name username password tls ca s max_open max_idle)
  else if same_field key "max_open" then
    z ← decode_int max_open j; Some (mkDatabaseConfig address name username password tls ca server z max_idle)
  else if same_field key "max_idle" then
    z ← decode_int max_idle j; Some (mkDatabaseConfig address name username password tls ca server max_open z)
  else None.

Definition set_intervals (key : string) (j : json) (i : Intervals) : option Intervals :=
  let '(mkIntervals refresh report stale shutdown) := i in
  if same_field key "auth_refresh_seconds" then z ← decode_int refresh j; Some (mkIntervals z report stale shutdown)
  else if same_field key "report_seconds" then z ← decode_int report j; Some (mkIntervals refresh z stale shutdown)
  else if same_field key "auth_stale_seconds" then z ← decode_int stale j; Some (mkIntervals refresh report z shutdown)
  else if same_field key "shutdown_seconds" then z ← decode_int shutdown j; Some (mkIntervals refresh report stale z)
  else None.

Definition set_limits (key : string) (j : json) (l : Limits) : option Limits :=
  let '(mkLimits tcpUser tcpGlobal shakes xudpUser xudpGlobal dns) := l in
  if same_field key "tcp_per_user" then z ← decode_int tcpUser j; Some (mkLimits z tcpGlobal shakes xudpUser xudpGlobal dns)
  else if same_field key "tcp_global" then z ← decode_int tcpGlobal j; Some (mkLimits tcpUser z shakes xudpUser xudpGlobal dns)
  else if same_field key "concurrent_handshakes" then z ← decode_int shakes j; Some (mkLimits tcpUser tcpGlobal z xudpUser xudpGlobal dns)
  else if same_field key "xudp_per_user" then z ← decode_int xudpUser j; Some (mkLimits tcpUser tcpGlobal shakes z xudpGlobal dns)
  else if same_field key "xudp_global" then z ← decode_int xudpGlobal j; Some (mkLimits tcpUser tcpGlobal shakes xudpUser z dns)
  else if same_field key "dns_resolve_timeout_seconds" then z ← decode_int dns j; Some (mkLimits tcpUser tcpGlobal shakes xudpUser xudpGlobal z)
  else None.

Definition set_config (key : string) (j : json) (c : Config) : option Config :=
  let '(mkConfig node listen state keyFile database intervals limits outbox level) := c in
  if same_field key "node_id" then
    z ← decode_int node j; Some (mkConfig z listen state keyFile database intervals limits outbox level)
  else if same_field key "listen" then
    s ← decode_string listen j; Some (mkConfig node s state keyFile database intervals limits outbox level)
  else if same_field key "state_dir" then
    s ← decode_string state j; Some (mkConfig node listen s keyFile database intervals limits outbox level)
  else if same_field key "reality_private_key_file" then
    s ← decode_string keyFile j; Some (mkConfig node listen state s database intervals limits outbox level)
  else if same_field key "database" then
    d ← decode_object set_database j database; Some (mkConfig node listen state keyFile d intervals limits outbox level)
  else if same_field key "intervals" then
    i ← decode_object set_intervals j intervals; Some (mkConfig node listen state keyFile database i limits outbox level)
  else if same_field key "limits" then
    l ← decode_object set_limits j limits; Some (mkConfig node listen state keyFile database intervals l outbox level)
  else if same_field key "outbox_max_bytes" then
    z ← decode_int outbox j; Some (mkConfig node listen state keyFile database intervals limits z level)
  else if same_field key "log_level" then
    s ← decode_string level j; Some (mkConfig node listen state keyFile database intervals limits outbox s)
  else None.

Definition zero_config : Config :=
  mkConfig 0 EmptyString EmptyString EmptyString
    (mkDatabaseConfig EmptyString EmptyString EmptyString EmptyString EmptyString EmptyString EmptyString 0 0)
    (mkIntervals 0 0 0 0) (mkLimits 0 0 0 0 0 0) 0 EmptyString.

(** Decode into a zero configuration: the configuration, and what is left to read *)
Definition decode_config (text : string) : option (Config * string) :=
  '(j, rest) ← next_value text; c ← decode_object set_config j zero_config; Some (c, rest).

(** Load, of the contents of the file if it could be read *)
Definition Load (file : option string) : outcome string Config :=
  match file with
  | None => Err "read config"
  | Some data =>
      rejectDuplicateKeys data ;?
      match decode_config data with
      | None => Err "decode config"
      | Some (cfg, rest) => ensureEOF rest ;? let cfg := defaults cfg in let? _ := Validate cfg in Ok cfg
      end
  end.

(** ** Secrets *)
Record FileInfo : Type := mkFileInfo {
  fi_kind : FileKind;
  fi_perm : Z;
  fi_uid : Z;
  fi_data : string }.

(** ReadSecret of a path that [info] describes, as the user [euid] *)
Definition ReadSecret (info : option FileInfo) (euid : Z) (read_fails : bool) : outcome string string :=
  match info with
  | None => Err "inspect secret file"
  | Some f =>
      guard_err (negb (bool_decide (fi_kind f = Regular))) "secret path must be a regular file and not a symlink" ;?
      guard_err (negb (Z.land (fi_perm f) 63 =? 0)) "secret file must not be accessible by group or others" ;?
      guard_err (negb (fi_uid f =? euid)) "secret file must be owned by the running UID" ;?
      guard_err read_fails "read secret file" ;?
      let data := trim_space (fi_data f) in
      guard_err (slen data =? 0) "secret file is empty" ;?
      Ok data
  end.

(** ** What loading guarantees *)

(** the text form of a configuration *)
Definition database_json (d : DatabaseConfig) : json :=
  JObject [("address", JString (db_Address d)); ("name", JString (db_Name d)); ("username", JString (db_Username d));
           ("password_file", JString (db_PasswordFile d)); ("tls_mode", JString (db_TLSMode d));
           ("ca_file", JString (db_CAFile d)); ("server_name", JString (db_ServerName d));
           ("max_open", int_json (db_MaxOpen d)); ("max_idle", int_json (db_MaxIdle d))].
Definition intervals_json (i : Intervals) : json :=
  JObject [("auth_refresh_seconds", int_json (AuthRefreshSeconds i)); ("report_seconds", int_json (ReportSeconds i));
           ("auth_stale_seconds", int_json (AuthStaleSeconds i)); ("shutdown_seconds", int_json (ShutdownSeconds i))].
Definition limits_json (l : Limits) : json :=
  JObject [("tcp_per_user", int_json (TCPPerUser l)); ("tcp_global", int_json (TCPGlobal l));
           ("concurrent_handshakes", int_json (ConcurrentHandshakes l)); ("xudp_per_user", int_json (XUDPPerUser l));
           ("xudp_global", int_json (XUDPGlobal l)); ("dns_resolve_timeout_seconds", int_json (DNSResolveTimeoutSeconds l))].
Definition config_file_json (c : Config) : json :=
  JObject [("node_id", int_json (cfg_NodeID c)); ("listen", JString (cfg_Listen c)); ("state_dir", JString (cfg_StateDir c));
           ("reality_private_key_file", JString (cfg_RealityPrivateKeyFile c)); ("database", database_json (cfg_Database c));
           ("intervals", intervals_json (cfg_Intervals c)); ("limits", limits_json (cfg_Limits c));
           ("outbox_max_bytes", int_json (cfg_OutboxMaxBytes c)); ("log_level", JString (cfg_LogLevel c))].

(** the numbers of a configuration, and its texts *)
Definition config_ints (c : Config) : list Z :=
  let d := cfg_Database c in let i := cfg_Intervals c in let l := cfg_Limits c in
  [cfg_NodeID c; db_MaxOpen d; db_MaxIdle d; AuthRefreshSeconds i; ReportSeconds i; AuthStaleSeconds i; ShutdownSeconds i;
   TCPPerUser l; TCPGlobal l; ConcurrentHandshakes l; XUDPPerUser l; XUDPGlobal l; DNSResolveTimeoutSeconds l;
   cfg_OutboxMaxBytes c].
Definition config_texts (c : Config) : list string :=
  let d := cfg_Database c in
  [cfg_Listen c; cfg_StateDir c; cfg_RealityPrivateKeyFile c; db_Address d; db_Name d; db_Username d; db_PasswordFile d;
   db_TLSMode d; db_CAFile d; db_ServerName d; cfg_LogLevel c].
Definition typed_ints (l : list Z) : bool := forallb is_int64 l.

(** *** Types: every number of a loaded configuration fits its field *)
Lemma decode_int_typed old j z : is_int64 old = true → decode_int old j = Some z → is_int64 z = true.
Proof.
  intros Hold. destruct j; cbn [decode_int]; try done; [by intros [= <-]|]. apply parse_int_range.
Qed.

Lemma decode_members_inv {A} (set : string → json → A → option A) (P : A → Prop) :
  (∀ key j a a', P a → set key j a = Some a' → P a') →
  ∀ l a a', P a → decode_members set l a = Some a' → P a'.
Proof.
  intros Hset. induction l as [|[key j] l IH]; intros a a' Ha; cbn [decode_members]; [by intros [= <-]|].
  destruct (set key j a) as [a1|] eqn:E; [|done]. cbn [mbind option_bind]. apply IH. by eapply Hset.
Qed.

Lemma decode_object_inv {A} (set : string → json → A → option A) (P : A → Prop) :
  (∀ key j a a', P a → set key j a = Some a' → P a') →
  ∀ j a a', P a → decode_object set j a = Some a' → P a'.
Proof.
  intros Hset j a a' Ha. destruct j; cbn [decode_object]; try done; [by intros [= <-]|].
  by apply (decode_members_inv set P).
Qed.

(** every branch of a setter puts one decoded field into the record *)
Ltac typed_setter H :=
  repeat match type of H with
  | (if ?b then _ else _) = Some _ => destruct b
  | mbind _ (decode_int ?old ?j) = Some _ =>
      let E := fresh in destruct (decode_int old j) eqn:E; [apply decode_int_typed in E; [|done]|discriminate H]
  | mbind _ (decode_string ?old ?j) = Some _ => destruct (decode_string old j); [|discriminate H]
  | mbind _ (Some _) = Some _ => cbn [mbind option_bind] in H
  end; first [discriminate H | injection H as <-; cbn in *; tauto].

Definition database_ints (d : DatabaseConfig) : Prop := is_int64 (db_MaxOpen d) = true ∧ is_int64 (db_MaxIdle d) = true.
Definition intervals_ints (i : Intervals) : Prop :=
  is_int64 (AuthRefreshSeconds i) = true ∧ is_int64 (ReportSeconds i) = true ∧ is_int64 (AuthStaleSeconds i) = true ∧
  is_int64 (ShutdownSeconds i) = true.
Definition limits_ints (l : Limits) : Prop :=
  is_int64 (TCPPerUser l) = true ∧ is_int64 (TCPGlobal l) = true ∧ is_int64 (ConcurrentHandshakes l) = true ∧
  is_int64 (XUDPPerUser l) = true ∧ is_int64 (XUDPGlobal l) = true ∧ is_int64 (DNSResolveTimeoutSeconds l) = true.
Definition config_typed (c : Config) : Prop :=
  is_int64 (cfg_NodeID c) = true ∧ is_int64 (cfg_OutboxMaxBytes c) = true ∧ database_ints (cfg_Database c) ∧
  intervals_ints (cfg_Intervals c) ∧ limits_ints (cfg_Limits c).

Lemma set_database_typed key j d d' : database_ints d → set_database key j d = Some d' → database_ints d'.
Proof. destruct d. unfold set_database, database_ints. intros (? & ?) Hset. cbn in *. typed_setter Hset. Qed.
Lemma set_intervals_typed key j i i' : intervals_ints i → set_intervals key j i = Some i' → intervals_ints i'.
Proof. destruct i. unfold set_intervals, intervals_ints. intros (? & ? & ? & ?) Hset. cbn in *. typed_setter Hset. Qed.
Lemma set_limits_typed key j l l' : limits_ints l → set_limits key j l = Some l' → limits_ints l'.
Proof. destruct l. unfold set_limits, limits_ints. intros (? & ? & ? & ? & ? & ?) Hset. cbn in *. typed_setter Hset. Qed.
Lemma set_config_typed key j c c' : config_typed c → set_config key j c = Some c' → config_typed c'.
Proof.
  destruct c as [node listen state keyFile database intervals limits outbox level].
  unfold set_config, config_typed. cbn. intros (H1 & H2 & H3 & H4 & H5) Hset.
  repeat match type of Hset with
  | (if ?b then _ else _) = Some _ => destruct b
  | (_ ← decode_object set_database j database; _) = Some _ =>
      destruct (decode_object set_database j database) as [d|] eqn:E; [|discriminate Hset];
      apply (decode_object_inv _ database_ints set_database_typed) in E; [|done]
  | (_ ← decode_object set_intervals j intervals; _) = Some _ =>
      destruct (decode_object set_intervals j intervals) as [i|] eqn:E; [|discriminate Hset];
      apply (decode_object_inv _ intervals_ints set_intervals_typed) in E; [|done]
  | (_ ← decode_object set_limits j limits; _) = Some _ =>
      destruct (decode_object set_limits j limits) as [l|] eqn:E; [|discriminate Hset];
      apply (decode_object_inv _ limits_ints set_limits_typed) in E; [|done]
  end; typed_setter Hset.
Qed.

Lemma or_default_typed d n : is_int64 d = true → is_int64 n = true → is_int64 (or_default d n) = true.
Proof. intros ? ?. unfold or_default. by destruct (n =? 0). Qed.

Lemma defaults_typed c : config_typed c → config_typed (defaults c).
Proof.
  unfold config_typed, database_ints, intervals_ints, limits_ints. cbn.
  intros (? & ? & [? ?] & (? & ? & ? & ?) & (? & ? & ? & ? & ? & ?)).
  split_and!; first [done | by apply or_default_typed].
Qed.

(** C36: Loading yields well-typed configurations only: it fails, or the text is one
    JSON value without a repeated key in any object, the defaults are filled in, the
    result validates, and every one of its numbers fits the integer type of its field. *)
Theorem loaded_config_is_typed file c : Load file = Ok c →
  config_typed c ∧ Validate c = Ok tt ∧
  ∃ text j c0, file = Some text ∧ read text = Some j ∧ duplicate_keys j = false ∧
    decode_object set_config j zero_config = Some c0 ∧ c = defaults c0.
Proof.
  unfold Load. destruct file as [text|]; [|done]. unfold rejectDuplicateKeys, decode_config.
  destruct (next_value text) as [[j rest]|] eqn:Hnext; [|done].
  intros ([] & [Hdup Hend]%guard_bind_Ok_inv & H)%obind_Ok_inv. cbn [mbind option_bind] in H.
  destruct (String.eqb_spec (skip_space rest) EmptyString) as [Hspace|]; [clear Hend|done].
  assert (Hread : read text = Some j) by (apply read_next; by exists rest).
  destruct (decode_object set_config j zero_config) as [c0|] eqn:Hc0; [|done]. cbn [mbind option_bind] in H.
  unfold ensureEOF in H. rewrite Hspace in H. cbn [String.eqb obind] in H. cbv zeta in H.
  apply obind_Ok_inv in H as ([] & Hval & [= <-]). split; [|split; [done|by exists text, j, c0]].
  apply defaults_typed. by eapply (decode_object_inv _ config_typed set_config_typed); [|exact Hc0].
Qed.

(** *** Round trip *)
Definition texts_valid (l : list string) : Prop := Forall (λ s, valid_text s = true) l.

Lemma database_json_back d : database_ints d → decode_object set_database (database_json d) (cfg_Database zero_config) = Some d.
Proof.
  intros [H1 H2]. destruct d as [address name username password tls ca server max_open max_idle]. cbn in H1, H2.
  unfold database_json. lazy -[decode_int int_json]. rewrite !decode_int_json by done. reflexivity.
Qed.
Lemma intervals_json_back i : intervals_ints i → decode_object set_intervals (intervals_json i) (cfg_Intervals zero_config) = Some i.
Proof.
  intros (H1 & H2 & H3 & H4). destruct i as [refresh report stale shutdown]. cbn in H1, H2, H3, H4.
  unfold intervals_json. lazy -[decode_int int_json]. rewrite !decode_int_json by done. reflexivity.
Qed.
Lemma limits_json_back l : limits_ints l → decode_object set_limits (limits_json l) (cfg_Limits zero_config) = Some l.
Proof.
  intros (H1 & H2 & H3 & H4 & H5 & H6). destruct l as [tcpUser tcpGlobal shakes xudpUser xudpGlobal dns].
  cbn in H1, H2, H3, H4, H5, H6.
  unfold limits_json. lazy -[decode_int int_json]. rewrite !decode_int_json by done. reflexivity.
Qed.

Lemma config_json_back c : config_typed c → decode_object set_config (config_file_json c) zero_config = Some c.
Proof.
  intros (H1 & H2 & H3 & H4 & H5). destruct c as [node listen state keyFile database intervals limits outbox level].
  cbn in H1, H2, H3, H4, H5. pose proof (database_json_back _ H3) as E3. pose proof (intervals_json_back _ H4) as E4.
  pose proof (limits_json_back _ H5) as E5. cbn [zero_config cfg_Database cfg_Intervals cfg_Limits] in E3, E4, E5.
  unfold config_file_json, zero_config. cbn [cfg_NodeID cfg_Listen cfg_StateDir cfg_RealityPrivateKeyFile cfg_Database cfg_Intervals
    cfg_Limits cfg_OutboxMaxBytes cfg_LogLevel decode_object].
  do 9 (eapply decode_members_step;
    [unfold set_config; select_field; rewrite ?decode_int_json, ?E3, ?E4, ?E5 by done; reflexivity|]).
  reflexivity.
Qed.

Lemma config_json_wf c : texts_valid (config_texts c) →
  well_formed (config_file_json c) ∧ Z.of_nat (height (config_file_json c)) ≤ maxNestingDepth ∧
  duplicate_keys (config_file_json c) = false.
Proof.
  intros Hs. unfold texts_valid, config_texts in Hs. cbv zeta in Hs. rewrite !Forall_cons in Hs.
  destruct Hs as (? & ? & ? & ? & ? & ? & ? & ? & ? & ? & ? & _).
  split; [|split; [vm_compute; discriminate|reflexivity]].
  constructor. repeat (apply Forall_cons; split; [split; [done|]|]); cbn [snd]; try apply int_json_wf;
    try (by constructor); constructor;
    repeat (apply Forall_cons; split; [split; [done|]|]); cbn [snd]; try apply int_json_wf; by constructor.
Qed.

(** C35: Every typed configuration whose texts are valid UTF-8 can be written as a
    file that is loaded back: the result is the configuration with its zero fields
    defaulted, if that is valid, and the error of the validation otherwise. Quotes,
    backslashes, control characters and all others that [json.Marshal] escapes
    included; a text that is not valid UTF-8 comes back with replacement characters. *)
Theorem config_file_reads_back c : config_typed c → texts_valid (config_texts c) →
  Load (Some (write (config_file_json c))) = (Validate (defaults c) ;? Ok (defaults c)).
Proof.
  intros Ht Hs. destruct (config_json_wf c Hs) as (Hwf & Hh & Hd). unfold Load, rejectDuplicateKeys, decode_config.
  assert (E : read (write (config_file_json c)) = Some (config_file_json c)).
  { rewrite <- (read_write _ EmptyString Hwf Hh eq_refl). f_equal. symmetry. apply string_app_nil_r. }
  apply read_next in E as (rest & -> & E). rewrite Hd. cbn [guard_err obind mbind option_bind]. rewrite E.
  cbn [String.eqb obind]. rewrite config_json_back by done. cbn [mbind option_bind]. unfold ensureEOF. by rewrite E.
Qed.

Example Load_trailing : map (λ t, Load (Some (write (config_file_json (exampleConfig 60)) +:+ t))) [bytes [10]%nat; " {"; "}"; " 1"]
  = [Ok (exampleConfig 60); Err "config contains multiple JSON values"; Err "invalid character"; Err "config contains multiple JSON values"].
Proof. vm_compute. reflexivity. Qed.

(** ** Witnesses *)
(** a user name with a quote, a backslash, markup, a line end and U+00FC, U+2028, U+1F511 *)
Definition w_escaped_name : string :=
  bytes [34; 92; 60; 10; 195; 188; 226; 128; 168; 240; 159; 148; 145; 38]%nat.
Definition w_escaped : Config :=
  mkConfig 1 "127.0.0.1:443" "/state" "/key"
    (mkDatabaseConfig "db:3306" "sspanel" w_escaped_name "/password" "verify_ca" "/ca.pem" "db.example.com" 4 2)
    (mkIntervals 60 60 61 120) (mkLimits 1 1 1 1 1 1) (2 ^ 20) "info".
Lemma w_config_typed : config_typed w_escaped.
Proof. by repeat split. Qed.
Lemma w_texts : texts_valid (config_texts w_escaped).
Proof. by repeat constructor. Qed.

Lemma config_file_reads_back_witness :
  Load (Some (write (config_file_json w_escaped))) = Ok w_escaped.
Proof. exact (config_file_reads_back w_escaped w_config_typed w_texts). Defined.

(** Keys that differ only in case name the same field, but are not repeated keys: the
    later one wins. *)
Definition case_variant (j : json) : json :=
  match j with JObject l => JObject (l ++ [("NODE_ID", int_json 9)])%list | _ => j end.
Definition w_case_variant : string := Eval vm_compute in write (case_variant (config_file_json (exampleConfig 60))).

Lemma case_variants_pass : cfg_NodeID (exampleConfig 60) = 1 ∧
  ∃ c, Load (Some w_case_variant) = Ok c ∧ cfg_NodeID c = 9.
Proof. split; [reflexivity|]. eexists. split; vm_compute; reflexivity. Qed.

Lemma loaded_config_witness :
  ∃ c, Load (Some w_case_variant) = Ok c ∧ config_typed c ∧ Validate c = Ok tt.
Proof.
  assert (H : ∃ c, Load (Some w_case_variant) = Ok c) by (eexists; vm_compute; reflexivity).
  destruct H as [c H]. exists c. split; [exact H|].
  destruct (loaded_config_is_typed _ _ H) as (H1 & H2 & _). split; [exact H1|exact H2].
Defined.
