(* ===== verification/DatabaseOpen.v ===== *)
(** Package [internal/database]: opening the connection. The certificates of a PEM
    text, the registry of TLS configurations of the driver and its data source names
    are parameters. *)
From S2P Require Import Prelude GoString Digest Config.

Local Open Scope string_scope.
Local Open Scope Z_scope.

(** the configuration of the driver; durations in nanoseconds *)
Record DriverConfig : Type := mkDriverConfig {
  dr_Net : string;
  dr_Addr : string;
  dr_User : string;
  dr_Passwd : string;
  dr_DBName : string;
  dr_ParseTime : bool;
  dr_Timeout : Z;
  dr_ReadTimeout : Z;
  dr_WriteTimeout : Z;
  dr_Collation : string;
  dr_TLSConfig : string }.

(** tls.Config with the certificates of a PEM text *)
Record TLSSettings : Type := mkTLSSettings {
  tls_MinVersion : Z;
  tls_RootCAs : string;
  tls_ServerName : string }.
Definition VersionTLS12 : Z := 771.

(** sql.DB with its limits *)
Record Connection : Type := mkConnection {
  cn_driver : DriverConfig;
  cn_tls : gmap string TLSSettings;
  cn_MaxOpen : Z;
  cn_MaxIdle : Z;
  cn_MaxLifetime : Z }.

(** strings.Contains *)
Fixpoint contains_text (text s : string) : bool :=
  has_prefix s text || match s with EmptyString => false | String _ s => contains_text text s end.

Section Driver.
  (** whether a PEM text has certificates; the error of a registration, if any; what the
      driver reads from the data source name that it formats for a configuration *)
Context (has_certificates : string → bool) (register_error : string → option string)
  (through_dsn : DriverConfig → option DriverConfig).

Definition tls_name (cfg : DatabaseConfig) : string :=
  "vlesshappy-" +:+ hex_encode (take 8 (sha256 (db_CAFile cfg +:+ String (byte 0) (db_ServerName cfg)))).

(** configureTLS, of the contents of the CA file if it can be read: the name of the
    configuration, and the registered configurations *)
Definition configureTLS (ca_file : option string) (cfg : DatabaseConfig) (registered : gmap string TLSSettings)
  : gmap string TLSSettings * outcome string string :=
  if String.eqb (db_TLSMode cfg) "disabled" then (registered, Ok "false")
  else if String.eqb (db_TLSMode cfg) "required" then (registered, Ok "true")
  else if String.eqb (db_TLSMode cfg) "verify_ca" then
    match ca_file with
    | None => (registered, Err "read database CA")
    | Some pem =>
        if negb (has_certificates pem) then (registered, Err "database CA contains no certificates")
        else
          let name := tls_name cfg in
          match register_error name with
          | None => (<[name := mkTLSSettings VersionTLS12 pem (db_ServerName cfg)]> registered, Ok name)
          | Some err =>
              if contains_text "already registered" err then (registered, Ok name)
              else (registered, Err ("register database TLS: " +:+ err))
          end
    end
  else (registered, Err "unsupported database TLS mode").

Definition driver_config (cfg : DatabaseConfig) (password tlsName : string) : DriverConfig :=
  mkDriverConfig "tcp" (db_Address cfg) (db_Username cfg) password (db_Name cfg) true
    (seconds 15) (seconds 15) (seconds 15) "utf8mb4_unicode_ci" tlsName.

(** Open, with the TLS configurations that are registered *)
Definition OpenDB (ca_file : option string) (cfg : DatabaseConfig) (password : string) (registered : gmap string TLSSettings)
  : gmap string TLSSettings * outcome string Connection :=
  match configureTLS ca_file cfg registered with
  | (registered, Ok tlsName) =>
      (registered,
       match through_dsn (driver_config cfg password tlsName) with
       | None => Err "open database"
       | Some driver => Ok (mkConnection driver registered (db_MaxOpen cfg) (db_MaxIdle cfg) (seconds 300))
       end)
  | (registered, Err e) => (registered, Err e)
  | (registered, Panic) => (registered, Panic)
  end.

(** A connection is encrypted exactly as the configuration says: in the clear only when
    TLS is disabled, and with verified certificates only against the CA file and the
    server name of the configuration, with TLS 1.2 at least. *)
Theorem connection_is_as_secure_as_configured ca_file cfg password registered registered' c :
  (∀ d, through_dsn d = Some d) → (∀ name, register_error name = None) →
  OpenDB ca_file cfg password registered = (registered', Ok c) →
  (dr_TLSConfig (cn_driver c) = "false" ↔ db_TLSMode cfg = "disabled") ∧
  (dr_TLSConfig (cn_driver c) = "true" ↔ db_TLSMode cfg = "required") ∧
  (db_TLSMode cfg = "verify_ca" → ∃ pem, ca_file = Some pem ∧ has_certificates pem = true ∧
     cn_tls c !! dr_TLSConfig (cn_driver c) = Some (mkTLSSettings VersionTLS12 pem (db_ServerName cfg))).
Proof.
  intros Hdsn Hreg. unfold OpenDB, configureTLS.
  destruct (String.eqb_spec (db_TLSMode cfg) "disabled") as [->|H1].
  { rewrite Hdsn. intros [= <- <-]. done. }
  destruct (String.eqb_spec (db_TLSMode cfg) "required") as [->|H2].
  { rewrite Hdsn. intros [= <- <-]. done. }
  destruct (String.eqb_spec (db_TLSMode cfg) "verify_ca") as [->|H3]; [|done].
  destruct ca_file as [pem|]; [|done]. destruct (has_certificates pem) eqn:Hp; [|done]. cbn [negb]. cbv zeta.
  rewrite Hreg, Hdsn. intros [= <- <-]. cbn [cn_driver cn_tls driver_config dr_TLSConfig].
  split; [split; done|]. split; [split; done|]. intros _. exists pem. split; [done|]. split; [done|]. apply lookup_insert_eq.
Qed.
End Driver.

(** ** Witness *)
Definition w_database : DatabaseConfig :=
  mkDatabaseConfig "db.example.com:3306" "panel" "reader" "/etc/vlesshappy/db" "verify_ca" "/etc/vlesshappy/ca.pem" "db.example.com" 4 2.
Lemma connection_is_as_secure_as_configured_witness :
  ∃ registered c, OpenDB (λ _, true) (λ _, None) Some (Some "PEM") w_database "secret" ∅ = (registered, Ok c) ∧
    ∃ pem, Some "PEM" = Some pem ∧ cn_tls c !! dr_TLSConfig (cn_driver c) = Some (mkTLSSettings VersionTLS12 pem "db.example.com").
Proof.
  assert (H : ∃ registered c, OpenDB (λ _, true) (λ _, None) Some (Some "PEM") w_database "secret" ∅ = (registered, Ok c))
    by (eexists _, _; reflexivity).
  destruct H as (registered & c & H). exists registered, c. split; [exact H|].
  destruct (connection_is_as_secure_as_configured (λ _, true) (λ _, None) Some (Some "PEM") w_database "secret" ∅ registered c
    (λ _, eq_refl) (λ _, eq_refl) H) as (_ & _ & Hca).
  destruct (Hca eq_refl) as (pem & H1 & _ & H2). exists pem. split; [exact H1|exact H2].
Defined.
