(* ===== verification/Lifecycle.v ===== *)
(** Package [internal/lifecycle]: the loop that ties the engine, the outbox and the
    panel together. It drains the counters into batches, replays batches to the panel,
    refreshes the authorization, and shuts down.

    The state holds what the process can reach: its own fields, the panel behind
    the database connection and the directory behind the store. What the system
    calls, the database and the clock do is in one record of outcomes for each
    operation. *)
From S2P Require Import Prelude GoString GoPath Float64 Digest Model Identity Config Session Outbox Database.
From S2P Require Import Xray Engine ConfigLoad DatabaseOpen.

Local Open Scope string_scope.
Local Open Scope Z_scope.

(** ** Reports of the system *)

(** strings.Fields *)
Fixpoint fields_from (fuel : nat) (current s : string) : list string :=
  let flush := if String.eqb current EmptyString then [] else [current] in
  match fuel, s with
  | S fuel, String c rest =>
      match space_prefix unicode_spaces s with
      | Some n => (flush ++ fields_from fuel EmptyString (drop_chars n s))%list
      | None => fields_from fuel (current +:+ String c EmptyString) rest
      end
  | _, _ => flush
  end.
Definition Fields (s : string) : list string := fields_from (String.length s) EmptyString s.

(** systemLoad, of the contents of /proc/loadavg if it can be read *)
Definition systemLoad (loadavg : option string) (goroutines : Z) (m : Metrics) : string :=
  let sessions := " t=" +:+ format_int (m_TCPActive m) +:+ " x=" +:+ format_int (m_XUDPActive m) in
  let fallback := "g=" +:+ format_int goroutines +:+ sessions in
  match loadavg with
  | Some data => match Fields data with
                 | a :: b :: c :: _ => a +:+ "/" +:+ b +:+ "/" +:+ c +:+ sessions
                 | _ => fallback
                 end
  | None => fallback
  end.
Example systemLoad_ex : map (λ l, systemLoad l 12 (mkMetrics 3 4 0 ∅))
  [Some ("0.50 0.40  0.30 1/200 4711" +:+ bytes [10]%nat); Some "0.5 0.4"; None]
  = ["0.50/0.40/0.30 t=3 x=4"; "g=12 t=3 x=4"; "g=12 t=3 x=4"].
Proof. vm_compute. reflexivity. Qed.

(** logSessionMetrics: the counts it warns of, by reason, and the new totals *)
Definition new_rejections (previous : gmap string Z) (m : Metrics) : gmap string Z :=
  map_imap (λ reason total,
    let before := mget previous reason in if before <? total then Some (total - before) else None) (m_Rejected m).
Definition logSessionMetrics (m : Metrics) (previous : gmap string Z) : gmap string Z * gmap string Z :=
  (new_rejections previous m, m_Rejected m ∪ previous).

(** ** The state *)
Record runtimeState : Type := mkState {
  s_cfg : Config;
  s_db : Panel;
  s_store : Store;
  s_disk : Disk;
  s_engine : Engine;
  s_privateKey : string;
  s_started : Z;
  s_lastAuth : Z;
  s_lastRejected : gmap string Z }.

Definition set_db (p : Panel) (s : runtimeState) : runtimeState :=
  mkState (s_cfg s) p (s_store s) (s_disk s) (s_engine s) (s_privateKey s) (s_started s) (s_lastAuth s) (s_lastRejected s).
Definition set_disk (d : Disk) (s : runtimeState) : runtimeState :=
  mkState (s_cfg s) (s_db s) (s_store s) d (s_engine s) (s_privateKey s) (s_started s) (s_lastAuth s) (s_lastRejected s).
Definition set_engine (e : Engine) (s : runtimeState) : runtimeState :=
  mkState (s_cfg s) (s_db s) (s_store s) (s_disk s) e (s_privateKey s) (s_started s) (s_lastAuth s) (s_lastRejected s).
Definition set_lastAuth (t : Z) (s : runtimeState) : runtimeState :=
  mkState (s_cfg s) (s_db s) (s_store s) (s_disk s) (s_engine s) (s_privateKey s) (s_started s) t (s_lastRejected s).
Definition set_lastRejected (m : gmap string Z) (s : runtimeState) : runtimeState :=
  mkState (s_cfg s) (s_db s) (s_store s) (s_disk s) (s_engine s) (s_privateKey s) (s_started s) (s_lastAuth s) m.

(** ** Outcomes of the calls *)

(** the random bytes of an identifier, the time, and the system calls of a Save *)
Record PersistEnv : Type := mkPersistEnv {
  pe_random : list Z;
  pe_unix : Z;
  pe_nanos : Z;
  pe_faults : Faults }.
(** the reading of the directory, and for the file at each index its application to
    the panel, the time there at each statement, and its removal *)
Record ReplayEnv : Type := mkReplayEnv {
  re_readdir : bool;
  re_unreadable : string → bool;
  re_apply : nat → ApplyFaults;
  re_now : nat → nat → Z;
  re_remove : nat → bool;
  re_sync : nat → bool }.
Record ReportEnv : Type := mkReportEnv {
  rp_persist : PersistEnv;
  rp_replay : ReplayEnv;
  rp_telemetry : TelemetryFaults;
  rp_now : Z;
  rp_panel_now : nat → Z;
  rp_loadavg : option string;
  rp_goroutines : Z;
  rp_size : bool }.
(** a new engine, and the engine it falls back to *)
Record ReloadEnv : Type := mkReloadEnv {
  rl_persist : PersistEnv;
  rl_close : bool;
  rl_start : StartFaults;
  rl_rollback : StartFaults }.
Record RefreshEnv : Type := mkRefreshEnv {
  rf_load : LoadFaults;
  rf_panel_now : Z;
  rf_loaded_at : Z;
  rf_now : Z;
  rf_reload : ReloadEnv }.
Record ShutdownEnv : Type := mkShutdownEnv {
  sd_close : bool;
  sd_persist : PersistEnv;
  sd_replay : ReplayEnv }.

Section Codec.
Context `{BatchCodec}.

(** ** persist and replay *)
Definition persist (env : PersistEnv) (st : Store) (entries : list Entry) (snap : Snapshot) (d : Disk)
  : Disk * outcome SaveError unit :=
  match entries with
  | [] => (d, Ok tt)
  | _ =>
      let n := snap_Node snap in
      match NewBatch (node_ID n) (node_ConfigurationVersion n) (node_TrafficRate n) entries (pe_random env) (pe_unix env) with
      | Err e => (d, Err (plain e))
      | Panic => (d, Panic)
      | Ok batch => Save st (pe_faults env) (pe_nanos env) batch d
      end
  end.

(** the loop over the files *)
Fixpoint replay_files (env : ReplayEnv) (st : Store) (i : nat) (files : list (string * Batch)) (p : Panel) (d : Disk)
  : Panel * Disk * outcome string unit :=
  match files with
  | [] => (p, d, Ok tt)
  | (path, batch) :: files =>
      match ApplyBatch (re_apply env i) (re_now env i) batch p with
      | (p, Ok _) =>
          match Remove st (re_remove env i) (re_sync env i) path d with
          | (d, Ok _) => replay_files env st (S i) files p d
          | (d, Err e) => (p, d, Err e)
          | (d, Panic) => (p, d, Panic)
          end
      | (p, Err e) => (p, d, Err e)
      | (p, Panic) => (p, d, Panic)
      end
  end.
Definition replay (env : ReplayEnv) (st : Store) (p : Panel) (d : Disk) : Panel * Disk * outcome string unit :=
  match ListBatches st (re_readdir env) (re_unreadable env) (d_now d) with
  | Ok files => replay_files env st 0 files p d
  | Err e => (p, d, Err e)
  | Panic => (p, d, Panic)
  end.

(** ** report *)

(** draining and persisting; entries that were not published go back *)
Definition drain_and_persist (env : PersistEnv) (context : string) (s : runtimeState) : runtimeState * outcome string unit :=
  match Drain (s_engine s) with
  | (e, Err err) => (set_engine e s, Err err)
  | (e, Panic) => (set_engine e s, Panic)
  | (e, Ok entries) =>
      match persist env (s_store s) entries (snapshot e) (s_disk s) with
      | (d, Ok _) => (set_disk d (set_engine e s), Ok tt)
      | (d, Err err) =>
          let e := if WasPublished err then e else RestoreEntries entries e in
          (set_disk d (set_engine e s), Err (context +:+ ": " +:+ message err))
      | (d, Panic) => (set_disk d (set_engine e s), Panic)
      end
  end.

Definition report (env : ReportEnv) (s : runtimeState) : runtimeState * outcome string unit :=
  match drain_and_persist (rp_persist env) "persist traffic" s with
  | (s, Err e) => (s, Err e)
  | (s, Panic) => (s, Panic)
  | (s, Ok _) =>
      let '(p, d, replayed) := replay (rp_replay env) (s_store s) (s_db s) (s_disk s) in
      let s := set_disk d (set_db p s) in
      let online := map_to_list (FlattenOnline (EngineOnline (rp_now env) (s_engine s))) in
      let metrics := SessionMetrics (s_engine s) in
      let s := set_lastRejected (logSessionMetrics metrics (s_lastRejected s)).2 s in
      let '(p, telemetry) :=
        ReportTelemetry (rp_telemetry env) (rp_panel_now env) (cfg_NodeID (s_cfg s)) online (rp_now env - s_started s)
          (systemLoad (rp_loadavg env) (rp_goroutines env) metrics) (s_db s) in
      let s := set_db p s in
      match replayed, telemetry with
      | Panic, _ | _, Panic => (s, Panic)
      | _, _ =>
          match (if rp_size env then None else Size (d_now (s_disk s))) with
          | None => (s, Err "read outbox")
          | Some used =>
              if cfg_OutboxMaxBytes (s_cfg s) <=? used then (s, Err ("outbox reached hard limit: " +:+ format_int used +:+ " bytes"))
              else (s, Ok tt)
          end
      end
  end.

(** the warning threshold of the outbox *)
Definition above_warning (maxBytes used : Z) : bool := Z.quot (wrap64 (maxBytes * 8)) 10 <=? used.

(** ** reload and refresh *)
Definition start_engine (ft : StartFaults) (snap : Snapshot) (s : runtimeState) : outcome string Engine :=
  Start ft (registered (s_engine s)) snap (s_cfg s) (s_privateKey s).

Definition reload (env : ReloadEnv) (next : Snapshot) (s : runtimeState) : runtimeState * outcome string unit :=
  let previous := snapshot (s_engine s) in
  if CanApply (s_engine s) next then
    match drain_and_persist (rl_persist env) "persist traffic before authorization update" s with
    | (s, Err e) => (s, Err e)
    | (s, Panic) => (s, Panic)
    | (s, Ok _) =>
        match Apply next (s_engine s) with
        | (e, Ok _) => (set_engine e s, Ok tt)
        | (e, Err err) => (set_engine e s, Err ("apply authorization update: " +:+ err))
        | (e, Panic) => (set_engine e s, Panic)
        end
    end
  else
    match CloseAndDrain (rl_close env) (s_engine s) with
    | (e, _, Panic) => (set_engine e s, Panic)
    | (e, _, Err err) => (set_engine e s, Err err)
    | (e, _, Ok (entries, Some closeErr)) => (set_engine e s, Err closeErr)
    | (e, _, Ok (entries, None)) =>
        let s := set_engine e s in
        match persist (rl_persist env) (s_store s) entries previous (s_disk s) with
        | (d, Panic) => (set_disk d s, Panic)
        | (d, Err err) =>
            let s := set_disk d s in
            match start_engine (rl_rollback env) previous s with
            | Ok rollback =>
                let rollback := if WasPublished err then rollback else RestoreEntries entries rollback in
                (set_engine rollback s, Err ("persist traffic before reload: " +:+ message err))
            | Err rollbackErr =>
                (s, Err ("persist traffic before reload failed (" +:+ message err +:+ "), rollback failed: " +:+ rollbackErr))
            | Panic => (s, Panic)
            end
        | (d, Ok _) =>
            let s := set_disk d s in
            match start_engine (rl_start env) next s with
            | Ok engine => (set_engine engine s, Ok tt)
            | Panic => (s, Panic)
            | Err err =>
                match start_engine (rl_rollback env) previous s with
                | Ok rollback => (set_engine rollback s, Err ("new Xray config rejected and rolled back: " +:+ err))
                | Err rollbackErr => (s, Err ("new Xray config failed (" +:+ err +:+ "), rollback failed: " +:+ rollbackErr))
                | Panic => (s, Panic)
                end
            end
        end
    end.

Definition refresh (env : RefreshEnv) (s : runtimeState) : runtimeState * outcome string unit :=
  match LoadSnapshot (rf_load env) (rf_panel_now env) (rf_loaded_at env) (cfg_NodeID (s_cfg s)) (s_db s) with
  | Panic => (s, Panic)
  | Err ErrNodeUnavailable => (s, Err "VLESS REALITY node is missing, disabled, mis-typed or bandwidth-exhausted")
  | Err (LoadFailed _) =>
      let age := rf_now env - s_lastAuth s in
      if AuthStale (s_cfg s) <=? age then (s, Err "authorization snapshot exceeded maximum age") else (s, Ok tt)
  | Ok (snap, warnings) =>
      let s := set_lastAuth (rf_now env) s in
      if String.eqb (snap_Hash snap) (snap_Hash (snapshot (s_engine s))) then (s, Ok tt)
      else reload (rf_reload env) snap s
  end.

(** ** shutdown *)

(** the errors that are joined, in order *)
Definition errors_of (l : list (option string)) : list string := omap id l.
Definition save_error (r : outcome SaveError unit) : option string := match r with Err e => Some (message e) | _ => None end.
Definition error_of (r : outcome string unit) : option string := match r with Err e => Some e | _ => None end.

Definition shutdown (env : ShutdownEnv) (s : runtimeState) : runtimeState * outcome string (list string) :=
  match CloseAndDrain (sd_close env) (s_engine s) with
  | (e, _, Panic) => (set_engine e s, Panic)
  | (e, _, Err err) => (set_engine e s, Err err)
  | (e, _, Ok (entries, closeErr)) =>
      match persist (sd_persist env) (s_store s) entries (snapshot e) (s_disk s) with
      | (d, Panic) => (set_disk d (set_engine e s), Panic)
      | (d, persisted) =>
          let '(p, d, replayed) := replay (sd_replay env) (s_store s) (s_db s) d in
          let s := set_db p (set_disk d (set_engine e s)) in
          match replayed with
          | Panic => (s, Panic)
          | _ => (s, Ok (errors_of [closeErr; save_error persisted; error_of replayed]))
          end
      end
  end.
End Codec.

(** ** lockStateDir *)
Inductive Lstat : Type :=
| LstatMissing
| LstatError
| LstatFound (k : FileKind).
Record LockEnv : Type := mkLockEnv {
  lk_lstat : Lstat;
  lk_mkdir : bool;
  lk_chmod : bool;
  lk_open : bool;
  lk_held : bool }.    (* another process holds the lock, or locking fails *)

Definition lockStateDir (env : LockEnv) : outcome string unit :=
  match lk_lstat env with
  | LstatFound k => guard_err (negb (bool_decide (k = Directory))) "state_dir must be a directory and not a symlink"
  | LstatMissing => Ok tt
  | LstatError => Err "lstat"
  end ;?
  guard_err (lk_mkdir env) "create state_dir" ;?
  guard_err (lk_chmod env) "secure state_dir" ;?
  guard_err (lk_open env) "open" ;?
  guard_err (lk_held env) "state_dir is already locked by another process".

(** Close of a lock that may be nil or have no file: whether the directory
    stays locked, and the errors. Closing the file unlocks it too. *)
Definition CloseLock (open : bool) (unlock_fails close_fails : bool) : bool * list string :=
  if negb open then (false, [])
  else (unlock_fails && close_fails, omap id [if unlock_fails then Some "flock" else None; if close_fails then Some "close" else None]).

(** ** bootstrap *)
Record SecretEnv : Type := mkSecretEnv {
  se_info : option FileInfo;
  se_euid : Z;
  se_read : bool }.
Definition read_secret (env : SecretEnv) : outcome string string := ReadSecret (se_info env) (se_euid env) (se_read env).

(** the CA file, and what the driver does with it, with the registration and with the
    data source name *)
Record OpenEnv : Type := mkOpenEnv {
  op_ca : option string;
  op_certificates : string → bool;
  op_register : string → option string;
  op_dsn : DriverConfig → option DriverConfig }.
Definition open_db (env : OpenEnv) (cfg : Config) (password : string) : outcome string Connection :=
  (OpenDB (op_certificates env) (op_register env) (op_dsn env) (op_ca env) (cfg_Database cfg) password ∅).2.

Record BootEnv : Type := mkBootEnv {
  bt_lock : LockEnv;
  bt_key : SecretEnv;
  bt_password : SecretEnv;
  bt_open : OpenEnv;
  bt_mkdir : bool;
  bt_chmod : bool;
  bt_readdir : bool;
  bt_unreadable : string → bool;
  bt_ping : bool;
  bt_replay : ReplayEnv;
  bt_load : LoadFaults;
  bt_panel_now : Z;
  bt_loaded_at : Z;
  bt_now : Z;
  bt_start : StartFaults;
  bt_occupied : bool }.

(** the error of a call, behind a prefix *)
Definition prefixed {T} (prefix : string) (c : outcome string T) : outcome string T :=
  match c with Err e => Err (prefix +:+ e) | _ => c end.
Definition load_error (e : LoadError) : string :=
  match e with
  | ErrNodeUnavailable => "VLESS REALITY node is missing, disabled, mis-typed or bandwidth-exhausted"
  | LoadFailed e => e
  end.
(** the outcome of [c], in a panel and a directory that are not changed by it *)
Definition after {T} (p : Panel) (d : Disk) (c : outcome string T)
    (k : T → Panel * Disk * outcome string runtimeState) : Panel * Disk * outcome string runtimeState :=
  match c with Ok x => k x | Err e => (p, d, Err e) | Panic => (p, d, Panic) end.

Section Service.
Context `{BatchCodec}.

(** bootstrap: the state directory is locked when it succeeds, and unlocked otherwise *)
Definition bootstrap (env : BootEnv) (cfg : Config) (p : Panel) (d : Disk) : Panel * Disk * outcome string runtimeState :=
  after p d (lockStateDir (bt_lock env)) (λ _,
  after p d (prefixed "REALITY secret: " (read_secret (bt_key env))) (λ privateKey,
  after p d (prefixed "database secret: " (read_secret (bt_password env))) (λ password,
  after p d (open_db (bt_open env) cfg password) (λ _,
  after p d (OpenStore (bt_mkdir env) (bt_chmod env) (bt_readdir env) (bt_unreadable env)
               (cfg_StateDir cfg) (cfg_NodeID cfg) (cfg_OutboxMaxBytes cfg) (d_now d)) (λ store,
  after p d (guard_err (bt_ping env) "database ping") (λ _,
  let '(p, d, replayed) := replay (bt_replay env) store p d in
  after p d (prefixed "replay outbox: " replayed) (λ _,
  match LoadSnapshot (bt_load env) (bt_panel_now env) (bt_loaded_at env) (cfg_NodeID cfg) p with
  | Panic => (p, d, Panic)
  | Err e => (p, d, Err (load_error e))
  | Ok (snap, _) =>
      after p d (Start (bt_start env) (bt_occupied env) snap cfg privateKey) (λ engine,
      (p, d, Ok (mkState cfg p store d engine privateKey (bt_now env) (bt_now env) ∅)))
  end))))))).

(** ** Run *)
Inductive tick : Type :=
| TickReport (env : ReportEnv)
| TickRefresh (env : RefreshEnv).

(** the loop over the ticks that come before the context is cancelled *)
Fixpoint run_loop (ticks : list tick) (s : runtimeState) : runtimeState * outcome string unit :=
  match ticks with
  | [] => (s, Ok tt)
  | t :: ticks =>
      match (match t with TickReport env => report env s | TickRefresh env => refresh env s end) with
      | (s, Ok _) => run_loop ticks s
      | (s, Err e) => (s, Err e)
      | (s, Panic) => (s, Panic)
      end
  end.

(** Run: the panel, the directory, and the errors that are joined; none of them is the
    cancellation *)
Definition Run (boot : BootEnv) (ticks : list tick) (stop : ShutdownEnv) (cfg : Config) (p : Panel) (d : Disk)
  : Panel * Disk * outcome string (list string) :=
  match bootstrap boot cfg p d with
  | (p, d, Err e) => (p, d, Ok [e])
  | (p, d, Panic) => (p, d, Panic)
  | (_, _, Ok s) =>
      match run_loop ticks s with
      | (s, Panic) => (s_db s, s_disk s, Panic)
      | (s, ran) =>
          match shutdown stop s with
          | (s, Ok errors) => (s_db s, s_disk s, Ok (errors_of [error_of ran] ++ errors)%list)
          | (s, Err e) => (s_db s, s_disk s, Ok (errors_of [error_of ran; Some e]))
          | (s, Panic) => (s_db s, s_disk s, Panic)
          end
      end
  end.

(** ** Validate *)
Record ValidateEnv : Type := mkValidateEnv {
  ve_key : SecretEnv;
  ve_password : SecretEnv;
  ve_open : OpenEnv;
  ve_ping : bool;
  ve_load : LoadFaults;
  ve_panel_now : Z;
  ve_loaded_at : Z }.
Definition ValidateService (env : ValidateEnv) (cfg : Config) (p : Panel) : outcome string unit :=
  let? privateKey := prefixed "REALITY secret: " (read_secret (ve_key env)) in
  let? password := prefixed "database secret: " (read_secret (ve_password env)) in
  let? _ := open_db (ve_open env) cfg password in
  guard_err (ve_ping env) "database ping" ;?
  match LoadSnapshot (ve_load env) (ve_panel_now env) (ve_loaded_at env) (cfg_NodeID cfg) p with
  | Panic => Panic
  | Err e => Err (load_error e)
  | Ok (snap, _) => BuildConfig snap (cfg_Listen cfg) privateKey ;? Ok tt
  end.
End Service.
