(* ===== verification/Ledger.v ===== *)
(** The ledger of the traffic: what the counters of the engine hold, what the batches
    of the outbox hold that the panel has not recorded, and what the panel has added
    to the bandwidth of the node. The operations of the service move traffic from one
    to the next; this file shows that persisting and replaying neither lose nor
    repeat any. *)
From S2P Require Import Prelude GoString GoPath Float64 Digest Model Identity Config Session Outbox OutboxProps BatchText.
From S2P Require Import Database DatabaseProps Xray Engine EngineUsers EngineTraffic EngineSafe Lifecycle.

Local Open Scope string_scope.
Local Open Scope Z_scope.

(** ** Names of batch files *)
Lemma zeros_no_slash n : no_slash (zeros n) = true.
Proof. by induction n. Qed.
Lemma no_slash_app s t : no_slash (s +:+ t) = no_slash s && no_slash t.
Proof. apply string_all_app. Qed.
Lemma format_int_no_slash z : no_slash (format_int z) = true.
Proof.
  eapply string_all_weaken; [|apply format_int_chars]. intros c Hc. destruct c as [[] [] [] [] [] [] [] []]; done.
Qed.
Lemma pad20_no_slash z : no_slash (pad20 z) = true.
Proof.
  unfold pad20. destruct (z <? 0); cbv zeta.
  - change (no_slash (zeros (19 - String.length (format_int (- z))) +:+ format_int (- z)) = true).
    by rewrite no_slash_app, zeros_no_slash, format_int_no_slash.
  - by rewrite no_slash_app, zeros_no_slash, format_int_no_slash.
Qed.
Lemma validUUID_no_slash id : validUUID id = true → no_slash id = true.
Proof.
  unfold validUUID. case_match; [done|]. unfold hex_decodes. intros [_ Hhex]%andb_true_iff.
  eapply string_all_weaken; [|by apply remove_dashes_hex]. intros c Hc.
  assert (Hi : implb (hex_or_dash c) (negb (Ascii.eqb c "/")) = true) by (destruct c as [[] [] [] [] [] [] [] []]; reflexivity).
  by rewrite Hc in Hi.
Qed.
Lemma batch_name_no_slash nanos b : validUUID (b_ID b) = true → no_slash (batch_name nanos b) = true.
Proof. intros Hid. unfold batch_name. rewrite !no_slash_app, pad20_no_slash, (validUUID_no_slash (b_ID b)) by done. reflexivity. Qed.

Lemma temp_not_json nanos b : has_suffix (temp_name nanos b) ".json" = false.
Proof. unfold temp_name, has_suffix, String.rev. rewrite rev_app_app. simpl. done. Qed.

(** Remove of the path of a file in the outbox deletes that file, or nothing *)
Lemma remove_listed st stateDir rf sf name d :
  has_prefix stateDir "/" = true → st_dir st = Join stateDir "outbox" → no_slash name = true →
  has_suffix name ".json" = true →
  let r := Remove st rf sf (Join (st_dir st) name) d in
  r.2 ≠ Panic ∧ (d_now r.1 = d_now d ∧ r.2 ≠ Ok tt ∨ d_now r.1 = delete name (d_now d)).
Proof.
  intros Hroot Hdir Hslash Hjson. pose proof (entry_name_plain name Hslash Hjson) as Hplain.
  destruct (Join_abs stateDir "outbox" Hroot ltac:(by split_and!)) as (comps & Hcomps & Hjoin). rewrite Hjoin in Hdir.
  assert (Hdirs : (comps ++ ["outbox"])%list ≠ [] ∧ Forall plain_comp (comps ++ ["outbox"])%list).
  { split; [by destruct comps|]. apply Forall_app. split; [done|]. constructor; [by split_and!|constructor]. }
  destruct Hdirs as [Hne Hall]. destruct (Join_entry _ name Hne Hall Hplain) as (E1 & E2 & E3).
  assert (Hclean : Clean (Join (st_dir st) name) = Join (st_dir st) name).
  { rewrite Hdir, E1. apply Clean_abs. apply Forall_app. split; [done|by constructor]. }
  unfold Remove. cbv zeta. rewrite Hclean. rewrite Hdir, E1, E3.
  destruct (negb _ || negb _); [split; [done|by left]|]. destruct (rf || _); [split; [done|by left]|].
  destruct sf; (split; [done|by right]).
Qed.

(** ** What a directory is worth *)
Section Ledger.
Context `{BatchCodec, !LawfulCodec}.

(** the batch in a file of the outbox *)
Definition file_batch (name : string) (f : File) : option Batch :=
  if has_suffix name ".json" && bool_decide (f_kind f = Regular) then readBatch (f_data f) else None.
(** what it holds that the panel has not recorded *)
Definition batch_worth (p : Panel) (b : Batch) : Z :=
  if bool_decide (p_batches p !! batch_key (b_ID b) = None) then entries_total (b_Entries b) else 0.
Definition file_worth (p : Panel) (name : string) (f : File) : Z :=
  match file_batch name f with Some b => batch_worth p b | None => 0 end.
Definition pending (p : Panel) (m : gmap string File) : Z := msum (file_worth p) m.

(** the outbox: plain names, batches of the node, no batch twice *)
Record tidy (node : Z) (m : gmap string File) : Prop := {
  td_names : ∀ name, is_Some (m !! name) → no_slash name = true;
  td_node : ∀ name f b, m !! name = Some f → file_batch name f = Some b → b_NodeID b = node;
  td_once : ∀ n1 n2 f1 f2 b1 b2, m !! n1 = Some f1 → m !! n2 = Some f2 → file_batch n1 f1 = Some b1 →
    file_batch n2 f2 = Some b2 → batch_key (b_ID b1) = batch_key (b_ID b2) → n1 = n2 }.

Lemma tidy_insert node m name f : tidy node m → no_slash name = true →
  match file_batch name f with
  | None => True
  | Some b => b_NodeID b = node ∧ ∀ n g b', m !! n = Some g → file_batch n g = Some b' → batch_key (b_ID b') ≠ batch_key (b_ID b)
  end → tidy node (<[name := f]> m).
Proof.
  intros [T1 T2 T3] Hname Hf. constructor.
  - intros n [g Hg]. apply lookup_insert_Some in Hg as [[<- _]|[_ Hg]]; [done|]. by apply T1; eexists.
  - intros n g b [[<- <-]|[_ Hg]]%lookup_insert_Some Hb; [rewrite Hb in Hf; tauto|by eapply T2].
  - intros n1 n2 f1 f2 b1 b2 [[<- <-]|[Hn1 H1]]%lookup_insert_Some [[<- <-]|[Hn2 H2]]%lookup_insert_Some Hb1 Hb2 Ek.
    + done.
    + rewrite Hb1 in Hf. destruct Hf as [_ Hf]. by destruct (Hf n2 f2 b2 H2 Hb2).
    + rewrite Hb2 in Hf. destruct Hf as [_ Hf]. by destruct (Hf n1 f1 b1 H1 Hb1).
    + by eapply T3.
Qed.

Lemma tidy_delete node m name : tidy node m → tidy node (delete name m).
Proof.
  intros [T1 T2 T3]. constructor.
  - intros n [g [_ Hg]%lookup_delete_Some]. by apply T1; eexists.
  - intros n g b [_ Hg]%lookup_delete_Some. by apply T2.
  - intros n1 n2 f1 f2 b1 b2 [_ H1]%lookup_delete_Some [_ H2]%lookup_delete_Some. by apply T3.
Qed.

Lemma pending_insert p m name f : m !! name = None → pending p (<[name := f]> m) = file_worth p name f + pending p m.
Proof. apply msum_insert. Qed.
Lemma pending_delete p m name f : m !! name = Some f → file_worth p name f = 0 → pending p (delete name m) = pending p m.
Proof. intros Hf Hz. unfold pending. rewrite (msum_delete _ m name f) by done. by rewrite Hz. Qed.

(** ** Persisting *)
Lemma NewBatch_inv node version rate entries random now b :
  NewBatch node version rate entries random now = Ok b →
  b_ID b = newUUID random ∧ b_NodeID b = node ∧ b_ConfigurationVersion b = version ∧ b_CreatedAt b = now ∧
  b_Entries b ≡ₚ entries.
Proof.
  unfold NewBatch. cbv zeta. intros (_ & _ & H1)%obind_Ok_inv. destruct (hash _); [|done]. injection H1 as <-.
  split; [done|]. split; [done|]. split; [done|]. split; [done|].
  change (b_Entries (with_hash ?h ?b)) with (b_Entries b). unfold b_Entries. cbn [b_slice].
  rewrite copy_slice_entries. apply merge_sort_Permutation.
Qed.

Lemma NewBatch_no_panic node version rate entries random now : NewBatch node version rate entries random now ≠ Panic.
Proof. unfold NewBatch. cbv zeta. apply obind_no_panic; [apply validate_no_panic|]. intros _. by destruct (hash _). Qed.

#[export] Instance entries_total_proper : Proper ((≡ₚ) ==> (=)) entries_total.
Proof.
  unfold entries_total. intros l l' E. induction E as [|e l l' _ IH|e g l|l1 l2 l3 _ IH1 _ IH2]; cbn [fold_right]; [done|lia|lia|congruence].
Qed.

(** what persisting does to the directory *)
Inductive persisted (env : PersistEnv) (entries : list Entry) (node : Z) (d : Disk) : Disk → outcome SaveError unit → Prop :=
| ps_nothing : entries = [] → persisted env entries node d d (Ok tt)
| ps_refused d' msg :
    d_now d' = d_now d ∨ (∃ b f, b_ID b = newUUID (pe_random env) ∧ validUUID (b_ID b) = true ∧
                            d_now d !! temp_name (pe_nanos env) b = None ∧
                            d_now d' = <[temp_name (pe_nanos env) b := f]> (d_now d)) →
    persisted env entries node d d' (Err (plain msg))
| ps_published d' b f res :
    b_ID b = newUUID (pe_random env) → validUUID (b_ID b) = true → b_Entries b ≡ₚ entries → b_NodeID b = node →
    file_batch (batch_name (pe_nanos env) b) f = Some b → d_now d' = <[batch_name (pe_nanos env) b := f]> (d_now d) →
    res = Ok tt ∨ (∃ msg, res = Err (mkSaveError true msg)) →
    persisted env entries node d d' res.

(** the types of the integers that go into a batch *)
Definition node_typed (n : Node) : Prop := is_int64 (node_ID n) = true ∧ 0 ≤ node_ConfigurationVersion n < 2 ^ 64.

(** a batch that Save wrote is read back from its file *)
Lemma saved_file st nanos b d text : save_started st nanos b d text → batch_typed b →
  validUUID (b_ID b) = true ∧
  file_batch (batch_name nanos b) (mkFile Regular (batch_text text) true) = Some b.
Proof.
  intros [_ Hval Htext _ _] Hty. split.
  - unfold validate in Hval. rewrite !guard_bind_Ok_inv in Hval. by destruct Hval as (_ & Hu%negb_false_iff & _).
  - unfold file_batch. rewrite (proj1 (batch_name_suffix _ _)). cbn [f_kind f_data andb]. rewrite bool_decide_eq_true_2 by done.
    rewrite readBatch_Some. split; [|done].
    by apply unmarshal_marshal.
Qed.

Lemma persist_spec env st entries snap d :
  node_typed (snap_Node snap) → is_int64 (pe_unix env) = true → (∀ e, e ∈ entries → is_int64 (e_UserID e) = true) →
  persisted env entries (node_ID (snap_Node snap)) d (persist env st entries snap d).1 (persist env st entries snap d).2.
Proof.
  intros [Hnode Hver] Hunix Hids. unfold persist. destruct entries as [|e l] eqn:Ee; [by apply ps_nothing|].
  rewrite <- Ee in *. clear e l Ee. cbv zeta. destruct (NewBatch _ _ _ _ _ _) as [b|err|] eqn:Hb.
  - apply NewBatch_inv in Hb as (Hid & Hn & Hv & Hc & He).
    assert (Hty : batch_typed b).
    { split; [by rewrite Hn|]. split; [by rewrite Hc|]. split; [by rewrite Hv|]. intros x Hx. apply Hids. by rewrite <- He. }
    destruct (Save_outcome st (pe_faults env) (pe_nanos env) b d) as [msg|text f past msg Hs _ _|text past Hs _|text Hs];
      cbn [fst snd]; [apply ps_refused; by left|..]; destruct (saved_file _ _ _ _ _ Hs Hty) as [Hu Hf].
    + apply ps_refused. right. exists b, f. split; [done|]. split; [done|]. split; [apply Hs|done].
    + eapply (ps_published _ _ _ _ _ b _); try done. right. by eexists.
    + eapply (ps_published _ _ _ _ _ b _); try done. by left.
  - apply ps_refused. by left.
  - by apply NewBatch_no_panic in Hb.
Qed.

(** ** Replaying *)
Definition bandwidth (node : Z) (p : Panel) : Z :=
  match p_nodes p !! node with Some r => nr_node_bandwidth r | None => 0 end.

Lemma credit_batches now b hash p :
  p_batches (credit now b hash p) = <[batch_key (b_ID b) := mkBatchRow (b_NodeID b) hash (b_CreatedAt b) (now 0%nat)]> (p_batches p).
Proof.
  unfold credit. cbv zeta. change (p_batches (with_nodes ?m ?r)) with (p_batches r).
  by rewrite (proj2 (credit_entries_frame _ _ _ _ _)).
Qed.

Lemma credit_bandwidth now b hash p : is_Some (p_nodes p !! b_NodeID b) →
  bandwidth (b_NodeID b) (credit now b hash p) = bandwidth (b_NodeID b) p + entries_total (b_Entries b).
Proof.
  intros [r Hr]. unfold bandwidth, credit. cbv zeta. change (p_nodes (with_nodes ?m ?q)) with m.
  rewrite (proj1 (credit_entries_frame _ _ _ _ _)). change (p_nodes (with_batches ?m ?q)) with (p_nodes q).
  by rewrite lookup_alter_eq, Hr.
Qed.

Lemma file_batch_valid name f b : file_batch name f = Some b →
  validate true b = Ok tt ∧ has_suffix name ".json" = true ∧ entries_ok 0 (b_Entries b).
Proof.
  unfold file_batch. destruct (has_suffix name ".json"); [|done]. cbn [andb]. case_bool_decide; [|done].
  intros [_ Hv]%readBatch_Some. split; [done|]. split; [done|].
  unfold validate in Hv. rewrite !guard_bind_Ok_inv in Hv. destruct Hv as (_ & _ & _ & Hv).
  apply obind_Ok_inv in Hv as ([] & Hv & _). by apply validate_entries_Ok.
Qed.

(** applying the batch of a file moves what it is worth to the panel *)
Lemma apply_keeps ft now node p m name f b : tidy node m → m !! name = Some f → file_batch name f = Some b →
  let r := ApplyBatch ft now b p in
  r.2 ≠ Panic ∧ bandwidth node r.1 + pending r.1 m = bandwidth node p + pending p m ∧
  (r.2 = Ok tt → batch_worth r.1 b = 0).
Proof.
  intros Ht Hf Hb. cbv zeta. destruct (file_batch_valid _ _ _ Hb) as (_ & _ & Hok).
  pose proof (td_node _ _ Ht _ _ _ Hf Hb) as Hnode.
  destruct (ApplyBatch_attempt ft now b p Hok) as [e|(row & hash & Hrow & _)|hash res Hnone Hh Hn Hres].
  - done.
  - split; [done|]. split; [done|]. intros _. unfold batch_worth. by rewrite Hrow.
  - split; [by destruct Hres as [-> | ->]|]. rewrite <- Hnode, credit_bandwidth by done.
    assert (Ew : batch_worth (credit now b hash p) b = 0).
    { unfold batch_worth. rewrite credit_batches, lookup_insert_eq. done. }
    split; [|done]. unfold pending.
    rewrite (msum_change (file_worth (credit now b hash p)) (file_worth p) m name f Hf).
    + assert (E1 : file_worth (credit now b hash p) name f = 0) by (unfold file_worth; by rewrite Hb).
      assert (E2 : file_worth p name f = entries_total (b_Entries b)).
      { unfold file_worth. rewrite Hb. unfold batch_worth. by rewrite Hnone. }
      rewrite E1, E2. lia.
    + intros n g Hne Hg. unfold file_worth. destruct (file_batch n g) as [b'|] eqn:Hb'; [|done].
      unfold batch_worth. rewrite credit_batches, lookup_insert_ne; [done|].
      intros Ek. apply Hne. symmetry. eapply (td_once _ _ Ht); eauto.
Qed.

(** the listed files, as the directory has them *)
Definition listed (st : Store) (m : gmap string File) (files : list (string * Batch)) : Prop :=
  ∃ names, map fst files = map (Join (st_dir st)) names ∧ NoDup names ∧
    Forall2 (λ name x, ∃ f, m !! name = Some f ∧ file_batch name f = Some x.2) names files.

Lemma ListBatches_listed st rd un m files : ListBatches st rd un m = Ok files → listed st m files.
Proof.
  unfold ListBatches. intros [_ Hl]%guard_bind_Ok_inv. apply obind_Ok_inv in Hl as (l & Hl & [= <-]).
  apply list_entries_Ok in Hl. exists (sorted_names m). split; [|split; [apply sorted_names_NoDup|]].
  - rewrite map_map. cbn. clear -Hl. induction Hl as [|name x names l [Hx _] _ IH]; [done|]. cbn. by rewrite Hx, IH.
  - rewrite Forall2_fmap_r. eapply Forall2_impl; [exact Hl|]. cbn. intros name x [Hx He].
    apply list_entry_Ok in He as (f & Hf & _ & Hjson & Hk & _ & Hread & _). exists f. split; [done|].
    unfold file_batch. rewrite Hjson, bool_decide_eq_true_2 by done. done.
Qed.

Lemma replay_files_keeps env st stateDir i files p d node :
  has_prefix stateDir "/" = true → st_dir st = Join stateDir "outbox" → tidy node (d_now d) → listed st (d_now d) files →
  let r := replay_files env st i files p d in
  r.2 ≠ Panic ∧ tidy node (d_now r.1.2) ∧
  bandwidth node r.1.1 + pending r.1.1 (d_now r.1.2) = bandwidth node p + pending p (d_now d).
Proof.
  intros Hroot Hdir. cbv zeta. revert i p d. induction files as [|[path b] files IH]; intros i p d Ht Hl; [done|].
  destruct Hl as (names & Hpaths & Hnd & HF). apply Forall2_cons_inv_r in HF as (name & names' & (f & Hf & Hb) & HF & ->).
  cbn in Hpaths. injection Hpaths as -> Hpaths. apply NoDup_cons in Hnd as [Hnot Hnd]. cbn [snd] in Hb.
  cbn [replay_files]. destruct (apply_keeps (re_apply env i) (re_now env i) node p (d_now d) name f b Ht Hf Hb) as (Hnp & Hkeep & Hdone).
  destruct (ApplyBatch _ _ _ _) as [p1 [[]|e|]]; cbn [fst snd] in *; [|done..].
  destruct (file_batch_valid _ _ _ Hb) as (_ & Hjson & _).
  destruct (remove_listed st stateDir (re_remove env i) (re_sync env i) name d Hroot Hdir
    (td_names _ _ Ht name ltac:(by eexists)) Hjson) as [Hrp Hr].
  assert (Hworth : file_worth p1 name f = 0) by (unfold file_worth; rewrite Hb; by apply Hdone).
  assert (Hcases : d_now (Remove st (re_remove env i) (re_sync env i) (Join (st_dir st) name) d).1 = d_now d ∨
     d_now (Remove st (re_remove env i) (re_sync env i) (Join (st_dir st) name) d).1 = delete name (d_now d)) by tauto.
  destruct (Remove _ _ _ _ _) as [d1 [[]|e|]]; cbn [fst snd] in *.
  - destruct Hr as [[_ ?]|Hr]; [done|]. destruct (IH (S i) p1 d1) as (H1 & H2 & H3).
    + rewrite Hr. by apply tidy_delete.
    + exists names'. split; [done|]. split; [done|]. rewrite Hr. clear -HF Hnot.
      induction HF as [|n x ns l (g & Hg & Hx) _ IH']; [done|]. apply not_elem_of_cons in Hnot as [Hne Hnot].
      constructor; [|by apply IH']. exists g. split; [|done]. by rewrite lookup_delete_ne.
    + split; [done|]. split; [done|]. rewrite H3, Hr, (pending_delete _ _ _ f) by done. done.
  - split; [done|]. destruct Hcases as [-> | ->]; [done|]. split; [by apply tidy_delete|].
    by rewrite (pending_delete _ _ _ f).
  - done.
Qed.

Lemma replay_keeps env st stateDir p d node :
  has_prefix stateDir "/" = true → st_dir st = Join stateDir "outbox" → tidy node (d_now d) →
  let r := replay env st p d in
  r.2 ≠ Panic ∧ tidy node (d_now r.1.2) ∧
  bandwidth node r.1.1 + pending r.1.1 (d_now r.1.2) = bandwidth node p + pending p (d_now d).
Proof.
  intros Hroot Hdir Ht. unfold replay. destruct (ListBatches _ _ _ _) as [files|e|] eqn:Hl.
  - eapply replay_files_keeps; [done|done|done|by eapply ListBatches_listed].
  - done.
  - exfalso. revert Hl. unfold ListBatches. cbv zeta. apply obind_no_panic; [apply guard_no_panic|intros].
    apply obind_no_panic; [|done]. generalize (sorted_names (d_now d)). intros names.
    induction names as [|name names IH]; cbn [list_entries]; [done|].
    apply obind_no_panic; [|intros; apply obind_no_panic; [done|done]]. unfold list_entry. no_panic.
Qed.

(** a replay that succeeds leaves nothing in the outbox *)
Lemma replay_files_empties env st stateDir i names files p d :
  has_prefix stateDir "/" = true → st_dir st = Join stateDir "outbox" →
  (∀ n, is_Some (d_now d !! n) → no_slash n = true ∧ has_suffix n ".json" = true ∧ n ∈ names) →
  (∀ n, n ∈ names → is_Some (d_now d !! n)) →
  map fst files = map (Join (st_dir st)) names → NoDup names →
  (replay_files env st i files p d).2 = Ok tt → d_now (replay_files env st i files p d).1.2 = ∅.
Proof.
  intros Hroot Hdir. revert i names p d. induction files as [|[path b] files IH]; intros i names p d Hall Hin Hpaths Hnd.
  { destruct names; [|done]. intros _. apply map_eq. intros n. rewrite lookup_empty, eq_None_not_Some.
    intros (_ & _ & Hn)%Hall. by apply not_elem_of_nil in Hn. }
  destruct names as [|name names]; [done|]. cbn in Hpaths. injection Hpaths as -> Hpaths.
  apply NoDup_cons in Hnd as [Hnot Hnd]. cbn [replay_files].
  destruct (ApplyBatch _ _ _ _) as [p1 [[]|e|]]; [|done..].
  destruct (Hall name (Hin name ltac:(by left))) as (Hslash & Hjson & _).
  destruct (remove_listed st stateDir (re_remove env i) (re_sync env i) name d Hroot Hdir Hslash Hjson) as [_ Hr].
  destruct (Remove _ _ _ _ _) as [d1 [[]|e|]]; cbn [fst snd] in *; [|done..]. destruct Hr as [[_ ?]|Hr]; [done|].
  apply (IH (S i) names p1 d1); try done; rewrite Hr.
  - intros n [g [Hne Hg]%lookup_delete_Some]. destruct (Hall n ltac:(by eexists)) as (? & ? & Hn).
    split; [done|]. split; [done|]. apply elem_of_cons in Hn as [?|?]; [congruence|done].
  - intros n Hn. rewrite lookup_delete_ne; [apply Hin; by right|]. intros ->. done.
Qed.

Lemma replay_empties env st stateDir p d node :
  has_prefix stateDir "/" = true → st_dir st = Join stateDir "outbox" → tidy node (d_now d) →
  (replay env st p d).2 = Ok tt → d_now (replay env st p d).1.2 = ∅.
Proof.
  intros Hroot Hdir Ht. unfold replay. destruct (ListBatches _ _ _ _) as [files|e|] eqn:Hl; [|done..].
  pose proof Hl as (names & Hpaths & Hnd & HF)%ListBatches_listed.
  unfold ListBatches in Hl. apply guard_bind_Ok_inv in Hl as [_ Hl]. apply obind_Ok_inv in Hl as (l & Hl & [= El]).
  apply list_entries_Ok in Hl. apply (replay_files_empties env st stateDir 0 (sorted_names (d_now d))); try done.
  - intros n Hn. pose proof Hn as Hin%elem_of_sorted_names. split; [by apply (td_names _ _ Ht)|]. split; [|done].
    apply list_elem_of_lookup in Hin as [k Hk]. destruct (Forall2_lookup_l _ _ _ _ _ Hl Hk) as (x & _ & _ & Hx).
    apply list_entry_Ok in Hx as (? & _ & _ & Hj & _). done.
  - intros n. apply elem_of_sorted_names.
  - rewrite <- El, map_map. cbn. clear -Hl. induction Hl as [|n x ns l [Hx _] _ IH]; [done|]. cbn. by rewrite Hx, IH.
  - apply sorted_names_NoDup.
Qed.
End Ledger.
