(* ===== verification/LedgerState.v ===== *)
(** The ledger of a running service: report, refresh, reload and shutdown keep it.
    Sessions and traffic go on in between, and others write to the panel. What is
    lost on the way is measured: by a restart that fails ([reload_loses]), by a
    shutdown that cannot save, and by links that count where no drain looks. *)
From S2P Require Import Prelude GoString GoPath Float64 Digest Json Policy Model Identity Config Session SessionInv.
From S2P Require Import Outbox OutboxProps BatchText Database DatabaseProps Xray Engine EngineUsers EngineTraffic EngineSafe.
From S2P Require Import DrainSteps Lifecycle Ledger.

Local Open Scope string_scope.
Local Open Scope Z_scope.

Section Ledger.
Context `{BatchCodec, !LawfulCodec}.

(** the panel's columns hold integers of their types *)
Record panel_typed (p : Panel) : Prop := {
  pt_users : ∀ id r, p_users p !! id = Some r → is_int64 id = true;
  pt_configs : ∀ id c, p_configs p !! id = Some c → 0 ≤ cr_config_version c < 2 ^ 64 }.

(** the node of the service *)
Definition node_of (s : runtimeState) : Z := st_nodeID (s_store s).

(** what a drain of the engine takes, when the engine is closed or when it is not *)
Definition closing_entries (e : Engine) : list Entry := if running e then drained_entries e else [].
Definition takeable (e : Engine) : Z := entries_total (closing_entries e).
(** what no drain takes *)
Definition adrift (e : Engine) : Z := if running e then stray e else outstanding e.

(** what the panel has, what waits for it, and what the next drain takes *)
Definition ledger (s : runtimeState) : Z :=
  bandwidth (node_of s) (s_db s) + pending (s_db s) (d_now (s_disk s)) + takeable (s_engine s).

Record ready (s : runtimeState) : Prop := {
  rd_sound : sound (s_engine s);
  rd_typed : node_typed (snap_Node (snapshot (s_engine s)));
  rd_node : node_ID (snap_Node (snapshot (s_engine s))) = node_of s;
  rd_cfg : cfg_NodeID (s_cfg s) = node_of s;
  rd_root : ∃ stateDir, has_prefix stateDir "/" = true ∧ st_dir (s_store s) = Join stateDir "outbox";
  rd_tidy : tidy (node_of s) (d_now (s_disk s));
  rd_panel : panel_typed (s_db s) }.

(** The identifier drawn for a batch is new to the panel and to the outbox, and the
    clock shows a 64-bit time: what 122 random bits and the clock give. *)
Record fresh (env : PersistEnv) (s : runtimeState) : Prop := {
  fr_unix : is_int64 (pe_unix env) = true;
  fr_panel : p_batches (s_db s) !! batch_key (newUUID (pe_random env)) = None;
  fr_outbox : ∀ n f b, d_now (s_disk s) !! n = Some f → file_batch n f = Some b →
    batch_key (b_ID b) ≠ batch_key (newUUID (pe_random env));
  fr_name : ∀ b, b_ID b = newUUID (pe_random env) → d_now (s_disk s) !! batch_name (pe_nanos env) b = None }.

(** ** Persisting *)
Lemma persisted_keeps env entries node p d d' res :
  persisted env entries node d d' res → tidy node (d_now d) →
  p_batches p !! batch_key (newUUID (pe_random env)) = None →
  (∀ n f b, d_now d !! n = Some f → file_batch n f = Some b → batch_key (b_ID b) ≠ batch_key (newUUID (pe_random env))) →
  (∀ b, b_ID b = newUUID (pe_random env) → d_now d !! batch_name (pe_nanos env) b = None) →
  tidy node (d_now d') ∧ res ≠ Panic ∧
  pending p (d_now d') = pending p (d_now d) +
    match res with Err e => if WasPublished e then entries_total entries else 0 | _ => entries_total entries end.
Proof.
  intros Hp Ht Hpanel Hout Hname. destruct Hp as [->|d' msg Hd|d' b f res Hid Hu He Hn Hf Hd Hres].
  - split; [done|]. split; [done|]. unfold entries_total. cbn. lia.
  - cbn. destruct Hd as [->|(b & f & Hid & Hu & Hnone & ->)]; [split; [done|]; split; [done|lia]|].
    assert (Hfb : file_batch (temp_name (pe_nanos env) b) f = None) by (unfold file_batch; by rewrite temp_not_json).
    split; [|split; [done|]].
    + apply tidy_insert; [done| |by rewrite Hfb]. unfold temp_name. rewrite no_slash_app, batch_name_no_slash by done. done.
    + rewrite pending_insert by done. unfold file_worth. rewrite Hfb. lia.
  - rewrite Hd. split; [|split; [by destruct Hres as [->|[? ->]]|]].
    + apply tidy_insert; [done|by apply batch_name_no_slash|]. rewrite Hf. split; [done|]. rewrite Hid. intros n g b'. apply Hout.
    + rewrite pending_insert by by apply Hname. unfold file_worth. rewrite Hf. unfold batch_worth. rewrite Hid, Hpanel.
      rewrite bool_decide_eq_true_2 by done. rewrite He. destruct Hres as [->|[msg ->]]; cbn; lia.
Qed.

Lemma drained_ids e : sound e → ∀ x, x ∈ drained_entries e → is_int64 (e_UserID x) = true.
Proof.
  unfold drained_entries. intros Hs x (Hx & _)%elem_of_taken. apply elem_of_sorted_ids in Hx. by apply (so_metered _ Hs).
Qed.

Lemma takeable_adrift e : sound e → takeable e = outstanding e - adrift e.
Proof.
  intros Hs. unfold takeable, closing_entries, adrift. destruct (running e).
  - rewrite (stray_split e (so_metered _ Hs)). lia.
  - unfold entries_total. cbn. lia.
Qed.

Lemma takeable_le e : sound e → running e = true → takeable e = entries_total (drained_entries e).
Proof. intros _ Hr. unfold takeable, closing_entries. by rewrite Hr. Qed.

Lemma takeable_drained e : sound e → takeable (drained_engine e) = 0.
Proof.
  intros Hs. rewrite takeable_adrift by by apply sound_drain. unfold adrift. cbn [drained_engine running].
  destruct (running e); [|lia]. rewrite stray_drain. unfold stray. lia.
Qed.

Lemma takeable_restored e e' entries : sound e → Drain e = (e', Ok entries) →
  takeable (RestoreEntries entries e') = takeable e.
Proof.
  intros Hs Hd. rewrite !takeable_adrift by (done || by eapply sound_restore). unfold adrift, outstanding.
  rewrite (stray_restore _ _ _ (so_metered _ Hs) Hd), (restored_stats _ _ _ (so_metered _ Hs) Hd).
  rewrite Drain_spec in Hd by apply Hs. by injection Hd as <- <-.
Qed.

(** draining and persisting moves traffic from the counters to the outbox, or leaves it *)
Lemma drain_and_persist_keeps env context s : ready s → fresh env s → running (s_engine s) = true →
  let r := drain_and_persist env context s in
  r.2 ≠ Panic ∧ ready r.1 ∧ ledger r.1 = ledger s ∧ node_of r.1 = node_of s ∧
  snapshot (s_engine r.1) = snapshot (s_engine s) ∧ s_db r.1 = s_db s ∧
  running (s_engine r.1) = true ∧ stray (s_engine r.1) = stray (s_engine s).
Proof.
  intros Hr Hf Hrun. pose proof (rd_sound _ Hr) as Hs. pose proof (so_metered _ Hs) as Hm. unfold drain_and_persist.
  rewrite (Drain_spec _ Hm). cbv zeta. change (snapshot (drained_engine (s_engine s))) with (snapshot (s_engine s)).
  pose proof (persist_spec env (s_store s) (drained_entries (s_engine s)) (snapshot (s_engine s)) (s_disk s)
    (rd_typed _ Hr) (fr_unix _ _ Hf) (drained_ids _ Hs)) as Hp.
  rewrite (rd_node _ Hr) in Hp.
  destruct (persisted_keeps env _ _ (s_db s) _ _ _ Hp (rd_tidy _ Hr) (fr_panel _ _ Hf) (fr_outbox _ _ Hf) (fr_name _ _ Hf))
    as (Ht & Hnp & Hpend).
  pose proof (takeable_le _ Hs Hrun) as Htake. pose proof (takeable_drained _ Hs) as Hnone.
  destruct (persist _ _ _ _ _) as [d [[]|err|]]; cbn [fst snd] in *.
  - split; [done|]. split; [by constructor; try apply Hr; [apply sound_drain|..]|].
    split; [|split_and!; try done; apply stray_drain].
    unfold ledger, node_of. cbn [s_engine s_db s_disk s_store set_disk set_engine]. rewrite Hpend, Hnone. lia.
  - destruct (WasPublished err); (split; [done|]).
    + split; [by constructor; try apply Hr; [apply sound_drain|..]|].
      split; [|split_and!; try done; apply stray_drain].
      unfold ledger, node_of. cbn [s_engine s_db s_disk s_store set_disk set_engine]. rewrite Hpend, Hnone. lia.
    + pose proof (Drain_spec _ Hm) as Hd.
      split; [constructor; try apply Hr; [by eapply sound_restore|done]|].
      split; [|split_and!; try done; by eapply stray_restore].
      unfold ledger, node_of. cbn [s_engine s_db s_disk s_store set_disk set_engine].
      rewrite Hpend, (takeable_restored _ _ _ Hs Hd). lia.
  - done.
Qed.

(** ** The panel keeps its types *)
Definition same_keys (p p' : Panel) : Prop :=
  (∀ id, is_Some (p_users p' !! id) → is_Some (p_users p !! id)) ∧ p_configs p' = p_configs p.

Lemma same_keys_trans p1 p2 p3 : same_keys p1 p2 → same_keys p2 p3 → same_keys p1 p3.
Proof. intros [H1 E1] [H2 E2]. split; [auto|congruence]. Qed.

Lemma panel_typed_keys p p' : same_keys p p' → panel_typed p → panel_typed p'.
Proof.
  intros [Hu Hc] [T1 T2]. constructor.
  - intros id r Hr. destruct (Hu id ltac:(by eexists)) as [r' Hr']. by eapply T1.
  - intros id c. rewrite Hc. apply T2.
Qed.

Lemma credit_entries_keys now b i l p : same_keys p (credit_entries now b i l p).
Proof.
  revert i p. induction l as [|e l IH]; intros i p; cbn [credit_entries]; [done|].
  eapply same_keys_trans; [|apply IH]. split; [|done]. intros id. cbn [p_users]. unfold credit_entry.
  rewrite lookup_alter_is_Some. done.
Qed.

Lemma ApplyBatch_keys ft now b p : entries_ok 0 (b_Entries b) → same_keys p (ApplyBatch ft now b p).1.
Proof.
  intros Hok. destruct (ApplyBatch_attempt ft now b p Hok) as [e|Hk|hash res _ _ _ _]; [done..|].
  unfold credit. cbv zeta. match goal with |- same_keys p (with_nodes ?m ?q) => change (same_keys p q) end.
  eapply same_keys_trans; [|apply credit_entries_keys]. done.
Qed.

Lemma replay_keys env st p d : same_keys p (replay env st p d).1.1.
Proof.
  unfold replay. destruct (ListBatches _ _ _ _) as [files|e|] eqn:Hl; [|done..]. apply ListBatches_listed in Hl as (names & _ & _ & HF).
  assert (Hok : Forall (λ x : string * Batch, entries_ok 0 (b_Entries x.2)) files).
  { clear -HF. induction HF as [|n x ns l (f & _ & Hb) _ IH]; constructor; [|done]. by apply file_batch_valid in Hb as (_ & _ & ?). }
  clear HF. generalize 0%nat. revert p d. induction files as [|[path b] files IH]; intros p d i; [done|].
  apply Forall_cons in Hok as [Hb Hok]. cbn [replay_files]. pose proof (ApplyBatch_keys (re_apply env i) (re_now env i) b p Hb) as Hk.
  destruct (ApplyBatch _ _ _ _) as [p1 [[]|e|]]; [|done..]. destruct (Remove _ _ _ _ _) as [d1 [[]|e|]]; [|done..].
  eapply same_keys_trans; [exact Hk|by apply IH].
Qed.

(** telemetry touches neither traffic nor users *)
Lemma insert_alive_frame fails now node i l p q : insert_alive fails now node i l p = Ok q →
  p_users q = p_users p ∧ p_nodes q = p_nodes p ∧ p_configs q = p_configs p ∧ p_batches q = p_batches p.
Proof.
  revert i p. induction l as [|[u ip] l IH]; intros i p; cbn [insert_alive]; [by intros [= <-]|].
  intros [_ Hq]%guard_bind_Ok_inv. by apply IH in Hq.
Qed.

Lemma insert_alive_no_panic fails now node i l p : insert_alive fails now node i l p ≠ Panic.
Proof.
  revert i p. induction l as [|[u ip] l IH]; intros i p; cbn [insert_alive]; [done|].
  apply obind_no_panic; [apply guard_no_panic|]. intros _. apply IH.
Qed.

Lemma telemetry_frame ft now node online uptime load p :
  let r := ReportTelemetry ft now node online uptime load p in
  r.2 ≠ Panic ∧ same_keys p r.1 ∧ p_batches r.1 = p_batches p ∧ ∀ n, bandwidth n r.1 = bandwidth n p.
Proof.
  unfold ReportTelemetry. destruct (tf_begin ft); [done|]. cbv zeta.
  destruct (insert_alive _ _ _ _ _ _) as [t|e|] eqn:Ht; [|done|].
  2:{ exfalso. by eapply insert_alive_no_panic. }
  apply insert_alive_frame in Ht as (E1 & E2 & E3 & E4).
  destruct (tf_online ft); [done|]. destruct (tf_info ft); [done|]. destruct (tf_heartbeat ft); [done|].
  unfold update_heartbeat. cbn [p_nodes]. rewrite E2.
  assert (Hband : ∀ beat r n, p_nodes p !! node = Some r →
    match <[node := set_heartbeat beat r]> (p_nodes p) !! n with Some r => nr_node_bandwidth r | None => 0 end =
    match p_nodes p !! n with Some r => nr_node_bandwidth r | None => 0 end).
  { intros beat r n Hr. rewrite lookup_insert. case_decide as E; [subst n; by rewrite Hr|done]. }
  destruct (p_nodes p !! node) as [r|] eqn:Hr; [|done]. destruct (negb _); [done|].
  assert (Hkeys : ∀ q, p_users q = p_users t → p_configs q = p_configs t → same_keys p q).
  { intros q H1 H2. split; [rewrite H1, E1; done|by rewrite H2]. }
  destruct (tf_commit ft); cbn [fst snd]; (split; [done|]); (split; [done || by apply Hkeys|]);
    (split; [done || exact E4|]); intros n; try done; by apply Hband.
Qed.

Lemma pending_panel p p' m : p_batches p' = p_batches p → pending p' m = pending p m.
Proof.
  intros E. apply msum_ext. intros n f _. unfold file_worth, batch_worth. by rewrite E.
Qed.

(** ** report *)
Lemma report_keeps env s : ready s → fresh (rp_persist env) s → running (s_engine s) = true →
  let r := report env s in r.2 ≠ Panic ∧ ready r.1 ∧ ledger r.1 = ledger s ∧ node_of r.1 = node_of s ∧
    running (s_engine r.1) = true ∧ stray (s_engine r.1) = stray (s_engine s).
Proof.
  intros Hr Hf Hrun. unfold report.
  destruct (drain_and_persist_keeps (rp_persist env) "persist traffic" s Hr Hf Hrun)
    as (Hnp & Hr1 & Hl1 & Hn1 & _ & Hdb & Hrun1 & Hst1).
  destruct (drain_and_persist _ _ _) as [s1 [[]|e|]]; cbn [fst snd] in *; [|done..].
  destruct (rd_root _ Hr1) as (stateDir & Hroot & Hdir).
  destruct (replay_keeps (rp_replay env) (s_store s1) stateDir (s_db s1) (s_disk s1) (node_of s1) Hroot Hdir (rd_tidy _ Hr1))
    as (Hnp2 & Ht & Hkeep).
  pose proof (replay_keys (rp_replay env) (s_store s1) (s_db s1) (s_disk s1)) as Hkeys.
  destruct (replay _ _ _ _) as [[p d] replayed]. cbn [fst snd] in *. cbv zeta.
  match goal with |- context [ReportTelemetry ?ft ?now ?n ?o ?u ?l ?q] =>
    destruct (telemetry_frame ft now n o u l q) as (Hnp3 & Hk3 & Hb3 & Hband); destruct (ReportTelemetry ft now n o u l q) as [p2 tele] end.
  cbn [fst snd s_db set_db set_disk set_lastRejected] in *.
  assert (Hready : ∀ m, ready (mkState (s_cfg s1) p2 (s_store s1) d (s_engine s1) (s_privateKey s1) (s_started s1) (s_lastAuth s1) m)).
  { intros m. constructor; try apply Hr1; [exact Ht|]. eapply panel_typed_keys; [|apply (rd_panel _ Hr1)].
    eapply same_keys_trans; [exact Hkeys|exact Hk3]. }
  assert (Hledger : ∀ m, ledger (mkState (s_cfg s1) p2 (s_store s1) d (s_engine s1) (s_privateKey s1) (s_started s1) (s_lastAuth s1) m) = ledger s1).
  { intros m. unfold ledger, node_of in *. cbn. rewrite Hband, (pending_panel p) by done. lia. }
  unfold set_lastRejected, set_db, set_disk.
  cbn [s_cfg s_db s_store s_disk s_engine s_privateKey s_started s_lastAuth s_lastRejected].
  destruct replayed as [[]|e|]; destruct tele as [[]|e'|]; try done;
    (destruct (if rp_size env then None else Size (d_now d)) as [used|]; [destruct (_ <=? used)|]);
    cbn [fst snd]; (split; [done|]); (split; [apply Hready|]); (split; [|done]);
    (etransitivity; [apply Hledger|done]).
Qed.

(** ** reload *)
Definition snapshot_ok (node : Z) (next : Snapshot) : Prop :=
  ids_typed next ∧ node_typed (snap_Node next) ∧ node_ID (snap_Node next) = node.

Lemma sound_same e e' : sound e → users (registry e') = users (registry e) →
  (∀ uid, HasUserSessions (registry e') uid = true → HasUserSessions (registry e) uid = true) →
  stats e' = stats e → snapshot e' = snapshot e → retired e' = retired e → sound e'.
Proof.
  intros [H1 H2 [H4 H5]] Eu Es Est Esn Er. assert (Et : tracked e' = tracked e) by (unfold tracked; by rewrite Esn, Er).
  constructor.
  - by rewrite Eu, Esn.
  - intros uid Hu. rewrite Et. by apply H2, Es.
  - split; [by rewrite Est|by rewrite Et].
Qed.

(** closing an engine takes what a drain takes *)
Lemma close_spec fails e : sound e → running e = true →
  ∃ e' cbs, CloseAndDrain fails e = (e', cbs, Ok (drained_entries e, if fails then Some "close Xray core" else None)) ∧
    sound e' ∧ outstanding e' = stray e ∧ snapshot e' = snapshot e ∧ running e' = false ∧ registered e' = false.
Proof.
  intros Hs Hrun. unfold CloseAndDrain. rewrite Hrun. cbn [negb].
  pose proof (revoked_from_revokeLocked (dom (users (with_closed true (registry e)))) ∅ (with_closed true (registry e))) as [_ Er].
  unfold CloseRegistry. destruct (revokeLocked _ _ _) as [r cbs]. cbn [fst] in Er. cbv zeta.
  set (e1 := mkEngine false (stats e) (table e) r false (snapshot e) (retired e)).
  assert (Hs1 : sound e1) by (by apply (sound_same e); try done; cbn [registry e1]; rewrite Er).
  pose proof (so_metered _ Hs1) as Hm. rewrite (Drain_spec e1 Hm). exists (drained_engine e1), cbs.
  split; [by destruct fails|]. split; [by apply sound_drain|]. split; [|done]. by apply (stray_same e).
Qed.

(** closing a closed engine takes nothing *)
Lemma close_any fails e : sound e →
  ∃ e' cbs err, CloseAndDrain fails e = (e', cbs, Ok (closing_entries e, err)) ∧ sound e' ∧ snapshot e' = snapshot e.
Proof.
  intros Hs. unfold closing_entries. destruct (running e) eqn:Hrun.
  - destruct (close_spec fails e Hs Hrun) as (e' & cbs & E & ? & _ & ? & _). eauto 7.
  - unfold CloseAndDrain. rewrite Hrun. cbn [negb]. by exists e, [], None.
Qed.

Lemma outstanding_fresh e : stats e = ∅ → outstanding e = 0.
Proof. unfold outstanding. intros ->. apply msum_empty. Qed.

Lemma fresh_engine e : sound e → stats e = ∅ → takeable e = 0 ∧ adrift e = 0.
Proof.
  intros Hs Hst. rewrite takeable_adrift by done. unfold adrift.
  rewrite outstanding_fresh, stray_fresh by done. by destruct (running e).
Qed.

Lemma snapshot_ok_current s : ready s → snapshot_ok (node_of s) (snapshot (s_engine s)).
Proof.
  intros Hr. split; [|split; [apply Hr|apply Hr]]. intros uid Hu. apply (rd_sound _ Hr).
  unfold tracked. apply elem_of_union_l. by apply elem_of_list_to_set.
Qed.

(** switching the users of the engine in place *)
Lemma Apply_keeps next e : sound e → ids_typed next → (Apply next e).2 ≠ Panic →
  sound (Apply next e).1 ∧ stray (Apply next e).1 ≤ stray e ∧ stats (Apply next e).1 = stats e ∧
  ((∃ x, (Apply next e).2 = Ok x) ∧ snapshot (Apply next e).1 = next ∧ running (Apply next e).1 = true ∧
     dataPlaneNodeEqual (snap_Node (snapshot e)) (snap_Node next) = true ∨
   snapshot (Apply next e).1 = snapshot e ∧ running (Apply next e).1 = running e ∧ ∃ x, (Apply next e).2 = Err x).
Proof.
  intros Hs Hids Hp. destruct (sound_apply e next _ _ Hs Hids (surjective_pairing _) Hp) as [H1 H2].
  split; [done|]. split; [done|]. clear H1 H2.
  revert Hp. unfold Apply. rewrite usersByID_userMap. destruct (negb (running e)); [eauto 6|]. destruct (dataPlaneNodeEqual _ _) eqn:Hdp; cbn [negb]; [|eauto 6].
  cbv zeta. destruct (remove_all _ _ _) as [[v1 removed] [err|]]; [destruct (rollbackUsers _ _ _ _ _); cbn; eauto 6|].
  destruct (add_all _ _ _) as [[v2 added] [err|]]; [destruct (rollbackUsers _ _ _ _ _); cbn; eauto 6|].
  destruct (Update _ _) as [[[r cbs] revoked]|err|]; cbn; [|eauto 6|done]. intros _. split; [done|]. left. eauto.
Qed.

Lemma ready_engine s e : ready s → sound e → snapshot_ok (node_of s) (snapshot e) → ready (set_engine e s).
Proof. intros Hr Hs (_ & Ht & Hn). by constructor; try apply Hr. Qed.

(** what comes back into sight of the drains *)
Definition regained (s s' : runtimeState) (g : Z) : Prop :=
  0 ≤ g ∧ ledger s' = ledger s + g ∧ g + adrift (s_engine s') ≤ adrift (s_engine s).

Lemma regained_none s s' : ledger s' = ledger s → adrift (s_engine s') = adrift (s_engine s) → regained s s' 0.
Proof. intros H1 H2. unfold regained. lia. Qed.

Lemma Apply_regains s s1 e : ready s1 → ledger s1 = ledger s → adrift (s_engine s1) = adrift (s_engine s) →
  running (s_engine s1) = true → sound e → running e = true →
  stats e = stats (s_engine s1) → stray e ≤ stray (s_engine s1) →
  regained s (set_engine e s1) (stray (s_engine s1) - stray e).
Proof.
  intros Hr Hl Ha Hrun Hs He Est Hle. unfold regained. rewrite <- Hl, <- Ha. split; [lia|].
  unfold ledger, node_of. cbn [s_engine s_db s_disk s_store set_engine].
  rewrite (takeable_adrift e), (takeable_adrift (s_engine s1)) by (done || apply Hr).
  unfold adrift, outstanding. rewrite He, Hrun, Est. lia.
Qed.

Lemma hot_reload_keeps env next s : ready s → fresh (rl_persist env) s → snapshot_ok (node_of s) next →
  running (s_engine s) = true → CanApply (s_engine s) next = true →
  let r := reload env next s in
  r.2 = Panic ∨ ready r.1 ∧ (∃ g, regained s r.1 g) ∧ node_of r.1 = node_of s ∧ running (s_engine r.1) = true ∧
    (r.2 = Ok tt → snapshot (s_engine r.1) = next).
Proof.
  intros Hr Hf Hnext Hrun Hcan. unfold reload. rewrite Hcan. cbv zeta.
  destruct (drain_and_persist_keeps (rl_persist env) "persist traffic before authorization update" s Hr Hf Hrun)
    as (Hnp & Hr1 & Hl1 & Hn1 & Hsnap & _ & Hrun1 & Hst1).
  assert (Had : adrift (s_engine (drain_and_persist (rl_persist env) "persist traffic before authorization update" s).1) =
    adrift (s_engine s)) by (unfold adrift; by rewrite Hrun, Hrun1).
  destruct (drain_and_persist _ _ _) as [s1 [[]|e|]]; cbn [fst snd] in *; [|right|by left].
  2:{ split; [done|]. split; [exists 0; by apply regained_none|done]. }
  assert (Hdec : (Apply next (s_engine s1)).2 = Panic ∨ (Apply next (s_engine s1)).2 ≠ Panic)
    by (destruct (Apply next (s_engine s1)).2; auto).
  destruct Hdec as [E|Hp].
  { left. destruct (Apply next (s_engine s1)) as [e2 [x|x|]]; [done..|]. done. }
  right. destruct (Apply_keeps next (s_engine s1) (rd_sound _ Hr1) (proj1 Hnext) Hp) as (Hs2 & Hle & Est & Hcase).
  destruct (Apply next (s_engine s1)) as [e2 [x|x|]]; cbn [fst snd] in *; [| |done].
  - destruct Hcase as [(_ & Esn & Er & _)|(_ & _ & y & ?)]; [|done].
    split; [apply ready_engine; [done|done|]; rewrite Esn, Hn1; exact Hnext|].
    split; [eexists; by apply Apply_regains|]. split; [exact Hn1|]. split; [exact Er|]. done.
  - destruct Hcase as [((y & ?) & _)|(Esn & Er & _)]; [done|].
    split; [apply ready_engine; [done|done|]; rewrite Esn; by apply snapshot_ok_current|].
    split; [eexists; apply Apply_regains; try done; congruence|]. split; [exact Hn1|]. split; [|done].
    cbn. congruence.
Qed.

Lemma inbound_no_panic n l v : inbound_users n l v ≠ Panic.
Proof.
  revert v. induction l as [|u l IH]; intros v; cbn [inbound_users]; [done|].
  assert (Ha : (AddUser n u v).2 ≠ Panic).
  { unfold AddUser, memoryUser, ValidatorAdd. cbv zeta. by repeat case_match. }
  destruct (AddUser n u v) as [v1 [x|e|]]; [apply IH|done|done].
Qed.

Lemma start_no_panic ft snap s : start_engine ft snap s ≠ Panic.
Proof.
  unfold start_engine, Start. apply obind_no_panic.
  - unfold BuildConfig, verifyRealityKey. cbv zeta. no_panic.
  - intros _. do 3 (apply obind_no_panic; [apply guard_no_panic|intros _]).
    apply obind_no_panic; [apply inbound_no_panic|]. intros users. no_panic.
Qed.

(** Restarting the engine keeps the ledger, unless the old engine could not be closed
    cleanly or what it had counted could not be published: then that traffic is lost.
    What the drains did not see before stays unseen, if it is not gone with the engine. *)
Definition unpublished (saved : outcome SaveError unit) : bool :=
  match saved with Err err => negb (WasPublished err) | _ => false end.

Lemma unpublished_true saved : unpublished saved = true ↔ ∃ err, saved = Err err ∧ WasPublished err = false.
Proof.
  destruct saved as [x|err|]; cbn; [by split; [|intros (? & ? & _)]| |by split; [|intros (? & ? & _)]].
  rewrite negb_true_iff. split; [eauto|]. by intros (e & [= <-] & ?).
Qed.

Lemma cold_reload_keeps env next s : ready s → fresh (rl_persist env) s → snapshot_ok (node_of s) next →
  running (s_engine s) = true → CanApply (s_engine s) next = false →
  let r := reload env next s in
  let saved := (persist (rl_persist env) (s_store s) (drained_entries (s_engine s)) (snapshot (s_engine s)) (s_disk s)).2 in
  let lost := rl_close env || unpublished saved in
  (lost = true → ∃ e, r.2 = Err e) ∧
  (r.2 = Ok tt → running (s_engine r.1) = true ∧ snapshot (s_engine r.1) = next) ∧
  (r.2 ≠ Panic → ready r.1 ∧ node_of r.1 = node_of s ∧
     ledger r.1 = ledger s - (if lost then entries_total (drained_entries (s_engine s)) else 0) ∧
     adrift (s_engine r.1) ≤ adrift (s_engine s)).
Proof.
  intros Hr Hf Hnext Hrun Hcan. cbv zeta. pose proof (rd_sound _ Hr) as Hs. unfold reload. rewrite Hcan.
  destruct (close_spec (rl_close env) (s_engine s) Hs Hrun) as (e1 & cbs & -> & Hs1 & Hz & Hsnap & Hrun1 & Hreg).
  assert (Hprev := snapshot_ok_current s Hr). pose proof (takeable_le _ Hs Hrun) as Htake.
  assert (Hadrift : adrift (s_engine s) = stray (s_engine s)) by (unfold adrift; by rewrite Hrun).
  assert (Hnone : takeable e1 = 0 ∧ adrift e1 = stray (s_engine s)).
  { unfold takeable, closing_entries, adrift. rewrite Hrun1. done. }
  assert (Hr1 : ready (set_engine e1 s)) by (apply ready_engine; [done|done|by rewrite Hsnap]).
  destruct (rl_close env); cbn [orb].
  { split; [intros _; by eexists|]. split; [done|]. intros _. split; [exact Hr1|]. split; [done|].
    unfold ledger, node_of. cbn [fst s_engine s_db s_disk s_store set_engine]. destruct Hnone as [-> ->]. lia. }
  pose proof (persist_spec (rl_persist env) (s_store s) (drained_entries (s_engine s)) (snapshot (s_engine s)) (s_disk s)
    (rd_typed _ Hr) (fr_unix _ _ Hf) (drained_ids _ Hs)) as Hp.
  rewrite (rd_node _ Hr) in Hp.
  destruct (persisted_keeps (rl_persist env) _ _ (s_db s) _ _ _ Hp (rd_tidy _ Hr) (fr_panel _ _ Hf) (fr_outbox _ _ Hf) (fr_name _ _ Hf))
    as (Ht & Hnp & Hpend).
  set (s1 := set_engine e1 s). change (s_store s1) with (s_store s). change (s_disk s1) with (s_disk s).
  destruct (persist _ _ _ _ _) as [d saved]. cbn [fst snd] in *.
  assert (Hready : ∀ e, sound e → snapshot_ok (node_of s) (snapshot e) → ready (set_engine e (set_disk d s1))).
  { intros e He Hsn. apply (ready_engine (set_disk d s1)); [|done|done]. constructor; try apply Hr1. exact Ht. }
  assert (Hclosed : ready (set_disk d s1)) by (constructor; try apply Hr1; exact Ht).
  assert (Hnew : ∀ ft snap e, start_engine ft snap (set_disk d s1) = Ok e → ids_typed snap →
    sound e ∧ stats e = ∅ ∧ running e = true ∧ snapshot e = snap).
  { intros ft snap e He Hids. by destruct (sound_Start _ _ _ _ _ _ Hids He) as (? & ? & ? & ?). }
  assert (Hledger : ∀ e, takeable e = 0 → ledger (set_engine e (set_disk d s1)) =
    ledger s - (if unpublished saved then entries_total (drained_entries (s_engine s)) else 0)).
  { intros e He. unfold ledger, node_of in *. cbn [s_engine s_db s_disk s_store set_disk set_engine s1]. rewrite He, Hpend, Htake.
    unfold unpublished. destruct saved as [|err|]; [lia| |lia]. destruct (WasPublished err); cbn [negb]; lia. }
  assert (Hstarted : ∀ ft snap e, start_engine ft snap (set_disk d s1) = Ok e → snapshot_ok (node_of s) snap →
    ready (set_engine e (set_disk d s1)) ∧ node_of (set_engine e (set_disk d s1)) = node_of s ∧
    ledger (set_engine e (set_disk d s1)) =
      ledger s - (if unpublished saved then entries_total (drained_entries (s_engine s)) else 0) ∧
    adrift e ≤ adrift (s_engine s)).
  { intros ft snap e He Hok. destruct (Hnew _ _ _ He (proj1 Hok)) as (Hs2 & Hst & _ & Hsn).
    destruct (fresh_engine e Hs2 Hst) as [Ht0 Ha0]. split; [apply Hready; [done|by rewrite Hsn]|]. split; [done|].
    split; [by apply Hledger|]. rewrite Ha0, Hadrift. apply stray_nonneg, Hs. }
  assert (Hstuck : ready (set_disk d s1) ∧ node_of (set_disk d s1) = node_of s ∧
    ledger (set_disk d s1) =
      ledger s - (if unpublished saved then entries_total (drained_entries (s_engine s)) else 0) ∧
    adrift (s_engine (set_disk d s1)) ≤ adrift (s_engine s)).
  { split; [done|]. split; [done|]. split; [exact (Hledger e1 (proj1 Hnone))|].
    change (s_engine (set_disk d s1)) with e1. rewrite (proj2 Hnone), Hadrift. lia. }
  destruct saved as [[]|err|]; [| |done].
  - (* saved *)
    split; [done|]. destruct (start_engine (rl_start env) next (set_disk d s1)) as [e|err|] eqn:He; cbn [fst snd].
    + split; [intros _; by destruct (Hnew _ _ _ He (proj1 Hnext)) as (_ & _ & ? & ?)|]. intros _. by eapply Hstarted.
    + destruct (start_engine (rl_rollback env) _ (set_disk d s1)) as [e|err2|] eqn:He2; cbn [fst snd]; (split; [done|]); [..|done];
        intros _; [by eapply Hstarted|exact Hstuck].
    + done.
  - (* not saved *)
    destruct (start_engine (rl_rollback env) _ (set_disk d s1)) as [e|err2|] eqn:He2; cbn [fst snd].
    + destruct (Hnew _ _ _ He2 (proj1 Hprev)) as (_ & Hst & _).
      assert (E : (if WasPublished err then e else RestoreEntries (drained_entries (s_engine s)) e) = e).
      { destruct (WasPublished err); [done|by apply restore_fresh]. }
      rewrite E. split; [by eexists|]. split; [done|]. intros _. by eapply Hstarted.
    + split; [by eexists|]. split; [done|]. intros _. exact Hstuck.
    + exfalso. revert He2. apply start_no_panic.
Qed.

(** ** refresh *)
Lemma LoadSnapshot_typed ft now loadedAt node p snap w : panel_typed p → is_int64 node = true →
  LoadSnapshot ft now loadedAt node p = Ok (snap, w) → snapshot_ok node snap.
Proof.
  intros [T1 T2] Hint Hl. pose proof (LoadSnapshot_ids _ _ _ _ _ _ _ Hl) as [_ Hids].
  apply LoadSnapshot_inv in Hl as (n & users & Hn & _ & _ & _ & Hnode & _).
  split; [intros uid [r Hu]%Hids; by eapply T1|]. rewrite Hnode. clear Hnode.
  unfold select_node in Hn. destruct (p_nodes _ !! _) as [nr|]; [|done]. cbn [mbind option_bind] in Hn.
  destruct (p_configs _ !! _) as [c|] eqn:Hc; [|done]. cbn [mbind option_bind] in Hn. destruct (_ && _); [|done].
  injection Hn as <-. split; [|done]. split; [done|]. by eapply T2.
Qed.

Lemma LoadSnapshot_ok ft now loadedAt s snap w : ready s →
  LoadSnapshot ft now loadedAt (cfg_NodeID (s_cfg s)) (s_db s) = Ok (snap, w) → snapshot_ok (node_of s) snap.
Proof.
  intros Hr. rewrite (rd_cfg _ Hr). apply LoadSnapshot_typed; [apply Hr|].
  destruct (rd_typed _ Hr) as [Hint _]. by rewrite (rd_node _ Hr) in Hint.
Qed.

(** the traffic that a refresh loses: what the engine had counted, when the data plane
    has to restart and it could not be saved *)
Definition reload_loses (env : ReloadEnv) (next : Snapshot) (s : runtimeState) : Z :=
  if CanApply (s_engine s) next then 0
  else if rl_close env ||
          unpublished (persist (rl_persist env) (s_store s) (drained_entries (s_engine s)) (snapshot (s_engine s)) (s_disk s)).2
  then entries_total (drained_entries (s_engine s)) else 0.
Definition refresh_loses (env : RefreshEnv) (s : runtimeState) : Z :=
  match LoadSnapshot (rf_load env) (rf_panel_now env) (rf_loaded_at env) (cfg_NodeID (s_cfg s)) (s_db s) with
  | Ok (snap, _) => if String.eqb (snap_Hash snap) (snap_Hash (snapshot (s_engine s))) then 0 else reload_loses (rf_reload env) snap s
  | _ => 0
  end.

Lemma refresh_keeps env s : ready s → fresh (rl_persist (rf_reload env)) s → running (s_engine s) = true →
  (refresh env s).2 ≠ Panic →
  ready (refresh env s).1 ∧ node_of (refresh env s).1 = node_of s ∧
  ((refresh env s).2 = Ok tt → running (s_engine (refresh env s).1) = true) ∧
  ∃ g, 0 ≤ g ∧ ledger (refresh env s).1 = ledger s - refresh_loses env s + g ∧
    g + adrift (s_engine (refresh env s).1) ≤ adrift (s_engine s).
Proof.
  intros Hr Hf Hrun. unfold refresh, refresh_loses.
  destruct (LoadSnapshot _ _ _ _ _) as [[snap w]|[|e]|] eqn:Hl; [| | |done].
  2:{ intros _. split; [done|]. split; [done|]. split; [done|]. exists 0. cbn [fst]. lia. }
  2:{ cbv zeta. intros _. assert (E : ∀ b, (if b : bool then (s, Err "authorization snapshot exceeded maximum age") else (s, @Ok string unit tt)).1 = s)
        by (by intros []).
      rewrite !E. split; [done|]. split; [done|]. split; [done|]. exists 0. lia. }
  cbv zeta. set (s1 := set_lastAuth (rf_now env) s).
  assert (Hr1 : ready s1) by (by constructor; apply Hr).
  change (s_engine s1) with (s_engine s). destruct (String.eqb _ _).
  { intros _. split; [done|]. split; [done|]. split; [done|]. exists 0.
    change (ledger (s1, Ok ()).1) with (ledger s). change (s_engine (s1, Ok ()).1) with (s_engine s). lia. }
  assert (Hf1 : fresh (rl_persist (rf_reload env)) s1) by (by constructor; apply Hf).
  pose proof (LoadSnapshot_ok _ _ _ _ _ _ Hr Hl) as Hok. unfold reload_loses.
  destruct (CanApply (s_engine s) snap) eqn:Hcan.
  - destruct (hot_reload_keeps (rf_reload env) snap s1 Hr1 Hf1 Hok Hrun Hcan) as [Hp|(H1 & (g & G1 & G2 & G3) & H3 & H4 & _)];
      [by rewrite Hp|]. intros _. split; [done|]. split; [done|]. split; [done|].
    exists g. change (ledger s1) with (ledger s) in G2. change (s_engine s1) with (s_engine s) in G3. lia.
  - destruct (cold_reload_keeps (rf_reload env) snap s1 Hr1 Hf1 Hok Hrun Hcan) as (_ & Hdone & Hled).
    intros Hp. destruct (Hled Hp) as (H1 & H2 & H3 & H4). split; [done|]. split; [done|]. split; [by intros [? _]%Hdone|].
    exists 0. change (ledger s1) with (ledger s) in H3. change (s_engine s1) with (s_engine s) in H3, H4.
    change (s_store s1) with (s_store s) in H3. change (s_disk s1) with (s_disk s) in H3. lia.
Qed.

(** ** What can happen to a service

    While it serves, it reports and refreshes; the first of them that fails ends the
    loop of Run, and what is left is the shutdown. Sessions and links do what they
    want at any time, and others write to the panel. [n] are the bytes that are
    counted; [x] those of them that are counted where no drain looks (for a user that
    is not tracked, or on an engine that is closed); [m] are the bytes that a restart
    of the data plane loses. *)
Definition succeeded {T} (r : outcome string T) : bool := match r with Ok _ => true | _ => false end.

Inductive lstep : bool → runtimeState → Z → Z → Z → bool → runtimeState → Prop :=
| ls_report env s : fresh (rp_persist env) s →
    lstep true s 0 0 0 (succeeded (report env s).2) (report env s).1
| ls_refresh env s : fresh (rl_persist (rf_reload env)) s → (refresh env s).2 ≠ Panic →
    lstep true s 0 0 (refresh_loses env s) (succeeded (refresh env s).2) (refresh env s).1
| ls_engine serving s k x e' : interference (s_engine s) k x e' →
    lstep serving s k (if running (s_engine s) then x else k) 0 serving (set_engine e' s)
| ls_panel serving s p' : panel_typed p' → bandwidth (node_of s) p' = bandwidth (node_of s) (s_db s) →
    (∀ n f b, d_now (s_disk s) !! n = Some f → file_batch n f = Some b →
       p_batches p' !! batch_key (b_ID b) = p_batches (s_db s) !! batch_key (b_ID b)) →
    lstep serving s 0 0 0 serving (set_db p' s).
Inductive lsteps (s : runtimeState) : Z → Z → Z → bool → runtimeState → Prop :=
| ls_done : lsteps s 0 0 0 true s
| ls_more n x m b1 s1 k y l b2 s2 : lsteps s n x m b1 s1 → lstep b1 s1 k y l b2 s2 →
    lsteps s (n + k) (x + y) (m + l) b2 s2.

(** the service may still take what the ledger says *)
Definition in_order (serving : bool) (s : runtimeState) : Prop :=
  ready s ∧ (serving = true → running (s_engine s) = true).

Lemma lstep_keeps b s k x m b' s' : in_order b s → lstep b s k x m b' s' →
  in_order b' s' ∧ node_of s' = node_of s ∧
  ∃ g, 0 ≤ g ∧ ledger s' = ledger s + k - x - m + g ∧ g + adrift (s_engine s') ≤ adrift (s_engine s) + x.
Proof.
  intros [Hr Hrun] Hstep. pose proof (rd_sound _ Hr) as Hs.
  destruct Hstep as [env s Hf|env s Hf Hres|serving s k x e' Hi|serving s p' Ht Hb Hkeys].
  - destruct (report_keeps env s Hr Hf (Hrun eq_refl)) as (_ & H1 & H2 & H3 & H4 & H5).
    split; [by split|]. split; [done|]. exists 0. unfold adrift. rewrite H4, (Hrun eq_refl), H5. lia.
  - destruct (refresh_keeps env s Hr Hf (Hrun eq_refl) Hres) as (H1 & H2 & H3 & g & G1 & G2 & G3).
    split; [split; [done|]; destruct (refresh env s).2 as [[]|e|]; [by intros _; apply H3|done..]|].
    split; [done|]. exists g. lia.
  - destruct (interference_frame _ _ _ _ Hi) as (Esn & _ & Er).
    pose proof (interference_sound _ _ _ _ Hs Hi) as Hs'.
    destruct (interference_total _ _ _ _ (so_metered _ Hs) Hi) as (_ & Ho & Hx & Hle).
    split; [split; [apply ready_engine; [done|done|rewrite Esn; by apply snapshot_ok_current]|]|split; [done|]].
    { cbn [s_engine set_engine]. by rewrite Er. }
    exists 0. unfold ledger, node_of. cbn [s_engine s_db s_disk s_store set_engine].
    rewrite (takeable_adrift e'), (takeable_adrift (s_engine s)) by done. unfold adrift. rewrite Er.
    destruct (running (s_engine s)); lia.
  - split; [split; [by constructor; try apply Hr|done]|]. split; [done|]. exists 0.
    unfold ledger, node_of in *. cbn [s_engine s_db s_disk s_store set_db]. rewrite Hb.
    assert (E : pending p' (d_now (s_disk s)) = pending (s_db s) (d_now (s_disk s))); [|lia].
    apply msum_ext. intros n f Hf. unfold file_worth. destruct (file_batch n f) as [b|] eqn:Hfb; [|done].
    unfold batch_worth. by rewrite (Hkeys n f b).
Qed.

Lemma lsteps_keep s n x m b s' : ready s → running (s_engine s) = true → adrift (s_engine s) = 0 →
  lsteps s n x m b s' →
  in_order b s' ∧ node_of s' = node_of s ∧
  ∃ g, 0 ≤ g ∧ ledger s' = ledger s + n - x - m + g ∧ g + adrift (s_engine s') ≤ x.
Proof.
  intros Hr Hrun Ha Hl. induction Hl as [|n x m b1 s1 k y l b2 s2 _ (H1 & H2 & g & G1 & G2 & G3) Hstep].
  { split; [by split|]. split; [done|]. exists 0. lia. }
  destruct (lstep_keeps _ _ _ _ _ _ _ H1 Hstep) as (H5 & H6 & h & G4 & G5 & G6).
  split; [done|]. split; [congruence|]. exists (g + h). lia.
Qed.
End Ledger.
