(* ===== verification/LedgerProps.v ===== *)
(** What is proved of the service as a whole: from the start to the end of a process
    no traffic is counted twice, and none is lost except where a restart of the data
    plane or the end of the process cannot save it, or where a link counts for a user
    whom no drain visits; and authorizations are never used beyond their age. *)
From S2P Require Import Prelude GoString GoPath Float64 Digest Json Policy Model Identity Config Session SessionInv SessionUpdate.
From S2P Require Import Outbox OutboxProps BatchText OutboxSafe Database DatabaseProps Xray Engine EngineUsers EngineTraffic EngineSafe.
From S2P Require Import DrainSteps ConfigLoad Lifecycle Ledger LedgerState.

Local Open Scope string_scope.
Local Open Scope Z_scope.

Section Service.
Context `{BatchCodec, !LawfulCodec}.

(** ** Start and end *)
Lemma after_Ok {T} p d (c : outcome string T) k p' d' s :
  after p d c k = (p', d', Ok s) → ∃ x, c = Ok x ∧ k x = (p', d', Ok s).
Proof. destruct c as [x|e|]; cbn; [by exists x|done..]. Qed.

Lemma prefixed_Ok {T} prefix (c : outcome string T) x : prefixed prefix c = Ok x ↔ c = Ok x.
Proof. by destruct c. Qed.

Lemma OpenStore_Ok mk ch rd un stateDir node maxBytes m st :
  OpenStore mk ch rd un stateDir node maxBytes m = Ok st → st = mkStore (Join stateDir "outbox") node maxBytes.
Proof.
  unfold OpenStore. cbv zeta. intros H1. do 2 apply guard_bind_Ok_inv in H1 as [_ H1].
  apply obind_Ok_inv in H1 as (? & _ & [= <-]). done.
Qed.

(** the panel and the directory that a process finds *)
Record found (cfg : Config) (p : Panel) (d : Disk) : Prop := {
  fd_panel : panel_typed p;
  fd_node : is_int64 (cfg_NodeID cfg) = true;
  fd_root : has_prefix (cfg_StateDir cfg) "/" = true;
  fd_tidy : tidy (cfg_NodeID cfg) (d_now d) }.

Lemma bootstrap_ready env cfg p d p' d' s : found cfg p d → bootstrap env cfg p d = (p', d', Ok s) →
  ready s ∧ running (s_engine s) = true ∧ node_of s = cfg_NodeID cfg ∧ s_db s = p' ∧ s_disk s = d' ∧
  ledger s = bandwidth (cfg_NodeID cfg) p + pending p (d_now d) ∧ d_now d' = ∅ ∧ adrift (s_engine s) = 0 ∧
  ∃ w, LoadSnapshot (bt_load env) (bt_panel_now env) (bt_loaded_at env) (cfg_NodeID cfg) p' = Ok (snapshot (s_engine s), w).
Proof.
  intros [Hp Hn Hroot Ht]. unfold bootstrap. intros (_ & _ & Hb)%after_Ok.
  apply after_Ok in Hb as (key & _ & Hb). apply after_Ok in Hb as (password & _ & Hb).
  apply after_Ok in Hb as (connection & _ & Hb).
  apply after_Ok in Hb as (st & Hst%OpenStore_Ok & Hb). apply after_Ok in Hb as (_ & _ & Hb).
  assert (Hdir : st_dir st = Join (cfg_StateDir cfg) "outbox") by (by subst st).
  assert (Hnode : st_nodeID st = cfg_NodeID cfg) by (by subst st).
  destruct (replay_keeps (bt_replay env) st (cfg_StateDir cfg) p d _ Hroot Hdir Ht) as (_ & Ht1 & Hkeep).
  pose proof (replay_empties (bt_replay env) st (cfg_StateDir cfg) p d _ Hroot Hdir Ht) as Hempty.
  pose proof (replay_keys (bt_replay env) st p d) as Hkeys.
  destruct (replay _ _ _ _) as [[p1 d1] replayed]. cbn [fst snd] in *.
  apply after_Ok in Hb as ([] & Hrep & Hb). apply prefixed_Ok in Hrep. specialize (Hempty Hrep).
  destruct (LoadSnapshot _ _ _ _ p1) as [[snap w]|e|] eqn:Hl; [|done..].
  apply after_Ok in Hb as (engine & Hstart & [= <- <- <-]).
  pose proof (panel_typed_keys _ _ Hkeys Hp) as Hp1.
  assert (Hsnap : snapshot_ok (cfg_NodeID cfg) snap) by (by eapply LoadSnapshot_typed).
  destruct (sound_Start _ _ _ _ _ _ (proj1 Hsnap) Hstart) as (Hs & Hstats & Hrun & Hsn).
  destruct (fresh_engine engine Hs Hstats) as [Htake Hadrift].
  split; [|split; [exact Hrun|split; [exact Hnode|split; [done|split; [done|split; [|split; [exact Hempty|split; [exact Hadrift|]]]]]]]].
  - constructor; unfold node_of; cbn; rewrite ?Hsn, ?Hnode; try done; try apply Hsnap. by exists (cfg_StateDir cfg).
  - unfold ledger, node_of. cbn [s_engine s_db s_disk s_store]. rewrite Hnode, Htake. lia.
  - cbn. rewrite Hsn. by exists w.
Qed.

(** what is left of the traffic when the process has ended *)
Definition settled (node : Z) (s : runtimeState) : Z := bandwidth node (s_db s) + pending (s_db s) (d_now (s_disk s)).

(** bootstrap succeeds when every call does *)
Lemma bootstrap_runs env cfg p d key password c st p1 d1 snap w engine :
  lockStateDir (bt_lock env) = Ok tt → read_secret (bt_key env) = Ok key → read_secret (bt_password env) = Ok password →
  open_db (bt_open env) cfg password = Ok c →
  OpenStore (bt_mkdir env) (bt_chmod env) (bt_readdir env) (bt_unreadable env)
    (cfg_StateDir cfg) (cfg_NodeID cfg) (cfg_OutboxMaxBytes cfg) (d_now d) = Ok st →
  bt_ping env = false → replay (bt_replay env) st p d = (p1, d1, Ok tt) →
  LoadSnapshot (bt_load env) (bt_panel_now env) (bt_loaded_at env) (cfg_NodeID cfg) p1 = Ok (snap, w) →
  Start (bt_start env) (bt_occupied env) snap cfg key = Ok engine →
  bootstrap env cfg p d = (p1, d1, Ok (mkState cfg p1 st d1 engine key (bt_now env) (bt_now env) ∅)).
Proof.
  intros H1 H2 H3 H4 H5 H6 H7 H8 H9. unfold bootstrap. rewrite H1, H2. cbn [after prefixed]. rewrite H3. cbn [after prefixed].
  rewrite H4, H5, H6. cbn [after guard_err]. rewrite H7. cbn [after prefixed]. rewrite H8, H9. done.
Qed.

(** the traffic that a shutdown loses: what it drains and cannot publish *)
Definition shutdown_loses (env : ShutdownEnv) (s : runtimeState) : Z :=
  if unpublished (persist (sd_persist env) (s_store s) (closing_entries (s_engine s)) (snapshot (s_engine s)) (s_disk s)).2
  then takeable (s_engine s) else 0.

Lemma closing_ids e : sound e → ∀ x, x ∈ closing_entries e → is_int64 (e_UserID x) = true.
Proof.
  intros Hs x. unfold closing_entries. destruct (running e); [by apply drained_ids|]. by intros ?%not_elem_of_nil.
Qed.

Lemma shutdown_keeps env s s' errors : ready s → fresh (sd_persist env) s → shutdown env s = (s', Ok errors) →
  settled (node_of s) s' = ledger s - shutdown_loses env s ∧
  (errors = [] → shutdown_loses env s = 0 ∧ bandwidth (node_of s) (s_db s') = ledger s ∧ d_now (s_disk s') = ∅).
Proof.
  intros Hr Hf. pose proof (rd_sound _ Hr) as Hs. unfold shutdown.
  destruct (close_any (sd_close env) (s_engine s) Hs) as (e1 & cbs & closeErr & -> & _ & Hsnap). rewrite Hsnap.
  pose proof (persist_spec (sd_persist env) (s_store s) (closing_entries (s_engine s)) (snapshot (s_engine s)) (s_disk s)
    (rd_typed _ Hr) (fr_unix _ _ Hf) (closing_ids _ Hs)) as Hp.
  rewrite (rd_node _ Hr) in Hp.
  destruct (persisted_keeps (sd_persist env) _ _ (s_db s) _ _ _ Hp (rd_tidy _ Hr) (fr_panel _ _ Hf) (fr_outbox _ _ Hf) (fr_name _ _ Hf))
    as (Ht & Hnp & Hpend).
  fold (takeable (s_engine s)) in Hpend. unfold shutdown_loses.
  destruct (persist _ _ _ _ _) as [d saved]. cbn [fst snd] in *.
  destruct (rd_root _ Hr) as (stateDir & Hroot & Hdir).
  destruct (replay_keeps (sd_replay env) (s_store s) stateDir (s_db s) d _ Hroot Hdir Ht) as (_ & _ & Hkeep).
  pose proof (replay_empties (sd_replay env) (s_store s) stateDir (s_db s) d _ Hroot Hdir Ht) as Hempty.
  destruct (replay _ _ _ _) as [[p1 d1] replayed]. cbn [fst snd] in *.
  set (s1 := set_db p1 (set_disk d1 (set_engine e1 s))).
  assert (Hset : settled (node_of s) s1 = ledger s - (if unpublished saved then takeable (s_engine s) else 0)).
  { unfold settled, ledger, node_of in *. cbn [s_db s_disk s1 set_db set_disk set_engine].
    rewrite Hkeep, Hpend. destruct saved as [|e|]; cbn [unpublished]; [lia| |lia]. destruct (WasPublished e); cbn [negb]; lia. }
  assert (Hclean : replayed = Ok tt → save_error saved = None →
    (if unpublished saved then takeable (s_engine s) else 0) = 0 ∧
    bandwidth (node_of s) (s_db s1) = ledger s ∧ d_now (s_disk s1) = ∅).
  { intros Hrep Hsv. specialize (Hempty Hrep). destruct saved as [|e|]; [|done..]. cbn [unpublished] in *.
    split; [done|]. split; [|exact Hempty].
    unfold settled in Hset. cbn [s_db s_disk s1 set_db set_disk set_engine] in *. rewrite Hempty in Hset.
    unfold pending in Hset. rewrite msum_empty in Hset. lia. }
  destruct saved as [[]|err|]; [..|done]; destruct replayed as [[]|e|]; try done; intros [= <- <-];
    (split; [exact Hset|]); [by intros _; apply Hclean|by destruct closeErr..].
Qed.

(** C6: Every byte that is counted is accounted for over the life of a process. From the
    panel and the outbox that it finds, through any reports, refreshes (those that
    restart the data plane and fail, too), sessions and failures of the database and
    the disk on the way, to its shutdown: the bandwidth of the node plus the batches
    that wait in the outbox grow by exactly the [n] bytes that were counted, less [m],
    what failed restarts of the data plane lost (C27), less what the shutdown itself
    drained and could not publish, and less [r], at most the [x] bytes that links
    counted where no drain looks: for users that are no longer tracked, or on an engine
    that is closed. When the shutdown reports no error, all of it is in the panel and
    the outbox is empty. Others may write to the panel at any time, but not to the
    bandwidth of the node or to the records of its batches; a refresh that panics ends
    the process, and no shutdown follows it. Here each drain is one step of the process; what a drain that
    sessions and traffic interleave with leaves behind is the subject of C28 and C29. *)
Theorem every_byte_is_accounted boot stop cfg p d p1 d1 s n x m serving s1 s2 errors :
  found cfg p d → bootstrap boot cfg p d = (p1, d1, Ok s) → lsteps s n x m serving s1 →
  fresh (sd_persist stop) s1 → shutdown stop s1 = (s2, Ok errors) →
  ∃ r, 0 ≤ r ≤ x ∧
    settled (cfg_NodeID cfg) s2 =
      bandwidth (cfg_NodeID cfg) p + pending p (d_now d) + n - m - r - shutdown_loses stop s1 ∧
    (errors = [] → shutdown_loses stop s1 = 0 ∧
       bandwidth (cfg_NodeID cfg) (s_db s2) = bandwidth (cfg_NodeID cfg) p + pending p (d_now d) + n - m - r ∧
       d_now (s_disk s2) = ∅).
Proof.
  intros Hfound Hboot Hsteps Hf Hstop.
  destruct (bootstrap_ready _ _ _ _ _ _ _ Hfound Hboot) as (Hr & Hrun & Hn & _ & _ & Hl & _ & Ha & _).
  destruct (lsteps_keep s n x m serving s1 Hr Hrun Ha Hsteps) as ((Hr1 & _) & Hn1 & g & G1 & G2 & G3).
  destruct (shutdown_keeps stop s1 s2 errors Hr1 Hf Hstop) as [Hset Hclean]. rewrite Hn1, Hn in *.
  assert (Hnon : 0 ≤ adrift (s_engine s1)).
  { pose proof (rd_sound _ Hr1) as Hs1. unfold adrift. destruct (running (s_engine s1)); [by apply stray_nonneg, Hs1|].
    by apply total_nonneg, Hs1. }
  exists (x - g). split; [lia|]. split; [lia|]. intros He. destruct (Hclean He) as (E1 & E2 & E3).
  split; [done|]. split; [lia|done].
Qed.

(** C27: A restart of the data plane keeps the ledger unless the old engine could not be
    closed cleanly or what it had counted was not published: then exactly what the
    engine had counted and a drain would have taken is lost, the reload fails, and
    neither the rollback nor anything later brings it back. *)
Theorem restart_loses_what_it_cannot_save env next s : ready s → fresh (rl_persist env) s →
  snapshot_ok (node_of s) next → running (s_engine s) = true → CanApply (s_engine s) next = false →
  let r := reload env next s in
  let saved := (persist (rl_persist env) (s_store s) (drained_entries (s_engine s)) (snapshot (s_engine s)) (s_disk s)).2 in
  let lost := rl_close env = true ∨ ∃ err, saved = Err err ∧ WasPublished err = false in
  (lost → ∃ e, r.2 = Err e) ∧
  (r.2 = Ok tt → ready r.1 ∧ running (s_engine r.1) = true ∧ snapshot (s_engine r.1) = next) ∧
  (r.2 ≠ Panic → (lost → ledger r.1 = ledger s - entries_total (drained_entries (s_engine s))) ∧
                 (¬ lost → ledger r.1 = ledger s)).
Proof.
  intros Hr Hf Hok Hrun Hcan. cbv zeta. destruct (cold_reload_keeps env next s Hr Hf Hok Hrun Hcan) as (H1 & H2 & H3).
  cbv zeta in *. rewrite <- unpublished_true, <- orb_true_iff.
  set (lost := rl_close env || _) in *. split; [exact H1|]. split.
  - intros E. destruct (H2 E). destruct (H3 ltac:(by rewrite E)). done.
  - intros Hp. destruct (H3 Hp) as (_ & _ & E & _). split; [by intros El; rewrite El in E|].
    intros El%not_true_is_false. rewrite El in E. lia.
Qed.

(** C31: A replay that succeeds leaves the outbox empty and every batch that was listed
    in the panel; one that fails has moved some of them, and lost or repeated none. *)
Theorem replay_delivers env st stateDir p d node :
  has_prefix stateDir "/" = true → st_dir st = Join stateDir "outbox" → tidy node (d_now d) →
  let r := replay env st p d in
  r.2 ≠ Panic ∧ tidy node (d_now r.1.2) ∧
  bandwidth node r.1.1 + pending r.1.1 (d_now r.1.2) = bandwidth node p + pending p (d_now d) ∧
  (r.2 = Ok tt → d_now r.1.2 = ∅ ∧ bandwidth node r.1.1 = bandwidth node p + pending p (d_now d)).
Proof.
  intros Hroot Hdir Ht. cbv zeta. destruct (replay_keeps env st stateDir p d node Hroot Hdir Ht) as (H1 & H2 & H3).
  split; [done|]. split; [done|]. split; [done|]. intros Hok.
  pose proof (replay_empties env st stateDir p d node Hroot Hdir Ht Hok) as E. split; [done|]. rewrite E in H3.
  unfold pending in H3 at 1. rewrite msum_empty in H3. lia.
Qed.

(** ** Authorization *)
Lemma drain_and_persist_users env context s :
  let r := drain_and_persist env context s in
  table (s_engine r.1) = table (s_engine s) ∧ snapshot (s_engine r.1) = snapshot (s_engine s) ∧
  s_lastAuth r.1 = s_lastAuth s ∧ s_cfg r.1 = s_cfg s.
Proof.
  assert (Hd : ∀ e, table (Drain e).1 = table e ∧ snapshot (Drain e).1 = snapshot e).
  { intros e. unfold Drain. by destruct (drain_loop _ _ _ _ _) as [[c ret] x]. }
  cbv zeta. unfold drain_and_persist. destruct (Hd (s_engine s)) as [E1 E2].
  destruct (Drain (s_engine s)) as [e [entries|err|]]; [|done..]. cbn [fst] in *.
  destruct (persist _ _ _ _ _) as [d [x|x|]]; [done| |done]. cbn. by destruct (WasPublished x).
Qed.

(** a reload that succeeds has installed the snapshot and its users *)
Lemma reload_installs env next s s' :
  in_step (s_engine s) → NoDup (map user_ID (snap_Users (snapshot (s_engine s)))) → NoDup (map user_ID (snap_Users next)) →
  compatible (snap_Node (snapshot (s_engine s))) (in_users (snap_Users (snapshot (s_engine s)))) →
  compatible (snap_Node (snapshot (s_engine s))) (in_users (snap_Users next)) →
  compatible (snap_Node next) (in_users (snap_Users next)) →
  reload env next s = (s', Ok tt) →
  in_step (s_engine s') ∧ snapshot (s_engine s') = next ∧ s_lastAuth s' = s_lastAuth s.
Proof.
  intros Hin Hold Hnew C1 C2 C3. unfold reload. cbv zeta. destruct (CanApply _ _).
  - pose proof (drain_and_persist_users (rl_persist env) "persist traffic before authorization update" s) as Hd. cbv zeta in Hd.
    destruct (drain_and_persist _ _ _) as [s1 [x|e|]]; [|done..]. cbn [fst] in Hd. destruct Hd as (Et & Es & El & _).
    assert (Hsw : switchable (s_engine s1) next).
    { constructor; rewrite ?Es; try done. unfold in_step. by rewrite Et, Es. }
    pose proof (Apply_outcome (s_engine s1) next _ _ Hsw (surjective_pairing _)) as Ha.
    destruct (Apply next (s_engine s1)) as [e2 [[revoked cbs]|e|]]; [|done..]. cbn [fst snd] in Ha. intros [= <-].
    destruct Ha as (H1 & H2 & _). done.
  - destruct (CloseAndDrain _ _) as [[e1 cbs] [[entries [err|]]|err|]]; [done| |done..].
    destruct (persist _ _ _ _ _) as [d [x|x|]].
    + destruct (start_engine (rl_start env) next _) as [e|err|] eqn:He; [|destruct (start_engine (rl_rollback env) _ _); discriminate|done]. intros [= <-].
      unfold start_engine, Start in He. apply obind_Ok_inv in He as (_ & _ & He).
      repeat (apply guard_bind_Ok_inv in He as [_ He]). apply obind_Ok_inv in He as (v & Hv & He).
      repeat (apply guard_bind_Ok_inv in He as [_ He]). injection He as <-. split; [|done].
      by apply inbound_users_holds.
    + destruct (start_engine (rl_rollback env) _ _); discriminate.
    + done.
Qed.

(** C23: A refresh that succeeds either could not reach the panel, changes nothing, and
    the authorization in force is younger than its maximum age; or it found a snapshot:
    then the snapshot in force has its hash, the users that the data plane accepts are
    exactly those of the snapshot in force, and its age starts anew. A missing or
    disabled node stops the service at once. *)
Theorem refresh_keeps_authorization_current env s s' :
  in_step (s_engine s) → NoDup (map user_ID (snap_Users (snapshot (s_engine s)))) →
  compatible (snap_Node (snapshot (s_engine s))) (in_users (snap_Users (snapshot (s_engine s)))) →
  (∀ snap w, LoadSnapshot (rf_load env) (rf_panel_now env) (rf_loaded_at env) (cfg_NodeID (s_cfg s)) (s_db s) = Ok (snap, w) →
     compatible (snap_Node (snapshot (s_engine s))) (in_users (snap_Users snap)) ∧ compatible (snap_Node snap) (in_users (snap_Users snap))) →
  refresh env s = (s', Ok tt) →
  match LoadSnapshot (rf_load env) (rf_panel_now env) (rf_loaded_at env) (cfg_NodeID (s_cfg s)) (s_db s) with
  | Ok (snap, _) => snap_Hash (snapshot (s_engine s')) = snap_Hash snap ∧ in_step (s_engine s') ∧ s_lastAuth s' = rf_now env
  | Err (LoadFailed _) => s' = s ∧ rf_now env - s_lastAuth s' < AuthStale (s_cfg s)
  | Err ErrNodeUnavailable | Panic => False
  end.
Proof.
  intros Hin Hnd C1 Hcomp. unfold refresh.
  destruct (LoadSnapshot _ _ _ _ _) as [[snap w]|[|e]|] eqn:Hl; [|done| |done].
  - destruct (Hcomp snap w eq_refl) as [C2 C3]. cbv zeta. set (s1 := set_lastAuth (rf_now env) s).
    destruct (String.eqb_spec (snap_Hash snap) (snap_Hash (snapshot (s_engine s1)))) as [E|_].
    { intros [= <-]. done. }
    intros Hrel. apply LoadSnapshot_ids in Hl as [Hndn _].
    destruct (reload_installs (rf_reload env) snap s1 s' Hin Hnd Hndn C1 C2 C3 Hrel) as (H1 & H2 & H3).
    split; [by rewrite H2|]. split; [exact H1|]. exact H3.
  - cbv zeta. destruct (Z.leb_spec (AuthStale (s_cfg s)) (rf_now env - s_lastAuth s)); [done|]. intros [= <-]. done.
Qed.
End Service.

(** ** Witnesses *)
Definition l_row (id : Z) : UserRow :=
  mkUserRow "password" 10 20 0 1000000 1 0 5 0 2000000000 (f64_of_int 0) 0 None None None.
Definition l_panel (server : string) : Panel :=
  mkPanel (<[2 := l_row 2]> (<[5 := l_row 5]> ∅)) {[ 7 := mkNodeRow "node" (f64_of_int 2) 0 0 (f64_of_int 0) 0 0 0 15 1 0 ]}
    {[ 7 := mkConfigRow "node.example.com" 443 server "www.example.com:443"
         w_public "0123456789abcdef" "chrome" "xtls-rprx-vision" "raw" EmptyString 3 ]}
    ∅ [] [] [] [].
Definition l_persist (last : Z) : PersistEnv := mkPersistEnv [1; 2; 3; 4; 5; 6; 7; 8; 9; 10; 11; 12; 13; 14; 15; last] 1700000000 42 no_faults.
Definition l_replay : ReplayEnv :=
  mkReplayEnv false (λ _, false) (λ _, no_apply_faults) (λ _ i, 1700000001 + Z.of_nat i) (λ _, false) (λ _, false).
Definition l_secret (data : string) : SecretEnv := mkSecretEnv (Some (mkFileInfo Regular 384 1000 data)) 1000 false.
Definition l_load : LoadFaults := mkLoadFaults false false (λ _, false) false.
Definition l_open : OpenEnv := mkOpenEnv None (λ _, true) (λ _, None) Some.
Definition l_boot : BootEnv :=
  mkBootEnv (mkLockEnv LstatMissing false false false false) (l_secret (w_key +:+ bytes [10]%nat)) (l_secret "secret")
    l_open false false false (λ _, false) false l_replay l_load 1700000000 1700000000 0 no_start_faults false.
Definition l_stop : ShutdownEnv := mkShutdownEnv false (l_persist 2) l_replay.
Definition l_disk : Disk := mkDisk ∅ [].

(** the snapshot that the panel holds *)
Definition l_loaded := Eval vm_compute in LoadSnapshot l_load 1700000000 1700000000 7 (l_panel "www.example.com").
Lemma l_load_ok : LoadSnapshot l_load 1700000000 1700000000 7 (l_panel "www.example.com") = l_loaded.
Proof. vm_compute. reflexivity. Qed.

Definition l_snapshot : Snapshot := Eval vm_compute in match l_loaded with Ok (s, _) => s | _ => w_snapshot end.
Definition l_users : Validator := Eval vm_compute in
  match inbound_users (snap_Node l_snapshot) (snap_Users l_snapshot) (mkValidator ∅ ∅) with Ok v => v | _ => mkValidator ∅ ∅ end.
Definition l_engine : Engine := mkEngine true ∅ l_users (New l_snapshot w_config) true l_snapshot ∅.
Definition l_state : runtimeState :=
  mkState w_config (l_panel "www.example.com") (mkStore "/state/outbox" 7 (2 ^ 30)) l_disk l_engine w_key 0 0 ∅.
Definition l_opened : runtimeState :=
  set_engine (with_registry (openCommit (registry (s_engine l_state)) w_prepared).1 (s_engine l_state)) l_state.
Definition l_busy : runtimeState := set_engine (count_traffic 5 "uplink" 200 (s_engine l_opened)) l_opened.

Lemma l_boot_ok : bootstrap l_boot w_config (l_panel "www.example.com") l_disk = (l_panel "www.example.com", l_disk, Ok l_state).
Proof.
  eapply bootstrap_runs; [reflexivity|vm_compute; reflexivity|vm_compute; reflexivity|reflexivity|vm_compute; reflexivity
    |reflexivity|vm_compute; reflexivity|exact l_load_ok|].
  rewrite start_accepted by reflexivity. vm_compute. reflexivity.
Qed.

Lemma l_found server : found w_config (l_panel server) l_disk.
Proof.
  constructor; [|reflexivity|reflexivity|].
  - constructor.
    + cbn [l_panel p_users]. intros id r [[<- _]|[_ [[<- _]|[_ ?]]%lookup_insert_Some]]%lookup_insert_Some; done.
    + cbn [l_panel p_configs]. intros id c [_ <-]%lookup_singleton_Some. done.
  - cbn [l_disk d_now]. constructor; [by intros n [f Hf]|done|done].
Qed.

Lemma l_ready : ready l_state ∧ running (s_engine l_state) = true.
Proof. destruct (bootstrap_ready _ _ _ _ _ _ _ (l_found _) l_boot_ok) as (H1 & H2 & _). done. Qed.

(** with nothing in the outbox, only the panel can know an identifier *)
Lemma l_fresh env s : is_int64 (pe_unix env) = true → d_now (s_disk s) = ∅ →
  p_batches (s_db s) !! batch_key (newUUID (pe_random env)) = None → fresh env s.
Proof. intros Hu Hd Hp. by constructor; rewrite ?Hd. Qed.

Lemma l_steps : lsteps l_state 200 0 0 true l_busy.
Proof.
  change 200 with (0 + 200). change 0 with (0 + 0) at 2 3. apply (ls_more _ _ _ _ true l_opened).
  - change 0 with (0 + 0). apply (ls_more _ _ _ _ true l_state); [apply ls_done|].
    apply (ls_engine true l_state 0 0). apply in_open.
  - assert (E : missed (s_engine l_opened) 5 200 = 0) by (vm_compute; reflexivity).
    apply (ls_engine true l_opened 200 0 (count_traffic 5 "uplink" 200 (s_engine l_opened))). rewrite <- E.
    apply in_traffic; [done|by left|done|by vm_compute].
Qed.

Lemma l_busy_ready : ready l_busy ∧ running (s_engine l_busy) = true.
Proof.
  destruct l_ready as [H1 H2]. destruct (lsteps_keep _ _ _ _ _ _ H1 H2 ltac:(by vm_compute) l_steps) as ((H3 & H4) & _).
  split; [exact H3|by apply H4].
Qed.

Lemma every_byte_is_accounted_witness :
  bandwidth 7 (s_db (shutdown l_stop l_busy).1) = 200 ∧ d_now (s_disk (shutdown l_stop l_busy).1) = ∅.
Proof.
  assert (Hstop : shutdown l_stop l_busy = ((shutdown l_stop l_busy).1, Ok [])) by (vm_compute; reflexivity).
  destruct (every_byte_is_accounted l_boot l_stop w_config (l_panel "www.example.com") l_disk _ _ l_state 200 0 0 true l_busy _ []
    (l_found _) l_boot_ok l_steps ltac:(apply l_fresh; vm_compute; reflexivity) Hstop) as (r & Hr & _ & Hclean).
  destruct (Hclean eq_refl) as (_ & H1 & H2). split; [|exact H2].
  assert (r = 0) as -> by lia. refine (eq_trans H1 _). vm_compute. reflexivity.
Defined.

(** the disk is full when the data plane has to restart *)
Definition l_full : Faults := mkFaults false true None false false false false.
Definition l_reload : ReloadEnv :=
  mkReloadEnv (mkPersistEnv [1; 2; 3; 4; 5; 6; 7; 8; 9; 10; 11; 12; 13; 14; 15; 3] 1700000000 42 l_full) false no_start_faults no_start_faults.
Definition l_next : Snapshot :=
  mkSnapshot (mkNode 7 "node" (f64_of_int 2) 0 0 (f64_of_int 0) 0 0 0 "node.example.com" 443 "other.example.com" "www.example.com:443"
    w_public "0123456789abcdef" "chrome" "xtls-rprx-vision" "raw" EmptyString 3)
    [w_user5] 1700000060 "other".

Lemma restart_loses_witness : ∃ e, (reload l_reload l_next l_busy).2 = Err e ∧
  ledger (reload l_reload l_next l_busy).1 = ledger l_busy - 200.
Proof.
  destruct l_busy_ready as [Hr Hrun].
  assert (Hok : snapshot_ok (node_of l_busy) l_next).
  { split; [|split; [split; [reflexivity|split; [discriminate|reflexivity]]|vm_compute; reflexivity]].
    intros uid ->%list_elem_of_singleton. reflexivity. }
  destruct (restart_loses_what_it_cannot_save l_reload l_next l_busy Hr
    ltac:(apply l_fresh; vm_compute; reflexivity) Hok Hrun ltac:(vm_compute; reflexivity)) as (H1 & _ & H3).
  assert (Hlost : rl_close l_reload = true ∨ ∃ err, (persist (rl_persist l_reload) (s_store l_busy) (drained_entries (s_engine l_busy))
    (snapshot (s_engine l_busy)) (s_disk l_busy)).2 = Err err ∧ WasPublished err = false).
  { right. eexists. split; vm_compute; reflexivity. }
  destruct (H1 Hlost) as [e He]. exists e. split; [exact He|].
  destruct (H3 ltac:(rewrite He; discriminate)) as [H4 _]. rewrite (H4 Hlost). vm_compute. reflexivity.
Defined.

Definition l_batch_file : File := Eval vm_compute in default (mkFile Regular EmptyString false) (d_now w_saved !! batch_name 42 w_batch).
Lemma l_saved : d_now w_saved = {[ batch_name 42 w_batch := l_batch_file ]}.
Proof. vm_compute. reflexivity. Qed.

Lemma l_tidy : tidy 7 (d_now w_saved).
Proof.
  rewrite l_saved. constructor.
  - intros name [f [<- _]%lookup_singleton_Some]. vm_compute. reflexivity.
  - intros name f b [<- <-]%lookup_singleton_Some. vm_compute. intros [= <-]. reflexivity.
  - by intros n1 n2 f1 f2 b1 b2 [<- _]%lookup_singleton_Some [<- _]%lookup_singleton_Some.
Qed.

Lemma replay_delivers_witness :
  d_now (replay l_replay w_store (l_panel EmptyString) w_saved).1.2 = ∅ ∧
  bandwidth 7 (replay l_replay w_store (l_panel EmptyString) w_saved).1.1 = 301.
Proof.
  destruct (replay_delivers l_replay w_store "/state" (l_panel EmptyString) w_saved 7 eq_refl eq_refl l_tidy) as (_ & _ & _ & H).
  destruct (H ltac:(vm_compute; reflexivity)) as [H1 H2]. split; [exact H1|]. rewrite H2. vm_compute. reflexivity.
Defined.

(** the panel has disabled a user *)
Definition l_shrunk : runtimeState := set_db (with_users {[ 5 := l_row 5 ]} (s_db l_state)) l_state.
Definition l_refresh : RefreshEnv :=
  mkRefreshEnv l_load 1700000060 1700000060 100 (mkReloadEnv (l_persist 4) false no_start_faults no_start_faults).

Lemma l_in_step : in_step (s_engine l_shrunk) ∧ NoDup (map user_ID (snap_Users (snapshot (s_engine l_shrunk)))) ∧
  compatible (snap_Node (snapshot (s_engine l_shrunk))) (in_users (snap_Users (snapshot (s_engine l_shrunk)))).
Proof.
  assert (Hnd : NoDup (map user_ID (snap_Users (snapshot (s_engine l_shrunk))))) by (apply (bool_decide_unpack _); vm_compute; done).
  assert (Hc : compatible (snap_Node (snapshot (s_engine l_shrunk))) (in_users (snap_Users (snapshot (s_engine l_shrunk))))).
  { apply compatible_users; [by repeat constructor|exact Hnd|by vm_compute]. }
  split; [|split; [exact Hnd|exact Hc]]. apply inbound_users_holds; [exact Hc|exact Hnd|vm_compute; reflexivity].
Qed.

Definition l_reloaded := Eval vm_compute in
  LoadSnapshot l_load 1700000060 1700000060 7 (s_db l_shrunk).
Lemma l_reload_ok : LoadSnapshot l_load 1700000060 1700000060 7 (s_db l_shrunk) = l_reloaded.
Proof. vm_compute. reflexivity. Qed.

Lemma refresh_current_witness : ∃ s', refresh l_refresh l_shrunk = (s', Ok tt) ∧ in_step (s_engine s') ∧
  map user_ID (snap_Users (snapshot (s_engine s'))) = [5] ∧ s_lastAuth s' = 100.
Proof.
  destruct l_in_step as (Hin & Hnd & Hc).
  assert (E2 : (refresh l_refresh l_shrunk).2 = Ok tt ∧
    map user_ID (snap_Users (snapshot (s_engine (refresh l_refresh l_shrunk).1))) = [5]).
  { unfold refresh. change (LoadSnapshot _ _ _ _ _) with (LoadSnapshot l_load 1700000060 1700000060 7 (s_db l_shrunk)).
    rewrite l_reload_ok. vm_compute. split; reflexivity. }
  destruct E2 as [E2 E3].
  assert (E : refresh l_refresh l_shrunk = ((refresh l_refresh l_shrunk).1, Ok tt)) by (rewrite <- E2; apply surjective_pairing).
  exists (refresh l_refresh l_shrunk).1. split; [exact E|].
  pose proof (refresh_keeps_authorization_current l_refresh l_shrunk (refresh l_refresh l_shrunk).1 Hin Hnd Hc) as H.
  change (rf_load l_refresh) with l_load in H. change (rf_panel_now l_refresh) with 1700000060 in H.
  change (rf_loaded_at l_refresh) with 1700000060 in H. change (cfg_NodeID (s_cfg l_shrunk)) with 7 in H.
  rewrite l_reload_ok in H. unfold l_reloaded in H.
  assert (Hcomp : ∀ n users, Forall (λ u, is_int64 (user_ID u) = true) users ∧ NoDup (map user_ID users) ∧
    forallb (λ u, forallb (apart u) users) users = true → compatible n (in_users users)).
  { intros n users (H1 & H2 & H3). by apply compatible_users. }
  assert (Hload : ∀ snap w, l_reloaded = Ok (snap, w) → Forall (λ u, is_int64 (user_ID u) = true) (snap_Users snap) ∧
    NoDup (map user_ID (snap_Users snap)) ∧ forallb (λ u, forallb (apart u) (snap_Users snap)) (snap_Users snap) = true).
  { intros snap w. unfold l_reloaded. intros [= <- <-]. cbn [snap_Users].
    split; [by repeat constructor|]. split; [apply NoDup_singleton|vm_compute; reflexivity]. }
  destruct (H (λ snap w Hl, conj (Hcomp _ _ (Hload snap w Hl)) (Hcomp _ _ (Hload snap w Hl))) E) as (_ & H2 & H3).
  split; [exact H2|]. split; [exact E3|exact H3].
Defined.
