(* ===== verification/Flags.v ===== *)
(** Package flag of the standard library, as both commands use it: a set of flags whose
    values are strings. *)
From S2P Require Import Prelude GoString.

Local Open Scope string_scope.

(** one step of FlagSet.Parse, which threads the flags with their values so far: that
    parsing is over, a flag with its value, or an error *)
Inductive flag_step : Type :=
| FlagDone (rest : list string)
| FlagSet_ (name value : string) (rest : list string)
| FlagError (message : string).

Definition ErrHelp : string := "flag: help requested".

Definition parse_one (flags : gmap string string) (args : list string) : flag_step :=
  match args with
  | [] => FlagDone []
  | s :: rest =>
      match s with
      | String "-" (String c s1) =>
          if Ascii.eqb c "-" && String.eqb s1 EmptyString then FlagDone rest
          else
            let text := if Ascii.eqb c "-" then s1 else String c s1 in
            match text with
            | EmptyString | String "-" _ | String "=" _ => FlagError "bad flag syntax"
            | String _ tail =>
                let eq := index_of "=" tail in
                let name := match eq with Some i => take_chars (S i) text | None => text end in
                if bool_decide (flags !! name = None) then
                  FlagError (if String.eqb name "help" || String.eqb name "h" then ErrHelp
                             else "flag provided but not defined")
                else
                  match eq, rest with
                  | Some i, _ => FlagSet_ name (drop_chars (S (S i)) text) rest
                  | None, value :: rest => FlagSet_ name value rest
                  | None, [] => FlagError "flag needs an argument"
                  end
            end
      | _ => FlagDone args
      end
  end.

(** every step but the last consumes an argument *)
Fixpoint parse_flags (fuel : nat) (flags : gmap string string) (args : list string)
  : outcome string (gmap string string * list string) :=
  match fuel with
  | O => Ok (flags, args)
  | S fuel =>
      match parse_one flags args with
      | FlagDone rest => Ok (flags, rest)
      | FlagSet_ name value rest => parse_flags fuel (<[name := value]> flags) rest
      | FlagError e => Err e
      end
  end.

(** Parse: the values of the flags, and the arguments behind them *)
Definition Parse (flags : gmap string string) (args : list string) : outcome string (gmap string string * list string) :=
  parse_flags (S (length args)) flags args.

(** the value of a flag *)
Definition flag_value (name : string) (flags : gmap string string) : string := default EmptyString (flags !! name).

Definition parsed (name : string) (r : outcome string (gmap string string * list string)) : outcome string (string * list string) :=
  let? x := r in Ok (flag_value name x.1, x.2).

Example Parse_ex : map (λ args, parsed "config" (Parse {["config" := "default"]} args))
  [["--config"; "a"]; ["-config=b"; "-config"; "c"]; ["-config"]; ["-conf=x"]; ["x"; "-config"; "y"]; ["--"; "-z"]; ["-h"]]
  = [Ok ("a", []); Ok ("c", []); Err "flag needs an argument"; Err "flag provided but not defined";
     Ok ("default", ["x"; "-config"; "y"]); Ok ("default", ["-z"]); Err ErrHelp].
Proof. vm_compute. reflexivity. Qed.

(** ** Parsing consumes its arguments *)
Lemma parse_one_shorter flags args name value rest :
  parse_one flags args = FlagSet_ name value rest → (length rest < length args)%nat ∧ is_Some (flags !! name).
Proof.
  unfold parse_one. destruct args as [|s args]; [done|]. cbn [length].
  repeat (case_match; try discriminate).
  all: match goal with H : bool_decide (_ = None) = false |- _ => apply bool_decide_eq_false in H end.
  all: intros [= <- <- <-]; cbn [length]; split; [lia|by apply not_eq_None_Some].
Qed.

(** more fuel changes nothing, so the fuel of [Parse] is enough; no flag is made up *)
Lemma parse_flags_fuel n m flags args : (length args < n)%nat → (length args < m)%nat →
  parse_flags n flags args = parse_flags m flags args.
Proof.
  revert m flags args. induction n as [|n IH]; intros m flags args Hn Hm; [lia|]. destruct m as [|m]; [lia|].
  cbn [parse_flags]. destruct (parse_one flags args) as [rest|name value rest|e] eqn:E; [done| |done].
  apply parse_one_shorter in E as [E _]. apply IH; lia.
Qed.
Lemma Parse_flags flags args flags' rest : Parse flags args = Ok (flags', rest) → dom flags' = dom flags.
Proof.
  unfold Parse. generalize (S (length args)) as n. intros n. revert flags args.
  induction n as [|n IH]; intros flags args; cbn [parse_flags]; [by intros [= <- _]|].
  destruct (parse_one flags args) as [r|name value r|e] eqn:E; [by intros [= <- _]| |done].
  intros ->%IH. apply parse_one_shorter in E as [_ E%elem_of_dom]. set_solver.
Qed.
