(* ===== verification/CommandLine.v ===== *)
(** The command [cmd/vlesshappy]: its arguments, the generation of a key pair, and
    the dispatch to validation and to the service. *)
From S2P Require Import Prelude GoString Flags Base64 X25519 Model Config Session Outbox OutboxProps Database Xray Engine ConfigLoad Lifecycle.

Local Open Scope string_scope.
Local Open Scope Z_scope.

Definition version : string := "0.2.0-rc.1".

(** ** keygen *)
Record KeygenEnv : Type := mkKeygenEnv {
  kg_random : option (list Z);    (* the private key that is drawn, if there is one *)
  kg_create : bool;               (* the file exists, or cannot be created *)
  kg_write : option nat;          (* the bytes that were written when writing fails *)
  kg_sync : bool;
  kg_close : bool }.

Definition newline : string := bytes [10]%nat.

(** keygen: what it leaves in the file, if it created it, and what it prints *)
Definition keygen (env : KeygenEnv) (args : list string) : option string * outcome string string :=
  match Parse {["private-key-file" := EmptyString]} args with
  | Err e => (None, Err e)
  | Panic => (None, Panic)
  | Ok (flags, rest) =>
      let path := flag_value "private-key-file" flags in
      if negb (bool_decide (rest = [])) || String.eqb path EmptyString || negb (IsAbs path)
      then (None, Err "keygen requires an absolute -private-key-file and no extra arguments")
      else
        match (key ← kg_random env; public ← public_key key; Some (key, public)) with
        | None => (None, Err "generate X25519 key")
        | Some (key, public) =>
            let privateText := b64_encode key +:+ newline in
            if kg_create env then (None, Err "create private key file")
            else
              match kg_write env with
              | Some n => (Some (take_chars n privateText), Err "write private key file")
              | None =>
                  (Some privateText,
                   if kg_sync env then Err "sync private key file"
                   else if kg_close env then Err "close private key file"
                   else Ok ("REALITY public key: " +:+ b64_encode public +:+ newline))
              end
        end
  end.

Lemma keygen_runs env args flags key public :
  let path := flag_value "private-key-file" flags in
  Parse {["private-key-file" := EmptyString]} args = Ok (flags, []) → String.eqb path EmptyString || negb (IsAbs path) = false →
  kg_random env = Some key → public_key key = Some public →
  kg_create env = false → kg_write env = None → kg_sync env = false → kg_close env = false →
  keygen env args = (Some (b64_encode key +:+ newline), Ok ("REALITY public key: " +:+ b64_encode public +:+ newline)).
Proof.
  intros path H1 H2 H3 H4 H5 H6 H7 H8. unfold keygen. rewrite H1. cbv zeta. fold path. apply orb_false_iff in H2 as [-> ->].
  rewrite H3. cbn [negb orb mbind option_bind bool_decide decide]. rewrite H4. cbn [mbind option_bind].
  by rewrite H5, H6, H7, H8.
Qed.

(** ** run *)
Definition LevelDebug : Z := -4.
Definition LevelInfo : Z := 0.
Definition LevelWarn : Z := 4.
Definition LevelError : Z := 8.
Definition logLevel (value : string) : Z :=
  if String.eqb value "debug" then LevelDebug
  else if String.eqb value "warn" then LevelWarn
  else if String.eqb value "error" then LevelError
  else LevelInfo.

Definition is_command (s : string) : bool := existsb (String.eqb s) ["run"; "validate"; "keygen"; "version"].
Definition command_of (args : list string) : string * list string :=
  match args with
  | a :: rest => if is_command a then (a, rest) else ("run", args)
  | [] => ("run", [])
  end.

(** what the commands need of their surroundings *)
Record RunEnv : Type := mkRunEnv {
  rn_keygen : KeygenEnv;
  rn_files : string → option string;
  rn_validate : ValidateEnv;
  rn_boot : BootEnv;
  rn_ticks : list tick;
  rn_stop : ShutdownEnv }.

(** what the process leaves: the panel, the outbox, the key file, the output and the errors *)
Record RunResult : Type := mkRunResult {
  rr_db : Panel;
  rr_disk : Disk;
  rr_key : option string;
  rr_output : string;
  rr_errors : outcome string (list string) }.

Section Run.
Context `{BatchCodec}.

Definition run_main (env : RunEnv) (args : list string) (p : Panel) (d : Disk) : RunResult :=
  let '(command, args) := command_of args in
  let done output errors := mkRunResult p d None output errors in
  if String.eqb command "version" then done ("vlesshappy " +:+ version +:+ newline) (Ok [])
  else if String.eqb command "keygen" then
    match keygen (rn_keygen env) args with
    | (file, Ok output) => mkRunResult p d file output (Ok [])
    | (file, Err e) => mkRunResult p d file EmptyString (Ok [e])
    | (file, Panic) => mkRunResult p d file EmptyString Panic
    end
  else
    match Parse {["config" := "/etc/vlesshappy/config.json"]} args with
    | Err e => done EmptyString (Ok [e])
    | Panic => done EmptyString Panic
    | Ok (flags, rest) =>
        let path := flag_value "config" flags in
        if negb (bool_decide (rest = [])) then done EmptyString (Ok ["unexpected arguments"])
        else
          match Load (rn_files env path) with
          | Err e => done EmptyString (Ok [e])
          | Panic => done EmptyString Panic
          | Ok cfg =>
              if String.eqb command "validate" then
                match ValidateService (rn_validate env) cfg p with
                | Ok _ => done ("configuration is valid" +:+ newline) (Ok [])
                | Err e => done EmptyString (Ok [e])
                | Panic => done EmptyString Panic
                end
              else
                let '(p, d, errors) := Run (rn_boot env) (rn_ticks env) (rn_stop env) cfg p d in
                mkRunResult p d None EmptyString errors
          end
    end.

(** main: what run leaves, the exit status and the last text on the error stream; the
    errors that were joined are on lines of their own *)
Definition main (env : RunEnv) (args : list string) (p : Panel) (d : Disk) : RunResult * Z * string :=
  let r := run_main env args p d in
  match rr_errors r with
  | Ok [] => (r, 0, EmptyString)
  | Ok errors => (r, 1, "vlesshappy: " +:+ String.concat newline errors +:+ newline)
  | Err e => (r, 1, "vlesshappy: " +:+ e +:+ newline)
  | Panic => (r, 2, "panic")
  end.
End Run.

(** ** Keys *)
Definition b64_letter (c : ascii) : bool := bool_decide (b64_value c ≠ None).

Lemma b64_encode_letters l : Forall (λ x, 0 ≤ x < 256) l → string_all b64_letter (b64_encode l) = true.
Proof.
  assert (Hl : ∀ v s, sextet v → string_all b64_letter (String (b64_char v) s) = string_all b64_letter s).
  { intros v s Hv. cbn [string_all]. unfold b64_letter at 1. by rewrite (proj1 (b64_char_value v Hv)). }
  induction l as [|x|x y|x y z l IH] using three_at_a_time; intros HF; [done|..]; rewrite ?Forall_cons in HF.
  - destruct HF as [Hx _]. destruct (sextets_of x 0 0 Hx) as (S1 & S2 & _); [lia..|].
    change (0 / 16) with 0 in *. rewrite Z.add_0_r in *. cbn [b64_encode]. by rewrite !Hl.
  - destruct HF as (Hx & Hy & _). destruct (sextets_of x y 0 Hx Hy) as (S1 & S2 & S3 & _); [lia|].
    change (0 / 64) with 0 in *. rewrite Z.add_0_r in *. cbn [b64_encode]. by rewrite !Hl.
  - destruct HF as (Hx & Hy & Hz & HF). destruct (sextets_of x y z Hx Hy Hz) as (S1 & S2 & S3 & S4 & _).
    cbn [b64_encode]. rewrite !Hl by done. by apply IH.
Qed.

Lemma letter_graphic c : b64_letter c = true → graphic c = true.
Proof. destruct c as [[] [] [] [] [] [] [] []]; intros Hc; first [discriminate Hc | reflexivity]. Qed.

Lemma trim_space_line s : s ≠ EmptyString → string_all b64_letter s = true → trim_space (s +:+ newline) = s.
Proof.
  intros Hne Hs%(string_all_weaken _ _ _ letter_graphic). unfold trim_space.
  assert (E1 : trim_space_left (String.length (s +:+ newline)) unicode_spaces (s +:+ newline) = s +:+ newline).
  { destruct s as [|c s]; [done|]. cbn [string_all] in Hs. apply andb_prop in Hs as [Hc _].
    change (String c s +:+ newline) with (String c (s +:+ newline)). cbn [String.length trim_space_left].
    by rewrite (proj1 (graphic_no_space c _ Hc)). }
  rewrite E1. assert (E2 : String.rev (s +:+ newline) = String (byte 10) (String.rev s)).
  { unfold String.rev. rewrite rev_app_app. reflexivity. }
  rewrite E2. assert (E3 : ∃ n, String.length (s +:+ newline) = S n).
  { rewrite string_length_app. exists (String.length s). cbn. lia. }
  destruct E3 as [n ->]. cbn [trim_space_left]. change (space_prefix _ (String (byte 10) _)) with (Some 1%nat).
  cbv iota beta. change (drop_chars 1 (String (byte 10) (String.rev s))) with (String.rev s).
  rewrite trim_space_left_graphic; [|by right|by rewrite string_all_rev]. apply string_rev_involutive.
Qed.

(** no equals sign is in an encoding *)
Lemma letters_no_equals s : string_all b64_letter s = true → char_in "=" s = false.
Proof.
  intros Hs. unfold char_in. induction s as [|c s IH]; [done|]. cbn [string_all] in Hs. apply andb_prop in Hs as [Hc Hs].
  cbn [String.list_ascii_of_string existsb].
  assert (Hne : Ascii.eqb "=" c = false) by (destruct c as [[] [] [] [] [] [] [] []]; first [discriminate Hc | reflexivity]).
  rewrite Hne. by apply IH.
Qed.

(** C39: The key pair that keygen makes works: when it succeeds, the file it wrote and the
    public key it printed pass the check that the service makes before it starts. *)
Theorem keygen_key_is_accepted env args key file output :
  kg_random env = Some key → Forall (λ x, 0 ≤ x < 256) key → keygen env args = (Some file, Ok output) →
  ∃ public, output = "REALITY public key: " +:+ public +:+ newline ∧ verifyRealityKey file public = Ok (b64_encode key).
Proof.
  intros Hkey Hbytes. unfold keygen. destruct (Parse _ _) as [[flags rest]|e|]; [|done..]. cbv zeta.
  destruct (_ || _); [done|]. rewrite Hkey. cbn [mbind option_bind].
  destruct (public_key key) as [public|] eqn:Hpub; [|done]. cbn [mbind option_bind]. cbv zeta.
  destruct (kg_create env); [done|]. destruct (kg_write env); [done|]. destruct (kg_sync env); [done|].
  destruct (kg_close env); [done|]. intros [= <- <-]. exists (b64_encode public). split; [done|].
  assert (Hlen : length key = 32%nat).
  { unfold public_key in Hpub. destruct (Nat.eqb_spec (length key) 32); [done|discriminate]. }
  pose proof (b64_encode_letters key Hbytes) as Hl.
  assert (Hne : b64_encode key ≠ EmptyString) by (by destruct key as [|x [|y [|z key]]]).
  unfold verifyRealityKey. cbv zeta. rewrite trim_space_line, letters_no_equals by done. cbn [guard_err obind].
  rewrite (proj1 (b64_round_trip key Hbytes)), Hlen, Hpub, String.eqb_refl. done.
Qed.

Definition w_keygen : KeygenEnv := mkKeygenEnv (Some sample_private) false None false false.
Lemma keygen_key_is_accepted_witness :
  ∃ file output public, keygen w_keygen ["-private-key-file"; "/etc/key"] = (Some file, Ok output) ∧
    output = "REALITY public key: " +:+ public +:+ newline ∧ verifyRealityKey file public = Ok (b64_encode sample_private).
Proof.
  assert (H : ∃ file output, keygen w_keygen ["-private-key-file"; "/etc/key"] = (Some file, Ok output)).
  { eexists _, _. exact (keygen_runs w_keygen ["-private-key-file"; "/etc/key"] {["private-key-file" := "/etc/key"]} sample_private sample_public
      eq_refl eq_refl eq_refl rfc7748 eq_refl eq_refl eq_refl eq_refl). }
  destruct H as (file & output & H). exists file, output.
  destruct (keygen_key_is_accepted w_keygen _ sample_private file output eq_refl
    ltac:(repeat constructor; discriminate) H) as (public & H1 & H2).
  exists public. split; [exact H|]. split; [exact H1|exact H2].
Defined.
