(* ===== verification/FaultProxy.v ===== *)
(** The command [cmd/vlesshappy-mysql-faultproxy]: a proxy between the service and the
    panel's database that forwards a COMMIT and drops its response, which makes the
    unknown commits that [ApplyBatch] has to survive.

    The two goroutines of a connection are two program counters over a shared state;
    every step of either is atomic, and the steps interleave in any order. Bytes that
    have arrived but were not read are lists of integers from 0 to 255. *)
From S2P Require Import Prelude GoString Flags.

Local Open Scope string_scope.
Local Open Scope Z_scope.

(** ** Packets *)
Definition text_of (l : list Z) : string := String.string_of_list_ascii (map (λ z, ascii_of_N (Z.to_N z)) l).

(** readPacket: the packet, its payload and the bytes behind it; none when the reader
    has to wait for more *)
Definition readPacket (input : list Z) : option (outcome string (list Z * list Z * list Z)) :=
  match input with
  | h0 :: h1 :: h2 :: h3 :: rest =>
      let header := [h0; h1; h2; h3] in
      let len := Z.lor (Z.lor h0 (Z.shiftl h1 8)) (Z.shiftl h2 16) in
      if (len <? 0) || (Z.shiftl 16 20 <? len) then Some (Err "invalid MySQL packet length")
      else if (length rest <? Z.to_nat len)%nat then None
      else let payload := take (Z.to_nat len) rest in
        Some (Ok (header ++ payload, payload, drop (Z.to_nat len) rest)%list)
  | _ => None
  end.

(** a text query that is COMMIT in any case; no other character folds to its letters *)
Definition is_commit (payload : list Z) : bool :=
  match payload with
  | command :: (_ :: _) as text => (command =? 3) && String.eqb (to_lower (trim_space (text_of text))) "commit"
  | _ => false
  end.

Definition packet_of (number : Z) (payload : list Z) : list Z :=
  let n := Z.of_nat (length payload) in
  (n mod 256 :: (n / 256) mod 256 :: n / 65536 :: number :: payload)%list.
Definition query (text : string) : list Z := packet_of 0 (3 :: map code (String.list_ascii_of_string text)).

Example readPacket_ex : (p ← readPacket (query "Commit " ++ [1; 0]); match p with
    | Ok (_, payload, rest) => Some (text_of (drop 1 payload), is_commit payload, rest) | _ => None end)
  = Some ("Commit ", true, [1; 0]).
Proof. vm_compute. reflexivity. Qed.
Example is_commit_ex : map (λ t, is_commit (3 :: map code (String.list_ascii_of_string t)))
  [" commit"; "COMMIT"; "COMMITS"; EmptyString; "ROLLBACK"] = [true; true; false; false; false].
Proof. vm_compute. reflexivity. Qed.

(** ** A connection *)

(** where a goroutine is: before a read, holding a packet that it has not examined, before
    the write of a packet, or over *)
Inductive pump : Type :=
| Reading
| Holding (packet payload : list Z)
| Writing (packet : list Z)
| Stopped.

(** the state of [handle]; the last two fields record what each side has sent *)
Record Proxy : Type := mkProxy {
  client_in : list Z;
  server_in : list Z;
  to_server : list (list Z);
  to_client : list (list Z);
  px_drop : bool;
  upward : pump;
  downward : pump;
  px_closed : bool;
  client_sent : list Z;
  server_sent : list Z }.

(** handle, once both sides are connected *)
Definition handle : Proxy := mkProxy [] [] [] [] false Reading Reading false [] [].

(** the goroutine from the client to the server; [fails] says that its read or its write fails *)
Definition up_step (fails : bool) (s : Proxy) : Proxy :=
  let '(mkProxy cin sin tos toc dropped up down closed csent ssent) := s in
  let put cin tos dropped up := mkProxy cin sin tos toc dropped up down closed csent ssent in
  match up with
  | Reading =>
      if fails || closed then put cin tos dropped Stopped
      else match readPacket cin with
           | None => s
           | Some (Ok (packet, payload, rest)) => put rest tos dropped (Holding packet payload)
           | Some _ => put cin tos dropped Stopped
           end
  | Holding packet payload => put cin tos (dropped || is_commit payload) (Writing packet)
  | Writing packet => if fails || closed then put cin tos dropped Stopped else put cin (tos ++ [packet])%list dropped Reading
  | Stopped => s
  end.

(** the goroutine from the server to the client *)
Definition down_step (fails : bool) (s : Proxy) : Proxy :=
  let '(mkProxy cin sin tos toc dropped up down closed csent ssent) := s in
  let put sin toc dropped down := mkProxy cin sin tos toc dropped up down closed csent ssent in
  match down with
  | Reading =>
      if fails || closed then put sin toc dropped Stopped
      else match readPacket sin with
           | None => s
           | Some (Ok (packet, payload, rest)) => put rest toc dropped (Holding packet payload)
           | Some _ => put sin toc dropped Stopped
           end
  | Holding packet _ => if dropped then put sin toc false Stopped else put sin toc dropped (Writing packet)
  | Writing packet => if fails || closed then put sin toc dropped Stopped else put sin (toc ++ [packet])%list dropped Reading
  | Stopped => s
  end.

(** the caller closes both connections once one of the goroutines is over *)
Definition close_step (s : Proxy) : Proxy :=
  let '(mkProxy cin sin tos toc dropped up down closed csent ssent) := s in
  match up, down with
  | Stopped, _ | _, Stopped => mkProxy cin sin tos toc dropped up down true csent ssent
  | _, _ => s
  end.

(** bytes arrive *)
Definition client_sends (bytes : list Z) (s : Proxy) : Proxy :=
  let '(mkProxy cin sin tos toc dropped up down closed csent ssent) := s in
  mkProxy (cin ++ bytes) sin tos toc dropped up down closed (csent ++ bytes) ssent.
Definition server_sends (bytes : list Z) (s : Proxy) : Proxy :=
  let '(mkProxy cin sin tos toc dropped up down closed csent ssent) := s in
  mkProxy cin (sin ++ bytes) tos toc dropped up down closed csent (ssent ++ bytes).

Inductive pstep (s : Proxy) : Proxy → Prop :=
| p_up fails : pstep s (up_step fails s)
| p_down fails : pstep s (down_step fails s)
| p_close : pstep s (close_step s)
| p_client bytes : pstep s (client_sends bytes s)
| p_server bytes : pstep s (server_sends bytes s).

(** ** The process *)

(** what main asks of the network: the error of listening, and what Accept returns, call
    after call; when the list is over the process waits in Accept *)
Record Network : Type := mkNetwork {
  nw_listen : string → option string;
  nw_accept : list (outcome string Z) }.

(** a process: the goroutines it started, each with its client and the upstream address,
    and, once it ended, its status and what it wrote to the error stream *)
Record Process : Type := mkProcess { pr_started : list (Z * string); pr_exit : option (Z * string) }.

Definition fatal (e : string) : Z * string :=
  (1, "vlesshappy-mysql-faultproxy: " +:+ e +:+ bytes [10]%nat).

Fixpoint accept_loop (upstream : string) (accepts : list (outcome string Z)) : Process :=
  match accepts with
  | [] => mkProcess [] None
  | Ok client :: accepts =>
      let p := accept_loop upstream accepts in
      mkProcess ((client, upstream) :: pr_started p) (pr_exit p)
  | Err e :: _ => mkProcess [] (Some (fatal e))
  | Panic :: _ => mkProcess [] (Some (2, "panic"))
  end.

(** flag.Parse ends the process by itself: status 0 for help, 2 for an error *)
Definition main (nw : Network) (args : list string) : Process :=
  match Parse (<["listen" := "127.0.0.1:13306"]> {["upstream" := "127.0.0.1:3306"]}) args with
  | Err e => mkProcess [] (Some (if String.eqb e ErrHelp then 0 else 2, e))
  | Panic => mkProcess [] (Some (2, "panic"))
  | Ok (flags, rest) =>
      if negb (bool_decide (rest = [])) then mkProcess [] (Some (fatal "unexpected arguments"))
      else
        match nw_listen nw (flag_value "listen" flags) with
        | Some e => mkProcess [] (Some (fatal e))
        | None => accept_loop (flag_value "upstream" flags) (nw_accept nw)
        end
  end.

(** the goroutine of a client: it closes the client when the upstream cannot be dialed *)
Definition serve (dial : string → bool) (upstream : string) : option Proxy :=
  if dial upstream then Some handle else None.

Example main_ex : main (mkNetwork (λ _, None) [Ok 1; Ok 2; Err "accept: too many open files"]) ["-upstream=db:3306"]
  = mkProcess [(1, "db:3306"); (2, "db:3306")] (Some (fatal "accept: too many open files")).
Proof. vm_compute. reflexivity. Qed.

(** the clients that are served are the first that were accepted, all at the upstream of the
    flags, and the process runs for as long as Accept succeeds *)
Lemma main_serves nw args flags : nw_listen nw (flag_value "listen" flags) = None →
  Parse (<["listen" := "127.0.0.1:13306"]> {["upstream" := "127.0.0.1:3306"]}) args = Ok (flags, []) →
  pr_started (main nw args) `prefix_of` omap (λ a, match a with Ok c => Some (c, flag_value "upstream" flags) | _ => None end) (nw_accept nw) ∧
  (pr_exit (main nw args) = None ↔ Forall (λ a, ∃ c, a = Ok c) (nw_accept nw)).
Proof.
  intros Hl HP. unfold main. rewrite HP. cbn [bool_decide negb decide]. rewrite Hl. clear.
  induction (nw_accept nw) as [|[c|e|] l [IH1 IH2]]; cbn [accept_loop pr_started pr_exit omap list_omap].
  - split; [done|]. split; [by constructor|done].
  - split; [by apply prefix_cons|]. rewrite Forall_cons, IH2. split; [intros H; split; [by exists c|done]|by intros [_ ?]].
  - split; [apply prefix_nil|]. split; [done|]. rewrite Forall_cons. by intros [[? [=]] _].
  - split; [apply prefix_nil|]. split; [done|]. rewrite Forall_cons. by intros [[? [=]] _].
Qed.

(** ** Packets are read whole *)
Lemma readPacket_whole input packet payload rest : readPacket input = Some (Ok (packet, payload, rest)) →
  (packet ++ rest = input)%list ∧ payload = drop 4 packet.
Proof.
  destruct input as [|h0 [|h1 [|h2 [|h3 input]]]]; try done. unfold readPacket. cbv zeta.
  destruct (_ || _); [done|]. destruct (_ <? _)%nat; [done|]. intros [= <- <- <-].
  split; [|done]. cbn [app]. by rewrite take_drop.
Qed.

(** ** The invariant *)
Definition held (p : pump) : list Z := match p with Holding packet _ | Writing packet => packet | _ => [] end.
Definition armed (s : Proxy) : Prop := px_drop s = true ∨ downward s = Stopped.
Definition commits (packet : list Z) : Prop := is_commit (drop 4 packet) = true.
Definition conserved (sent : list Z) (out : list (list Z)) (p : pump) (input : list Z) : Prop :=
  (p ≠ Stopped → concat out ++ held p ++ input = sent)%list ∧ concat out `prefix_of` sent.

Record proxy_ok (s : Proxy) : Prop := {
  po_up : conserved (client_sent s) (to_server s) (upward s) (client_in s);
  po_down : conserved (server_sent s) (to_client s) (downward s) (server_in s);
  po_held : ∀ packet payload, upward s = Holding packet payload → payload = drop 4 packet;
  po_written : ∀ packet, packet ∈ to_server s → commits packet → armed s;
  po_writing : ∀ packet, upward s = Writing packet → commits packet → armed s }.

Lemma conserved_more sent out p input l : conserved sent out p input → conserved (sent ++ l) out p (input ++ l).
Proof.
  intros [H1 H2]. split; [|by apply prefix_app_r]. intros Hp. rewrite <- (H1 Hp). by rewrite <- !(assoc_L (++)).
Qed.
Lemma conserved_stop sent out p input : conserved sent out p input → conserved sent out Stopped input.
Proof. by intros [H1 H2]. Qed.
Lemma conserved_move sent out p p' input input' : conserved sent out p input → p ≠ Stopped →
  (held p' ++ input' = held p ++ input)%list → conserved sent out p' input'.
Proof. intros [H1 H2] Hp E. split; [|done]. intros _. by rewrite E, H1. Qed.
Lemma conserved_write sent out packet input : conserved sent out (Writing packet) input →
  conserved sent (out ++ [packet]) Reading input.
Proof.
  intros [H1 _]. cbn [held] in H1. assert (E : (concat (out ++ [packet]) ++ input = sent)%list).
  { rewrite concat_app. cbn [concat]. rewrite app_nil_r, <- (assoc_L (++)). by apply H1. }
  split; [done|]. rewrite <- E. by apply prefix_app_r.
Qed.

Ltac proxy_solve := constructor; unfold armed in *; cbn in *; eauto using conserved_stop, conserved_more, conserved_write;
  try (intros; discriminate).

Lemma proxy_ok_up fails s : proxy_ok s → proxy_ok (up_step fails s).
Proof.
  intros [H1 H2 H3 H4 H5]. destruct s as [cin sin tos toc dropped up down closed csent ssent]. cbn in H1, H2, H3, H4, H5.
  unfold up_step. destruct up as [|packet payload|packet|]; cbn zeta.
  - destruct (fails || closed); [by proxy_solve|].
    destruct (readPacket cin) as [[[[packet payload] rest]|e|]|] eqn:Hr; [|by proxy_solve..].
    apply readPacket_whole in Hr as [Hin Hp]. proxy_solve.
    + eapply conserved_move; [exact H1|done|]. done.
    + by intros ?? [= <- <-].
  - specialize (H3 _ _ eq_refl) as ->. proxy_solve.
    + by eapply conserved_move; [exact H1|done|].
    + intros p Hin Hc. destruct (H4 p Hin Hc) as [Hd|Hd]; [left|by right]. cbn in Hd. by rewrite Hd.
    + intros ? [= <-]. unfold commits. intros ->. left. apply orb_true_r.
  - destruct (fails || closed); [by proxy_solve|]. proxy_solve.
    intros p [Hin| ->%list_elem_of_singleton]%elem_of_app Hc; [by apply (H4 p)|by apply (H5 packet)].
  - by constructor.
Qed.

Lemma proxy_ok_down fails s : proxy_ok s → proxy_ok (down_step fails s).
Proof.
  intros [H1 H2 H3 H4 H5]. destruct s as [cin sin tos toc dropped up down closed csent ssent]. cbn in H1, H2, H3, H4, H5.
  unfold down_step. destruct down as [|packet payload|packet|]; cbn zeta.
  - destruct (fails || closed); [by proxy_solve|].
    destruct (readPacket sin) as [[[[packet payload] rest]|e|]|] eqn:Hr; [|by proxy_solve..].
    apply readPacket_whole in Hr as [Hin Hp]. proxy_solve.
    + eapply conserved_move; [exact H2|done|]. done.
    + intros p Hp' Hc. destruct (H4 p Hp' Hc) as [Hd|Hd]; [by left|done].
    + intros p Hp' Hc. destruct (H5 p Hp' Hc) as [Hd|Hd]; [by left|done].
  - destruct dropped; [by proxy_solve|]. proxy_solve.
    + by eapply conserved_move; [exact H2|done|].
    + intros p Hp' Hc. by destruct (H4 p Hp' Hc).
    + intros p Hp' Hc. by destruct (H5 p Hp' Hc).
  - destruct (fails || closed); [by proxy_solve|]. proxy_solve.
    + intros p Hp' Hc. destruct (H4 p Hp' Hc) as [Hd|Hd]; [by left|done].
    + intros p Hp' Hc. destruct (H5 p Hp' Hc) as [Hd|Hd]; [by left|done].
  - by constructor.
Qed.

Lemma proxy_ok_step s s' : proxy_ok s → pstep s s' → proxy_ok s'.
Proof.
  intros Hs []; [by apply proxy_ok_up|by apply proxy_ok_down|..];
    destruct Hs as [H1 H2 H3 H4 H5]; destruct s as [cin sin tos toc dropped up down closed csent ssent]; cbn in *.
  - destruct up, down; by constructor.
  - by proxy_solve.
  - by proxy_solve.
Qed.

Lemma proxy_ok_reachable s : rtc pstep handle s → proxy_ok s.
Proof.
  intros H. remember handle as s0 eqn:E. assert (H0 : proxy_ok s0).
  { subst s0. constructor; cbn; try done; [by intros ? ?%not_elem_of_nil]. }
  clear E. induction H as [|s0 s1 s2 Hstep _ IH]; [done|]. apply IH. by eapply proxy_ok_step.
Qed.

(** ** After a COMMIT *)

(** what has become of the response side since it was in the state [s] *)
Definition silenced (s s' : Proxy) : Prop :=
  armed s' ∧
  (to_client s' = to_client s ∧ (∀ p, downward s' = Writing p → downward s = Writing p) ∨
   ∃ p, downward s = Writing p ∧ to_client s' = (to_client s ++ [p])%list ∧ ∀ q, downward s' ≠ Writing q).

Lemma silenced_step s s' s'' : silenced s s' → pstep s' s'' → silenced s s''.
Proof.
  intros [Ha Hc] []; destruct s' as [cin sin tos toc dropped up down closed csent ssent]; unfold armed in Ha; cbn in Ha, Hc.
  - unfold silenced, armed, up_step. destruct up as [|packet payload|packet|]; cbn zeta; try done.
    + destruct (_ || _); [done|]. by destruct (readPacket cin) as [[[[packet payload] rest]|e|]|].
    + cbn. destruct Ha as [-> | ->]; (split; [by auto|done]).
    + by destruct (_ || _).
  - unfold silenced, armed, down_step. destruct down as [|packet payload|packet|]; cbn zeta.
    + destruct Ha as [->|]; [|done].
      assert (Hq : ∀ down' sin', (∀ q, down' ≠ Writing q) →
        silenced s (mkProxy cin sin' tos toc true up down' closed csent ssent)).
      { intros down' sin' Hw. split; [by left|]. cbn. destruct Hc as [[E _]|(p & E1 & E2 & _)].
        - left. split; [done|]. by intros p ?%Hw.
        - right. by exists p. }
      destruct (_ || _); [by apply Hq|]. by destruct (readPacket sin) as [[[[packet payload] rest]|e|]|]; apply Hq.
    + destruct Ha as [->|]; [|done]. cbn. split; [by right|].
      destruct Hc as [[E _]|(p & E1 & E2 & _)]; [by left|]. right. by exists p.
    + destruct Hc as [[E Hw]|(p & _ & _ & Hw)]; [|by destruct (Hw packet)].
      destruct (_ || _); cbn.
      * split; [by right|]. by left.
      * split; [destruct Ha; [by left|done]|]. right. exists packet. rewrite E. split; [by apply Hw|done].
    + done.
  - unfold silenced, armed, close_step. by destruct up, down.
  - done.
  - done.
Qed.

Lemma silenced_always s s' : armed s → rtc pstep s s' → silenced s s'.
Proof.
  intros Ha. revert s'. apply (rtc_ind_r (silenced s)); [split; [done|by left]|].
  intros s1 s2 _ Hstep IH. by eapply silenced_step.
Qed.

(** once the connections are closed, both goroutines end, so [handle] returns *)
Lemma proxy_stops s f1 f2 f3 : px_closed s = true →
  upward (up_step f1 (up_step f2 (up_step f3 s))) = Stopped ∧
  downward (down_step f1 (down_step f2 (down_step f3 s))) = Stopped.
Proof.
  destruct s as [cin sin tos toc dropped up down closed csent ssent]. cbn [px_closed]. intros ->.
  split; [destruct up as [|? ?|?|]|destruct down as [|? ?|?|]]; cbn; rewrite ?orb_true_r; cbn; rewrite ?orb_true_r; try done.
  all: destruct dropped; cbn; rewrite ?orb_true_r; done.
Qed.

(** C40: However the two directions of a connection interleave, once a COMMIT was written
    to the server no response that arrives later reaches the client: at most one more
    packet does, and that one had been let through before. Until then, and always, each
    side has received a prefix of what the other sent, byte for byte and whole packets only. *)
Theorem commit_response_is_dropped s s' packet :
  rtc pstep handle s → packet ∈ to_server s → is_commit (drop 4 packet) = true → rtc pstep s s' →
  (to_client s' = to_client s ∨ ∃ p, downward s = Writing p ∧ to_client s' = to_client s ++ [p])%list ∧
  concat (to_server s') `prefix_of` client_sent s' ∧ concat (to_client s') `prefix_of` server_sent s'.
Proof.
  intros Hr Hin Hc Hs. pose proof (proxy_ok_reachable s Hr) as Hok.
  destruct (silenced_always s s' (po_written s Hok packet Hin Hc) Hs) as [_ Hcase].
  assert (Hr' : rtc pstep handle s') by (by transitivity s).
  destruct (proxy_ok_reachable s' Hr') as [[_ H1] [_ H2] _ _ _].
  split; [|done]. destruct Hcase as [[E _]|(p & E1 & E2 & _)]; [by left|right; by exists p].
Qed.

(** ** Witness: a greeting that was read before the COMMIT still arrives, its response does not *)
Definition w_greeting : list Z := packet_of 0 [10; 56].
Definition w_ok : list Z := packet_of 1 [0; 0; 0].
Definition w_committed : Proxy :=
  up_step false (up_step false (up_step false (down_step false (down_step false
    (server_sends w_greeting (client_sends (query "COMMIT") handle)))))).
Definition w_answered : Proxy :=
  down_step false (down_step false (server_sends w_ok (down_step false w_committed))).

Lemma w_committed_reachable : rtc pstep handle w_committed.
Proof. do 7 (eapply rtc_r; [|constructor]). apply rtc_refl. Qed.

Lemma commit_response_is_dropped_witness :
  to_client w_answered = [w_greeting] ∧ server_sent w_answered = (w_greeting ++ w_ok)%list ∧
  downward w_answered = Stopped ∧ (to_client w_answered = to_client w_committed ∨
    ∃ p, downward w_committed = Writing p ∧ to_client w_answered = to_client w_committed ++ [p])%list.
Proof.
  split; [vm_compute; reflexivity|]. split; [vm_compute; reflexivity|]. split; [vm_compute; reflexivity|].
  destruct (commit_response_is_dropped w_committed w_answered (query "COMMIT") w_committed_reachable
    ltac:(vm_compute; left) ltac:(vm_compute; reflexivity)
    ltac:(do 4 (eapply rtc_r; [|constructor]); apply rtc_refl)) as [H _].
  exact H.
Defined.
